(* ===== verification/_CoqProject ===== *)
-Q . S2P
Prelude.v
GoStrings.v
Paths.v
LaunchPlan.v
Registry.v
Autoscale.v
Snapshot.v
Lifecycle.v
Restart.v
Slist.v
Poller.v
Console.v
Netip.v
Trunk.v
Relay.v
SessionRun.v
Transport.v
Access.v
Clients.v
Quake106.v
Lh5.v
Vfs.v
AssetServer.v
Overlay.v
Quickstart.v
Log.v
Hub.v
Json.v
Admin.v
Config.v
Endpoint.v
Tunnel.v
Main.v
Site.v
