(* ===== verification/Prelude.v ===== *)
(** NexQuake's Nexus, verified.

    * The program

    Nexus (the Go module src/nexus) serves a Quake client to browsers, runs the Quake servers they
    play on and tunnels the players' packets between the two.  Its parts, and what they say to one
    another:
    - the _orchestrator_ (internal/orch) plans the servers of servers.ini, starts and stops their
      processes, polls them over UDP, routes players to instances and scales their number;
    - the _trunk_ (trunk/) gives each browser session a loopback address of its own and carries
      frames between its transport (trunk/websocket, trunk/webtransport) and UDP;
    - _access_ (internal/access) decides who is let in and who is an administrator, and _clients_
      (internal/clients) joins who a caller is with the live sessions of the trunk;
    - the _admin protocol_ (internal/admin) gives operators commands over all of these, audited;
    - _assets_ (internal/assets, quake106/) installs the game data, keeps the tree that the servers
      read, and issues each browser a manifest of hashed files;
    - the process itself (package main): configuration, certificates, logging, the HTTP endpoint,
      the stream of state changes, and the order in which all this starts and stops.

    * The files

    A definition keeps the name of the Go function, type or constant it models; a comment before it
    names the file, and the function where the names differ.
    - Prelude: notations, the [result] type, record update [r <| f := v |>], words and byte orders,
      list lemmas.  GoStrings: strings, strconv and bytes as the program uses them.  Paths:
      path/filepath.  Netip: net and net/netip.  Json: values of encoding/json.
    - LaunchPlan: orch/launch_plan.go and the port arguments of registry.go.
    - Registry: orch/registry.go, with the data of state.go and manager.go; its invariant is
      [reg_ok].  Autoscale: orch/autoscale.go.  Snapshot: the listings of ops.go, state.go and
      manager.go.  Lifecycle: orch/launcher.go and ops.go; [mstep] is one critical section of any
      goroutine and [reachable] what any interleaving of them reaches.  Restart: what stopping and
      restarting a server as a whole leaves of it.
    - Slist and Poller: orch/slist.go, the codec and the list, and the goroutines of the poller
      ([pstep]).  Console: orch/console.go, rcon.go and the relay of manager.go.
    - Trunk: trunk/vip.go, relay.go, session.go and trunk.go; [tstep] and [treachable].  Relay:
      the rounds of relay.go's loops in any order, against what they are to carry.  SessionRun: the
      goroutines of session.go's [Run] and the calls of [End], one section at a time.  Transport:
      the interface of session.go as the class [Transport], its two adapters as instances, and the
      loops of relay.go over any of them.
    - Access: access/auth.go, gate.go and identity.go.  Clients: clients/clients.go, the sessions
      of connect.go and the client commands of admin/client.go; [cstep].
    - Quake106: quake106/quake106.go.  Lh5: an encoder of the format that it decodes.  Vfs:
      assets/clientfs.go and clientfs_pak.go.  AssetServer: assets/gamedir.go, manifest.go, manifest_asset.go and generation.go; [astep] and
      [areachable].  Overlay: assets/serverfs.go.  Quickstart: assets/quickstart.go,
      quickstart_install.go and quickstart_extract.go.
    - Log: log.go.  Hub: sse.go; [step], [hreachable].  Admin: internal/admin, over the server
      manager as the class [serverManager] with its laws [serverManagerSteps], which [orchestrator]
      implements by the definitions of Lifecycle and Snapshot.  Config: env.go, cert.go and the
      sub-commands of version.go.  Endpoint: connect.go and the route of ws.go.
      Tunnel: the opening and closing of a session by connect.go's [trunkSession].  Main: main.go and
      wt.go, the assembly of all the parts and the life of the process.  Site: a request from the
      listener through the gate and the routes to the handlers, /connect included, and [sysStep], the system that the
      requests and the goroutines of all components make together.

    * How the code is modelled

    Code that only computes is a function.  Code under a lock is a function on the state that the
    lock guards, and a goroutine is the sequence of its critical sections; what interleaves is a step
    relation whose invariants are proved by induction, and an operation that composes sections is
    shown to be a sequence of steps.  Go's errors are [Err] or [Some] error; a panic is a value of its
    own ([Panic], [dispatchPanics]) and shown not to happen, or when it does.  Integers are Z within
    bounds that are proved, or wrapped where Go wraps ([wrap64], the grace period of a stop, the
    counters of 16 bits).  Pointers that alias are keys of a store (instances and servers of the
    registry, sessions of the trunk).  Iterating over a Go map is a list of its keys in any order, an
    argument.  What is logged while an admin command runs is an argument of [Dispatch].
    What the operating system or the network answers is an argument too, and what is done
    to it a list of effects, or a state where the code reads it back.

    * What is proved

    - The orchestrator: a plan is what the lines of its file say; the registry is consistent in every
      reachable state, operations being sequences of critical sections; routing picks a least loaded
      instance; an instance is despawned only idle and drained, and with another one active; the
      counters shown are bounded; a stop escalates in order and waits a bounded time; a restart leaves
      a server one fresh instance and the others theirs; replies of a server are parsed exactly, and a
      captured console reply is what the server wrote between its markers, of the lines that the
      subscription of 256 lines kept (a burst may lose lines, the end marker too); the poller ends
      when its context does, and uses its socket no more once it is closed.
    - The trunk: frames round-trip; addresses are distinct and loopback in every reachable state;
      a session that opens announces its address first, and one that fails to open costs nothing;
      queued frames are delivered in order and at most one is lost; a frame reaches UDP only where
      it may, and over any rounds of its loops a session loses nothing that it does not count;
      a session that ends returns all its goroutines, in a bounded number of moves; an oversized datagram does not end a session.
    - Access: administrators are exactly those of the configured policy, a login says later what it
      said at first, strangers change nothing, and a ban, of whomever, ends one session and bars one
      source.
    - The admin protocol: handlers get parameters of the type they expect, the code of every
      answer is determined by what failed, each leg is audited, the registry survives any request.
    - Assets: the installer's decoder agrees with a reference, ends on any bytes and inverts the
      encoding of any blocks of tokens; paks are read back and bounded; the manifest has the
      documented precedence; the cache of paks answers what was read under the same status; the
      table by hash is that of the live manifests, but for hashes that two of them share; the runtime
      tree converges to its sources, where their paths do not meet, follows their changes, and is prepared or leaves nothing; archives
      write nothing outside their destination, and installing leaves no temporary file.
    - The process: the log is what was logged; streams miss no change and converge; activation of
      the certificate ends and gates the start; effects come in one order, the announcement of admin
      access is true; blocked sources are refused on every route of both listeners, and of the others
      only an administrator's command changes anything but a tunnel for the requester; from the started
      application, whatever is requested, every component keeps its invariant; and a page that stays
      open over TCP at shutdown leaves the servers running, which is one of the flaws the proofs and the examples of
      the files exhibit.

    * Fuel and bounds

    - Quake106: the loop of the stream is given the length of the buffer, as each of its rounds
      writes a byte; the loops that read a table are given one more than its length, as each round
      advances; a code is looked up in its 16 lengths.  [decodeLH5Seg_total] proves that none runs
      out, on any bytes.
    - [trimSemicolons] (Console) strips one byte a round and is given the length of its text;
      [classifyFrom] (Overlay) goes up one directory a round and is given the depth of the path.
    - [wsReadFrame] and [readFrames] (Transport) skip or read one message a round; the theorem about
      them is for any fuel above the number of messages that come.
    - [activateTLSCert] (Config) recurses on its three waits, so it makes at most four attempts.
    - The code's own bounds are kept as they are: 2048 lines of log and of a console, 256 lines of
      a console subscription, 256 live manifests, 1024 queued frames, bodies of 8192 bytes, 65536-byte messages.

    * Parameters

    [GoUnicode] is Unicode case mapping beyond ASCII, [GoNetip] the parser of IPv6 addresses, [GoJSON]
    the text of JSON; the shlex splitter, the OIDC library ([verify], the provider, the code
    exchange), url.Parse, certificate loading and ACME, SHA-256, the zip reader, HTTP fetches, and the
    connections of the transports are arguments or variables.  Theorems with a hypothesis on one of
    them have an instance where it holds.

    * Not modelled

    - The servers of net/http, quic-go and gorilla's upgrade, and the standard library's file server:
      third-party and library code; Endpoint and Main model what is given to them, and
      [serverShutdown] what http.Server.Shutdown documents: it looks again and again until no request
      over TCP is being served or the deadline passes.
    - The request that the health check makes and the build metadata of version.go: I/O and values of
      the linker.
    - The bytes that pass through pseudo-terminals, sockets and timers: events of the models.
    - The C client (src/client, src/server) and the scripts: not part of Nexus. *)
From Stdlib Require Export ZArith Lia Bool Ascii String List.
From stdpp Require Export base tactics strings gmap list fin_maps sets pretty sorting.
Export ListNotations.

Open Scope Z_scope.
Open Scope list_scope.

(** * Notations *)

Declare Scope nexus_scope.
Delimit Scope nexus_scope with nexus.

(** A Go byte is an [ascii]; a Go [[]byte] is a list of them and a Go string is a [string]. *)
Abbreviation byte := ascii (only parsing).
Abbreviation bytes := (list ascii) (only parsing).

(** * Results of fallible operations *)

Inductive result (E A : Type) : Type :=
  | Ok (a : A)
  | Err (e : E).
Arguments Ok {E A} a.
Arguments Err {E A} e.

Notation "'let*' x ':=' c 'in' k" :=
  (match c with Ok x => k | Err e => Err e end)
  (at level 10, x pattern, c at level 100, k at level 200) : nexus_scope.
Notation "'let?' x ':=' c 'in' k" :=
  (match c with Some x => k | None => None end)
  (at level 10, x pattern, c at level 100, k at level 200) : nexus_scope.
Open Scope nexus_scope.

(** * Machine integers *)

Definition wrap8 (z : Z) : Z := z mod 2 ^ 8.
Definition wrap16 (z : Z) : Z := z mod 2 ^ 16.
Definition wrap32 (z : Z) : Z := z mod 2 ^ 32.
Definition wrap64 (z : Z) : Z := z mod 2 ^ 64.

(** int32(uint32 value), as Go converts it. *)
Definition int32_of_uint32 (z : Z) : Z := if z <? 2 ^ 31 then z else z - 2 ^ 32.

Definition byteZ (b : byte) : Z := Z.of_N (N_of_ascii b).
(** byte(z): conversion of an integer to a byte keeps the low eight bits. *)
Definition byte_of (z : Z) : byte := ascii_of_N (Z.to_N (wrap8 z)).

Lemma byteZ_range b : 0 <= byteZ b < 256.
Proof. unfold byteZ. pose proof (N_ascii_bounded b). lia. Qed.

Lemma byteZ_of z : byteZ (byte_of z) = wrap8 z.
Proof.
  unfold byteZ, byte_of, wrap8. pose proof (Z.mod_pos_bound z (2 ^ 8) ltac:(lia)).
  rewrite N_ascii_embedding by lia. lia.
Qed.

Lemma byte_of_Z b : byte_of (byteZ b) = b.
Proof.
  unfold byte_of, wrap8. pose proof (byteZ_range b).
  rewrite Z.mod_small by lia. unfold byteZ. rewrite N2Z.id. apply ascii_N_embedding.
Qed.

Lemma byteZ_inj a b : byteZ a = byteZ b -> a = b.
Proof. intros H. by rewrite <- (byte_of_Z a), <- (byte_of_Z b), H. Qed.

(** ** Big-endian integers *)

Definition be16 (a b : byte) : Z := byteZ a * 2 ^ 8 + byteZ b.
Definition be32 (a b c d : byte) : Z :=
  byteZ a * 2 ^ 24 + byteZ b * 2 ^ 16 + byteZ c * 2 ^ 8 + byteZ d.
Definition put16 (z : Z) : bytes := [byte_of (z / 2 ^ 8); byte_of z].
Definition put32 (z : Z) : bytes :=
  [byte_of (z / 2 ^ 24); byte_of (z / 2 ^ 16); byte_of (z / 2 ^ 8); byte_of z].

Lemma be16_range a b : 0 <= be16 a b < 2 ^ 16.
Proof. unfold be16. pose proof (byteZ_range a). pose proof (byteZ_range b). lia. Qed.

Lemma be32_range a b c d : 0 <= be32 a b c d < 2 ^ 32.
Proof.
  unfold be32. pose proof (byteZ_range a). pose proof (byteZ_range b).
  pose proof (byteZ_range c). pose proof (byteZ_range d). lia.
Qed.

(** Division by powers of two of sums of bytes, by linear arithmetic. *)
Ltac byte_arith :=
    repeat match goal with b : ascii |- _ => learn_range b end;
    unfold wrap8 in *; change (2 ^ 24) with 16777216 in *; change (2 ^ 16) with 65536 in *;
    change (2 ^ 8) with 256 in *; change (2 ^ 32) with 4294967296 in *;
    Z.to_euclidean_division_equations; lia
  with learn_range b :=
    lazymatch goal with
    | H : 0 <= byteZ b < 256 |- _ => fail
    | _ => pose proof (byteZ_range b)
    end.

Lemma put16_be16 a b : put16 (be16 a b) = [a; b].
Proof. unfold put16, be16. repeat f_equal; apply byteZ_inj; rewrite byteZ_of; byte_arith. Qed.

Lemma be16_put16 z : 0 <= z < 2 ^ 16 -> be16 (byte_of (z / 2 ^ 8)) (byte_of z) = z.
Proof. intros Hz. unfold be16. rewrite !byteZ_of. byte_arith. Qed.

Lemma put32_be32 a b c d : put32 (be32 a b c d) = [a; b; c; d].
Proof. unfold put32, be32. repeat f_equal; apply byteZ_inj; rewrite byteZ_of; byte_arith. Qed.

Lemma be32_put32 z : 0 <= z < 2 ^ 32 ->
  be32 (byte_of (z / 2 ^ 24)) (byte_of (z / 2 ^ 16)) (byte_of (z / 2 ^ 8)) (byte_of z) = z.
Proof. intros Hz. unfold be32. rewrite !byteZ_of. byte_arith. Qed.

(** Clamping to uint16 as [uint16(min(max(x, 0), 0xffff))]. *)
Definition clamp_uint16 (z : Z) : Z := Z.min (Z.max z 0) 65535.

Lemma clamp_uint16_range z : 0 <= clamp_uint16 z <= 65535.
Proof. unfold clamp_uint16. lia. Qed.

Lemma clamp_uint16_id z : 0 <= z <= 65535 -> clamp_uint16 z = z.
Proof. unfold clamp_uint16. lia. Qed.

(** * Hint databases *)

Create HintDb nexus discriminated.
Create Rewrite HintDb nexus.
#[export] Hint Resolve byteZ_range clamp_uint16_range : nexus.
#[export] Hint Rewrite byteZ_of byte_of_Z : nexus.

(** * Tactics *)

(** Splits every boolean conjunction, disjunction and comparison in the context into Props. *)
Ltac bool_prop :=
  repeat match goal with
  | H : _ && _ = true |- _ => apply andb_true_iff in H as [? ?]
  | H : _ || _ = false |- _ => apply orb_false_iff in H as [? ?]
  | H : negb _ = true |- _ => apply negb_true_iff in H
  | H : negb _ = false |- _ => apply negb_false_iff in H
  | H : (_ <? _) = true |- _ => apply Z.ltb_lt in H
  | H : (_ <? _) = false |- _ => apply Z.ltb_ge in H
  | H : (_ <=? _) = true |- _ => apply Z.leb_le in H
  | H : (_ <=? _) = false |- _ => apply Z.leb_gt in H
  | H : (_ =? _) = true |- _ => apply Z.eqb_eq in H
  | H : (_ =? _) = false |- _ => apply Z.eqb_neq in H
  | H : (_ =? _)%string = true |- _ => apply String.eqb_eq in H
  | H : (_ =? _)%string = false |- _ => apply String.eqb_neq in H
  | H : bool_decide _ = true |- _ => apply bool_decide_eq_true in H
  | H : bool_decide _ = false |- _ => apply bool_decide_eq_false in H
  end.

(** Case analysis on the first [if] or [match] of the goal or of a hypothesis, then cleaning up. *)
Ltac split_match :=
  match goal with
  | |- context [match ?x with _ => _ end] => destruct x eqn:?
  | H : context [match ?x with _ => _ end] |- _ => destruct x eqn:?
  end; simplify_eq/=.

(** * Lists *)

(** Induction that exposes the first two elements. *)
Lemma list_pair_ind {A} (P : list A -> Prop) :
  P [] -> (forall a, P [a]) ->
  (forall a b l, P l -> P (b :: l) -> P (a :: b :: l)) -> forall l, P l.
Proof.
  intros H0 H1 H2 l. enough (P l /\ forall a, P (a :: l)) by tauto.
  induction l as [|b l [IH1 IH2]]; auto.
Qed.

Lemma StronglySorted_snoc {A} (R : A -> A -> Prop) l a :
  StronglySorted R l -> Forall (fun b => R b a) l -> StronglySorted R (l ++ [a]).
Proof.
  induction 1 as [|b l Hs IH Hf]; cbn; intros Ha; [by repeat constructor|].
  apply Forall_cons in Ha as [Hba Ha]. constructor; [auto|]. apply Forall_app; auto.
Qed.

Lemma StronglySorted_rev {A} (R : A -> A -> Prop) l :
  StronglySorted R l -> StronglySorted (fun a b => R b a) (rev l).
Proof.
  induction 1 as [|a l Hs IH Hf]; cbn; [constructor|].
  apply StronglySorted_snoc; [done|]. by apply Forall_rev.
Qed.

Lemma StronglySorted_distinct {A B} (f : A -> B) (R : A -> A -> Prop) l :
  StronglySorted R l -> NoDup (f <$> l) -> StronglySorted (fun a b => R a b /\ f a <> f b) l.
Proof.
  induction 1 as [|a l Hs IH Hf]; [constructor|]. cbn. intros [Ha Hn]%NoDup_cons.
  constructor; [auto|]. rewrite Forall_forall in *. intros b Hb. split; [auto|].
  intros He. apply Ha. rewrite He. by apply list_elem_of_fmap_2.
Qed.

Lemma foldl_map_arg {A B C} (f : A -> B -> A) (g : C -> B) a l :
  foldl f a (map g l) = foldl (fun a c => f a (g c)) a l.
Proof. revert a. induction l as [|c l IH]; intros a; [done|]. apply IH. Qed.

(** The last [n] elements. *)
Definition lastn {A} (n : nat) (l : list A) : list A := drop (length l - n) l.

Lemma lastn_all {A} n (l : list A) : (length l <= n)%nat -> lastn n l = l.
Proof. intros Hl. unfold lastn. by replace (length l - n)%nat with 0%nat by lia. Qed.

Lemma lastn_snoc {A} n (l : list A) a :
  lastn (S n) (l ++ [a]) = lastn n l ++ [a].
Proof.
  unfold lastn. rewrite length_app. cbn [length].
  replace (length l + 1 - S n)%nat with (length l - n)%nat by lia.
  rewrite drop_app_le by lia. done.
Qed.

Lemma lastn_length {A} n (l : list A) : length (lastn n l) = Nat.min n (length l).
Proof. unfold lastn. rewrite length_drop. lia. Qed.

Lemma lastn_lastn_snoc {A} n (l : list A) a :
  (0 < n)%nat -> lastn n (lastn n l ++ [a]) = lastn n (l ++ [a]).
Proof.
  intros Hn. destruct n as [|n]; [lia|]. rewrite !lastn_snoc. f_equal. unfold lastn.
  rewrite length_drop, drop_drop. f_equal. lia.
Qed.

Lemma omap_rev {A B} (f : A -> option B) l : omap f (rev l) = rev (omap f l).
Proof.
  induction l as [|a l IH]; [done|]. cbn [rev]. rewrite omap_app, IH. cbn.
  destruct (f a); [done|]. by rewrite app_nil_r.
Qed.

Lemma rev_take_rev {A} n (l : list A) : rev (take n (rev l)) = lastn n l.
Proof.
  unfold lastn. by rewrite firstn_rev, rev_involutive.
Qed.

Lemma lastn_lastn_app {A} n (l k : list A) : lastn n (lastn n l ++ k) = lastn n (l ++ k).
Proof.
  unfold lastn. rewrite !length_app, length_drop.
  destruct (Nat.le_ge_cases (length l) n) as [Hl|Hl].
  - replace (length l - n)%nat with 0%nat by lia. by rewrite Nat.sub_0_r.
  - replace (length l - (length l - n) + length k - n)%nat with (length k)%nat by lia.
    replace (length l + length k - n)%nat with (length l - n + length k)%nat by lia.
    rewrite <- drop_drop, (drop_app_le l) by lia. done.
Qed.

Lemma last_exists_or {A} (l : list A) : l = [] \/ exists k x, l = k ++ [x].
Proof. induction l as [|x l _] using rev_ind; [by left|]. right. by exists l, x. Qed.

(** * Record update

    [r <| f := v |>] is [r] with field [f] replaced.  A record type declares its [EtaRecord]; the
    updater of a field is found by abstracting that field in the eta-expansion. *)

Class EtaRecord (R : Type) := eta_record : R -> R.
Class FieldUpdate {R T : Type} (f : R -> T) := field_update : (T -> T) -> R -> R.

Ltac solve_field_update :=
  match goal with
  | |- @FieldUpdate ?R ?T ?f =>
      let inst := constr:(_ : EtaRecord R) in
      let body := eval hnf in inst in
      let abstracted := eval pattern f in body in
      match abstracted with
      | ?g f => exact (fun u r => g (fun x => u (f x)) r)
      end
  end.
#[export] Hint Extern 1 (FieldUpdate _) => solve_field_update : typeclass_instances.

Notation "r <| f ::= u |>" := (field_update (f := f) u r)
  (at level 1, f at level 9, left associativity) : nexus_scope.
Notation "r <| f := v |>" := (field_update (f := f) (fun _ => v) r)
  (at level 1, f at level 9, left associativity) : nexus_scope.
