(* ===== verification/GoStrings.v ===== *)
(** The part of Go's [strings], [strconv] and [bytes] packages the program calls.

    A Go string is its byte sequence.  White space follows [unicode.IsSpace] exactly: the six
    ASCII characters and the UTF-8 encodings of the Unicode spaces.  Case mapping is the ASCII
    one on ASCII strings; on other strings Go consults Unicode's tables, which are the
    parameter [GoUnicode]. *)
From S2P Require Import Prelude.

Definition blist (s : string) : bytes := list_ascii_of_string s.
Definition btext (l : bytes) : string := string_of_list_ascii l.

Lemma btext_blist s : btext (blist s) = s.
Proof. apply string_of_list_ascii_of_string. Qed.
Lemma blist_btext l : blist (btext l) = l.
Proof. apply list_ascii_of_string_of_list_ascii. Qed.
Lemma blist_inj s t : blist s = blist t -> s = t.
Proof. intros H. by rewrite <- (btext_blist s), H, btext_blist. Qed.
Lemma btext_inj l k : btext l = btext k -> l = k.
Proof. intros H. by rewrite <- (blist_btext l), H, blist_btext. Qed.
Lemma blist_app s t : blist (s ++ t)%string = blist s ++ blist t.
Proof. induction s as [|c s IH]; [done|]. change (c :: blist (s ++ t)%string = c :: (blist s ++ blist t)). by rewrite IH. Qed.

Lemma string_app_assoc (a b c : string) : ((a ++ b) ++ c)%string = (a ++ b ++ c)%string.
Proof. apply blist_inj. rewrite !blist_app. by rewrite app_assoc. Qed.
Lemma string_app_nil (a : string) : (a ++ "")%string = a.
Proof. apply blist_inj. rewrite !blist_app. apply app_nil_r. Qed.

#[export] Hint Rewrite btext_blist blist_btext blist_app : nexus.

Definition len (s : string) : Z := Z.of_nat (length (blist s)).

(** * White space *)

Definition is_space1 (a : byte) : bool :=
  let z := byteZ a in (9 <=? z) && (z <=? 13) || (z =? 32).
Definition is_space2 (a b : byte) : bool :=
  (byteZ a =? 0xC2) && ((byteZ b =? 0x85) || (byteZ b =? 0xA0)).
Definition is_space3 (a b c : byte) : bool :=
  let z := byteZ c in
  ((byteZ a =? 0xE1) && (byteZ b =? 0x9A) && (z =? 0x80))
  || ((byteZ a =? 0xE2) && (byteZ b =? 0x80)
      && ((0x80 <=? z) && (z <=? 0x8A) || (z =? 0xA8) || (z =? 0xA9) || (z =? 0xAF)))
  || ((byteZ a =? 0xE2) && (byteZ b =? 0x81) && (z =? 0x9F))
  || ((byteZ a =? 0xE3) && (byteZ b =? 0x80) && (z =? 0x80)).

(** Drops the white space a byte sequence starts with; [s2] and [s3] recognise the encodings of
    two and three bytes in the order the sequence is read. *)
Fixpoint drop_space (s2 : byte -> byte -> bool) (s3 : byte -> byte -> byte -> bool)
    (l : bytes) : bytes :=
  match l with
  | [] => []
  | a :: r1 =>
      if is_space1 a then drop_space s2 s3 r1 else
      match r1 with
      | [] => l
      | b :: r2 =>
          if s2 a b then drop_space s2 s3 r2 else
          match r2 with
          | [] => l
          | c :: r3 => if s3 a b c then drop_space s2 s3 r3 else l
          end
      end
  end.

Definition trim_left_space (l : bytes) : bytes := drop_space is_space2 is_space3 l.
Definition trim_right_space (l : bytes) : bytes :=
  rev (drop_space (fun a b => is_space2 b a) (fun a b c => is_space3 c b a) (rev l)).

Definition TrimSpace (s : string) : string :=
  btext (trim_right_space (trim_left_space (blist s))).

(** strings.Fields: the maximal runs without white space. *)
Fixpoint fields_go (cur : bytes) (l : bytes) : list bytes :=
  let flush := match cur with [] => [] | _ => [rev cur] end in
  match l with
  | [] => flush
  | a :: r1 =>
      if is_space1 a then flush ++ fields_go [] r1 else
      match r1 with
      | [] => fields_go (a :: cur) r1
      | b :: r2 =>
          if is_space2 a b then flush ++ fields_go [] r2 else
          match r2 with
          | [] => fields_go (a :: cur) r1
          | c :: r3 => if is_space3 a b c then flush ++ fields_go [] r3
                       else fields_go (a :: cur) r1
          end
      end
  end.
Definition Fields (s : string) : list string := map btext (fields_go [] (blist s)).

(** * Prefixes, suffixes, searching *)

Fixpoint has_prefix (p l : bytes) : bool :=
  match p, l with
  | [], _ => true
  | a :: p', b :: l' => Ascii.eqb a b && has_prefix p' l'
  | _, [] => false
  end.
Definition HasPrefix (s p : string) : bool := has_prefix (blist p) (blist s).
Definition HasSuffix (s p : string) : bool := has_prefix (rev (blist p)) (rev (blist s)).
Definition TrimPrefix (s p : string) : string :=
  if HasPrefix s p then btext (drop (length (blist p)) (blist s)) else s.
Definition TrimSuffix (s p : string) : string :=
  if HasSuffix s p then btext (take (length (blist s) - length (blist p)) (blist s)) else s.

Fixpoint contains (l sub : bytes) : bool :=
  has_prefix sub l || match l with [] => false | _ :: l' => contains l' sub end.
Definition Contains (s sub : string) : bool := contains (blist s) (blist sub).
(** strings.ContainsAny for a set of ASCII characters. *)
Definition ContainsAny (s chars : string) : bool :=
  existsb (fun c => existsb (Ascii.eqb c) (blist chars)) (blist s).

(** IndexByte: the bytes before and after the first occurrence of [b], if there is one. *)
Fixpoint cut_byte (b : byte) (l : bytes) : option (bytes * bytes) :=
  match l with
  | [] => None
  | a :: r => if Ascii.eqb a b then Some ([], r)
              else match cut_byte b r with
                   | Some (x, y) => Some (a :: x, y)
                   | None => None
                   end
  end.

(** strings.Cut with a one-byte separator. *)
Definition Cut (s : string) (sep : byte) : string * string * bool :=
  match cut_byte sep (blist s) with
  | Some (x, y) => (btext x, btext y, true)
  | None => (s, ""%string, false)
  end.

(** strings.Split with a one-byte separator. *)
Fixpoint split_byte (b : byte) (cur : bytes) (l : bytes) : list bytes :=
  match l with
  | [] => [rev cur]
  | a :: r => if Ascii.eqb a b then rev cur :: split_byte b [] r else split_byte b (a :: cur) r
  end.
Definition Split (s : string) (sep : byte) : list string := map btext (split_byte sep [] (blist s)).

Fixpoint Join (l : list string) (sep : string) : string :=
  match l with
  | [] => ""
  | [x] => x
  | x :: r => x ++ sep ++ Join r sep
  end%string.

(** strings.ReplaceAll of a one-byte pattern. *)
Definition ReplaceByte (s : string) (old : byte) (new : string) : string :=
  btext (flat_map (fun c => if Ascii.eqb c old then blist new else [c]) (blist s)).

(** strings.ReplaceAll of a pattern that is not empty; [skip] bytes of a match are still to pass. *)
Fixpoint replaceAll (old new : bytes) (skip : nat) (l : bytes) : bytes :=
  match l with
  | [] => []
  | c :: r =>
      match skip with
      | S skip => replaceAll old new skip r
      | O => if has_prefix old l then new ++ replaceAll old new (length old - 1) r
             else c :: replaceAll old new O r
      end
  end.
Definition ReplaceAll (s old new : string) : string := btext (replaceAll (blist old) (blist new) 0 (blist s)).

Fixpoint drop_chars (cut : bytes) (l : bytes) : bytes :=
  match l with
  | [] => []
  | a :: r => if existsb (Ascii.eqb a) cut then drop_chars cut r else l
  end.
Definition TrimRight (s cut : string) : string :=
  btext (rev (drop_chars (blist cut) (rev (blist s)))).
Definition TrimLeft (s cut : string) : string := btext (drop_chars (blist cut) (blist s)).

(** Bytes the sources write with escapes. *)
Definition quoteByte : byte := byte_of 34.
Definition crByte : byte := byte_of 13.
Definition lfByte : byte := byte_of 10.
Definition lf : string := btext [lfByte].

(** * Case *)

(** Unicode's tables, consulted by Go only on strings with a byte of 0x80 or more. *)
Class GoUnicode := {
  unicode_ToLower : string -> string;
  unicode_EqualFold : string -> string -> bool;
  unicode_Quote : string -> string;
}.

Definition isASCII (s : string) : bool := forallb (fun c => byteZ c <? 128) (blist s).
Definition lower_byte (c : byte) : byte :=
  if (65 <=? byteZ c) && (byteZ c <=? 90) then byte_of (byteZ c + 32) else c.
Definition lower_ascii (s : string) : string := btext (map lower_byte (blist s)).

Section Case.
Context `{GoUnicode}.
Definition ToLower (s : string) : string :=
  if isASCII s then lower_ascii s else unicode_ToLower s.
Definition EqualFold (s t : string) : bool :=
  if isASCII s && isASCII t then (lower_ascii s =? lower_ascii t)%string
  else unicode_EqualFold s t.
End Case.

(** An instance for concrete evaluation: bytes outside ASCII have no case. *)
Definition plain_unicode : GoUnicode :=
  {| unicode_ToLower := lower_ascii;
     unicode_EqualFold s t := (lower_ascii s =? lower_ascii t)%string;
     unicode_Quote s := s |}.

(** * strconv *)

Definition Itoa (z : Z) : string := pretty z.

Definition digit_value (c : byte) : option Z :=
  let z := byteZ c in if (48 <=? z) && (z <=? 57) then Some (z - 48) else None.

Fixpoint digits_value (acc : Z) (l : bytes) : option Z :=
  match l with
  | [] => Some acc
  | c :: r => let? d := digit_value c in digits_value (10 * acc + d) r
  end.

Definition min_int : Z := - 2 ^ 63.
Definition max_int : Z := 2 ^ 63 - 1.

(** strconv.Atoi; [None] is every error it reports (syntax or range of the 64-bit int). *)
Definition Atoi (s : string) : option Z :=
  let '(sign, ds) :=
    match blist s with
    | "-"%char :: r => (-1, r)
    | "+"%char :: r => (1, r)
    | r => (1, r)
    end in
  match ds with
  | [] => None
  | _ => let? v := digits_value 0 ds in
         let v := sign * v in
         if (min_int <=? v) && (v <=? max_int) then Some v else None
  end.

(** * Facts *)

Lemma lower_byte_lower c : lower_byte (lower_byte c) = lower_byte c.
Proof. destruct c as [[] [] [] [] [] [] [] []]; vm_compute; reflexivity. Qed.

Lemma has_prefix_spec p l : has_prefix p l = true <-> exists r, l = p ++ r.
Proof.
  revert l; induction p as [|a p IH]; intros l; cbn.
  - split; [by exists l|done].
  - destruct l as [|b l].
    { split; [done|intros [r Hr]; discriminate]. }
    rewrite andb_true_iff, IH, Ascii.eqb_eq. split.
    + intros [-> [r ->]]. by exists r.
    + intros [r Hr]. injection Hr as -> ->. eauto.
Qed.

Lemma HasPrefix_app p s : HasPrefix (p ++ s)%string p = true.
Proof. unfold HasPrefix. rewrite blist_app. apply has_prefix_spec. eauto. Qed.

Lemma cut_byte_spec b l x y :
  cut_byte b l = Some (x, y) -> l = x ++ b :: y /\ b ∉ x.
Proof.
  revert x y; induction l as [|a r IH]; intros x y; cbn; [discriminate|].
  destruct (Ascii.eqb_spec a b) as [->|Hne].
  - intros [= <- <-]. split; [done|apply not_elem_of_nil].
  - destruct (cut_byte b r) as [[x' y']|]; [|discriminate].
    intros [= <- <-]. destruct (IH _ _ eq_refl) as [-> Hni].
    split; [done|]. apply not_elem_of_cons. auto.
Qed.

Lemma cut_byte_app b x y : b ∉ x -> cut_byte b (x ++ b :: y) = Some (x, y).
Proof.
  induction x as [|a x IH]; intros Hni; cbn.
  - by rewrite Ascii.eqb_refl.
  - apply not_elem_of_cons in Hni as [Hne Hni].
    destruct (Ascii.eqb_spec a b) as [->|_]; [done|]. by rewrite IH.
Qed.

Lemma cut_byte_None b l : cut_byte b l = None -> b ∉ l.
Proof.
  induction l as [|a r IH]; cbn; [intros _; apply not_elem_of_nil|].
  destruct (Ascii.eqb_spec a b); [discriminate|].
  destruct (cut_byte b r) as [[]|]; [discriminate|].
  intros _. apply not_elem_of_cons. auto.
Qed.

Lemma lower_byte_ascii c : (byteZ (lower_byte c) <? 128) = (byteZ c <? 128).
Proof. destruct c as [[] [] [] [] [] [] [] []]; vm_compute; reflexivity. Qed.

Lemma isASCII_lower s : isASCII (lower_ascii s) = isASCII s.
Proof.
  unfold isASCII, lower_ascii. rewrite blist_btext.
  induction (blist s) as [|c l IH]; cbn; [done|]. by rewrite lower_byte_ascii, IH.
Qed.

(** strconv.Quote of an ASCII string. *)
Definition hex_digit (z : Z) : byte := byte_of (if z <? 10 then 48 + z else 87 + z).
Definition quote_byte (c : byte) : bytes :=
  let z := byteZ c in
  if (z =? 34) || (z =? 92) then [byte_of 92; c]
  else if (32 <=? z) && (z <=? 126) then [c]
  else if z =? 7 then blist "\a" else if z =? 8 then blist "\b"
  else if z =? 12 then blist "\f" else if z =? 10 then blist "\n"
  else if z =? 13 then blist "\r" else if z =? 9 then blist "\t"
  else if z =? 11 then blist "\v"
  else blist "\x" ++ [hex_digit (z / 16); hex_digit (z mod 16)].
Definition Quote `{GoUnicode} (s : string) : string :=
  if isASCII s then btext ([byte_of 34] ++ flat_map quote_byte (blist s) ++ [byte_of 34])
  else unicode_Quote s.

(** * Order *)

(** The order of strings by their bytes. *)
Definition strLe (a b : string) : Prop := String.compare a b <> Gt.
#[export] Instance strLe_dec a b : Decision (strLe a b).
Proof. unfold strLe. apply _. Defined.

Lemma string_compare_refl a : String.compare a a = Eq.
Proof. induction a as [|c a IH]; [done|]. cbn. unfold Ascii.compare. by rewrite N.compare_refl. Qed.
Lemma string_compare_trans a : forall b c,
  strLe a b -> strLe b c ->
  strLe a c /\ (String.compare a b = Lt \/ String.compare b c = Lt -> String.compare a c = Lt).
Proof.
  unfold strLe. induction a as [|x a IH]; intros [|y b] [|z c]; cbn; try naive_solver.
  unfold Ascii.compare.
  destruct (N.compare_spec (N_of_ascii x) (N_of_ascii y)) as [Hxy|Hxy|Hxy],
    (N.compare_spec (N_of_ascii y) (N_of_ascii z)) as [Hyz|Hyz|Hyz],
    (N.compare_spec (N_of_ascii x) (N_of_ascii z)) as [Hxz|Hxz|Hxz]; try lia; try naive_solver.
Qed.
#[export] Instance strLe_trans : Transitive strLe.
Proof. intros a b c H1 H2. by apply (string_compare_trans a b c). Qed.
#[export] Instance strLe_total : Total strLe.
Proof.
  intros a b. unfold strLe. rewrite (String.compare_antisym b a). destruct (String.compare a b); cbn; auto.
Qed.
#[export] Instance strLe_antisym : AntiSymm eq strLe.
Proof.
  intros a b H1 H2. unfold strLe in *. rewrite (String.compare_antisym b a) in H2.
  apply String.compare_eq_iff. destruct (String.compare a b); done.
Qed.

(** * path/filepath, on Unix *)

(** One segment of a path, on the reversed segments kept so far. *)
Definition clean_segment (rooted : bool) (out : list string) (seg : string) : list string :=
  if (seg =? "")%string || (seg =? ".")%string then out
  else if (seg =? "..")%string then
    match out with
    | [] => if rooted then [] else [seg]
    | top :: rest => if (top =? "..")%string then seg :: out else rest
    end
  else seg :: out.

Definition filepath_Clean (path : string) : string :=
  if (path =? "")%string then "."%string else
  let rooted := HasPrefix path "/" in
  let out := Join (rev (foldl (clean_segment rooted) [] (Split path "/"%char))) "/" in
  if rooted then ("/" ++ out)%string
  else if (out =? "")%string then "."%string else out.

(** filepath.Join skips its leading empty elements. *)
Fixpoint filepath_Join (elem : list string) : string :=
  match elem with
  | [] => ""
  | e :: rest => if (e =? "")%string then filepath_Join rest else filepath_Clean (Join elem "/")
  end.

Definition filepath_Base (path : string) : string :=
  if (path =? "")%string then "."%string else
  let stripped := drop_chars ["/"%char] (rev (blist path)) in
  match stripped with
  | [] => "/"%string
  | _ => match cut_byte "/"%char stripped with
         | Some (base, _) => btext (rev base)
         | None => btext (rev stripped)
         end
  end.

Example filepath_examples :
  filepath_Clean "a//b/./../c/" = "a/c"%string /\ filepath_Clean "/../x" = "/x"%string /\
  filepath_Clean "../a/../.." = "../.."%string /\ filepath_Join [""; "logs"; ""; "x"]%string = "logs/x"%string
  /\ filepath_Base "/usr/bin/nq//" = "nq"%string /\ filepath_Base "//" = "/"%string.
Proof. vm_compute. done. Qed.

(** The bytes of a trimmed, split or joined string are bytes of the string. *)
Lemma Forall_drop_space P s2 s3 l : Forall P l -> Forall P (drop_space s2 s3 l).
Proof.
  remember (length l) as n eqn:Hn. assert (length l <= n)%nat as Hl by lia. clear Hn. revert l Hl.
  induction n as [|n IH]; intros l Hl HP; destruct l as [|a r1]; cbn in *; try done; [lia|].
  assert (Forall P r1) as HP1 by (by eapply Forall_inv_tail).
  destruct (is_space1 a); [apply IH; [lia|done]|]. destruct r1 as [|b r2]; [done|].
  assert (Forall P r2) as HP2 by (by eapply Forall_inv_tail).
  cbn in Hl. destruct (s2 a b); [apply IH; [lia|done]|]. destruct r2 as [|c r3]; [done|].
  destruct (s3 a b c); [|done]. apply IH; [cbn in Hl; lia|by eapply Forall_inv_tail].
Qed.

Lemma Forall_rev_iff {A} (P : A -> Prop) l : Forall P (rev l) <-> Forall P l.
Proof. rewrite !Forall_forall. setoid_rewrite list_elem_of_In. by setoid_rewrite <- in_rev. Qed.

Lemma split_byte_app_sep b x y : forall cur,
  split_byte b cur (x ++ b :: y) = split_byte b cur x ++ split_byte b [] y.
Proof.
  induction x as [|a x IH]; intros cur; cbn [split_byte app].
  - by rewrite (proj2 (Ascii.eqb_eq b b) eq_refl).
  - destruct (Ascii.eqb a b); [by rewrite IH|by apply IH].
Qed.

Lemma split_byte_none b x : forall cur, Forall (fun c => c <> b) x -> split_byte b cur x = [rev cur ++ x].
Proof.
  induction x as [|a x IH]; intros cur Hx; cbn [split_byte]; [by rewrite app_nil_r|].
  apply List.Forall_cons_iff in Hx as [Ha Hx]. destruct (Ascii.eqb_spec a b); [done|].
  rewrite IH by done. cbn [rev]. by rewrite <- app_assoc.
Qed.

Lemma split_byte_pieces b x : forall cur,
  Forall (fun c => c <> b) cur -> Forall (Forall (fun c => c <> b)) (split_byte b cur x).
Proof.
  induction x as [|a x IH]; intros cur Hc; cbn [split_byte].
  - constructor; [by apply Forall_rev_iff|constructor].
  - destruct (Ascii.eqb_spec a b).
    + constructor; [by apply Forall_rev_iff|]. apply IH. constructor.
    + apply IH. by constructor.
Qed.

(** Text without a byte, and splitting at that byte. *)
Definition lacks (b : byte) (s : string) : Prop := Forall (fun c => c <> b) (blist s).

Lemma Split_lacks b s : Forall (lacks b) (Split s b).
Proof.
  unfold Split, lacks. apply Forall_map. eapply Forall_impl; [apply split_byte_pieces; constructor|].
  intros l Hl. cbn. by rewrite blist_btext.
Qed.

Lemma Split_whole b s : lacks b s -> Split s b = [s].
Proof. intros Hs. unfold Split. rewrite split_byte_none by done. cbn. by rewrite btext_blist. Qed.

Lemma Split_app_sep b s t : Split (s ++ btext [b] ++ t)%string b = Split s b ++ Split t b.
Proof.
  unfold Split. rewrite !blist_app, blist_btext. cbn [app]. by rewrite split_byte_app_sep, map_app.
Qed.

Lemma Split_Join_sep b l : l <> [] -> Forall (lacks b) l -> Split (Join l (btext [b])) b = l.
Proof.
  intros Hne Hl. induction Hl as [|s l Hs Hl IH]; [done|]. destruct l as [|t l].
  - by apply Split_whole.
  - cbn [Join] in *. rewrite Split_app_sep, IH, Split_whole by done. done.
Qed.

Lemma Forall_drop_chars P cut l : Forall P l -> Forall P (drop_chars cut l).
Proof. induction 1 as [|a l Ha Hl IH]; cbn; [constructor|]. destruct (existsb _ _); [done|by constructor]. Qed.

Lemma drop_chars_head cut l : match drop_chars cut l with [] => True | c :: _ => existsb (Ascii.eqb c) cut = false end.
Proof. induction l as [|a l IH]; cbn; [done|]. by destruct (existsb (Ascii.eqb a) cut) eqn:He. Qed.

Lemma Forall_split_byte P b l : forall cur, Forall P cur -> Forall P l -> Forall (Forall P) (split_byte b cur l).
Proof.
  induction l as [|a l IH]; intros cur Hc Hl; cbn [split_byte].
  - constructor; [by apply Forall_rev_iff|constructor].
  - apply List.Forall_cons_iff in Hl as [Ha Hl]. destruct (Ascii.eqb a b).
    + constructor; [by apply Forall_rev_iff|]. by apply IH.
    + apply IH; [by constructor|done].
Qed.

Lemma TrimRight_end s c x : rev (blist (TrimRight s (btext [c]))) = c :: x -> False.
Proof.
  unfold TrimRight. rewrite !blist_btext, rev_involutive. pose proof (drop_chars_head [c] (rev (blist s))) as Hd.
  intros Hx. rewrite Hx in Hd. cbn in Hd. by rewrite Ascii.eqb_refl in Hd.
Qed.

Lemma Split_not_nil s b : Split s b <> [].
Proof.
  unfold Split. generalize ([] : bytes) as cur. induction (blist s) as [|a l IH]; intros cur; cbn [split_byte]; [done|].
  by destruct (Ascii.eqb a b).
Qed.

Lemma Join_cons_ne x l sep : l <> [] -> Join (x :: l) sep = (x ++ sep ++ Join l sep)%string.
Proof. by destruct l. Qed.

Lemma Join_snoc l x sep : l <> [] -> Join (l ++ [x]) sep = (Join l sep ++ sep ++ x)%string.
Proof.
  induction l as [|y l IH]; [done|]. intros _. destruct l as [|z l]; [done|].
  cbn [app] in *. rewrite !(Join_cons_ne y) by done. rewrite IH by done. by rewrite !string_app_assoc.
Qed.

Lemma Join_Split s b : Join (Split s b) (btext [b]) = s.
Proof.
  unfold Split. enough (forall l cur, Join (map btext (split_byte b cur l)) (btext [b]) = btext (rev cur ++ l)) as H.
  { rewrite H. cbn [rev app]. apply btext_blist. }
  induction l as [|a l IH]; intros cur; cbn [split_byte map]; [by rewrite app_nil_r|].
  destruct (Ascii.eqb_spec a b) as [->|_].
  - cbn [map]. rewrite Join_cons_ne.
    + rewrite IH. apply blist_inj. rewrite !blist_app, !blist_btext. done.
    + pose proof (Split_not_nil (btext l) b) as Hn. unfold Split in Hn. by rewrite blist_btext in Hn.
  - rewrite IH. cbn [rev]. by rewrite <- app_assoc.
Qed.

(** Lines, each ended by LF. *)
Definition unlines (l : list string) : string := foldr (fun line s => (line ++ lf ++ s)%string) ""%string l.
Lemma Join_unlines l : l <> [] -> (Join l lf ++ lf)%string = unlines l.
Proof.
  induction l as [|x l IH]; [done|]. intros _. destruct l as [|y l]; [done|].
  rewrite Join_cons_ne, !string_app_assoc, IH by done. done.
Qed.

Lemma unlines_app l k : unlines (l ++ k) = (unlines l ++ unlines k)%string.
Proof. induction l as [|x l IH]; [done|]. cbn [app unlines foldr] in *. fold (unlines (l ++ k)). rewrite IH. by rewrite !string_app_assoc. Qed.

Lemma unlines_nil l : unlines l = ""%string -> l = [].
Proof.
  destruct l as [|x l]; [done|]. intros H. apply (f_equal (fun s => length (blist s))) in H.
  cbn [unlines foldr] in H. rewrite !blist_app, !length_app in H. change (length (blist lf)) with 1%nat in H. cbn in H. lia.
Qed.

Lemma Forall_TrimSpace P s : Forall P (blist s) -> Forall P (blist (TrimSpace s)).
Proof.
  intros HP. unfold TrimSpace, trim_right_space, trim_left_space. rewrite blist_btext.
  apply Forall_rev_iff, Forall_drop_space, Forall_rev_iff, Forall_drop_space, HP.
Qed.

Lemma Forall_fields_go P l : forall cur,
  Forall P cur -> Forall P l -> Forall (Forall P) (fields_go cur l).
Proof.
  remember (length l) as n eqn:Hn. assert (length l <= n)%nat as Hl by lia. clear Hn. revert l Hl.
  induction n as [|n IH]; intros l Hl cur Hc HP;
    (assert (Forall (Forall P) (match cur with [] => [] | _ => [rev cur] end)) as Hf
       by (destruct cur; [constructor|apply Forall_singleton; by apply Forall_rev_iff]));
    destruct l as [|a r1]; try done; [cbn in Hl; lia|].
  apply Forall_cons in HP as [Ha HP1]. cbn in Hl.
  assert (Forall P (a :: cur)) as Hac by by apply List.Forall_cons.
  assert (Forall (Forall P) (fields_go (a :: cur) r1)) as Hnext by (apply IH; [lia|done..]).
  cbn [fields_go]. destruct (is_space1 a).
  { apply Forall_app; split; [done|]. apply IH; [lia|constructor|done]. }
  destruct r1 as [|b r2]; [done|]. apply Forall_cons in HP1 as [Hb HP2]. cbn in Hl.
  destruct (is_space2 a b).
  { apply Forall_app; split; [done|]. apply IH; [lia|constructor|done]. }
  destruct r2 as [|c r3]; [done|]. apply Forall_cons in HP2 as [Hc' HP3]. cbn in Hl.
  destruct (is_space3 a b c); [|done].
  apply Forall_app; split; [done|]. apply IH; [lia|constructor|done].
Qed.

Lemma Forall_Fields P s : Forall P (blist s) -> Forall (fun t => Forall P (blist t)) (Fields s).
Proof.
  intros HP. unfold Fields. apply Forall_map. eapply Forall_impl; [by apply Forall_fields_go|].
  intros l Hl. cbn. by rewrite blist_btext.
Qed.

Lemma Fields_no_space s : Forall (fun t => Forall (fun c => is_space1 c = false) (blist t)) (Fields s).
Proof.
  unfold Fields. apply Forall_map. cbv beta.
  enough (forall l cur, Forall (fun c => is_space1 c = false) cur ->
    Forall (Forall (fun c => is_space1 c = false)) (fields_go cur l)) as H.
  { eapply Forall_impl; [by apply H|]. intros l Hl. cbn. by rewrite blist_btext. }
  assert (forall cur, Forall (fun c => is_space1 c = false) cur ->
    Forall (Forall (fun c => is_space1 c = false)) match cur with [] => [] | _ => [rev cur] end) as Hflush.
  { intros cur Hc. destruct cur as [|a cur]; [constructor|]. constructor; [by apply Forall_rev_iff|constructor]. }
  intros l. induction l as [l IH] using (induction_ltof1 _ (@length _)). unfold ltof in IH.
  intros cur Hc. destruct l as [|a r1]; cbn [fields_go]; [by apply Hflush|].
  destruct (is_space1 a) eqn:Ha; [apply Forall_app; split; [by apply Hflush|apply IH; [cbn; lia|constructor]]|].
  assert (Forall (fun c => is_space1 c = false) (a :: cur)) as Hac by by constructor.
  destruct r1 as [|b r2]; [by apply IH; [cbn; lia|]|].
  destruct (is_space2 a b); [apply Forall_app; split; [by apply Hflush|apply IH; [cbn; lia|constructor]]|].
  destruct r2 as [|c r3]; [apply IH; [cbn; lia|done]|].
  destruct (is_space3 a b c); [apply Forall_app; split; [by apply Hflush|apply IH; [cbn; lia|constructor]]|].
  apply IH; [cbn; lia|done].
Qed.

Lemma Forall_Join P l sep :
  Forall (fun t => Forall P (blist t)) l -> Forall P (blist sep) -> Forall P (blist (Join l sep)).
Proof.
  intros Hl Hsep. induction Hl as [|x l Hx Hl IH]; [constructor|]. cbn [Join]. destruct l; [done|].
  rewrite !blist_app. by repeat (apply Forall_app; split).
Qed.

(** Replacing a byte by a text without it leaves none, and adds nothing else. *)
Lemma Forall_ReplaceByte (P Q : byte -> Prop) s old new :
  Forall P (blist s) -> (forall c, P c -> c <> old -> Q c) -> Forall Q (blist new) ->
  Forall Q (blist (ReplaceByte s old new)).
Proof.
  intros HP HQ Hnew. unfold ReplaceByte. rewrite blist_btext.
  induction HP as [|c l Hc _ IH]; cbn; [constructor|]. apply Forall_app; split; [|done].
  destruct (Ascii.eqb_spec c old) as [->|Hne]; [done|]. apply Forall_singleton; auto.
Qed.
