(* ===== verification/Paths.v ===== *)
(** Facts about path/filepath's lexical processing: segments, cleaning and joining. *)
From S2P Require Import Prelude GoStrings.

Abbreviation slash := "/"%char (only parsing).

(** A segment of a clean path: a name, that is not empty, not a dot or two, and has no slash. *)
Definition no_slash (s : string) : Prop := Forall (fun c => c <> slash) (blist s).
Definition name (s : string) : Prop := s <> ""%string /\ s <> "."%string /\ s <> ".."%string /\ no_slash s.
#[export] Instance no_slash_dec s : Decision (no_slash s).
Proof. unfold no_slash. apply _. Defined.
#[export] Instance name_dec s : Decision (name s).
Proof. unfold name. apply _. Defined.

(** The stack that [filepath_Clean] keeps: names over climbs. *)
Definition climbs (l : list string) : Prop := Forall (eq ".."%string) l.
Definition stack_ok (rooted : bool) (out : list string) : Prop :=
  exists names ups, out = names ++ ups /\ Forall name names /\ climbs ups /\ (rooted = true -> ups = []).

(** * Splitting and joining *)

Lemma Split_no_slash s : Forall no_slash (Split s slash).
Proof. apply Split_lacks. Qed.

Lemma Split_one s : no_slash s -> Split s slash = [s].
Proof. apply Split_whole. Qed.

Lemma Split_app s t : Split (s ++ "/" ++ t)%string slash = Split s slash ++ Split t slash.
Proof. apply (Split_app_sep slash). Qed.

Lemma Split_Join l : l <> [] -> Forall no_slash l -> Split (Join l "/") slash = l.
Proof. apply (Split_Join_sep slash). Qed.

Lemma Join_app l k : l <> [] -> k <> [] -> Join (l ++ k) "/" = (Join l "/" ++ "/" ++ Join k "/")%string.
Proof.
  intros Hl Hk. induction l as [|s l IH]; [done|]. destruct l as [|t l].
  - cbn [app]. by destruct k.
  - change ((s :: t :: l) ++ k) with (s :: (t :: l) ++ k). cbn [Join app] in *.
    rewrite IH by done. by rewrite !string_app_assoc.
Qed.

(** * Cleaning *)

Lemma clean_segment_ok rooted out seg :
  no_slash seg -> stack_ok rooted out -> stack_ok rooted (clean_segment rooted out seg).
Proof.
  intros Hs (names & ups & -> & Hn & Hu & Hr). unfold clean_segment.
  destruct (String.eqb_spec seg ""), (String.eqb_spec seg "."); cbn [orb]; try (by exists names, ups).
  destruct (String.eqb_spec seg "..") as [->|Hdd].
  - destruct names as [|top names]; cbn [app].
    + destruct ups as [|u ups].
      * destruct rooted; [by exists [], []|]. exists [], [".."%string]. split_and!; [done|done| |done]. by repeat constructor.
      * apply List.Forall_cons_iff in Hu as [<- Hu]. cbn. exists [], (".." :: ".." :: ups)%string.
        split_and!; [done|done|by repeat constructor|intros Hro; by specialize (Hr Hro)].
    + apply List.Forall_cons_iff in Hn as [(Hn1 & Hn2 & Hn3 & Hn4) Hn].
      destruct (String.eqb_spec top ".."); [done|]. by exists names, ups.
  - exists (seg :: names), ups. split_and!; [done| |done|done]. constructor; [|done]. by unfold name.
Qed.

Lemma clean_segments_ok rooted segs : forall out,
  Forall no_slash segs -> stack_ok rooted out -> stack_ok rooted (foldl (clean_segment rooted) out segs).
Proof.
  induction segs as [|s segs IH]; intros out Hs Ho; [done|]. cbn [foldl].
  apply List.Forall_cons_iff in Hs as [Hs Hss]. by apply IH, clean_segment_ok.
Qed.

Lemma stack_ok_nil rooted : stack_ok rooted [].
Proof. exists [], []. by repeat constructor. Qed.

Lemma clean_stack_ok rooted p : stack_ok rooted (foldl (clean_segment rooted) [] (Split p slash)).
Proof. apply clean_segments_ok; [apply Split_no_slash|apply stack_ok_nil]. Qed.

Lemma clean_names rooted ns out :
  Forall name ns -> foldl (clean_segment rooted) out ns = rev ns ++ out.
Proof.
  intros Hn. revert out. induction Hn as [|s ns (H1 & H2 & H3 & H4) _ IH]; intros out; [done|]. cbn [foldl rev].
  rewrite <- app_assoc. rewrite <- IH. f_equal. unfold clean_segment.
  destruct (String.eqb_spec s ""), (String.eqb_spec s "."), (String.eqb_spec s ".."); done.
Qed.

Lemma name_no_slash s : name s -> no_slash s.
Proof. by intros (_ & _ & _ & H). Qed.
Lemma names_no_slash l : Forall name l -> Forall no_slash l.
Proof. intros H. eapply Forall_impl; [exact H|apply name_no_slash]. Qed.

Lemma HasPrefix_slash_name s t : name s -> HasPrefix (s ++ t)%string "/" = false.
Proof.
  intros (Hne & _ & _ & Hs). unfold HasPrefix. rewrite blist_app. unfold no_slash in Hs.
  destruct (blist s) as [|c l] eqn:Hb.
  { exfalso. apply Hne. by rewrite <- (btext_blist s), Hb. }
  apply List.Forall_cons_iff in Hs as [Hc _]. cbn [app blist list_ascii_of_string has_prefix].
  by destruct (Ascii.eqb_spec "/"%char c) as [<-|].
Qed.

Lemma Join_cons s l sep : exists t, Join (s :: l) sep = (s ++ t)%string.
Proof. destruct l as [|s' l]; cbn [Join]; [exists ""%string; by rewrite string_app_nil|by eexists]. Qed.

Lemma name_app_ne s t : name s -> (s ++ t)%string <> ""%string.
Proof. intros (Hne & _) H. destruct s; [done|discriminate]. Qed.

(** A path of names is clean. *)
Lemma filepath_Clean_names ns : ns <> [] -> Forall name ns -> filepath_Clean (Join ns "/") = Join ns "/".
Proof.
  intros Hne Hn. unfold filepath_Clean.
  rewrite Split_Join by (done || by apply names_no_slash).
  destruct ns as [|s ns]; [done|]. destruct (Join_cons s ns "/") as [t Ht].
  apply List.Forall_cons_iff in Hn as Hn'. destruct Hn' as [Hs _].
  rewrite Ht. rewrite HasPrefix_slash_name by done.
  destruct (String.eqb_spec (s ++ t) ""); [by apply name_app_ne in e|].
  rewrite clean_names, app_nil_r, rev_involutive by done. rewrite Ht.
  destruct (String.eqb_spec (s ++ t) ""); [done|done].
Qed.

(** What cleaning a relative path gives: a dot, or climbs and then names. *)
Lemma filepath_Clean_relative p :
  p <> ""%string -> HasPrefix p "/" = false ->
  filepath_Clean p = "."%string
  \/ exists ups ns, climbs ups /\ Forall name ns /\ ups ++ ns <> []
       /\ filepath_Clean p = Join (ups ++ ns) "/".
Proof.
  intros Hne Hp. unfold filepath_Clean. destruct (String.eqb_spec p ""); [done|]. rewrite Hp.
 
  destruct (clean_stack_ok false p) as (ns & ups & -> & Hn & Hu & _).
  destruct (String.eqb_spec (Join (rev (ns ++ ups)) "/") ""); [by left|right].
  exists (rev ups), (rev ns). rewrite <- rev_app_distr. split_and!; [|by apply Forall_rev_iff| |done].
  - by apply Forall_rev_iff.
  - intros H. rewrite H in n0. done.
Qed.

Lemma filepath_Clean_rooted p :
  HasPrefix p "/" = true -> exists ns, Forall name ns /\ filepath_Clean p = ("/" ++ Join ns "/")%string.
Proof.
  intros Hp. unfold filepath_Clean. destruct (String.eqb_spec p "") as [->|]; [done|]. rewrite Hp.
  destruct (clean_stack_ok true p) as (ns & ups & -> & Hn & Hu & Hr). rewrite (Hr eq_refl), app_nil_r.
  exists (rev ns). split; [by apply Forall_rev_iff|done].
Qed.

(** A path of names under a directory. *)
Definition under (root : string) (ns : list string) : string :=
  if (filepath_Clean root =? ".")%string then Join ns "/"
  else if (filepath_Clean root =? "/")%string then ("/" ++ Join ns "/")%string
  else (filepath_Clean root ++ "/" ++ Join ns "/")%string.

Lemma Join_nonempty s l : s <> ""%string -> Join (s :: l) "/" <> ""%string.
Proof.
  intros Hs. destruct (Join_cons s l "/") as [t ->]. intros H. apply Hs. by destruct s.
Qed.

Lemma stack_nonempty rooted out s l : stack_ok rooted out -> rev out = s :: l -> s <> ""%string.
Proof.
  intros (ns & ups & -> & Hn & Hu & _) Hr -> . assert (""%string ∈ ns ++ ups) as Hin.
  { rewrite list_elem_of_In, in_rev, Hr. by left. }
  apply elem_of_app in Hin as [Hin|Hin].
  - rewrite Forall_forall in Hn. by destruct (Hn _ Hin).
  - unfold climbs in Hu. rewrite Forall_forall in Hu. by specialize (Hu _ Hin).
Qed.

(** What a stack spells is no dot, unless it is empty. *)
Lemma Join_stack_dot out : stack_ok false out -> Join (rev out) "/" = "."%string -> out = [].
Proof.
  intros Hok HJ. destruct (rev out) as [|s l] eqn:Hr.
  { by rewrite <- (rev_involutive out), Hr. }
  exfalso. pose proof Hok as (ns & ups & -> & Hn & Hu & _).
  assert (s ∈ ns ++ ups) as Hin by (rewrite list_elem_of_In, in_rev, Hr; by left).
  assert (s <> "."%string /\ s <> ""%string) as [Hs1 Hs2].
  { apply elem_of_app in Hin as [Hin|Hin].
    - rewrite Forall_forall in Hn. by destruct (Hn _ Hin) as (? & ? & _).
    - unfold climbs in Hu. rewrite Forall_forall in Hu. by rewrite <- (Hu _ Hin). }
  destruct l as [|s' l]; [done|]. cbn [Join] in HJ.
  apply (f_equal blist) in HJ. rewrite !blist_app in HJ. apply (f_equal (@length _)) in HJ.
  rewrite !length_app in HJ. cbn in HJ. assert (blist s <> []) as Hb.
  { intros Hb. apply Hs2. by rewrite <- (btext_blist s), Hb. }
  destruct (blist s); [done|]. cbn in HJ. lia.
Qed.

Lemma filepath_Clean_under root ns :
  root <> ""%string -> ns <> [] -> Forall name ns ->
  filepath_Clean (root ++ "/" ++ Join ns "/")%string = under root ns.
Proof.
  intros Hroot Hne Hn. unfold under, filepath_Clean.
  destruct (String.eqb_spec root ""); [done|].
  destruct (String.eqb_spec (root ++ "/" ++ Join ns "/") "") as [H|_]; [by destruct root|].
  assert (HasPrefix (root ++ "/" ++ Join ns "/") "/" = HasPrefix root "/") as ->.
  { unfold HasPrefix. rewrite blist_app. by destruct root. }
  rewrite Split_app, foldl_app, Split_Join by (done || by apply names_no_slash).
  rewrite clean_names, rev_app_distr, rev_involutive by done.
  set (rooted := HasPrefix root "/"). set (out := foldl _ [] (Split root slash)).
  assert (stack_ok rooted out) as Hok by apply clean_stack_ok.
  assert (out = [] \/ exists s l, rev out = s :: l /\ s <> ""%string) as Hout.
  { destruct (rev out) as [|s l] eqn:Hr; [left; by rewrite <- (rev_involutive out), Hr|right].
    exists s, l. split; [done|]. by apply (stack_nonempty rooted out s l). }
  destruct ns as [|nm ns]; [done|]. apply List.Forall_cons_iff in Hn as [Hnm _].
  destruct Hout as [->|(s & l & Hr & Hs)].
  - cbn [rev app]. change (Join [] "/") with ""%string. destruct rooted.
    + destruct (String.eqb_spec ("/" ++ "") "."), (String.eqb_spec ("/" ++ "") "/"); done.
    + change ("" =? "")%string with true. cbn iota. change ("." =? ".")%string with true. cbn iota.
      fold (Join (nm :: ns) "/").
      destruct (String.eqb_spec (Join (nm :: ns) "/") ""); [|done].
      exfalso. by apply (Join_nonempty nm ns); [destruct Hnm|].
  - rewrite Hr. rewrite (Join_app (s :: l)) by done. pose proof (Join_nonempty s l Hs) as Hj.
    destruct rooted.
    + destruct (String.eqb_spec ("/" ++ Join (s :: l) "/") "."); [done|].
      destruct (String.eqb_spec ("/" ++ Join (s :: l) "/") "/") as [H|].
      { exfalso. apply Hj. by injection H. }
      by rewrite <- string_app_assoc.
    + destruct (String.eqb_spec (Join (s :: l) "/") ""); [done|].
      destruct (String.eqb_spec (Join (s :: l) "/" ++ "/" ++ Join (nm :: ns) "/") "") as [H|].
      { exfalso. by destruct (Join (s :: l) "/"). }
      destruct (String.eqb_spec (Join (s :: l) "/") ".") as [H|].
      { rewrite <- Hr in H. apply Join_stack_dot in H; [|done]. by rewrite H in Hr. }
      destruct (String.eqb_spec (Join (s :: l) "/") "/") as [H|]; [|done].
      exfalso. apply (f_equal (fun x => HasPrefix x "/")) in H. destruct (Join_cons s l "/") as [t Ht].
      rewrite Ht in H. destruct Hok as (ns' & ups & Ho & Hn' & Hu & _).
      assert (s ∈ ns' ++ ups) as Hin by (rewrite <- Ho, list_elem_of_In, in_rev, Hr; by left).
      apply elem_of_app in Hin as [Hin|Hin].
      * rewrite Forall_forall in Hn'. rewrite HasPrefix_slash_name in H by auto. done.
      * unfold climbs in Hu. rewrite Forall_forall in Hu. rewrite <- (Hu _ Hin) in H. done.
Qed.

Lemma filepath_Join_under root ns :
  root <> ""%string -> ns <> [] -> Forall name ns -> filepath_Join [root; Join ns "/"] = under root ns.
Proof.
  intros Hr Hne Hn. cbn [filepath_Join]. destruct (String.eqb_spec root ""); [done|].
  cbn [Join]. by apply filepath_Clean_under.
Qed.

Lemma climb_no_slash : no_slash "..".
Proof. by repeat constructor. Qed.
Lemma climbs_no_slash ups : climbs ups -> Forall no_slash ups.
Proof. intros Hu. eapply Forall_impl; [exact Hu|]. intros s <-. apply climb_no_slash. Qed.

Lemma clean_climbs ups : forall out, climbs ups -> climbs out -> foldl (clean_segment false) out ups = rev ups ++ out.
Proof.
  induction ups as [|u ups IH]; intros out Hu Ho; [done|]. apply List.Forall_cons_iff in Hu as [<- Hu]. cbn [foldl rev].
  rewrite <- app_assoc. cbn [app]. rewrite <- IH; [|done|by constructor]. f_equal.
  destruct out as [|o out]; [done|]. apply List.Forall_cons_iff in Ho as [<- _]. done.
Qed.

Lemma filepath_Clean_segments ups ns : climbs ups -> Forall name ns -> ups ++ ns <> [] ->
  filepath_Clean (Join (ups ++ ns) "/") = Join (ups ++ ns) "/".
Proof.
  intros Hu Hn Hne. assert (Forall no_slash (ups ++ ns)) as Hns.
  { apply Forall_app. split; [by apply climbs_no_slash|by apply names_no_slash]. }
  destruct ups as [|u ups]; [by apply filepath_Clean_names|].
  apply List.Forall_cons_iff in Hu as Hu'. destruct Hu' as [<- _].
  unfold filepath_Clean. rewrite Split_Join by done. cbn [app] in *.
  destruct (Join_cons ".." (ups ++ ns) "/") as [t Ht]. rewrite Ht. cbn [HasPrefix].
  change (HasPrefix (".." ++ t)%string "/") with false. cbn iota.
  destruct (String.eqb_spec (".." ++ t) ""); [done|].
  change (".."%string :: ups ++ ns) with ((".."%string :: ups) ++ ns).
  rewrite foldl_app, (clean_climbs (".."%string :: ups) []) by (done || constructor).
  rewrite clean_names by done. rewrite app_nil_r, <- rev_app_distr, rev_involutive. cbn [app]. rewrite Ht.
  by destruct (String.eqb_spec (".." ++ t) "").
Qed.

Lemma filepath_Clean_idem p : filepath_Clean (filepath_Clean p) = filepath_Clean p.
Proof.
  destruct (decide (p = ""%string)) as [->|Hne]; [done|]. destruct (HasPrefix p "/") eqn:Hp.
  - destruct (filepath_Clean_rooted p Hp) as (ns & Hn & ->). unfold filepath_Clean at 1.
    change (("/" ++ Join ns "/")%string =? "")%string with false. cbn iota.
    rewrite HasPrefix_app. change ("/" ++ Join ns "/")%string with ("" ++ "/" ++ Join ns "/")%string at 1. rewrite Split_app, foldl_app.
    change (foldl (clean_segment true) [] (Split "" "/"%char)) with (@nil string).
    destruct ns as [|n ns]; [done|]. rewrite Split_Join by (done || by apply names_no_slash).
    by rewrite clean_names, app_nil_r, rev_involutive by done.
  - destruct (filepath_Clean_relative p Hne Hp) as [->|(ups & ns & Hu & Hn & Hn0 & ->)]; [done|].
    by apply filepath_Clean_segments.
Qed.

Lemma filepath_Clean_nonempty p : filepath_Clean p <> ""%string.
Proof.
  unfold filepath_Clean. destruct (String.eqb_spec p ""); [done|]. destruct (HasPrefix p "/"); [done|].
  by destruct (String.eqb_spec (Join (rev (foldl (clean_segment false) [] (Split p "/"%char))) "/") "").
Qed.

(** * Climbing *)

(** A piece that has a slash before and after it is a segment. *)
Lemma contains_split l x : forall cur,
  contains l (slash :: x ++ [slash]) = true -> Forall (fun c => c <> slash) x ->
  exists a b, split_byte slash cur l = a ++ x :: b /\ a <> [] /\ b <> [].
Proof.
  induction l as [|c l IH]; intros cur Hc Hx; [done|]. cbn [contains] in Hc.
  apply orb_true_iff in Hc as [Hc|Hc].
  - apply has_prefix_spec in Hc as [r Hr]. injection Hr as -> ->. cbn [split_byte].
    change (Ascii.eqb slash slash) with true. cbn iota. exists [rev cur], (split_byte slash [] r).
    rewrite <- app_assoc. cbn [app]. rewrite split_byte_app_sep, split_byte_none by done. cbn [rev app].
    split_and!; [done|done|]. destruct r as [|a r]; [done|]. cbn [split_byte].
    destruct (Ascii.eqb a slash); [done|]. intros Hn.
    assert (forall cur, split_byte slash cur r <> []) as Hne.
    { clear. induction r as [|a r IH]; intros cur; cbn [split_byte]; [done|]. destruct (Ascii.eqb a slash); [done|apply IH]. }
    by apply Hne in Hn.
  - cbn [split_byte]. destruct (Ascii.eqb c slash).
    + destruct (IH [] Hc Hx) as (a & b & -> & Ha & Hb). by exists (rev cur :: a), b.
    + apply IH; done.
Qed.

Lemma names_no_climb ns : Forall name ns -> Contains (Join ns "/") "/../" = false.
Proof.
  intros Hn. destruct (Contains (Join ns "/") "/../") eqn:Hc; [|done]. exfalso.
  destruct ns as [|s ns]; [done|]. unfold Contains in Hc.
  change (blist "/../") with (slash :: blist ".." ++ [slash]) in Hc.
  apply (contains_split _ _ []) in Hc; [|by repeat constructor].
  destruct Hc as (a & b & Hs & _ & _).
  pose proof (Split_Join (s :: ns) ltac:(done) (names_no_slash _ Hn)) as HJ. unfold Split in HJ. rewrite Hs in HJ.
  rewrite map_app in HJ. cbn [map] in HJ. assert (".."%string ∈ s :: ns) as Hin.
  { rewrite <- HJ. apply elem_of_app. right. left. }
  rewrite Forall_forall in Hn. by destruct (Hn _ Hin) as (_ & _ & ? & _).
Qed.

Lemma names_no_climb_prefix ns : ns <> [] -> Forall name ns ->
  HasPrefix (Join ns "/") "../" = false /\ Join ns "/" <> ".."%string /\ Join ns "/" <> "."%string.
Proof.
  intros Hne Hn. pose proof (Split_Join ns Hne (names_no_slash _ Hn)) as HJ.
  destruct ns as [|s ns]; [done|]. apply List.Forall_cons_iff in Hn as [(Hs1 & Hs2 & Hs3 & _) _].
  split_and!.
  - destruct (HasPrefix _ _) eqn:Hp; [|done]. unfold HasPrefix in Hp. apply has_prefix_spec in Hp as [r Hr].
    exfalso. apply Hs3. unfold Split in HJ. rewrite Hr in HJ. cbn in HJ. by injection HJ.
  - intros Hd. rewrite Hd in HJ. by injection HJ as <-.
  - intros Hd. rewrite Hd in HJ. by injection HJ as <-.
Qed.

Lemma climbs_rejected ups ns : climbs ups -> ups <> [] -> Forall name ns ->
  HasPrefix (Join (ups ++ ns) "/") "../" || (Join (ups ++ ns) "/" =? "..")%string = true.
Proof.
  intros Hu Hne Hn. destruct ups as [|u ups]; [done|]. apply List.Forall_cons_iff in Hu as [<- _].
  cbn [app]. destruct (ups ++ ns) as [|s l]; [done|]. cbn [Join]. done.
Qed.
