(* ===== verification/LaunchPlan.v ===== *)
(** Launch plans: internal/orch/launch_plan.go, and the port arguments of registry.go.

    [servers.ini] lines are split by the third-party [shlex] package, the parameter
    [shlex_Split]; everything after the split is modelled token by token. *)
From S2P Require Import Prelude GoStrings.

(** launch_plan.go [serverLaunch] *)
Record serverLaunch := mkLaunch {
  Line : Z;
  LogDir : string;
  Binary : string;
  Args : list string;
}.

(** launch_plan.go [unsupportedLaunchArgs] *)
Definition unsupportedLaunchArgs : list string := ["-basedir"; "-hipnotic"; "-path"; "-rogue"]%string.

(** launch_plan.go [isLaunchKeyToken] *)
Definition isLaunchKeyToken (token : string) : bool :=
  (2 <=? len token) &&
  match blist token with
  | c :: _ => Ascii.eqb c "-"%char || Ascii.eqb c "+"%char
  | [] => false
  end.

(** token[1:] *)
Definition tail1 (token : string) : string := btext (drop 1 (blist token)).

(** launch_plan.go [findUnsupportedLaunchArg] *)
Fixpoint findUnsupportedLaunchArg (args : list string) : option string :=
  match args with
  | [] => None
  | a :: r => if bool_decide (a ∈ unsupportedLaunchArgs) then Some a
              else findUnsupportedLaunchArg r
  end.

(** * [applyLaunchArgTemplates] *)

(** The first loop: the map from each key to its first value. *)
Fixpoint collectTemplateValues (seen : gmap string string) (out : list string) : gmap string string :=
  match out with
  | [] => seen
  | t :: rest =>
      if isLaunchKeyToken t then
        let key := tail1 t in
        let seen' := match seen !! key, rest with
                     | None, v :: _ => if isLaunchKeyToken v then seen else <[key := v]> seen
                     | _, _ => seen
                     end in
        (fix skipValues (r : list string) : gmap string string :=
           match r with
           | [] => collectTemplateValues seen' r
           | v :: r' => if isLaunchKeyToken v then collectTemplateValues seen' r else skipValues r'
           end) rest
      else collectTemplateValues seen rest
  end.

(** The second loop's body. *)
Definition substTemplate (seen : gmap string string) (token : string) : string :=
  if HasPrefix token "%" then default token (seen !! tail1 token) else token.

(** launch_plan.go [applyLaunchArgTemplates] *)
Definition applyLaunchArgTemplates (args : list string) : list string :=
  map (substTemplate (collectTemplateValues ∅ args)) args.

(** * [mergeLaunchGroups] *)

Definition explicitLaunchKeys (fields : list string) : gset string :=
  list_to_set (map tail1 (List.filter isLaunchKeyToken (drop 1 fields))).

(** The loop over one referenced group: the tokens it inserts and the keys inserted so far. *)
Fixpoint expandGroup (explicit inserted : gset string) (group : list string)
    : list string * gset string :=
  match group with
  | [] => ([], inserted)
  | t :: rest =>
      if isLaunchKeyToken t then
        let key := tail1 t in
        if bool_decide (key ∈ explicit ∨ key ∈ inserted) then
          (fix skipValues (r : list string) :=
             match r with
             | [] => expandGroup explicit inserted r
             | v :: r' => if isLaunchKeyToken v then expandGroup explicit inserted r
                          else skipValues r'
             end) rest
        else
          let inserted' := {[key]} ∪ inserted in
          let '(out, ins) :=
            (fix copyValues (r : list string) :=
               match r with
               | [] => expandGroup explicit inserted' r
               | v :: r' => if isLaunchKeyToken v then expandGroup explicit inserted' r
                            else let '(o, i) := copyValues r' in (v :: o, i)
               end) rest in
          (t :: out, ins)
      else
        let '(out, ins) := expandGroup explicit inserted rest in (t :: out, ins)
  end.

Fixpoint mergeFields (groups : gmap string (list string)) (explicit inserted : gset string)
    (fields : list string) : list string :=
  match fields with
  | [] => []
  | t :: rest =>
      match groups !! t with
      | None => t :: mergeFields groups explicit inserted rest
      | Some g => let '(out, ins) := expandGroup explicit inserted g in
                  out ++ mergeFields groups explicit ins rest
      end
  end.

(** launch_plan.go [mergeLaunchGroups] *)
Definition mergeLaunchGroups (fields : list string) (launchGroups : gmap string (list string))
    : list string :=
  if bool_decide (fields = []) || bool_decide (launchGroups = ∅) then fields
  else mergeFields launchGroups (explicitLaunchKeys fields) ∅ fields.

(** * [loadServersIni] *)

(** filepath.Base on a Unix path *)
Fixpoint last_segment (cur : bytes) (l : bytes) : bytes :=
  match l with
  | [] => rev cur
  | c :: r => if Ascii.eqb c "/"%char then last_segment [] r else last_segment (c :: cur) r
  end.
Definition Base (path : string) : string :=
  if (path =? "")%string then "."
  else let p := rev (drop_chars ["/"%char] (rev (blist path))) in
       match p with [] => "/" | _ => btext (last_segment [] p) end.

Definition logDirName (line : Z) (binary startTag : string) : string :=
  Itoa line ++ "-" ++ Base binary ++ "-" ++ startTag.

(** What [os.Stat], [os.Open] and the line scanner give for the plan's path. *)
Inductive iniFile :=
  | IniMissing
  | IniStatError (err : string)
  | IniIsDir
  | IniOpenError (err : string)
  | IniLines (lines : list string) (scanErr : option string).

Inductive iniError :=
  | EStat (err : string)
  | EIsDir
  | EOpen (err : string)
  | EShlex (lineNo : Z) (err : string)
  | EGroupName (lineNo : Z) (name : string)
  | ERead (err : string)
  | ENoLaunchLines.

Section Ini.
Variable shlex_Split : string -> result string (list string).

Definition isIniComment (raw : string) : bool :=
  HasPrefix raw "#" || HasPrefix raw "//" || HasPrefix raw ";".

(** The state of the scan loop; [lsEntries] is in reverse order. *)
Record iniState := mkIni {
  lsLineNo : Z;
  lsGroups : gmap string (list string);
  lsLaunchLine : Z;
  lsEntries : list serverLaunch;
}.

(** One iteration of the scan loop. *)
Definition iniLine (startTag : string) (st : iniState) (text : string) : result iniError iniState :=
  let lineNo := lsLineNo st + 1 in
  let skip := Ok (mkIni lineNo (lsGroups st) (lsLaunchLine st) (lsEntries st)) in
  let raw := TrimSpace text in
  if (raw =? "")%string then skip else
  if isIniComment raw then skip else
  match shlex_Split raw with
  | Err e => Err (EShlex lineNo e)
  | Ok [] => skip
  | Ok ((f0 :: frest) as fields) =>
      if HasPrefix f0 "@" then
      if len f0 <=? 1 then Err (EGroupName lineNo f0)
      else Ok (mkIni lineNo (<[f0 := frest]> (lsGroups st)) (lsLaunchLine st) (lsEntries st))
      else
      let merged := if bool_decide (lsGroups st = ∅) then fields
      else mergeLaunchGroups fields (lsGroups st) in
      match merged with
      | [] => skip
      | binary :: rest =>
          let launchLine := lsLaunchLine st + 1 in
          let args := applyLaunchArgTemplates rest in
          match findUnsupportedLaunchArg args with
          | Some _ => Ok (mkIni lineNo (lsGroups st) launchLine (lsEntries st))
          | None =>
              let e := mkLaunch launchLine (logDirName launchLine binary startTag) binary args in
              Ok (mkIni lineNo (lsGroups st) launchLine (e :: lsEntries st))
          end
      end
  end.

Fixpoint iniLines (startTag : string) (st : iniState) (lines : list string)
  : result iniError iniState :=
  match lines with
  | [] => Ok st
  | l :: r => let* st' := iniLine startTag st l in iniLines startTag st' r
  end.

(** launch_plan.go [loadServersIni]; [Ok None] is "file not found". *)
Definition loadServersIni (file : iniFile) (startTag : string)
    : result iniError (option (list serverLaunch)) :=
  match file with
  | IniMissing => Ok None
  | IniStatError e => Err (EStat e)
  | IniIsDir => Err EIsDir
  | IniOpenError e => Err (EOpen e)
  | IniLines lines scanErr =>
      let* st := iniLines startTag (mkIni 0 ∅ (-1) []) lines in
      match scanErr with
      | Some e => Err (ERead e)
      | None => match rev (lsEntries st) with
          | [] => Err ENoLaunchLines
          | entries => Ok (Some entries)
          end
      end
  end.

(** launch_plan.go [planLaunches], up to the mod listing it forwards. *)
Definition planLaunches (file : iniFile) (startTag : string) (mods : result string (list string))
    : result (iniError + string) (list serverLaunch * list string) :=
  match loadServersIni file startTag with
  | Err e => Err (inl e)
  | Ok entries =>
      let entries := match entries with
      | Some es => es
      | None => [mkLaunch 0 (logDirName 0 "nqserver" startTag) "nqserver" ["-dedicated"%string]]
      end in
      match mods with
      | Err e => Err (inr e)
      | Ok ms => Ok (entries, ms)
      end
  end.
End Ini.

(** * Port arguments (registry.go) *)

Section Port.
Context `{GoUnicode}.

(** The loop of registry.go [launchConfiguredPort], from the current token on. *)
Fixpoint configuredPortFrom (port : Z) (args : list string) : Z :=
  match args with
  | [] => port
  | a :: rest =>
      if negb (EqualFold a "-port") then configuredPortFrom port rest else
      match rest with
      | [] => port
      | v :: rest' =>
          if isLaunchKeyToken v then configuredPortFrom port rest else
          match Atoi v with
          | Some parsed =>
              if (parsed <? 0) || (65535 <? parsed) then configuredPortFrom port rest
              else configuredPortFrom parsed rest'
          | None => configuredPortFrom port rest
          end
      end
  end.

Definition launchConfiguredPort (launch : serverLaunch) : Z * bool :=
  let port := configuredPortFrom (-1) (Args launch) in (port, 0 <=? port).

(** The loop of registry.go [forceLaunchPortZero] from index [i] on: the last position it
will replace. *)
Fixpoint portValueIndex (i : nat) (replaceAt : option nat) (args : list string) : option nat :=
  match args with
  | a :: ((v :: rest') as rest) =>
      if negb (EqualFold a "-port") || isLaunchKeyToken v then portValueIndex (S i) replaceAt rest
      else portValueIndex (S (S i)) (Some (S i)) rest'
  | _ => replaceAt
  end.

Definition forceLaunchPortZero (args : list string) : list string :=
  match portValueIndex 0 None args with
  | Some i => <[i := "0"%string]> args
  | None => args ++ ["-port"; "0"]%string
  end.
End Port.

(** * Properties of templates *)

(** The value a template [%k] denotes: that of the first key token [k] followed by a value. *)
Fixpoint firstKeyValue (k : string) (args : list string) : option string :=
  match args with
  | t :: ((v :: _) as rest) =>
      if isLaunchKeyToken t && (tail1 t =? k)%string && negb (isLaunchKeyToken v) then Some v
      else firstKeyValue k rest
  | _ => None
  end.

Definition noteTemplateValue (seen : gmap string string) (t : string) (rest : list string) :=
  match seen !! tail1 t, rest with
  | None, v :: _ => if isLaunchKeyToken v then seen else <[tail1 t := v]> seen
  | _, _ => seen
  end.

Lemma collectTemplateValues_cons seen t rest :
  collectTemplateValues seen (t :: rest)
  = collectTemplateValues (if isLaunchKeyToken t then noteTemplateValue seen t rest else seen) rest.
Proof.
  cbn [collectTemplateValues]. destruct (isLaunchKeyToken t); [|done].
  fold (noteTemplateValue seen t rest). generalize (noteTemplateValue seen t rest) as s.
  clear seen. intros s. induction rest as [|v r IH]; [done|].
  destruct (isLaunchKeyToken v) eqn:Hv; [done|]. rewrite IH.
  symmetry. cbn [collectTemplateValues]. by rewrite Hv.
Qed.

Lemma noteTemplateValue_lookup seen t rest k :
  noteTemplateValue seen t rest !! k
  = match seen !! k with
    | Some v => Some v
    | None => match rest with
              | v :: _ => if (tail1 t =? k)%string && negb (isLaunchKeyToken v) then Some v else None
              | [] => None
              end
    end.
Proof.
  unfold noteTemplateValue. destruct (String.eqb_spec (tail1 t) k) as [<-|Hne].
  - destruct (seen !! tail1 t) eqn:Hs; [done|].
    destruct rest as [|v r]; [done|]. destruct (isLaunchKeyToken v); cbn; [done|].
    by rewrite lookup_insert_eq.
  - destruct (seen !! tail1 t); [by destruct (seen !! k), rest|].
    destruct rest as [|v r]; [by destruct (seen !! k)|].
    destruct (isLaunchKeyToken v); cbn; [by destruct (seen !! k)|].
    rewrite lookup_insert_ne by done. by destruct (seen !! k).
Qed.

Lemma collectTemplateValues_lookup seen args k :
  collectTemplateValues seen args !! k
  = match seen !! k with Some v => Some v | None => firstKeyValue k args end.
Proof.
  revert seen; induction args as [|t rest IH]; intros seen.
  { cbn. by destruct (seen !! k). }
  rewrite collectTemplateValues_cons, IH.
  destruct (isLaunchKeyToken t) eqn:Ht; [rewrite noteTemplateValue_lookup|];
    destruct (seen !! k); try done; destruct rest as [|v r]; try done;
    cbn [firstKeyValue]; rewrite Ht; cbn [andb]; [|done].
  by destruct ((tail1 t =? k)%string && negb (isLaunchKeyToken v)).
Qed.

(** [applyLaunchArgTemplates] keeps the number and order of the arguments; an argument
    [%k] becomes the value that follows the first key token [-k] or [+k] that has one, and stays
    as it is when there is none; every other argument is unchanged. *)
Theorem applyLaunchArgTemplates_correct (args : list string) (i : nat) :
  applyLaunchArgTemplates args !! i
  = (fun t => if HasPrefix t "%" then default t (firstKeyValue (tail1 t) args) else t)
      <$> args !! i.
Proof.
  unfold applyLaunchArgTemplates. rewrite list_lookup_fmap.
  destruct (args !! i) as [t|]; [|done]. cbn. f_equal.
  unfold substTemplate. by rewrite collectTemplateValues_lookup, lookup_empty.
Qed.

(** * Properties of group merging *)

(** The tokens of [l] that name the key [k]. *)
Definition namesKey (k t : string) : bool := isLaunchKeyToken t && (tail1 t =? k)%string.
Definition keyUses (k : string) (l : list string) : list string := List.filter (namesKey k) l.

Lemma keyUses_app k l m : keyUses k (l ++ m) = keyUses k l ++ keyUses k m.
Proof. apply List.filter_app. Qed.

Lemma keyUses_cons k t l :
  keyUses k (t :: l) = if namesKey k t then t :: keyUses k l else keyUses k l.
Proof. done. Qed.

(** The values after a key token, and what follows them. *)
Fixpoint keyValues (l : list string) : list string * list string :=
  match l with
  | [] => ([], [])
  | v :: r => if isLaunchKeyToken v then ([], l)
              else let '(vs, rest) := keyValues r in (v :: vs, rest)
  end.

Lemma keyValues_length l : (length (keyValues l).2 <= length l)%nat.
Proof.
  induction l as [|v r IH]; cbn; [lia|].
  destruct (isLaunchKeyToken v); cbn; [lia|]. destruct (keyValues r); cbn in *. lia.
Qed.

Lemma expandGroup_cons explicit inserted t rest :
  expandGroup explicit inserted (t :: rest)
  = if isLaunchKeyToken t then
      if bool_decide (tail1 t ∈ explicit ∨ tail1 t ∈ inserted)
      then expandGroup explicit inserted (keyValues rest).2
      else let '(o, i) := expandGroup explicit ({[tail1 t]} ∪ inserted) rest in (t :: o, i)
    else let '(o, i) := expandGroup explicit inserted rest in (t :: o, i).
Proof.
  cbn [expandGroup]. destruct (isLaunchKeyToken t); [|done]. case_bool_decide.
  - clear. induction rest as [|v r IH]; [done|]. cbn [keyValues].
    destruct (isLaunchKeyToken v); [done|]. rewrite IH. by destruct (keyValues r).
  - match goal with |- (let '(_, _) := ?a in _) = (let '(_, _) := ?b in _) =>
      enough (a = b) as -> by done end.
    generalize ({[tail1 t]} ∪ inserted) as ins. clear. intros ins.
    induction rest as [|v r IH]; [done|].
    destruct (isLaunchKeyToken v) eqn:Hv; [done|]. rewrite IH. symmetry.
    cbn [expandGroup]. by rewrite Hv.
Qed.

(** The group expansion's effect on one key: silent when the key is taken, at most one use and
    the key recorded when it is not. *)
Lemma expandGroup_key explicit k : forall n inserted group,
  (length group <= n)%nat ->
  let '(out, ins) := expandGroup explicit inserted group in
  inserted ⊆ ins /\
  (k ∈ explicit ∨ k ∈ inserted -> keyUses k out = []) /\
  (length (keyUses k out) <= 1)%nat /\
  (keyUses k out <> [] -> k ∈ ins).
Proof.
  induction n as [|n IH]; intros inserted group Hn;
    (destruct group as [|t rest]; [cbn; split_and!; [set_solver|done|lia|done]|]); cbn in Hn; [lia|].
  rewrite expandGroup_cons. destruct (isLaunchKeyToken t) eqn:Ht.
  - case_bool_decide as Hin.
    { apply IH. pose proof (keyValues_length rest). lia. }
    specialize (IH ({[tail1 t]} ∪ inserted) rest ltac:(lia)).
    destruct (expandGroup explicit ({[tail1 t]} ∪ inserted) rest) as [out ins].
    destruct IH as (Hsub & Hsil & Hle & Hrec).
    rewrite keyUses_cons. unfold namesKey. rewrite Ht. cbn [andb].
    destruct (String.eqb_spec (tail1 t) k) as [<-|Hne].
    + rewrite Hsil by set_solver. cbn. split_and!; [set_solver|set_solver|lia|set_solver].
    + split_and!; [set_solver|set_solver|done|set_solver].
  - specialize (IH inserted rest ltac:(lia)).
    destruct (expandGroup explicit inserted rest) as [out ins].
    rewrite keyUses_cons. unfold namesKey. by rewrite Ht.
Qed.

Lemma mergeFields_explicit groups explicit k : k ∈ explicit -> forall fields inserted,
  keyUses k (mergeFields groups explicit inserted fields)
  = keyUses k (List.filter (fun t => bool_decide (groups !! t = None)) fields).
Proof.
  intros Hk; induction fields as [|t rest IH]; intros inserted; [done|]. cbn [mergeFields List.filter].
  destruct (groups !! t) as [g|].
  - pose proof (expandGroup_key explicit k (length g) inserted g ltac:(lia)) as He.
    destruct (expandGroup explicit inserted g) as [out ins].
    destruct He as (_ & Hsil & _). rewrite keyUses_app, Hsil, IH by auto. done.
  - rewrite bool_decide_true by done. rewrite !keyUses_cons, IH. done.
Qed.

Lemma mergeFields_once groups explicit k : forall fields inserted,
  keyUses k fields = [] ->
  (length (keyUses k (mergeFields groups explicit inserted fields)) <= 1)%nat /\
  (k ∈ inserted -> keyUses k (mergeFields groups explicit inserted fields) = []).
Proof.
  induction fields as [|t rest IH]; intros inserted Hno; [cbn; auto with lia|].
  rewrite keyUses_cons in Hno. cbn [mergeFields]. destruct (groups !! t) as [g|].
  - pose proof (expandGroup_key explicit k (length g) inserted g ltac:(lia)) as He.
    destruct (expandGroup explicit inserted g) as [out ins].
    destruct He as (Hsub & Hsil & Hle & Hrec).
    assert (keyUses k rest = []) as Hr by (destruct (namesKey k t); done).
    destruct (IH ins Hr) as [IH1 IH2]. rewrite keyUses_app, length_app. split.
    + destruct (decide (keyUses k out = [])) as [->|Hne]; [done|].
      rewrite IH2 by auto. cbn. lia.
    + intros Hin. rewrite Hsil, IH2 by set_solver. done.
  - rewrite keyUses_cons. destruct (namesKey k t); [done|]. auto.
Qed.

(** In [mergeLaunchGroups] the launch line's explicit arguments win: when a key is used on
    the line after the binary, the merged line uses that key exactly where the line itself does,
    in the same order, and no group contributes it. *)
Theorem mergeLaunchGroups_explicit_wins binary args groups k :
  keyUses k args <> [] ->
  keyUses k (mergeLaunchGroups (binary :: args) groups)
  = keyUses k (List.filter (fun t => bool_decide (groups !! t = None)) (binary :: args)).
Proof.
  intros Huse. unfold mergeLaunchGroups. rewrite bool_decide_false by done. cbn [orb].
  case_bool_decide as Hg.
  - subst groups. f_equal. symmetry. apply List.forallb_filter_id, forallb_forall.
    intros x _. by rewrite bool_decide_true by apply lookup_empty.
  - apply mergeFields_explicit. unfold explicitLaunchKeys. cbn [drop].
    apply elem_of_list_to_set, list_elem_of_In, in_map_iff.
    destruct (keyUses k args) as [|t l] eqn:Ht; [done|].
    assert (In t (keyUses k args)) as Hin by (rewrite Ht; by left).
    apply filter_In in Hin as [Hin Hn]. unfold namesKey in Hn.
    apply andb_true_iff in Hn as [Hkey Heq%String.eqb_eq].
    exists t. split; [done|]. by apply filter_In.
Qed.

(** A key the launch line does not use itself is contributed by at most one of the groups it
    references, and at most once. *)
Theorem mergeLaunchGroups_group_once fields groups k :
  keyUses k fields = [] ->
  (length (keyUses k (mergeLaunchGroups fields groups)) <= 1)%nat.
Proof.
  intros Hno. unfold mergeLaunchGroups.
  destruct (bool_decide (fields = []) || bool_decide (groups = ∅)).
  - rewrite Hno. cbn. lia.
  - by apply mergeFields_once.
Qed.

(** * Properties of the plan file *)

Definition supportedArgs (args : list string) : Prop :=
  forall a, a ∈ args -> a ∉ unsupportedLaunchArgs.

Lemma findUnsupportedLaunchArg_None args :
  findUnsupportedLaunchArg args = None <-> supportedArgs args.
Proof.
  unfold supportedArgs. induction args as [|a r IH]; cbn.
  - split; [by intros _ x ?%elem_of_nil|done].
  - case_bool_decide as Ha.
    + split; [done|]. intros H. by destruct (H a (list_elem_of_here _ _)).
    + rewrite IH. split.
      * intros H x [->|Hx]%elem_of_cons; auto.
      * intros H x Hx. apply H. by apply elem_of_cons; right.
Qed.

Section IniFacts.
Variable shlex_Split : string -> result string (list string).

(** What the scan loop maintains about the entries collected so far (newest first). *)
Record ini_ok (st : iniState) : Prop := {
  io_line : -1 <= lsLaunchLine st;
  io_bound : Forall (fun e => 0 <= Line e <= lsLaunchLine st) (lsEntries st);
  io_sorted : StronglySorted (fun a b => Line b < Line a) (lsEntries st);
  io_args : Forall (fun e => supportedArgs (Args e)) (lsEntries st);
}.

Lemma ini_ok_start : ini_ok (mkIni 0 ∅ (-1) []).
Proof. constructor; cbn; [lia|constructor..]. Qed.

Lemma ini_ok_skip n g st : ini_ok st -> ini_ok (mkIni n g (lsLaunchLine st) (lsEntries st)).
Proof. by intros []. Qed.

Lemma ini_ok_bump n g st : ini_ok st -> ini_ok (mkIni n g (lsLaunchLine st + 1) (lsEntries st)).
Proof.
  intros [Hl Hb Hs Ha]. constructor; cbn; try done; [lia|].
  eapply Forall_impl; [exact Hb|]. cbn. lia.
Qed.

Lemma ini_ok_add n g st e :
  ini_ok st -> Line e = lsLaunchLine st + 1 -> supportedArgs (Args e) ->
  ini_ok (mkIni n g (lsLaunchLine st + 1) (e :: lsEntries st)).
Proof.
  intros [Hl Hb Hs Ha] He Hargs. constructor; cbn; [lia| | |by constructor].
  - constructor; [lia|]. eapply Forall_impl; [exact Hb|]. cbn. lia.
  - constructor; [done|]. eapply Forall_impl; [exact Hb|]. cbn. lia.
Qed.

Lemma iniLine_ok startTag st text st' :
  ini_ok st -> iniLine shlex_Split startTag st text = Ok st' -> ini_ok st'.
Proof.
  intros Hok. unfold iniLine.
  destruct (TrimSpace text =? "")%string; [intros [= <-]; by apply ini_ok_skip|].
  destruct (isIniComment _); [intros [= <-]; by apply ini_ok_skip|].
  destruct (shlex_Split _) as [[|f0 frest]|]; [intros [= <-]; by apply ini_ok_skip| |done].
  destruct (HasPrefix f0 "@").
  { destruct (len f0 <=? 1); [done|]. intros [= <-]. by apply ini_ok_skip. }
  destruct (if bool_decide _ then _ else _) as [|binary rest].
  { intros [= <-]. by apply ini_ok_skip. }
  destruct (findUnsupportedLaunchArg _) eqn:Hu; intros [= <-].
  - by apply ini_ok_bump.
  - apply ini_ok_add; [done..|]. by apply findUnsupportedLaunchArg_None.
Qed.

Lemma iniLines_ok startTag lines : forall st st',
  ini_ok st -> iniLines shlex_Split startTag st lines = Ok st' -> ini_ok st'.
Proof.
  induction lines as [|l r IH]; cbn; intros st st' Hok; [by intros [= <-]|].
  destruct (iniLine _ _ _ _) eqn:Hl; [|done]. eauto using iniLine_ok.
Qed.

(** A plan [loadServersIni] accepts has at least one launch, numbers the launches with
non-negative, strictly increasing lines (so server ids never collide), and never keeps a
launch with an unsupported argument. *)
Theorem loadServersIni_plan file startTag entries :
  loadServersIni shlex_Split file startTag = Ok (Some entries) ->
  entries <> [] /\
  StronglySorted (fun a b => Line a < Line b) entries /\
  Forall (fun e => 0 <= Line e /\ supportedArgs (Args e)) entries.
Proof.
  destruct file as [| | | |lines scanErr]; cbn; try discriminate.
  destruct (iniLines _ _ _ _) as [st|] eqn:Hst; [|discriminate].
  pose proof (iniLines_ok _ _ _ _ ini_ok_start Hst) as [_ Hb Hs Ha].
  destruct scanErr; [discriminate|].
  destruct (rev (lsEntries st)) as [|e0 es] eqn:Hr; [discriminate|].
  intros [= <-]. rewrite <- Hr. split_and!.
  - by rewrite Hr.
  - by apply StronglySorted_rev in Hs.
  - apply Forall_rev, Forall_and; split; [|done].
  eapply Forall_impl; [exact Hb|]. cbn. lia.
Qed.
End IniFacts.

(** * The plan that a file means *)

Section Plan.
Variable shlex_Split : string -> result string (list string).

(** What a line is, by itself: nothing, a group of defaults, a server, or an error. *)
Inductive lineKind :=
  | lineEmpty | lineGroup (name : string) (fields : list string)
  | lineLaunch (fields : list string) | lineBad (err : Z -> iniError).
Definition kindOf (text : string) : lineKind :=
  let raw := TrimSpace text in
  if (raw =? "")%string || isIniComment raw then lineEmpty else
  match shlex_Split raw with
  | Err e => lineBad (fun n => EShlex n e)
  | Ok [] => lineEmpty
  | Ok (f0 :: frest) =>
      if HasPrefix f0 "@" then if len f0 <=? 1 then lineBad (fun n => EGroupName n f0) else lineGroup f0 frest
      else lineLaunch (f0 :: frest)
  end.

(** What the lines above make of it: the groups they define, the later of two with one name, and
    how many servers they have. *)
Definition groupsOf (above : list string) : gmap string (list string) :=
  foldl (fun groups text => match kindOf text with lineGroup name fields => <[name := fields]> groups | _ => groups end) ∅ above.
Definition isLaunch (text : string) : bool := match kindOf text with lineLaunch _ => true | _ => false end.
Definition launchesOf (above : list string) : Z := Z.of_nat (length (List.filter isLaunch above)).

(** The server of a line under others: its number, its arguments with the defaults of the groups it
    names and its templates; a line with an unsupported argument counts but starts nothing. *)
Definition entryOf (startTag : string) (above : list string) (text : string) : list serverLaunch :=
  match kindOf text with
  | lineLaunch fields =>
      match mergeLaunchGroups fields (groupsOf above) with
      | binary :: rest =>
          let args := applyLaunchArgTemplates rest in
          if existsb (fun a => bool_decide (a ∈ unsupportedLaunchArgs)) args then []
          else [mkLaunch (launchesOf above) (logDirName (launchesOf above) binary startTag) binary args]
      | [] => []
      end
  | _ => []
  end.
Definition entriesOf (startTag : string) (lines : list string) : list serverLaunch :=
  concat (imap (fun i text => entryOf startTag (take i lines) text) lines).
(** The errors of the lines, with their numbers from 1. *)
Definition errorsOf (lines : list string) : list iniError :=
  concat (imap (fun i text => match kindOf text with lineBad err => [err (Z.of_nat i + 1)] | _ => [] end) lines).

(** The plan a file means: its first error if there is one, then the reading's own, and its servers
    otherwise, of which there must be one. *)
Definition planOf (file : iniFile) (startTag : string) : result iniError (option (list serverLaunch)) :=
  match file with
  | IniMissing => Ok None
  | IniStatError e => Err (EStat e)
  | IniIsDir => Err EIsDir
  | IniOpenError e => Err (EOpen e)
  | IniLines lines scanErr =>
      match errorsOf lines, scanErr, entriesOf startTag lines with
      | err :: _, _, _ => Err err
      | [], Some e, _ => Err (ERead e)
      | [], None, [] => Err ENoLaunchLines
      | [], None, entries => Ok (Some entries)
      end
  end.

Lemma foldl_snoc {A B} (f : A -> B -> A) a l x : foldl f a (l ++ [x]) = f (foldl f a l) x.
Proof. by rewrite foldl_app. Qed.

Lemma groupsOf_names above name : is_Some (groupsOf above !! name) -> HasPrefix name "@" = true.
Proof.
  revert name. induction above as [|text above IH] using rev_ind; intros name; unfold groupsOf.
  { intros [fs Hfs]. cbn in Hfs. by rewrite lookup_empty in Hfs. }
  rewrite foldl_snoc. fold (groupsOf above). destruct (kindOf text) as [|n fs| |] eqn:Hk; [by apply IH| |by apply IH..].
  destruct (decide (n = name)) as [->|Hne]; [intros _|rewrite lookup_insert_ne by done; apply IH].
  unfold kindOf in Hk. destruct (_ || _); [done|]. destruct (shlex_Split _) as [[|f0 fr]|]; [done| |done].
  destruct (HasPrefix f0 "@") eqn:Hp; [|done]. destruct (len f0 <=? 1); [done|]. by injection Hk as -> ->.
Qed.

(** A server's line is never empty once merged: its first word is no group. *)
Lemma merged_binary above text fields :
  kindOf text = lineLaunch fields -> exists binary rest, mergeLaunchGroups fields (groupsOf above) = binary :: rest.
Proof.
  intros Hk. unfold kindOf in Hk. destruct (_ || _); [done|]. destruct (shlex_Split _) as [[|f0 fr]|]; [done| |done].
  destruct (HasPrefix f0 "@") eqn:Hp; [by destruct (len f0 <=? 1)|]. injection Hk as <-.
  unfold mergeLaunchGroups. destruct (_ || _); [by eexists _, _|]. cbn [mergeFields].
  destruct (groupsOf above !! f0) eqn:Hg; [|by eexists _, _].
  by rewrite (groupsOf_names above f0) in Hp by (by eexists).
Qed.

(** The state of the scan after some lines, none of which is an error. *)
Definition stateAfter (startTag : string) (above : list string) : iniState :=
  mkIni (Z.of_nat (length above)) (groupsOf above) (launchesOf above - 1) (rev (entriesOf startTag above)).

Lemma imap_prefix_snoc {A} (f : list string -> string -> list A) above text :
  concat (imap (fun i t => f (take i (above ++ [text])) t) (above ++ [text]))
  = concat (imap (fun i t => f (take i above) t) above) ++ f above text.
Proof.
  rewrite imap_app, concat_app. cbn. rewrite app_nil_r, Nat.add_0_r, take_app_length. f_equal. f_equal.
  apply imap_ext. intros i t Hi. f_equal. apply take_app_le. apply lookup_lt_Some in Hi. lia.
Qed.

Lemma findUnsupported_existsb args :
  existsb (fun a => bool_decide (a ∈ unsupportedLaunchArgs)) args
  = match findUnsupportedLaunchArg args with Some _ => true | None => false end.
Proof. induction args as [|a args IH]; [done|]. cbn. by case_bool_decide. Qed.

Lemma groupsOf_snoc above text :
  groupsOf (above ++ [text]) = match kindOf text with lineGroup name fields => <[name := fields]> (groupsOf above) | _ => groupsOf above end.
Proof. unfold groupsOf. by rewrite foldl_snoc. Qed.
Lemma launchesOf_snoc above text : launchesOf (above ++ [text]) = launchesOf above + (if isLaunch text then 1 else 0).
Proof. unfold launchesOf. rewrite List.filter_app, length_app. cbn. destruct (isLaunch text); cbn; lia. Qed.
Lemma entriesOf_snoc startTag above text : entriesOf startTag (above ++ [text]) = entriesOf startTag above ++ entryOf startTag above text.
Proof. apply (imap_prefix_snoc (entryOf startTag)). Qed.

Lemma stateAfter_snoc startTag above text :
  stateAfter startTag (above ++ [text])
  = mkIni (Z.of_nat (length above) + 1)
      (match kindOf text with lineGroup name fields => <[name := fields]> (groupsOf above) | _ => groupsOf above end)
      (launchesOf above - 1 + (if isLaunch text then 1 else 0))
      (rev (entryOf startTag above text) ++ rev (entriesOf startTag above)).
Proof.
  unfold stateAfter. rewrite groupsOf_snoc, launchesOf_snoc, entriesOf_snoc, rev_app_distr. f_equal; [|lia].
  rewrite length_app. cbn. lia.
Qed.

Lemma iniLine_state startTag above text :
  iniLine shlex_Split startTag (stateAfter startTag above) text
  = match kindOf text with
    | lineBad err => Err (err (Z.of_nat (length above) + 1))
    | _ => Ok (stateAfter startTag (above ++ [text]))
    end.
Proof.
  rewrite stateAfter_snoc. unfold iniLine, isLaunch, entryOf. cbn [lsLineNo lsGroups lsLaunchLine lsEntries stateAfter]. cbv zeta.
  destruct (kindOf text) as [|name fs|fields|err] eqn:Hk; pose proof Hk as Hk'; unfold kindOf in Hk'; cbv zeta in Hk';
    rewrite ?Z.add_0_r; cbn [rev app];
    (destruct (TrimSpace text =? "")%string; cbn [orb] in Hk'; [done|]);
    (destruct (isIniComment (TrimSpace text)); [done|]);
    (destruct (shlex_Split (TrimSpace text)) as [[|f0 fr]|e]; [done| |]); try (by injection Hk' as <-); try done;
    destruct (HasPrefix f0 "@"); try done; try (destruct (len f0 <=? 1); try done; by injection Hk' as <-);
    try (destruct (len f0 <=? 1); try done; by injection Hk' as <- <-).
  injection Hk' as <-.
  assert ((if bool_decide (groupsOf above = ∅) then f0 :: fr else mergeLaunchGroups (f0 :: fr) (groupsOf above))
          = mergeLaunchGroups (f0 :: fr) (groupsOf above)) as ->.
  { unfold mergeLaunchGroups. by case_bool_decide. }
  destruct (merged_binary above text _ Hk) as (binary & rest & ->).
  replace (launchesOf above - 1 + 1) with (launchesOf above) by lia.
  rewrite findUnsupported_existsb. by destruct (findUnsupportedLaunchArg _).
Qed.

Lemma iniLines_state startTag lines : forall above,
  iniLines shlex_Split startTag (stateAfter startTag above) lines
  = match drop (length (errorsOf above)) (errorsOf (above ++ lines)) with
    | err :: _ => Err err
    | [] => Ok (stateAfter startTag (above ++ lines))
    end.
Proof.
  assert (forall above text, errorsOf (above ++ [text])
    = errorsOf above ++ match kindOf text with lineBad err => [err (Z.of_nat (length above) + 1)] | _ => [] end) as Hsnoc.
  { intros above text. unfold errorsOf. rewrite imap_app, concat_app. cbn. by rewrite app_nil_r, Nat.add_0_r. }
  assert (forall above lines, exists more, errorsOf (above ++ lines) = errorsOf above ++ more) as Hext.
  { intros above ls. unfold errorsOf. rewrite imap_app, concat_app. by eexists. }
  induction lines as [|text lines IH]; intros above; cbn [iniLines].
  { by rewrite app_nil_r, drop_all. }
  rewrite iniLine_state. pose proof (Hsnoc above text) as Hs.
  replace (above ++ text :: lines) with ((above ++ [text]) ++ lines) by (by rewrite <- app_assoc).
  destruct (kindOf text) as [| | |err].
  1,2,3: rewrite IH; rewrite app_nil_r in Hs; by rewrite Hs.
  destruct (Hext (above ++ [text]) lines) as [more ->]. rewrite Hs, <- app_assoc, drop_app_length. done.
Qed.

(** C4.  The plan of a file is what its lines say, each under those above it: [loadServersIni] gives
    the error of the first line that has one, and otherwise the servers of its lines in order, each
    numbered by the servers above it, with the defaults of the groups defined above it and with its
    templates filled in, those with an unsupported argument left out. *)
Theorem loadServersIni_means file startTag :
  loadServersIni shlex_Split file startTag = planOf file startTag.
Proof.
  destruct file as [| | | |lines scanErr]; [done..|]. cbn [loadServersIni planOf].
  change (mkIni 0 ∅ (-1) []) with (stateAfter startTag []). rewrite (iniLines_state startTag lines []). cbn [app].
  change (errorsOf []) with (@nil iniError). cbn [length]. rewrite drop_0.
  destruct (errorsOf lines); [|done]. destruct scanErr; [done|]. cbn [stateAfter lsEntries]. rewrite rev_involutive.
  by destruct (entriesOf startTag lines).
Qed.
End Plan.

(** * Properties of the port arguments *)

Section PortFacts.
Context `{U : GoUnicode}.

(** Unicode folds no character outside ASCII to one of [-], [p], [o], [r], [t]. *)
Definition foldsPlainly : Prop :=
  forall s, isASCII s = false -> unicode_EqualFold s "-port" = false.

Hypothesis Hfold : foldsPlainly.

Lemma lower_byte_dash c : lower_byte c = "-"%char -> c = "-"%char.
Proof. destruct c as [[] [] [] [] [] [] [] []]; vm_compute; intros; congruence. Qed.

Lemma EqualFold_port_key s : EqualFold s "-port" = true -> isLaunchKeyToken s = true.
Proof.
  unfold EqualFold. destruct (isASCII s) eqn:Ha.
  - change (isASCII "-port") with true. cbn [andb]. rewrite String.eqb_eq.
  change (lower_ascii "-port") with "-port"%string.
  intros Heq%(f_equal blist). unfold lower_ascii in Heq. rewrite blist_btext in Heq.
  unfold isLaunchKeyToken, len.
  destruct (blist s) as [|c [|d r]]; [done..|]. cbn in Heq.
  injection Heq as Hc _. apply lower_byte_dash in Hc as ->.
  cbn [length]. rewrite andb_true_iff. split; [apply Z.leb_le; lia|done].
  - cbn [andb]. by rewrite Hfold.
Qed.

Lemma EqualFold_port_port : EqualFold "-port" "-port" = true.
Proof. reflexivity. Qed.

(** Where the port scan stands after the value [v] of a [-port] argument. *)
Definition portAfter (port : Z) (v : string) : Z :=
  match Atoi v with
  | Some parsed => if (parsed <? 0) || (65535 <? parsed) then port else parsed
  | None => port
  end.

Lemma configuredPortFrom_skip port a v rest :
  EqualFold a "-port" = false \/ isLaunchKeyToken v = true ->
  configuredPortFrom port (a :: v :: rest) = configuredPortFrom port (v :: rest).
Proof.
  intros H. cbn [configuredPortFrom].
  destruct (EqualFold a "-port"); cbn [negb]; [|done]. by destruct H as [| ->].
Qed.

Lemma configuredPortFrom_take port a v rest :
  EqualFold a "-port" = true -> isLaunchKeyToken v = false ->
  configuredPortFrom port (a :: v :: rest) = configuredPortFrom (portAfter port v) rest.
Proof.
  intros Ha Hv. cbn [configuredPortFrom]. rewrite Ha, Hv. cbn [negb].
  assert (EqualFold v "-port" = false) as ->.
  { destruct (EqualFold v "-port") eqn:He; [|done].
  by rewrite (EqualFold_port_key v He) in Hv. }
  cbn [negb]. unfold portAfter.
  destruct (Atoi v) as [z|]; [|done]. by destruct ((z <? 0) || (65535 <? z)).
Qed.

Lemma portValueIndex_cons i r a v rest :
  portValueIndex i r (a :: v :: rest)
  = if negb (EqualFold a "-port") || isLaunchKeyToken v then portValueIndex (S i) r (v :: rest)
  else portValueIndex (S (S i)) (Some (S i)) rest.
Proof. done. Qed.

Lemma portValueIndex_acc args : forall i r,
  portValueIndex i r args
  = match portValueIndex i None args with Some j => Some j | None => r end.
Proof.
  induction args as [|a|a v rest IH1 IH2] using list_pair_ind; intros i r; [done..|].
  rewrite !portValueIndex_cons. destruct (negb _ || _); [done|].
  rewrite IH1. symmetry. rewrite IH1. by destruct (portValueIndex (S (S i)) None rest).
Qed.

Lemma portValueIndex_None_cons i a v rest :
  portValueIndex i None (a :: v :: rest) = None ->
  (EqualFold a "-port" = false \/ isLaunchKeyToken v = true) /\
  portValueIndex (S i) None (v :: rest) = None.
Proof.
  rewrite portValueIndex_cons.
  destruct (EqualFold a "-port"), (isLaunchKeyToken v); cbn [negb orb]; auto.
  rewrite portValueIndex_acc. by destruct (portValueIndex _ None rest).
Qed.

Lemma configuredPortFrom_none args : forall i port,
  portValueIndex i None args = None -> configuredPortFrom port args = port.
Proof.
  induction args as [|a args IH]; intros i port; [done|].
  destruct args as [|v rest].
  - intros _. cbn. by destruct (EqualFold a "-port").
  - intros [Hs Hn]%portValueIndex_None_cons. rewrite configuredPortFrom_skip by done. eauto.
Qed.

Lemma configuredPortFrom_append args : forall i port,
  portValueIndex i None args = None ->
  configuredPortFrom port (args ++ ["-port"; "0"]%string) = 0.
Proof.
  induction args as [|a args IH]; intros i port.
  - intros _. cbn [app]. by rewrite configuredPortFrom_take by done.
  - destruct args as [|v rest].
  + intros _. cbn [app]. rewrite configuredPortFrom_skip by auto.
  by rewrite configuredPortFrom_take by done.
  + intros [Hs Hn]%portValueIndex_None_cons. cbn [app].
  rewrite configuredPortFrom_skip by done. eauto.
Qed.

Lemma portValueIndex_Some_bound args : forall i j,
  portValueIndex i None args = Some j -> (i < j)%nat.
Proof.
  induction args as [|a|a v rest IH1 IH2] using list_pair_ind; intros i j; [done..|].
  rewrite portValueIndex_cons. destruct (negb _ || _).
  - intros Hj%IH2. lia.
  - rewrite portValueIndex_acc. destruct (portValueIndex _ None rest) as [k|] eqn:Hk.
  + intros [= <-]. apply IH1 in Hk. lia.
  + intros [= <-]. lia.
Qed.

Lemma configuredPortFrom_replace args : forall i j port,
  portValueIndex i None args = Some j ->
  configuredPortFrom port (<[(j - i)%nat := "0"%string]> args) = 0.
Proof.
  induction args as [|a|a v rest IH1 IH2] using list_pair_ind; intros i j port; [done..|].
  rewrite portValueIndex_cons.
  destruct (negb (EqualFold a "-port") || isLaunchKeyToken v) eqn:Hc; intros Hj.
  - pose proof (portValueIndex_Some_bound _ _ _ Hj) as Hb.
  specialize (IH2 (S i) j port Hj). revert IH2.
  replace (j - S i)%nat with (S (j - S (S i))) by lia.
  replace (j - i)%nat with (S (S (j - S (S i)))) by lia. cbn [insert list_insert].
  intros <-. apply configuredPortFrom_skip.
  apply orb_true_iff in Hc as [Hc%negb_true_iff|Hc]; auto.
  - apply orb_false_iff in Hc as [Ha%negb_false_iff Hv].
  rewrite portValueIndex_acc in Hj.
  destruct (portValueIndex (S (S i)) None rest) as [k|] eqn:Hk; injection Hj as <-.
  + pose proof (portValueIndex_Some_bound _ _ _ Hk) as Hb.
  replace (k - i)%nat with (S (S (k - S (S i)))) by lia. cbn [insert list_insert].
  rewrite configuredPortFrom_take by done. by apply IH1.
  + replace (S i - i)%nat with 1%nat by lia. cbn [insert list_insert].
  rewrite configuredPortFrom_take by done. eauto using configuredPortFrom_none.
Qed.

(** Whatever the template's arguments, the arguments of a replica always configure port 0:
[launchConfiguredPort] reads back the port [forceLaunchPortZero] forces. *)
Theorem forceLaunchPortZero_configured launch :
  launchConfiguredPort
  (mkLaunch (Line launch) (LogDir launch) (Binary launch) (forceLaunchPortZero (Args launch)))
  = (0, true).
Proof.
  unfold launchConfiguredPort, forceLaunchPortZero. cbn [Args].
  destruct (portValueIndex 0 None (Args launch)) as [j|] eqn:Hj.
  - pose proof (configuredPortFrom_replace (Args launch) 0 j (-1) Hj) as H.
  rewrite Nat.sub_0_r in H. by rewrite H.
  - by rewrite (configuredPortFrom_append _ 0).
Qed.
End PortFacts.

(** * Witnesses *)

Definition words_split (s : string) : result string (list string) := Ok (Fields s).

Lemma mergeLaunchGroups_explicit_wins_witness :
  keyUses "game" ["@def"; "-game"; "ffa"]%string <> [] /\
  keyUses "game" (mergeLaunchGroups ["nqserver"; "@def"; "-game"; "ffa"]%string
                    {["@def"%string := ["-game"; "id1"; "-port"; "0"]%string]})
  = ["-game"%string].
Proof.
  split; [vm_compute; discriminate|].
  rewrite (mergeLaunchGroups_explicit_wins "nqserver" ["@def"; "-game"; "ffa"]%string);
    [vm_compute; reflexivity|vm_compute; discriminate].
Defined.

Lemma mergeLaunchGroups_group_once_witness :
  keyUses "port" ["nqserver"; "@a"; "@b"]%string = [] /\
  (length (keyUses "port" (mergeLaunchGroups ["nqserver"; "@a"; "@b"]%string
     {["@a"%string := ["-port"; "1"]%string; "@b"%string := ["-port"; "2"]%string]})) <= 1)%nat.
Proof.
  split; [vm_compute; reflexivity|].
  apply mergeLaunchGroups_group_once. vm_compute. reflexivity.
Defined.

Definition sample_ini : iniFile :=
  IniLines ["# comment"; "@def -dedicated 16 -port 0"; "nqserver @def -game ffa";
            "nqserver -path x"; "nqserver @def -game %dedicated"]%string None.

Lemma loadServersIni_plan_witness :
  exists entries,
    loadServersIni words_split sample_ini "T" = Ok (Some entries) /\
    map Line entries = [0; 2] /\ entries <> [].
Proof.
  eexists. split; [vm_compute; reflexivity|]. split; [reflexivity|].
  refine (proj1 (loadServersIni_plan words_split sample_ini "T" _ _)).
  vm_compute. reflexivity.
Defined.

(** The same plan, as the lines mean it; and one whose third line defines no group. *)
Example planOf_sample :
  map Line (entriesOf words_split "T" ["@d -port 0"; "nqserver @d"; "nqserver -rogue"; "nqserver @d -port 1"]) = [0; 2] /\
  map Args (entriesOf words_split "T" ["@d -port 0"; "nqserver @d"; "nqserver -rogue"; "nqserver @d -port 1"])
  = [["-port"; "0"]; ["-port"; "1"]]%string /\
  planOf words_split (IniLines ["nqserver"; ""; "@ -port 0"; "@ x"] None) "T" = Err (EGroupName 3 "@").
Proof. split_and!; vm_compute; reflexivity. Qed.

Lemma plain_foldsPlainly : foldsPlainly (U := plain_unicode).
Proof.
  intros s Hs. cbn [unicode_EqualFold plain_unicode]. apply String.eqb_neq.
  intros Heq. by rewrite <- isASCII_lower, Heq in Hs.
Qed.

Lemma forceLaunchPortZero_configured_witness :
  foldsPlainly (U := plain_unicode) /\
  launchConfiguredPort (H := plain_unicode)
    (mkLaunch 0 "" "nqserver"
       (forceLaunchPortZero (H := plain_unicode) ["-dedicated"; "-PORT"; "26000"]%string))
  = (0, true).
Proof.
  split; [exact plain_foldsPlainly|].
  exact (forceLaunchPortZero_configured (U := plain_unicode) plain_foldsPlainly
    (mkLaunch 0 "" "nqserver" ["-dedicated"; "-PORT"; "26000"]%string)).
Defined.

(** The line number of an entry counts launch lines, not lines of the file. *)
Example launch_line_skips_comments :
  exists e, loadServersIni words_split (IniLines ["# first line"; "nqserver"]%string None) "T"
            = Ok (Some [e]) /\ Line e = 0.
Proof. eexists. split; vm_compute; reflexivity. Qed.
