(* ===== verification/Registry.v ===== *)
(** The server registry: internal/orch/registry.go, the instance state updates of state.go and
    the data of manager.go.

    Instances and servers are shared, mutable objects in the code.  An instance is reached only
    through the record created for its id, so its id is its pointer and [instances] is the object
    store; [instancesByID] is the set of ids the registry still maps.  A server object has a
    pointer of its own: [serversByID] and [serverByInstanceID] hold such pointers, and two of
    them may disagree about the object registered under one id.  Whether an operating-system
    process is alive is the environment's, the argument [alive]. *)
From S2P Require Import Prelude GoStrings LaunchPlan.

(** * Data *)

(** state.go [serverSpec] *)
Record serverSpec := mkSpec { spLine : Z; ListenPort : Z; SearchPath : list string }.

(** state.go [managedServer]: its pointer, the process behind [Cmd] and its console's pointer. *)
Record managedServer := mkManaged {
  msPtr : Z;
  msProcess : option Z;
  msConsole : option Z;
}.

(** state.go [instance]; the zero time of [LastSeen] is [None]. *)
Record instance := mkInstance {
  id : Z;
  Launch : serverLaunch;
  spec : option serverSpec;
  resolvedPortKnown : bool;
  resolvedPort : Z;
  resolvedSearchPath : list string;
  Running : option managedServer;
  lastError : string;
  Hostname : string;
  MapName : string;
  Players : Z;
  MaxPlayers : Z;
  LastSeen : option Z;
  relayConsoleReady : bool;
  awaitingServerInfo : bool;
  startupTimedOutOnce : bool;
}.
#[export] Instance eta_instance : EtaRecord instance := fun r =>
  mkInstance (id r) (Launch r) (spec r) (resolvedPortKnown r) (resolvedPort r)
    (resolvedSearchPath r) (Running r) (lastError r) (Hostname r) (MapName r) (Players r)
    (MaxPlayers r) (LastSeen r) (relayConsoleReady r) (awaitingServerInfo r)
    (startupTimedOutOnce r).

(** registry.go [instanceLifecycle] *)
Inductive instanceLifecycle := Warming | Active | Draining | Terminating.
#[export] Instance instanceLifecycle_eq_dec : EqDecision instanceLifecycle.
Proof. solve_decision. Defined.

(** registry.go [instanceState] *)
Record instanceState := mkState { Lifecycle : instanceLifecycle; ZeroPollStreak : Z }.

(** registry.go [server]; the zero time of [LastScaleUpAt] is [None]. *)
Record server := mkServer {
  ServerID : Z;
  sLine : Z;
  TemplateLaunch : serverLaunch;
  Autoscales : bool;
  InstanceIDs : list Z;
  RoundRobinCursor : Z;
  LastScaleUpAt : option Z;
  ScaleUpInFlight : bool;
  aggregateUsers : Z;
  aggregateMaxUsers : Z;
  joinableInstances : Z;
  joinableUsers : Z;
  joinableMaxUsers : Z;
  aggregateInstances : Z;
  DisplayHostname : string;
  DisplayMap : string;
  DisplayGameDir : string;
  instanceStates : gmap Z instanceState;
  joinDemandAt : list Z;
}.
#[export] Instance eta_server : EtaRecord server := fun s =>
  mkServer (ServerID s) (sLine s) (TemplateLaunch s) (Autoscales s) (InstanceIDs s)
    (RoundRobinCursor s) (LastScaleUpAt s) (ScaleUpInFlight s) (aggregateUsers s)
    (aggregateMaxUsers s) (joinableInstances s) (joinableUsers s) (joinableMaxUsers s)
    (aggregateInstances s) (DisplayHostname s) (DisplayMap s) (DisplayGameDir s)
    (instanceStates s) (joinDemandAt s).

(** manager.go [ServerManager], without its directories and log callbacks. *)
Record ServerManager := mkManager {
  instances : gmap Z instance;
  instancesByID : gset Z;
  instanceIDsByPort : gmap Z (list Z);
  servers : gmap Z server;
  nextServerPtr : Z;
  serversByID : gmap Z Z;
  serverByInstanceID : gmap Z Z;
  serverMaxInstances : Z;
  nextInstanceID : Z;
  runtimeBasedir : string;
}.
#[export] Instance eta_manager : EtaRecord ServerManager := fun m =>
  mkManager (instances m) (instancesByID m) (instanceIDsByPort m) (servers m) (nextServerPtr m)
    (serversByID m) (serverByInstanceID m) (serverMaxInstances m) (nextInstanceID m)
    (runtimeBasedir m).

(** registry.go constants; durations in nanoseconds. *)
Definition defaultServerMaxInstances : Z := 1.
Definition second : Z := 10 ^ 9.
Definition scaleUpCooldown : Z := 30 * second.
Definition despawnZeroPolls : Z := 6.
Definition demandWindow : Z := 30 * second.
Definition demandMinFreeSlots : Z := 4.
Definition demandSpawnReady : Z := 12 * second.

(** manager.go [NewServerManager] *)
Definition NewServerManager : ServerManager :=
  mkManager ∅ ∅ ∅ ∅ 0 ∅ ∅ defaultServerMaxInstances 0 "".

(** * Objects *)

(** m.instancesByID[id] *)
Definition instanceByID (m : ServerManager) (i : Z) : option instance :=
  if bool_decide (i ∈ instancesByID m) then instances m !! i else None.

(** A mutation through an instance pointer, and through a server pointer. *)
Definition updInstance (i : Z) (f : instance -> instance) (m : ServerManager) : ServerManager :=
  m <| instances ::= alter f i |>.
Definition updServer (p : Z) (f : server -> server) (m : ServerManager) : ServerManager :=
  m <| servers ::= alter f p |>.

Definition newInstance (i : Z) (launch : serverLaunch) : instance :=
  mkInstance i launch None false 0 [] None "" "" "" 0 0 None false false false.

(** * Ports and search paths (state.go) *)

(** state.go [activeGameDir] *)
Definition activeGameDir (searchPath : list string) : string :=
  match searchPath with [] => "" | g :: _ => g end.

Definition validPort (p : Z) : bool := (0 <? p) && (p <=? 65535).

(** state.go [recordListenPort] *)
Definition recordListenPort (rec : instance) : Z :=
  match spec rec with
  | Some sp => if validPort (ListenPort sp) then ListenPort sp
               else if resolvedPortKnown rec && validPort (resolvedPort rec)
                    then resolvedPort rec else 0
  | None => if resolvedPortKnown rec && validPort (resolvedPort rec) then resolvedPort rec else 0
  end.

(** registry.go [recordGameDir] *)
Definition recordGameDir (rec : instance) : string :=
  match spec rec with
  | Some sp => let g := activeGameDir (SearchPath sp) in
               if (g =? "")%string then activeGameDir (resolvedSearchPath rec) else g
  | None => activeGameDir (resolvedSearchPath rec)
  end.

(** The loop of state.go [normalizeSearchPath]. *)
Fixpoint normalizeSearchPathFrom (seen : gset string) (searchPath : list string) : list string :=
  match searchPath with
  | [] => []
  | raw :: rest =>
      let gameDir := TrimSpace raw in
      if (gameDir =? "")%string then normalizeSearchPathFrom seen rest else
      if ContainsAny gameDir "/\\" then normalizeSearchPathFrom seen rest else
      if bool_decide (gameDir ∈ seen) then normalizeSearchPathFrom seen rest else
      gameDir :: normalizeSearchPathFrom ({[gameDir]} ∪ seen) rest
  end.
Definition normalizeSearchPath (searchPath : list string) : list string :=
  normalizeSearchPathFrom ∅ searchPath.

(** state.go [applyResolvedSpecLocked] *)
Definition applyResolvedSpec (rec : instance) : instance :=
  if negb (resolvedPortKnown rec) || bool_decide (resolvedSearchPath rec = []) then rec
  else rec <| spec := Some (mkSpec (Line (Launch rec)) (resolvedPort rec)
                                   (resolvedSearchPath rec)) |>.

(** m.instanceIDsByPort[port], nil when absent *)
Definition idsAtPort (m : ServerManager) (port : Z) : list Z :=
  default [] (instanceIDsByPort m !! port).

(** state.go [assignPortLocked] on the instance object [i] *)
Definition assignPortLocked (i port : Z) (m : ServerManager) : ServerManager :=
  match instances m !! i with
  | None => m
  | Some rec =>
      if (port <? 0) || (65535 <? port) then m else
      if resolvedPortKnown rec && ((0 <? resolvedPort rec) || (port =? 0)) then m else
      let m := updInstance i (fun r => r <| resolvedPortKnown := true |>
                                         <| resolvedPort := port |>) m in
      if port <? 1 then m else
      let ids := idsAtPort m port in
      if bool_decide (i ∈ ids) then m
      else m <| instanceIDsByPort ::= <[port := ids ++ [i]]> |>
  end.

(** state.go [removeServerIDFromPortLocked] *)
Definition removeServerIDFromPortLocked (port serverID : Z) (m : ServerManager) : ServerManager :=
  if port <=? 0 then m else
  let ids := List.filter (fun x => negb (x =? serverID)) (idsAtPort m port) in
  match ids with
  | [] => m <| instanceIDsByPort ::= delete port |>
  | _ => m <| instanceIDsByPort ::= <[port := ids]> |>
  end.

(** state.go [updatePort] *)
Definition updatePort (i port : Z) (m : ServerManager) : ServerManager :=
  if (port <? 0) || (65535 <? port) then m
  else updInstance i applyResolvedSpec (assignPortLocked i port m).

(** state.go [updateSearchPathNormalized] *)
Definition updateSearchPathNormalized (i : Z) (searchPath : list string) (m : ServerManager)
    : ServerManager :=
  let m := match searchPath with
           | [] => m
           | _ => updInstance i (fun r => r <| resolvedSearchPath := searchPath |>) m
           end in
  updInstance i applyResolvedSpec m.

(** * Registry operations *)

Record serverInstanceCandidate := mkCandidate {
  listenPort : Z; players : Z; maxPlayers : Z }.

Section Registry.
Variable alive : Z -> bool.

(** registry.go [instanceRunningLocked] *)
Definition instanceRunning (rec : instance) : bool :=
  match Running rec with
  | Some srv => match msProcess srv with Some p => alive p | None => false end
  | None => false
  end.

(** m.instanceRunningLocked(m.instancesByID[id]): the running instance with that id, if any. *)
Definition runningByID (m : ServerManager) (i : Z) : option instance :=
  match instanceByID m i with
  | Some rec => if instanceRunning rec then Some rec else None
  | None => None
  end.

Definition runningInstances (m : ServerManager) (s : server) : list instance :=
  omap (runningByID m) (InstanceIDs s).

(** The lifecycle test of autoscale.go [serverRoutableCandidatesLocked]. *)
Definition lifecycleRoutable (s : server) (allowDraining : bool) (i : Z) : bool :=
  if Autoscales s then
  match instanceStates s !! i with
  | None => false
  | Some st => match Lifecycle st with
       | Active => true
       | Draining => allowDraining
       | _ => false
       end
  end
  else true.

Definition candidateOf (m : ServerManager) (s : server) (allowDraining : bool) (i : Z)
    : option serverInstanceCandidate :=
  match runningByID m i with
  | None => None
  | Some rec =>
      if lifecycleRoutable s allowDraining i then
      let port := recordListenPort rec in
      if (port <? 1) || (65535 <? port) then None
      else Some (mkCandidate port (Players rec) (MaxPlayers rec))
      else None
  end.

(** autoscale.go [serverRoutableCandidatesLocked] *)
Definition serverRoutableCandidatesLocked (m : ServerManager) (s : server) (allowDraining : bool)
  : list serverInstanceCandidate :=
  omap (candidateOf m s allowDraining) (InstanceIDs s).

(** registry.go [applyServerDisplayFromInstance] *)
Definition applyServerDisplayFromInstance (s : server) (rec : instance) : server :=
  let pick (new old : string) := if (new =? "")%string then old else new in
  s <| DisplayHostname := pick (TrimSpace (Hostname rec)) (DisplayHostname s) |>
  <| DisplayMap := pick (TrimSpace (MapName rec)) (DisplayMap s) |>
  <| DisplayGameDir := pick (recordGameDir rec) (DisplayGameDir s) |>.

Definition sumZ (f : instance -> Z) (l : list instance) : Z := foldr (fun r a => f r + a) 0 l.
Definition sumC (f : serverInstanceCandidate -> Z) (l : list serverInstanceCandidate) : Z :=
  foldr (fun c a => f c + a) 0 l.

(** registry.go [refreshServerSnapshotLocked] *)
Definition refreshServer (m : ServerManager) (s : server) : server :=
  let running := runningInstances m s in
  let s' := foldl applyServerDisplayFromInstance s running in
  let candidates := serverRoutableCandidatesLocked m s false in
  s' <| aggregateUsers := clamp_uint16 (sumZ Players running) |>
   <| aggregateMaxUsers := clamp_uint16 (sumZ MaxPlayers running) |>
   <| joinableInstances := clamp_uint16 (Z.of_nat (length candidates)) |>
   <| joinableUsers := clamp_uint16 (sumC players candidates) |>
   <| joinableMaxUsers := clamp_uint16 (sumC maxPlayers candidates) |>
   <| aggregateInstances := clamp_uint16 (Z.of_nat (length running)) |>.

Definition refreshServerSnapshotLocked (p : Z) (m : ServerManager) : ServerManager :=
  updServer p (refreshServer m) m.

(** registry.go [appendServerInstanceLocked]; the new instance's id is the id counter's value. *)
Definition appendServerInstanceLocked (p : Z) (launch : serverLaunch) (lc : instanceLifecycle)
  (m : ServerManager) : Z * ServerManager :=
  let i := nextInstanceID m in
  let m := m <| nextInstanceID := i + 1 |>
   <| instances ::= <[i := newInstance i launch]> |>
   <| instancesByID ::= union {[i]} |>
   <| serverByInstanceID ::= <[i := p]> |> in
  let m := updServer p (fun s => s <| InstanceIDs := InstanceIDs s ++ [i] |>
                         <| instanceStates ::= <[i := mkState lc 0]> |>) m in
  (i, refreshServerSnapshotLocked p m).

(** registry.go [setServerInstanceLifecycleLocked] *)
Definition setServerInstanceLifecycleLocked (p i : Z) (lc : instanceLifecycle) (m : ServerManager)
  : ServerManager :=
  refreshServerSnapshotLocked p
  (updServer p (fun s => s <| instanceStates ::= alter (fun _ => mkState lc 0) i |>) m).

(** registry.go [ensureServerInstanceStateLocked] *)
Definition ensureServerInstanceState (states : gmap Z instanceState) (i : Z)
  : instanceState * gmap Z instanceState :=
  match states !! i with
  | Some st => (st, states)
  | None => let st := mkState Warming 0 in (st, <[i := st]> states)
  end.

(** registry.go [resetServerInstanceState] *)
Definition resetServerInstanceState (i : Z) (m : ServerManager) : ServerManager :=
  match serverByInstanceID m !! i with
  | None => m
  | Some p =>
      refreshServerSnapshotLocked p
      (updServer p (fun s => s <| instanceStates ::= <[i := mkState Warming 0]> |>) m)
  end.

(** registry.go [resetServerRegistryLocked], [closeServerRegistry] *)
Definition resetServerRegistryLocked (m : ServerManager) : ServerManager :=
  m <| serversByID := ∅ |> <| serverByInstanceID := ∅ |>.

(** delete(s.instanceStates, i) and the removal of i from s.InstanceIDs *)
Definition forgetInstance (i : Z) (s : server) : server :=
  s <| instanceStates ::= delete i |>
  <| InstanceIDs ::= List.filter (fun x => negb (x =? i)) |>.

(** registry.go [removeServerRecordLocked] *)
Definition removeServerRecordLocked (i : Z) (m : ServerManager) : ServerManager :=
  match instanceByID m i with
  | None => m
  | Some rec =>
      let m := removeServerIDFromPortLocked (resolvedPort rec) i m in
      let m := match spec rec with
      | Some sp => removeServerIDFromPortLocked (ListenPort sp) i m
      | None => m
      end in
      let m := match serverByInstanceID m !! i with
      | Some p =>
          let m := m <| serverByInstanceID ::= delete i |> in
          refreshServerSnapshotLocked p
          (updServer p (forgetInstance i) m)
      | None => m
      end in
      m <| instancesByID ::= fun ids => ids ∖ {[i]} |>
  end.

Section Register.
Context `{GoUnicode}.

Definition newServer (m : ServerManager) (launch : serverLaunch) : server :=
    let '(configuredPort, hasConfiguredPort) := launchConfiguredPort launch in
    let autoscales := hasConfiguredPort && (configuredPort =? 0)
  && (1 <? Z.max 1 (serverMaxInstances m)) in
    mkServer (Line launch + 1) (Line launch) launch autoscales [] 0 None false 0 0 0 0 0 0
  "" "" "" ∅ [].

(** registry.go [registerServerLaunch]: the new server object's pointer is fresh. *)
Definition registerServerLaunch (launch : serverLaunch) (m : ServerManager) : Z * ServerManager :=
  let p := nextServerPtr m in
  let s := newServer m launch in
  let m := m <| nextServerPtr := p + 1 |>
 <| servers ::= <[p := s]> |>
 <| serversByID ::= <[ServerID s := p]> |> in
  appendServerInstanceLocked p launch Warming m.
End Register.

End Registry.

(** * Lookups after updates *)

Lemma updServer_lookup p f m q :
  servers (updServer p f m) !! q = if decide (p = q) then f <$> servers m !! q else servers m !! q.
Proof. cbn. rewrite lookup_alter. case_decide; by subst. Qed.

Lemma updInstance_lookup i f m j :
  instances (updInstance i f m) !! j
  = if decide (i = j) then f <$> instances m !! j else instances m !! j.
Proof. cbn. rewrite lookup_alter. case_decide; by subst. Qed.

#[export] Hint Rewrite updServer_lookup updInstance_lookup : nexus.

(** What [refreshServer] leaves alone: everything but the display strings and the counters. *)
Definition same_core (s s' : server) : Prop :=
  ServerID s' = ServerID s /\ sLine s' = sLine s /\ TemplateLaunch s' = TemplateLaunch s /\
  Autoscales s' = Autoscales s /\ InstanceIDs s' = InstanceIDs s /\
  RoundRobinCursor s' = RoundRobinCursor s /\ LastScaleUpAt s' = LastScaleUpAt s /\
  ScaleUpInFlight s' = ScaleUpInFlight s /\ instanceStates s' = instanceStates s /\
  joinDemandAt s' = joinDemandAt s.

Lemma foldl_display_core l : forall s, same_core s (foldl applyServerDisplayFromInstance s l).
Proof.
  induction l as [|r l IH]; intros s; cbn [foldl]; [by unfold same_core|].
  exact (IH (applyServerDisplayFromInstance s r)).
Qed.

Lemma refreshServer_core alive m s : same_core s (refreshServer alive m s).
Proof. unfold refreshServer. exact (foldl_display_core _ s). Qed.

Lemma InstanceIDs_refresh alive m s : InstanceIDs (refreshServer alive m s) = InstanceIDs s.
Proof. by destruct (refreshServer_core alive m s) as (?&?&?&?&?&?). Qed.
Lemma instanceStates_refresh alive m s :
  instanceStates (refreshServer alive m s) = instanceStates s.
Proof. apply (refreshServer_core alive m s). Qed.
Lemma ServerID_refresh alive m s : ServerID (refreshServer alive m s) = ServerID s.
Proof. apply (refreshServer_core alive m s). Qed.
Lemma Autoscales_refresh alive m s : Autoscales (refreshServer alive m s) = Autoscales s.
Proof. apply (refreshServer_core alive m s). Qed.
Lemma ScaleUpInFlight_refresh alive m s :
  ScaleUpInFlight (refreshServer alive m s) = ScaleUpInFlight s.
Proof. apply (refreshServer_core alive m s). Qed.
Lemma LastScaleUpAt_refresh alive m s : LastScaleUpAt (refreshServer alive m s) = LastScaleUpAt s.
Proof. apply (refreshServer_core alive m s). Qed.
Lemma joinDemandAt_refresh alive m s : joinDemandAt (refreshServer alive m s) = joinDemandAt s.
Proof. apply (refreshServer_core alive m s). Qed.
#[export] Hint Rewrite InstanceIDs_refresh instanceStates_refresh ServerID_refresh Autoscales_refresh
  ScaleUpInFlight_refresh LastScaleUpAt_refresh joinDemandAt_refresh : nexus.

(** * The registry invariant *)

(** What holds of every instance record: its ports are 16-bit, no port is kept without being
    known, a spec is made of the port it resolved to, and player counts are bytes. *)
Record rec_ok (rec : instance) : Prop := {
  rk_port : 0 <= resolvedPort rec <= 65535;
  rk_known : resolvedPortKnown rec = false -> resolvedPort rec = 0;
  rk_spec : forall sp, spec rec = Some sp ->
              resolvedPortKnown rec = true /\ ListenPort sp = resolvedPort rec /\
              resolvedSearchPath rec <> [];
  rk_players : 0 <= Players rec <= 255 /\ 0 <= MaxPlayers rec <= 255;
}.

(** Only a draining instance has a poll streak. *)
Definition state_ok (st : instanceState) : Prop :=
  0 <= ZeroPollStreak st /\ (Lifecycle st <> Draining -> ZeroPollStreak st = 0).

(** A server lists its instances without repetition, lists exactly the instances that name it as
    their owner, and keeps a lifecycle state for exactly those. *)
Record server_ok (owners : gmap Z Z) (p : Z) (s : server) : Prop := {
  sk_nodup : NoDup (InstanceIDs s);
  sk_owner : forall i, i ∈ InstanceIDs s <-> owners !! i = Some p;
  sk_states : forall i, is_Some (instanceStates s !! i) <-> i ∈ InstanceIDs s;
  sk_state : forall i st, instanceStates s !! i = Some st -> state_ok st;
  sk_cursor : 0 <= RoundRobinCursor s;
  sk_line : ServerID s = sLine s + 1;
}.

(** The registry is consistent, but possibly for the port index of one instance [x]: some
    operations take an instance out of the index before they reset its port. *)
Record reg_ok_but (x : option Z) (m : ServerManager) : Prop := {
  ro_inst : forall i rec, instances m !! i = Some rec ->
              id rec = i /\ i < nextInstanceID m /\ rec_ok rec;
  ro_live : forall i, i ∈ instancesByID m -> is_Some (instances m !! i);
  ro_owned : forall i, i ∈ instancesByID m <-> is_Some (serverByInstanceID m !! i);
  ro_owner : forall i p, serverByInstanceID m !! i = Some p -> is_Some (servers m !! p);
  ro_server : forall p s, servers m !! p = Some s -> p < nextServerPtr m /\ server_ok (serverByInstanceID m) p s;
  ro_byid : forall k p, serversByID m !! k = Some p ->
              exists s, servers m !! p = Some s /\ ServerID s = k;
  ro_ports : forall port ids, instanceIDsByPort m !! port = Some ids ->
               0 < port <= 65535 /\ ids <> [] /\ NoDup ids /\
               Forall (fun j => j < nextInstanceID m) ids;
  ro_index : forall i rec, Some i <> x -> i ∈ instancesByID m -> instances m !! i = Some rec ->
               forall port, 0 < port -> (i ∈ idsAtPort m port <-> resolvedPort rec = port);
}.

Abbreviation reg_ok := (reg_ok_but None).

Lemma reg_ok_weaken i m : reg_ok m -> reg_ok_but (Some i) m.
Proof. intros [Hi Hl Ho Hw Hs Hb Hp Hx]. constructor; auto. Qed.

Lemma reg_ok_restore i m :
  reg_ok_but (Some i) m ->
  (forall rec, i ∈ instancesByID m -> instances m !! i = Some rec ->
     forall port, 0 < port -> (i ∈ idsAtPort m port <-> resolvedPort rec = port)) ->
  reg_ok m.
Proof.
  intros [Hi Hl Ho Hw Hs Hb Hp Hx] H. constructor; auto.
  intros j rec _. destruct (decide (j = i)) as [->|Hne]; [auto|]. apply Hx. congruence.
Qed.

Lemma NewServerManager_ok : reg_ok NewServerManager.
Proof.
  constructor; cbn; intros *; rewrite ?lookup_empty; done.
Qed.

(** ** Mutations of one object *)

Lemma updServer_ok x p f m :
  reg_ok_but x m ->
  (forall s, servers m !! p = Some s -> server_ok (serverByInstanceID m) p s ->
     ServerID (f s) = ServerID s /\ server_ok (serverByInstanceID m) p (f s)) ->
  reg_ok_but x (updServer p f m).
Proof.
  intros [Hi Hl Ho Hw Hs Hb Hp Hx] Hf.
  constructor; cbn -[updServer]; try done.
  - intros i q Hq. apply Hw in Hq as [s Hq]. rewrite updServer_lookup, Hq.
    case_decide; cbn; eauto.
  - intros q s. rewrite updServer_lookup. case_decide as Hd; [|by intros ?%Hs].
    subst q. destruct (servers m !! p) as [s0|] eqn:Hp0; cbn; [|done].
    intros [= <-]. destruct (Hs _ _ Hp0) as [Hlt Hok]. by destruct (Hf _ eq_refl Hok).
  - intros k q Hq. destruct (Hb _ _ Hq) as (s & Hqs & Hid). rewrite updServer_lookup, Hqs.
    case_decide; cbn; [|eauto]. subst q. eexists; split; [done|].
    destruct (Hs _ _ Hqs) as [_ Hok]. by destruct (Hf _ Hqs Hok) as [-> _].
Qed.

(** A mutation that touches none of the fields the invariant speaks of. *)
Lemma server_ok_core owners p s s' :
  InstanceIDs s' = InstanceIDs s -> instanceStates s' = instanceStates s ->
  RoundRobinCursor s' = RoundRobinCursor s -> ServerID s' = ServerID s -> sLine s' = sLine s ->
  server_ok owners p s -> server_ok owners p s'.
Proof.
  intros HI HS HC HD HL [Hn Ho Hst Hs Hc Hl]. constructor; rewrite ?HI, ?HS, ?HC, ?HD, ?HL; auto.
Qed.

Lemma refreshServer_ok owners p alive m s :
  server_ok owners p s -> server_ok owners p (refreshServer alive m s).
Proof. apply server_ok_core; apply (refreshServer_core alive m s). Qed.
#[export] Hint Resolve refreshServer_ok : nexus.

Lemma refreshServerSnapshotLocked_ok x alive p m :
  reg_ok_but x m -> reg_ok_but x (refreshServerSnapshotLocked alive p m).
Proof.
  intros Hok. apply updServer_ok; [done|]. intros s _ Hs. autorewrite with nexus.
  auto with nexus.
Qed.

Lemma updInstance_ok x i f m :
  reg_ok_but x m ->
  (forall rec, instances m !! i = Some rec -> rec_ok rec ->
     id (f rec) = id rec /\ resolvedPort (f rec) = resolvedPort rec /\ rec_ok (f rec)) ->
  reg_ok_but x (updInstance i f m).
Proof.
  intros [Hi Hl Ho Hw Hs Hb Hp Hx] Hf. constructor; cbn -[updInstance]; try done.
  - intros j rec. rewrite updInstance_lookup. case_decide as Hd; [|apply Hi]. subst j.
    destruct (instances m !! i) as [r|] eqn:Hr; cbn; [|done]. intros [= <-].
    destruct (Hi _ _ Hr) as (<- & Hlt & Hrk). destruct (Hf _ eq_refl Hrk) as (-> & _ & ?). done.
  - intros j Hj. rewrite updInstance_lookup. apply Hl in Hj as [r Hr]. rewrite Hr.
    case_decide; cbn; eauto.
  - intros j rec Hjx Hj. rewrite updInstance_lookup. case_decide as Hd; [|by apply Hx]. subst j.
    destruct (instances m !! i) as [r|] eqn:Hr; cbn; [|done]. intros [= <-] port Hport.
    destruct (Hi _ _ Hr) as (_ & _ & Hrk). destruct (Hf _ eq_refl Hrk) as (_ & -> & _).
    exact (Hx _ _ Hjx Hj Hr port Hport).
Qed.

(** The excepted instance may change its port. *)
Lemma updInstance_but_ok i f m :
  reg_ok_but (Some i) m ->
  (forall rec, instances m !! i = Some rec -> rec_ok rec ->
     id (f rec) = id rec /\ rec_ok (f rec)) ->
  reg_ok_but (Some i) (updInstance i f m).
Proof.
  intros [Hi Hl Ho Hw Hs Hb Hp Hx] Hf. constructor; cbn -[updInstance]; try done.
  - intros j rec. rewrite updInstance_lookup. case_decide as Hd; [|apply Hi]. subst j.
    destruct (instances m !! i) as [r|] eqn:Hr; cbn; [|done]. intros [= <-].
    destruct (Hi _ _ Hr) as (<- & Hlt & Hrk). destruct (Hf _ eq_refl Hrk) as (-> & ?). done.
  - intros j Hj. rewrite updInstance_lookup. apply Hl in Hj as [r Hr]. rewrite Hr.
    case_decide; cbn; eauto.
  - intros j rec Hjx Hj. rewrite updInstance_lookup, decide_False by congruence. by apply Hx.
Qed.

(** A record's runtime fields may change freely. *)
Lemma updInstance_runtime_ok x i f m :
  reg_ok_but x m ->
  (forall rec, id (f rec) = id rec /\ resolvedPort (f rec) = resolvedPort rec /\
     resolvedPortKnown (f rec) = resolvedPortKnown rec /\ spec (f rec) = spec rec /\
     resolvedSearchPath (f rec) = resolvedSearchPath rec /\
     (0 <= Players rec <= 255 /\ 0 <= MaxPlayers rec <= 255 ->
      0 <= Players (f rec) <= 255 /\ 0 <= MaxPlayers (f rec) <= 255)) ->
  reg_ok_but x (updInstance i f m).
Proof.
  intros Hok Hf. apply updInstance_ok; [done|]. intros rec _ [Hp Hk Hsp Hpl].
  destruct (Hf rec) as (-> & Hrp & Hrk & Hsc & Hpath & Hbytes). split_and!; [done..|].
  constructor; rewrite ?Hrp, ?Hrk, ?Hsc, ?Hpath; auto.
Qed.

Lemma id_applyResolvedSpec r : id (applyResolvedSpec r) = id r.
Proof. unfold applyResolvedSpec. by destruct (_ || _). Qed.
Lemma resolvedPort_applyResolvedSpec r : resolvedPort (applyResolvedSpec r) = resolvedPort r.
Proof. unfold applyResolvedSpec. by destruct (_ || _). Qed.

Lemma applyResolvedSpec_ok i m : reg_ok m -> reg_ok (updInstance i applyResolvedSpec m).
Proof.
  intros Hok. apply updInstance_ok; [done|]. intros rec _ Hrk. unfold applyResolvedSpec.
  destruct (resolvedPortKnown rec) eqn:Hk; cbn [negb orb]; [|done].
  case_bool_decide; [done|]. split_and!; [done..|].
  destruct Hrk as [Hp Hkn _ Hpl]. constructor; cbn; [done|done| |done]. by intros sp [= <-].
Qed.

(** ** The port index *)

Lemma idsAtPort_remove port i m q :
  idsAtPort (removeServerIDFromPortLocked port i m) q
  = if decide (q = port) then
      if port <=? 0 then idsAtPort m q
      else List.filter (fun x => negb (x =? i)) (idsAtPort m q)
    else idsAtPort m q.
Proof.
  unfold removeServerIDFromPortLocked. destruct (port <=? 0); [by case_decide|].
  destruct (List.filter _ (idsAtPort m port)) as [|j l] eqn:Hf; unfold idsAtPort at 1; cbn.
  - rewrite lookup_delete. case_decide; subst; cbn; case_decide; subst; try done.
  - rewrite lookup_insert. case_decide; subst; cbn; case_decide; subst; try done.
Qed.

Lemma elem_of_filter_neq (i j : Z) l :
  j ∈ List.filter (fun x => negb (x =? i)) l <-> j ∈ l /\ j <> i.
Proof.
  rewrite !list_elem_of_In, filter_In, negb_true_iff, Z.eqb_neq. done.
Qed.

Lemma NoDup_filter_neq (i : Z) l : NoDup l -> NoDup (List.filter (fun x => negb (x =? i)) l).
Proof. rewrite !NoDup_ListNoDup. apply List.NoDup_filter. Qed.

Lemma removeServerIDFromPortLocked_ok port i m :
  reg_ok_but (Some i) m -> reg_ok_but (Some i) (removeServerIDFromPortLocked port i m).
Proof.
  intros [Hi Hl Ho Hw Hs Hb Hp Hx].
  assert (forall q, idsAtPort (removeServerIDFromPortLocked port i m) q = idsAtPort m q \/
            idsAtPort (removeServerIDFromPortLocked port i m) q
            = List.filter (fun x => negb (x =? i)) (idsAtPort m q)) as Hq.
  { intros q. rewrite idsAtPort_remove. case_decide; [|auto]. destruct (port <=? 0); auto. }
  assert (instances (removeServerIDFromPortLocked port i m) = instances m /\
          instancesByID (removeServerIDFromPortLocked port i m) = instancesByID m) as [HI HB].
  { unfold removeServerIDFromPortLocked. by repeat split_match. }
  constructor; try by (unfold removeServerIDFromPortLocked; repeat split_match; auto).
  - intros q ids. unfold removeServerIDFromPortLocked.
    destruct (Z.leb_spec port 0); [apply Hp|].
    destruct (List.filter _ (idsAtPort m port)) as [|j l] eqn:Hf; cbn.
    + intros [_ ?]%lookup_delete_Some. by apply Hp.
    + rewrite lookup_insert_Some. intros [[<- <-]|[_ ?]]; [|by apply Hp].
      unfold idsAtPort in Hf. destruct (instanceIDsByPort m !! port) as [ids0|] eqn:Hids; [|done].
      destruct (Hp _ _ Hids) as (? & _ & Hnd & Hfa). cbn in Hf. rewrite <- Hf.
      split_and!; [lia|lia|by rewrite Hf|by apply NoDup_filter_neq|].
      apply Forall_forall. intros k [Hk _]%elem_of_filter_neq.
      rewrite Forall_forall in Hfa. auto.
  - intros j rec Hj. rewrite HI, HB. intros Hin Hr q Hpos.
    rewrite <- (Hx _ _ Hj Hin Hr q Hpos).
    destruct (Hq q) as [-> | ->]; [done|]. rewrite elem_of_filter_neq.
    split; [tauto|]. intros. split; [done|]. congruence.
Qed.


Lemma updInstance_twice i f g m : updInstance i f (updInstance i g m) = updInstance i (f ∘ g) m.
Proof. unfold updInstance, field_update. cbn. by rewrite alter_alter_eq. Qed.

Lemma updInstance_ports i g h m :
  updInstance i g (m <| instanceIDsByPort ::= h |>) = (updInstance i g m) <| instanceIDsByPort ::= h |>.
Proof. done. Qed.

Lemma idsAtPort_insert port ids m q :
  idsAtPort (m <| instanceIDsByPort ::= <[port := ids]> |>) q
  = if decide (port = q) then ids else idsAtPort m q.
Proof. unfold idsAtPort. cbn. rewrite lookup_insert. by case_decide. Qed.

Lemma addPort_ok i port m :
  reg_ok_but (Some i) m -> i < nextInstanceID m -> 0 < port <= 65535 -> i ∉ idsAtPort m port ->
  reg_ok_but (Some i) (m <| instanceIDsByPort ::= <[port := idsAtPort m port ++ [i]]> |>).
Proof.
  intros [Hi Hl Ho Hw Hs Hb Hp Hx] Hlt Hport Hni. constructor; try done.
  - intros q ids. cbn. rewrite lookup_insert_Some. intros [[<- <-]|[_ ?]]; [|by apply Hp].
    split; [done|]. split; [by destruct (idsAtPort m port)|].
    unfold idsAtPort in *. destruct (instanceIDsByPort m !! port) as [l|] eqn:Hl0; cbn in *.
    + destruct (Hp _ _ Hl0) as (_ & _ & Hnd & Hfa). split.
      * apply NoDup_app. split_and!; [done|set_solver|apply NoDup_singleton].
      * apply Forall_app. auto.
    + split; [apply NoDup_singleton|by constructor].
  - intros j rec Hj Hin Hr q Hpos. rewrite idsAtPort_insert.
    rewrite <- (Hx _ _ Hj Hin Hr q Hpos). case_decide; [subst q|done].
    rewrite elem_of_app, list_elem_of_singleton. split; [|auto]. intros [|]; [done|congruence].
Qed.

(** A known port moves neither to zero nor to another port. *)
Definition acceptsPort (rec : instance) (port : Z) : bool :=
  negb (resolvedPortKnown rec && ((0 <? resolvedPort rec) || (port =? 0))).

Lemma assigned_rec_ok rec port :
  rec_ok rec -> acceptsPort rec port = true -> 0 <= port <= 65535 ->
  rec_ok (applyResolvedSpec (rec <| resolvedPortKnown := true |> <| resolvedPort := port |>)).
Proof.
  intros [Hp Hk Hs Hpl] Ha Hr. unfold applyResolvedSpec. cbn. case_bool_decide as Hpath.
  - constructor; cbn; [lia|done| |done]. intros sp Hsp. destruct (Hs _ Hsp) as (_ & _ & ?). done.
  - constructor; cbn; [lia|done| |done]. by intros sp [= <-].
Qed.

Lemma acceptsPort_unresolved rec port :
  rec_ok rec -> acceptsPort rec port = true -> resolvedPort rec = 0.
Proof.
  intros [Hp Hk Hs Hpl] Ha. unfold acceptsPort in Ha. destruct (resolvedPortKnown rec); [|auto].
  cbn in Ha. bool_prop. lia.
Qed.

Lemma updatePort_ok i port m : reg_ok m -> reg_ok (updatePort i port m).
Proof.
  intros Hok. unfold updatePort. destruct (_ || _) eqn:Hrange; [done|]. bool_prop.
  unfold assignPortLocked. destruct (instances m !! i) as [rec|] eqn:Hrec;
    [|by apply applyResolvedSpec_ok].
  destruct (ro_inst _ _ Hok _ _ Hrec) as (Hid & Hlt & Hrk).
  destruct (_ || _) eqn:Hrange'; [bool_prop; lia|].
  destruct (_ && _) eqn:Hk; [by apply applyResolvedSpec_ok|].
  assert (acceptsPort rec port = true) as Ha by (unfold acceptsPort; by rewrite Hk).
  pose proof (acceptsPort_unresolved _ _ Hrk Ha) as Hunres.
  set (f := fun r : instance => r <| resolvedPortKnown := true |> <| resolvedPort := port |>).
  assert (forall m', instances m' = instances m -> reg_ok_but (Some i) m' ->
            reg_ok_but (Some i) (updInstance i (applyResolvedSpec ∘ f) m')) as Hupd.
  { intros m' Hm' Hok'. apply updInstance_but_ok; [done|]. intros r. rewrite Hm', Hrec.
    intros [= <-] _. split; [|apply assigned_rec_ok; [done|done|lia]].
    cbn. by rewrite id_applyResolvedSpec. }
  assert (forall r, instances (updInstance i (applyResolvedSpec ∘ f) m) !! i = Some r ->
            resolvedPort r = port) as Hres.
  { intros r. rewrite updInstance_lookup, decide_True, Hrec by done. intros [= <-].
    cbn. by rewrite resolvedPort_applyResolvedSpec. }
  assert (forall q, 0 < q -> i ∈ instancesByID m ->
            (i ∈ idsAtPort m q <-> resolvedPort rec = q)) as Hidx.
  { intros q Hq Hin. by apply (ro_index _ _ Hok). }
  destruct (Z.ltb_spec port 1).
  { rewrite updInstance_twice. apply (reg_ok_restore i); [by apply Hupd, reg_ok_weaken|].
    intros r Hin Hr q Hq. rewrite (Hres _ Hr). rewrite (Hidx q Hq Hin). lia. }
  change (idsAtPort (updInstance i f m) port) with (idsAtPort m port).
  case_bool_decide as Hni.
  { (* an instance the registry no longer maps may still be indexed *)
    rewrite updInstance_twice. apply (reg_ok_restore i); [by apply Hupd, reg_ok_weaken|].
    intros r Hin. rewrite Hidx in Hni by (done || lia). lia. }
  set (h := <[port := idsAtPort m port ++ [i]]>).
  rewrite updInstance_ports, updInstance_twice, <- updInstance_ports.
  apply (reg_ok_restore i).
  - apply Hupd; [done|]. apply addPort_ok; [by apply reg_ok_weaken|done|lia|done].
  - intros r Hin Hr q Hq. rewrite (Hres r Hr).
    change (idsAtPort _ q) with (idsAtPort (m <| instanceIDsByPort ::= h |>) q).
    unfold h. rewrite idsAtPort_insert. case_decide; [subst q; set_solver|].
    rewrite (Hidx q Hq Hin). lia.
Qed.

Lemma updateSearchPathNormalized_ok i path m :
  reg_ok m -> reg_ok (updateSearchPathNormalized i path m).
Proof.
  intros Hok. unfold updateSearchPathNormalized. destruct path as [|g path];
    [by apply applyResolvedSpec_ok|]. apply applyResolvedSpec_ok, updInstance_ok; [done|].
  intros rec _ [Hp Hk Hs Hpl]. split_and!; [done..|]. constructor; cbn; [done|done| |done].
  intros sp Hsp. by destruct (Hs _ Hsp) as (? & ? & _).
Qed.

(** ** Creating and removing instances *)

Lemma setServerInstanceLifecycleLocked_ok alive p i lc m :
  reg_ok m -> reg_ok (setServerInstanceLifecycleLocked alive p i lc m).
Proof.
  intros Hok. apply refreshServerSnapshotLocked_ok, updServer_ok; [done|].
  intros s _ [Hn Ho Hst Hs Hc Hl]. split; [done|]. constructor; cbn; [done|done| | |done..].
  - intros j. rewrite <- Hst, lookup_alter. case_decide; [subst|done]. by rewrite fmap_is_Some.
  - intros j st. rewrite lookup_alter. case_decide; [subst j|apply Hs].
    destruct (instanceStates s !! i); [|done]. by intros [= <-].
Qed.

Lemma setState_ok owners p i st s :
  server_ok owners p s -> i ∈ InstanceIDs s -> state_ok st ->
  server_ok owners p (s <| instanceStates ::= <[i := st]> |>).
Proof.
  intros [Hn Ho Hst Hs Hc Hl] Hi Hok. constructor; cbn; [done|done| | |done..].
  - intros j. rewrite lookup_insert_is_Some. apply Hst in Hi. rewrite <- Hst.
    destruct (decide (i = j)) as [->|]; tauto.
  - intros j st'. rewrite lookup_insert_Some. intros [[_ <-]|[_ ?]]; eauto.
Qed.

Lemma resetServerInstanceState_ok alive i m :
  reg_ok m -> reg_ok (resetServerInstanceState alive i m).
Proof.
  intros Hok. unfold resetServerInstanceState.
  destruct (serverByInstanceID m !! i) as [p|] eqn:Hp; [|done].
  apply refreshServerSnapshotLocked_ok, updServer_ok; [done|].
  intros s _ Hs. split; [done|]. apply setState_ok; [done| |done]. by apply (sk_owner _ _ _ Hs).
Qed.

Lemma appendServerInstanceLocked_ok alive p launch lc m :
  reg_ok m -> is_Some (servers m !! p) ->
  reg_ok (appendServerInstanceLocked alive p launch lc m).2.
Proof.
  intros [Hi Hl Ho Hw Hs Hb Hp Hx] [s0 Hs0]. apply refreshServerSnapshotLocked_ok.
  set (i := nextInstanceID m).
  assert (forall j, j ∈ instancesByID m -> j < i) as Hfresh.
  { intros j [rec Hr]%Hl. by destruct (Hi _ _ Hr) as (_ & ? & _). }
  assert (serverByInstanceID m !! i = None) as Hnone.
  { destruct (serverByInstanceID m !! i) eqn:He; [|done].
    assert (i ∈ instancesByID m) as Hin by (apply Ho; eauto). apply Hfresh in Hin. lia. }
  constructor; cbn.
  - intros j rec. rewrite lookup_insert_Some. intros [[<- <-]|[_ Hr]].
    + split_and!; [done|lia|]. by constructor; cbn.
    + destruct (Hi _ _ Hr) as (? & ? & ?). split_and!; [done|lia|done].
  - intros j [->%elem_of_singleton|Hj]%elem_of_union; [by rewrite lookup_insert_eq|].
    rewrite lookup_insert_is_Some. right. split; [|auto]. apply Hfresh in Hj. lia.
  - intros j. rewrite lookup_insert_is_Some, elem_of_union, elem_of_singleton, Ho.
    destruct (decide (i = j)); [subst|]; naive_solver.
  - intros j q. rewrite lookup_insert_Some. intros [[<- <-]|[_ Hj]].
    + rewrite lookup_alter_eq, Hs0. by eexists.
    + rewrite lookup_alter. apply Hw in Hj as [s Hj]. case_decide; subst; rewrite Hj; by eexists.
  - intros q s. rewrite lookup_alter. case_decide as Hd.
    + subst q. rewrite Hs0. intros [= <-]. destruct (Hs _ _ Hs0) as [Hlt [Hn Hown Hst Hso Hcur Hln]].
      split; [done|]. constructor; cbn; [..|done|done].
      * apply NoDup_app. split_and!; [done| |apply NoDup_singleton].
        intros j Hj ->%list_elem_of_singleton. apply Hown in Hj. congruence.
      * intros j. rewrite elem_of_app, list_elem_of_singleton, Hown, lookup_insert_Some.
        naive_solver congruence.
      * intros j. rewrite lookup_insert_is_Some, Hst, elem_of_app, list_elem_of_singleton.
        destruct (decide (i = j)); naive_solver.
      * intros j st. rewrite lookup_insert_Some. intros [[_ <-]|[_ ?]]; [by split|eauto].
    + intros Hq. destruct (Hs _ _ Hq) as [Hlt [Hn Hown Hst Hso Hcur Hln]]. split; [done|].
      constructor; [done| |done..]. intros j. rewrite Hown, lookup_insert_Some.
      naive_solver congruence.
  - intros k q Hq. destruct (Hb _ _ Hq) as (s & Hqs & Hid). rewrite lookup_alter.
    case_decide; [subst q; rewrite Hqs; by eexists|eauto].
  - intros port ids Hids. destruct (Hp _ _ Hids) as (? & ? & ? & Hfa).
    split_and!; [lia|lia|done|done|]. eapply Forall_impl; [exact Hfa|]. cbn. lia.
  - intros j rec _ Hj Hr port Hport. revert Hr. rewrite lookup_insert_Some.
    intros [[<- <-]|[Hne Hr]].
    + cbn. split; [|lia]. unfold idsAtPort. cbn.
      destruct (instanceIDsByPort m !! port) as [ids|] eqn:Hids; cbn; [|by intros ?%elem_of_nil].
      destruct (Hp _ _ Hids) as (_ & _ & _ & Hfa). rewrite Forall_forall in Hfa.
      intros Hin%Hfa. unfold i in Hin. lia.
    + apply elem_of_union in Hj as [->%elem_of_singleton|Hj]; [done|]. by apply (Hx j rec).
Qed.

Section RegisterFacts.
Context `{GoUnicode}.

Lemma registerServerLaunch_ok alive launch m :
  reg_ok m -> reg_ok (registerServerLaunch alive launch m).2.
Proof.
  intros [Hi Hl Ho Hw Hs Hb Hp Hx]. unfold registerServerLaunch.
  apply appendServerInstanceLocked_ok; [|cbn; by rewrite lookup_insert_eq].
  assert (forall q s, servers m !! q = Some s -> q <> nextServerPtr m) as Hfresh.
  { intros q s Hq. destruct (Hs _ _ Hq). lia. }
  constructor; cbn; try done.
  - intros i q Hq. destruct (Hw _ _ Hq) as [s Hqs]. rewrite lookup_insert_ne; [eauto|].
  apply Hfresh in Hqs. congruence.
  - intros q s. rewrite lookup_insert_Some. intros [[<- <-]|[_ Hq]].
  + split; [lia|]. unfold newServer. destruct (launchConfiguredPort launch).
  constructor; cbn; [constructor| | | |done|done].
  * intros i. split; [by intros ?%elem_of_nil|]. intros Hq. exfalso.
  destruct (Hw _ _ Hq) as [s Hqs]. by apply Hfresh in Hqs.
  * intros i. rewrite lookup_empty. split; [by intros []|by intros ?%elem_of_nil].
  * intros i st. by rewrite lookup_empty.
  + destruct (Hs _ _ Hq). split; [lia|done].
  - intros k q. rewrite lookup_insert_Some. intros [[<- <-]|[_ Hq]].
  + rewrite lookup_insert_eq. eauto.
  + destruct (Hb _ _ Hq) as (s & Hqs & Hid). rewrite lookup_insert_ne; [eauto|].
  apply Hfresh in Hqs. congruence.
Qed.
End RegisterFacts.

(** Taking instance [i] out of its owner and of the registry, once the port index forgot it. *)
Lemma unregister_ok alive i m :
  reg_ok_but (Some i) m ->
  reg_ok ((match serverByInstanceID m !! i with
           | Some p =>
               refreshServerSnapshotLocked alive p
                 (updServer p (forgetInstance i) (m <| serverByInstanceID ::= delete i |>))
           | None => m
           end) <| instancesByID ::= fun ids => ids ∖ {[i]} |>).
Proof.
  intros [Hi Hl Ho Hw Hs Hb Hp Hx].
  destruct (serverByInstanceID m !! i) as [p|] eqn:Hip.
  2: { assert (i ∉ instancesByID m) as Hni by (rewrite Ho, Hip; by intros []).
       constructor; cbn; try done; [set_solver| |].
       - intros j. rewrite <- Ho, elem_of_difference, elem_of_singleton. naive_solver.
       - intros j rec _ [Hj Hne]%elem_of_difference. apply Hx; [set_solver|done]. }
  assert (forall q, servers ((refreshServerSnapshotLocked alive p (updServer p (forgetInstance i)
             (m <| serverByInstanceID ::= delete i |>)))
             <| instancesByID ::= fun ids => ids ∖ {[i]} |>) !! q
          = if decide (p = q) then
              (fun s => refreshServer alive (updServer p (forgetInstance i)
                 (m <| serverByInstanceID ::= delete i |>)) (forgetInstance i s)) <$> servers m !! q
            else servers m !! q) as Hlook.
  { intros q. unfold refreshServerSnapshotLocked. cbn -[updServer].
    rewrite updServer_lookup. case_decide; [|by rewrite updServer_lookup, decide_False].
    subst q. rewrite updServer_lookup, decide_True by done. cbn. by destruct (servers m !! p). }
  constructor; [done|cbn; set_solver|..].
  - intros j. cbn. rewrite elem_of_difference, elem_of_singleton, Ho, lookup_delete_is_Some.
    naive_solver.
  - intros j q Hq. cbn in Hq. apply lookup_delete_Some in Hq as [_ Hq].
    rewrite Hlook. apply Hw in Hq as [s ->]. case_decide; by eexists.
  - intros q s. rewrite Hlook. case_decide as Hd.
    + subst q. destruct (servers m !! p) as [s0|] eqn:Hs0; [|done]. cbn. intros [= <-].
      destruct (Hs _ _ Hs0) as [Hlt [Hn Hown Hst Hso Hcur Hln]]. split; [done|].
      apply refreshServer_ok. constructor; cbn; [..|done|done].
      * by apply NoDup_filter_neq.
      * intros j. rewrite elem_of_filter_neq, Hown, lookup_delete_Some. naive_solver.
      * intros j. rewrite lookup_delete_is_Some, elem_of_filter_neq, Hst. naive_solver.
      * intros j st [_ ?]%lookup_delete_Some. eauto.
    + intros Hq. destruct (Hs _ _ Hq) as [Hlt [Hn Hown Hst Hso Hcur Hln]]. split; [done|].
      constructor; [done| |done..]. intros j. cbn. rewrite Hown, lookup_delete_Some.
      split; [|tauto]. intros Hj. split; [|done]. intros <-. congruence.
  - intros k q Hq. cbn in Hq. destruct (Hb _ _ Hq) as (s & Hqs & Hid). rewrite Hlook, Hqs.
    case_decide; cbn; [|eauto]. eexists; split; [done|]. by autorewrite with nexus.
  - done.
  - intros j rec _ [Hj Hne]%elem_of_difference. apply Hx; [set_solver|done].
Qed.

Lemma removeServerRecordLocked_ok alive i m :
  reg_ok m -> reg_ok (removeServerRecordLocked alive i m).
Proof.
  intros Hok. unfold removeServerRecordLocked.
  destruct (instanceByID m i) as [rec|]; [|done].
  apply unregister_ok. destruct (spec rec); auto using removeServerIDFromPortLocked_ok, reg_ok_weaken.
Qed.

(** * What removal and refreshing do *)

Lemma runningByID_Some alive m i rec :
  runningByID alive m i = Some rec <->
  i ∈ instancesByID m /\ instances m !! i = Some rec /\ instanceRunning alive rec = true.
Proof.
  unfold runningByID, instanceByID. case_bool_decide; [|by split; [|intros (? & _)]].
  destruct (instances m !! i) as [r|]; [|by split; [|intros (_ & ? & _)]].
  destruct (instanceRunning alive r) eqn:Hr.
  - split; [by intros [= <-]|by intros (_ & ? & _)].
  - split; [done|]. intros (_ & [= <-] & ?). congruence.
Qed.

Lemma candidateOf_Some alive m s d i c :
  candidateOf alive m s d i = Some c ->
  exists rec, runningByID alive m i = Some rec /\ lifecycleRoutable s d i = true /\
    listenPort c = recordListenPort rec /\ 1 <= listenPort c <= 65535 /\
    players c = Players rec /\ maxPlayers c = MaxPlayers rec.
Proof.
  unfold candidateOf. destruct (runningByID alive m i) as [rec|] eqn:Hr; [|done].
  destruct (lifecycleRoutable s d i) eqn:Hl; [|done].
  destruct (_ || _) eqn:Hp; [done|]. bool_prop. intros [= <-]. cbn. eauto 10 with lia.
Qed.

(** Counters that are sums over the running instances bound those over the joinable ones. *)
Lemma candidates_sum_le alive m s d (f : instance -> Z) (g : serverInstanceCandidate -> Z) ids :
  (forall i rec, runningByID alive m i = Some rec -> 0 <= f rec) ->
  (forall i c rec, candidateOf alive m s d i = Some c -> runningByID alive m i = Some rec ->
     g c = f rec) ->
  0 <= sumC g (omap (candidateOf alive m s d) ids) <= sumZ f (omap (runningByID alive m) ids).
Proof.
  intros Hpos Hfg. induction ids as [|i ids IH]; [cbn; lia|]. cbn [omap list_omap].
  destruct (candidateOf alive m s d i) as [c|] eqn:Hc.
  - destruct (candidateOf_Some _ _ _ _ _ _ Hc) as (rec & Hr & _). rewrite Hr. cbn [sumC sumZ foldr].
    specialize (Hfg _ _ _ Hc Hr). specialize (Hpos _ _ Hr).
    unfold sumC, sumZ in IH. lia.
  - destruct (runningByID alive m i) as [rec|] eqn:Hr; [|done]. cbn [sumZ foldr].
    specialize (Hpos _ _ Hr). unfold sumC, sumZ in *. lia.
Qed.

Lemma candidates_length_le alive m s d ids :
  (length (omap (candidateOf alive m s d) ids) <= length (omap (runningByID alive m) ids))%nat.
Proof.
  induction ids as [|i ids IH]; [cbn; lia|]. cbn [omap list_omap].
  destruct (candidateOf alive m s d i) as [c|] eqn:Hc.
  - destruct (candidateOf_Some _ _ _ _ _ _ Hc) as (rec & -> & _). cbn in *. lia.
  - destruct (runningByID alive m i); cbn in *; lia.
Qed.

(** C22.  After [refreshServerSnapshotLocked] the advertised set is a subset of the running one:
    joinable instances, players and capacity never exceed the aggregate counters, the player
    count of the joinable set is the sum over its candidates, and all of them fit 16 bits. *)
Theorem refreshServer_joinable_within_aggregate alive m s :
  reg_ok m ->
  let s' := refreshServer alive m s in
  joinableInstances s' <= aggregateInstances s' /\
  joinableUsers s' <= aggregateUsers s' /\
  joinableMaxUsers s' <= aggregateMaxUsers s' /\
  joinableInstances s'
    = clamp_uint16 (Z.of_nat (length (serverRoutableCandidatesLocked alive m s' false))) /\
  Forall (fun n => 0 <= n <= 65535)
    [aggregateUsers s'; aggregateMaxUsers s'; aggregateInstances s';
     joinableUsers s'; joinableMaxUsers s'; joinableInstances s'].
Proof.
  intros Hok s'.
  assert (forall f : instance -> Z, (forall rec, rec_ok rec -> 0 <= f rec) ->
            forall i rec, runningByID alive m i = Some rec -> 0 <= f rec) as Hnn.
  { intros f Hf i rec (_ & Hr & _)%runningByID_Some. apply Hf. by apply (ro_inst _ _ Hok) in Hr as (_ & _ & ?). }
  assert (forall i c rec, candidateOf alive m s false i = Some c ->
            runningByID alive m i = Some rec -> players c = Players rec /\ maxPlayers c = MaxPlayers rec)
    as Hc.
  { intros i c rec (r & Hr & _ & _ & _ & ? & ?)%candidateOf_Some Hrec.
    rewrite Hrec in Hr. by injection Hr as ->. }
  pose proof (candidates_sum_le alive m s false Players players (InstanceIDs s)
    (Hnn _ (fun r H => proj1 (proj1 (rk_players _ H)))) (fun i c r H1 H2 => proj1 (Hc i c r H1 H2))).
  pose proof (candidates_sum_le alive m s false MaxPlayers maxPlayers (InstanceIDs s)
    (Hnn _ (fun r H => proj1 (proj2 (rk_players _ H)))) (fun i c r H1 H2 => proj2 (Hc i c r H1 H2))).
  pose proof (candidates_length_le alive m s false (InstanceIDs s)).
  assert (serverRoutableCandidatesLocked alive m s' false
          = serverRoutableCandidatesLocked alive m s false) as ->.
  { destruct (refreshServer_core alive m s) as (_ & _ & _ & HA & HI & _ & _ & _ & HS & _).
    unfold s', serverRoutableCandidatesLocked, candidateOf, lifecycleRoutable.
    by rewrite HI, HA, HS. }
  unfold s', refreshServer, runningInstances, serverRoutableCandidatesLocked, clamp_uint16 in *.
  cbn. split_and!; [lia..|]. repeat constructor; lia.
Qed.

(** [removeServerRecordLocked], past the index by port *)
Definition unindexed (rec : instance) (i : Z) (m : ServerManager) : ServerManager :=
  let m := removeServerIDFromPortLocked (resolvedPort rec) i m in
  match spec rec with
  | Some sp => removeServerIDFromPortLocked (ListenPort sp) i m
  | None => m
  end.

Lemma unindexed_rest rec i m :
  instancesByID (unindexed rec i m) = instancesByID m /\ serverByInstanceID (unindexed rec i m) = serverByInstanceID m.
Proof. unfold unindexed, removeServerIDFromPortLocked. by repeat split_match. Qed.

Lemma unindexed_ports rec i m q j :
  reg_ok m -> i ∈ instancesByID m -> instances m !! i = Some rec ->
  j ∈ idsAtPort (unindexed rec i m) q <-> j ∈ idsAtPort m q /\ j <> i.
Proof.
  intros Hok Hin Hrec. destruct (ro_inst _ _ Hok _ _ Hrec) as (_ & _ & Hrk).
  set (m1 := removeServerIDFromPortLocked (resolvedPort rec) i m).
  assert (j ∈ idsAtPort (unindexed rec i m) q <-> j ∈ idsAtPort m1 q) as ->.
  { unfold unindexed. fold m1. destruct (spec rec) as [sp|] eqn:Hsp; [|done].
    destruct (rk_spec _ Hrk _ Hsp) as (_ & -> & _). unfold m1. rewrite !idsAtPort_remove.
    repeat case_decide; try done. destruct (_ <=? 0); [done|]. rewrite !elem_of_filter_neq. tauto. }
  unfold m1. rewrite idsAtPort_remove.
  assert (q <= 0 -> j ∉ idsAtPort m q) as Hq0.
  { unfold idsAtPort. destruct (instanceIDsByPort m !! q) eqn:Hq; [|intros _; apply not_elem_of_nil].
    apply (ro_ports _ _ Hok) in Hq. lia. }
  assert (0 < q -> (i ∈ idsAtPort m q <-> resolvedPort rec = q)) as Hidx
    by (apply (ro_index _ _ Hok i rec); done).
  case_decide; [subst q; destruct (Z.leb_spec (resolvedPort rec) 0)|].
  - specialize (Hq0 ltac:(lia)). tauto.
  - apply elem_of_filter_neq.
  - split; [|tauto]. intros Hj. split; [done|]. intros ->.
    destruct (Z.le_gt_cases q 0); [by apply Hq0|]. apply Hidx in Hj; [congruence|lia].
Qed.

(** [removeServerRecordLocked] leaves no trace of the instance: not among the registered
    ids, not in the port index, not in any server's list, with no owner; every other instance
    keeps its registration, its owner and its ports. *)
Theorem removeServerRecordLocked_gone alive m i :
  reg_ok m -> i ∈ instancesByID m ->
  let m' := removeServerRecordLocked alive i m in
  i ∉ instancesByID m' /\ serverByInstanceID m' !! i = None /\
  (forall port, i ∉ idsAtPort m' port) /\
  (forall p s, servers m' !! p = Some s -> i ∉ InstanceIDs s) /\
  (forall j, j <> i ->
     (j ∈ instancesByID m' <-> j ∈ instancesByID m) /\
     serverByInstanceID m' !! j = serverByInstanceID m !! j /\
     (forall port, j ∈ idsAtPort m' port <-> j ∈ idsAtPort m port)).
Proof.
  intros Hok Hin m'. pose proof (removeServerRecordLocked_ok alive i m Hok) as Hok'. fold m' in Hok'.
  destruct (ro_live _ _ Hok _ Hin) as [rec Hrec]. set (m2 := unindexed rec i m).
  assert (m' = (match serverByInstanceID m2 !! i with
           | Some p =>
               refreshServerSnapshotLocked alive p
                 (updServer p (forgetInstance i) (m2 <| serverByInstanceID ::= delete i |>))
           | None => m2
           end) <| instancesByID ::= fun ids => ids ∖ {[i]} |>) as Hm'.
  { unfold m', removeServerRecordLocked, instanceByID. rewrite bool_decide_true, Hrec by done. done. }
  assert (forall q j, j ∈ idsAtPort m' q <-> j ∈ idsAtPort m q /\ j <> i) as Hports.
  { intros q j. rewrite <- (unindexed_ports rec) by done. rewrite Hm'. fold m2. by destruct (serverByInstanceID m2 !! i). }
  assert (instancesByID m' = instancesByID m ∖ {[i]} /\
          serverByInstanceID m' = delete i (serverByInstanceID m)) as [HB HO].
  { destruct (unindexed_rest rec i m) as [H1 H2]. fold m2 in H1, H2.
    rewrite Hm'. destruct (serverByInstanceID m2 !! i) eqn:He; cbn; rewrite ?H1, ?H2; [done|].
    rewrite H2 in He. by rewrite delete_id. }
  assert (serverByInstanceID m' !! i = None) as Hno by (rewrite HO; apply lookup_delete_eq).
  split_and!; [rewrite HB; set_solver|done| | |].
  - intros port Hp%Hports. tauto.
  - intros p s Hs Hi. apply (ro_server _ _ Hok') in Hs as [_ Hs]. apply (sk_owner _ _ _ Hs) in Hi.
    congruence.
  - intros j Hj. split_and!; [rewrite HB; set_solver|by rewrite HO, lookup_delete_ne|].
    intros port. rewrite Hports. tauto.
Qed.

(** * A concrete registry *)

(** One launched server whose instance 0 runs as process 7 on port 26000 with two of eight
    players, and a second one that is still warming up. *)
Definition sampleLaunch : serverLaunch :=
  mkLaunch 0 "T-nqserver" "nqserver" ["-dedicated"; "8"; "-port"; "0"]%string.
Definition sampleAlive (p : Z) : bool := p =? 7.
Definition sampleRun (r : instance) : instance :=
  r <| Running := Some (mkManaged 0 (Some 7) None) |> <| Players := 2 |> <| MaxPlayers := 8 |>
    <| LastSeen := Some 1 |> <| Hostname := "Quake"%string |>.
Definition sampleRegistered : ServerManager :=
  (registerServerLaunch (H := plain_unicode) sampleAlive sampleLaunch
     (NewServerManager <| serverMaxInstances := 3 |>)).2.
Definition sampleActive : ServerManager :=
  setServerInstanceLifecycleLocked sampleAlive 0 0 Active
    (updatePort 0 26000 (updInstance 0 sampleRun sampleRegistered)).
Definition sampleManager : ServerManager :=
  (appendServerInstanceLocked sampleAlive 0 sampleLaunch Warming sampleActive).2.

Lemma sampleRegistered_ok : reg_ok sampleRegistered.
Proof.
  apply registerServerLaunch_ok. constructor; cbn; intros *; rewrite ?lookup_empty; done.
Qed.

Lemma sampleActive_ok : reg_ok sampleActive.
Proof.
  apply setServerInstanceLifecycleLocked_ok, updatePort_ok, updInstance_runtime_ok;
    [exact sampleRegistered_ok|]. intros rec. unfold sampleRun. cbn. split_and!; try done; lia.
Qed.

Lemma sampleManager_ok : reg_ok sampleManager.
Proof.
  apply appendServerInstanceLocked_ok; [exact sampleActive_ok|].
  eexists. vm_compute. reflexivity.
Qed.

Lemma refreshServer_joinable_within_aggregate_witness :
  exists s, servers sampleManager !! 0 = Some s /\ InstanceIDs s = [0; 1] /\
    let s' := refreshServer sampleAlive sampleManager s in
    joinableInstances s' = 1 /\ joinableUsers s' = 2 /\ joinableUsers s' <= aggregateUsers s'.
Proof.
  eexists. split; [vm_compute; reflexivity|]. split; [reflexivity|]. cbn zeta.
  split; [vm_compute; reflexivity|]. split; [vm_compute; reflexivity|].
  match goal with |- joinableUsers (refreshServer _ _ ?s) <= _ =>
    exact (proj1 (proj2 (refreshServer_joinable_within_aggregate sampleAlive sampleManager s
                           sampleManager_ok))) end.
Defined.

Lemma removeServerRecordLocked_gone_witness :
  0 ∈ instancesByID sampleManager /\ idsAtPort sampleManager 26000 = [0] /\
  serverByInstanceID (removeServerRecordLocked sampleAlive 0 sampleManager) !! 0 = None.
Proof.
  assert (0 ∈ instancesByID sampleManager) as Hin.
  { apply (bool_decide_unpack _). vm_compute. exact I. }
  split; [exact Hin|]. split; [vm_compute; reflexivity|].
  exact (proj1 (proj2 (removeServerRecordLocked_gone sampleAlive sampleManager 0
                         sampleManager_ok Hin))).
Defined.
