(* ===== verification/Autoscale.v ===== *)
(** Autoscaling: internal/orch/autoscale.go, up to the launching and stopping of processes.

    Times are nanoseconds; the zero time is [None].  The float64 arithmetic of the demand
    estimate is the Standard Library's binary64 specification ([SpecFloat] at precision 53).
    [decideServerActionsLocked] mutates the server it is given and returns two ids, -1 for
    none; here it returns the mutated server and the two ids.  The loop of that function is
    [decideOne] folded over the server's instances, with the loop's variables in [decideState]. *)
From Stdlib Require Import Floats.SpecFloat.
From S2P Require Import Prelude GoStrings LaunchPlan Registry.

(** autoscale.go [SetServerMaxInstances] *)
Definition SetServerMaxInstances (size : Z) (m : ServerManager) : ServerManager :=
  m <| serverMaxInstances := if size <? 1 then 1 else size |>.

(** * Routing *)

(** autoscale.go [serverCandidatesWithFreeSlots] *)
Definition hasFreeSlot (c : serverInstanceCandidate) : bool :=
  (maxPlayers c <=? 0) || (players c <? maxPlayers c).
Definition serverCandidatesWithFreeSlots (candidates : list serverInstanceCandidate)
    : list serverInstanceCandidate := List.filter hasFreeSlot candidates.

(** autoscale.go [pickServerInstanceLocked]: which candidates are considered, *)
Definition routingPool (active all : list serverInstanceCandidate)
    : list serverInstanceCandidate :=
  match serverCandidatesWithFreeSlots active with
  | [] => match serverCandidatesWithFreeSlots all with
          | [] => match all with [] => active | _ => all end
          | freeAll => freeAll
          end
  | free => free
  end.

(** one round of its loop over the candidates, *)
Definition bestStep (best : list serverInstanceCandidate) (cand : serverInstanceCandidate)
    : list serverInstanceCandidate :=
  match best with
  | [] => [cand]
  | bestRef :: _ =>
      let candMax := Z.max (maxPlayers cand) 1 in
      let bestMax := Z.max (maxPlayers bestRef) 1 in
      let left := players cand * bestMax in
      let right := players bestRef * candMax in
      if (left <? right) || ((left =? right) && (players cand <? players bestRef)) then [cand]
      else if (left =? right) && (players cand =? players bestRef) then best ++ [cand]
      else best
  end.

(** and the loop. *)
Definition leastLoaded (candidates : list serverInstanceCandidate)
    : list serverInstanceCandidate :=
  match candidates with
  | [] => []
  | c :: rest => foldl bestStep [c] rest
  end.

(** autoscale.go [pickServerInstanceLocked]: the port, if any, and the server's new cursor. *)
Definition pickServerInstance (alive : Z -> bool) (m : ServerManager) (s : server) (advance : bool)
    : option Z * server :=
  let candidates := routingPool (serverRoutableCandidatesLocked alive m s false)
                                (serverRoutableCandidatesLocked alive m s true) in
  match leastLoaded candidates with
  | [] => (None, s)
  | best =>
      let idx := if (1 <? Z.of_nat (length best))
                 then Z.rem (RoundRobinCursor s) (Z.of_nat (length best)) else 0 in
      let s' := if advance then s <| RoundRobinCursor ::= Z.add 1 |> else s in
      (listenPort <$> best !! Z.to_nat idx, s')
  end.

(** autoscale.go [serverRunningCountLocked] *)
Definition serverRunningCountLocked (alive : Z -> bool) (m : ServerManager) (s : server) : Z :=
  Z.of_nat (length (runningInstances alive m s)).

(** * Demand *)

(** autoscale.go [pruneServerDemandLocked] *)
Definition pruneServerDemand (now : Z) (s : server) : server :=
  let cutoff := now - demandWindow in
  s <| joinDemandAt ::= List.filter (fun ts => negb (ts <? cutoff)) |>.

(** autoscale.go [noteServerDemandLocked] *)
Definition noteServerDemand (now : Z) (s : server) : server :=
  (pruneServerDemand now s) <| joinDemandAt ::= fun l => l ++ [now] |>.

(** float64 *)
Definition float64_of (z : Z) : spec_float := binary_normalize 53 1024 z 0 false.
Definition float64_div : spec_float -> spec_float -> spec_float := SFdiv 53 1024.
Definition float64_mul : spec_float -> spec_float -> spec_float := SFmul 53 1024.
(** int(math.Ceil(f)) of a finite float; only finite floats arise. *)
Definition ceil_int (f : spec_float) : Z :=
  match f with
  | S754_finite neg mant exp =>
      let v := if neg then Z.neg mant else Z.pos mant in
      if 0 <=? exp then Z.shiftl v exp else - ((- v) / 2 ^ (- exp))
  | _ => 0
  end.
Definition demandSafetyFactor : spec_float := float64_div (float64_of 3) (float64_of 2).
(** time.Duration.Seconds of a whole number of seconds *)
Definition Seconds (d : Z) : spec_float := float64_of (d / second).

(** The headroom for [joins] joins in the window. *)
Definition dynamicHeadroom (joins : Z) : Z :=
  let joinRPS := float64_div (float64_of joins) (Seconds demandWindow) in
  ceil_int (float64_mul (float64_mul joinRPS (Seconds demandSpawnReady)) demandSafetyFactor).

(** autoscale.go [serverNeededHeadroomLocked], which prunes the demand first. *)
Definition serverNeededHeadroom (now : Z) (s : server) : Z * server :=
  let s := pruneServerDemand now s in
  (Z.max demandMinFreeSlots (dynamicHeadroom (Z.of_nat (length (joinDemandAt s)))), s).

(** * Decisions *)

Record decideState := mkDecide {
  dStates : gmap Z instanceState;
  activeRoutableCount : Z;
  despawnServerID : Z;
}.
#[export] Instance eta_decide : EtaRecord decideState := fun d =>
  mkDecide (dStates d) (activeRoutableCount d) (despawnServerID d).

(** The closure [setLifecycle] of the loop, on the state of instance [i]; [streak] is the value
    the code gives ZeroPollStreak next. *)
Definition setLifecycle (i : Z) (st : instanceState) (next : instanceLifecycle) (streak : Z)
    (d : decideState) : decideState :=
  let count := activeRoutableCount d in
  let count := if bool_decide (Lifecycle st = next) then count
               else (count - (if bool_decide (Lifecycle st = Active) then 1 else 0))
                    + (if bool_decide (next = Active) then 1 else 0) in
  d <| dStates ::= <[i := mkState next streak]> |> <| activeRoutableCount := count |>.

(** The body of the loop of autoscale.go [decideServerActionsLocked]. *)
Definition decideOne (alive : Z -> bool) (m : ServerManager)
    (freeSlots neededHeadroom : Z) (ScaleUpInFlight : bool) (d : decideState) (i : Z)
    : decideState :=
  match runningByID alive m i with
  | None => d
  | Some rec =>
      let '(st, states) := ensureServerInstanceState (dStates d) i in
      let d := d <| dStates := states |> in
      if bool_decide (Lifecycle st = Terminating) then d else
      match LastSeen rec with
      | None => setLifecycle i st Warming 0 d
      | Some _ =>
          if 0 <? Players rec then setLifecycle i st Active 0 d else
          let instanceFreeSlots := Z.max 1 (MaxPlayers rec - Players rec) in
          let canDrain := (1 <? activeRoutableCount d)
                          && (neededHeadroom <=? freeSlots - instanceFreeSlots)
                          && negb (ScaleUpInFlight && negb (bool_decide (Lifecycle st = Draining)))
          in
          if negb canDrain then setLifecycle i st Active 0 d else
          let streak := ZeroPollStreak st + 1 in
          let d := setLifecycle i st Draining streak d in
          if (despawnZeroPolls <=? streak) && (despawnServerID d <? 0)
          then (setLifecycle i (mkState Draining streak) Terminating 0 d) <| despawnServerID := i |>
          else d
      end
  end.

(** autoscale.go [decideServerActionsLocked]: the mutated server, the id of the server to scale
    up and the id of the instance to despawn, -1 for none. *)
Definition decideServerActions (alive : Z -> bool) (m : ServerManager) (s : server) (now : Z)
    : server * (Z * Z) :=
  let s := refreshServer alive m s in
  if negb (Autoscales s) then (s, (-1, -1)) else
  let freeSlots := if 0 <? aggregateMaxUsers s
                   then Z.max 0 (aggregateMaxUsers s - aggregateUsers s) else 0 in
  let '(neededHeadroom, s) := serverNeededHeadroom now s in
  let runningCount := aggregateInstances s in
  let d := foldl (decideOne alive m freeSlots neededHeadroom (ScaleUpInFlight s))
             (mkDecide (instanceStates s) (joinableInstances s) (-1)) (InstanceIDs s) in
  let s := s <| instanceStates := dStates d |> in
  if (0 <? aggregateMaxUsers s) && (freeSlots <? neededHeadroom) && negb (ScaleUpInFlight s)
     && (runningCount <? Z.max 1 (serverMaxInstances m))
     && match LastScaleUpAt s with None => true | Some t => scaleUpCooldown <=? now - t end
  then (s <| ScaleUpInFlight := true |>, (ServerID s, despawnServerID d))
  else (s, (-1, despawnServerID d)).

(** The same, on the server object at [p]. *)
Definition decideServerActionsLocked (alive : Z -> bool) (p now : Z) (m : ServerManager)
    : ServerManager * (Z * Z) :=
  match servers m !! p with
  | None => (m, (-1, -1))
  | Some s => let '(s', r) := decideServerActions alive m s now in (updServer p (fun _ => s') m, r)
  end.

(** autoscale.go [forEachUniqueInt]: the values its callback sees, in order. *)
Fixpoint uniqueInts (seen : gset Z) (values : list Z) : list Z :=
  match values with
  | [] => []
  | v :: rest => if bool_decide (v ∈ seen) then uniqueInts seen rest
                 else v :: uniqueInts ({[v]} ∪ seen) rest
  end.
Definition forEachUniqueInt {A} (fn : Z -> A -> A) (values : list Z) (a : A) : A :=
  foldl (fun a v => fn v a) a (uniqueInts ∅ values).

(** autoscale.go [reconcileServers], its critical section: the decisions for every server. *)
Record reconcileState := mkReconcile {
  rManager : ServerManager; scaleUps : list Z; despawns : list Z }.
Definition reconcileOne (alive : Z -> bool) (now : Z) (serverID : Z) (r : reconcileState)
    : reconcileState :=
  match serversByID (rManager r) !! serverID with
  | None => r
  | Some p =>
      let '(m', (up, down)) := decideServerActionsLocked alive p now (rManager r) in
      mkReconcile m' (if 0 <=? up then scaleUps r ++ [up] else scaleUps r)
                     (if 0 <=? down then despawns r ++ [down] else despawns r)
  end.
Definition reconcileDecisions (alive : Z -> bool) (now : Z) (serverIDs : list Z)
    (m : ServerManager) : reconcileState :=
  forEachUniqueInt (reconcileOne alive now) serverIDs (mkReconcile m [] []).

(** * Routing: facts *)

Definition byteCandidate (c : serverInstanceCandidate) : Prop :=
  0 <= players c <= 255 /\ 0 <= maxPlayers c <= 255.

(** The order in which instances are preferred: by load ratio, then by player count. *)
Definition loadLe (c c' : serverInstanceCandidate) : Prop :=
  let l := players c * Z.max (maxPlayers c') 1 in
  let r := players c' * Z.max (maxPlayers c) 1 in
  l < r \/ (l = r /\ players c <= players c').
(** Equally loaded candidates. *)
Definition loadEq (c c' : serverInstanceCandidate) : Prop :=
  players c = players c' /\
  players c * Z.max (maxPlayers c') 1 = players c' * Z.max (maxPlayers c) 1.
#[export] Instance loadEq_dec c c' : Decision (loadEq c c').
Proof. unfold loadEq. apply _. Defined.

Lemma loadLe_refl c : loadLe c c.
Proof. unfold loadLe. lia. Qed.

Lemma loadLe_trans a b c :
  0 <= players a -> 0 <= players b -> 0 <= players c -> loadLe a b -> loadLe b c -> loadLe a c.
Proof.
  unfold loadLe. intros Ha Hb Hc.
  set (ma := Z.max (maxPlayers a) 1). set (mb := Z.max (maxPlayers b) 1).
  set (mc := Z.max (maxPlayers c) 1).
  assert (0 < ma /\ 0 < mb /\ 0 < mc) as (Hma & Hmb & Hmc) by lia. intros Hab Hbc.
  assert (players a * mb <= players b * ma) by lia. assert (players b * mc <= players c * mb) by lia.
  assert (players a * mb * mc <= players b * ma * mc) by nia.
  assert (players b * mc * ma <= players c * mb * ma) by nia.
  assert (mb * (players a * mc) <= mb * (players c * ma)) by nia.
  assert (players a * mc <= players c * ma) by nia.
  destruct (Z.eq_dec (players a * mc) (players c * ma)) as [He|]; [right; split; [done|]|left; lia].
  assert (players a * mb = players b * ma) by nia. assert (players b * mc = players c * mb) by nia.
  lia.
Qed.

Lemma loadEq_trans a b c :
  loadEq a b -> loadEq b c -> loadEq a c.
Proof. unfold loadEq. intros [Hab Hm] [Hbc Hm']. rewrite Hab, Hbc in *. split; [done|lia]. Qed.

Lemma loadEq_sym a b : loadEq a b -> loadEq b a.
Proof. unfold loadEq. intuition lia. Qed.

(** [leastLoaded] is the filter of the candidates equal to the first minimal one. *)
Definition leastOf (seen best : list serverInstanceCandidate) : Prop :=
  exists b rest, best = b :: rest /\ Forall (loadLe b) seen /\ b ∈ seen /\
    best = filter (loadEq b) seen.

Lemma filter_all_false {A} (P : A -> Prop) `{forall x, Decision (P x)} l :
  Forall (fun x => ~ P x) l -> filter P l = [].
Proof. induction 1; [done|]. rewrite filter_cons_False; done. Qed.

Lemma bestStep_least seen best c :
  Forall byteCandidate (seen ++ [c]) -> leastOf seen best -> leastOf (seen ++ [c]) (bestStep best c).
Proof.
  intros [Hbytes [[Hc _] _]%Forall_cons]%Forall_app (b & rest & -> & Hmin & Hin & Hbest).
  assert (0 <= players b) as Hb by (rewrite Forall_forall in Hbytes; by apply Hbytes in Hin as [[] _]).
  unfold bestStep.
  match goal with |- context [if ?a then _ else if ?b then _ else _] =>
    destruct a eqn:Hlt; [|destruct b eqn:Heq] end.
  - assert (loadLe c b /\ ~ loadEq c b) as [Hcb Hne].
    { unfold loadLe, loadEq. apply orb_true_iff in Hlt as [?|?]; bool_prop; lia. }
    assert (Forall (loadLe c) seen) as Hcs.
    { rewrite Forall_forall in *. intros x Hx. apply (loadLe_trans c b x); auto; [lia|].
      by apply Hbytes in Hx as [[] _]. }
    exists c, []. split_and!; [done| |set_solver|].
    + apply Forall_app. split; [done|]. apply Forall_singleton, loadLe_refl.
    + rewrite filter_app, filter_all_false, filter_cons_True; [done|by repeat split|].
      rewrite Forall_forall in *. intros x Hx Hcx. apply Hne.
      assert (loadLe b x) by auto. unfold loadLe, loadEq in *.
      assert (0 <= players x) by (by apply Hbytes in Hx as [[] _]).
      destruct Hcx as [? ?]. split; nia.
  - bool_prop. assert (loadEq b c) as Hbc by (unfold loadEq; lia).
    exists b, (rest ++ [c]). split_and!; [done| |set_solver|].
    + apply Forall_app. split; [done|]. apply Forall_singleton. unfold loadEq, loadLe in *. lia.
    + rewrite filter_app, <- Hbest, filter_cons_True by done. done.
  - rewrite orb_false_iff, andb_false_iff, !Z.ltb_ge, Z.eqb_neq in Hlt.
    rewrite andb_false_iff, !Z.eqb_neq in Heq.
    exists b, rest. split_and!; [done| |set_solver|].
    + apply Forall_app. split; [done|]. apply Forall_singleton. unfold loadLe. lia.
    + rewrite filter_app, <- Hbest, filter_cons_False; [by rewrite app_nil_r|].
      unfold loadEq. lia.
Qed.

Lemma leastLoaded_least l :
  l <> [] -> Forall byteCandidate l -> leastOf l (leastLoaded l).
Proof.
  destruct l as [|c rest]; [done|]. intros _ Hb. cbn [leastLoaded].
  assert (leastOf [c] [c]) as H1.
  { exists c, []. split_and!; [done|apply Forall_singleton, loadLe_refl|set_solver|].
    rewrite filter_cons_True by (by split). done. }
  change (c :: rest) with ([c] ++ rest) in *. revert H1 Hb.
  generalize [c] at 1 3 4 as seen. generalize [c] as best. revert rest.
  induction rest as [|x rest IH]; intros best seen Hs Hb; [by rewrite app_nil_r|].
  cbn [foldl]. replace (seen ++ x :: rest) with ((seen ++ [x]) ++ rest) in * by (by rewrite <- app_assoc).
  apply IH; [|done]. apply bestStep_least; [|done]. by apply Forall_app in Hb as [? _].
Qed.

Lemma candidates_bytes alive m s d :
  reg_ok m -> Forall byteCandidate (serverRoutableCandidatesLocked alive m s d).
Proof.
  intros Hok. apply Forall_forall. intros c Hc. apply list_elem_of_omap in Hc as (i & _ & Hc).
  apply candidateOf_Some in Hc as (rec & Hr & _ & _ & _ & Hp & Hm).
  apply runningByID_Some in Hr as (_ & Hr & _). apply (ro_inst _ _ Hok) in Hr as (_ & _ & Hrk).
  unfold byteCandidate. rewrite Hp, Hm. apply (rk_players _ Hrk).
Qed.

Lemma candidateOf_draining alive m s i c :
  candidateOf alive m s false i = Some c -> candidateOf alive m s true i = Some c.
Proof.
  unfold candidateOf, lifecycleRoutable. destruct (runningByID alive m i); [|done].
  destruct (Autoscales s); [|done]. destruct (instanceStates s !! i) as [st|]; [|done].
  by destruct (Lifecycle st).
Qed.

Lemma active_subset alive m s c :
  c ∈ serverRoutableCandidatesLocked alive m s false ->
  c ∈ serverRoutableCandidatesLocked alive m s true.
Proof.
  unfold serverRoutableCandidatesLocked. rewrite !list_elem_of_omap.
  intros (i & Hi & Hc). exists i. split; [done|]. by apply candidateOf_draining.
Qed.

Lemma elem_of_free c l : c ∈ serverCandidatesWithFreeSlots l <-> c ∈ l /\ hasFreeSlot c = true.
Proof. unfold serverCandidatesWithFreeSlots. by rewrite !list_elem_of_In, filter_In. Qed.

Lemma no_free l : serverCandidatesWithFreeSlots l = [] -> forall c, c ∈ l -> hasFreeSlot c = false.
Proof.
  intros Hn c Hc. destruct (hasFreeSlot c) eqn:Hf; [|done]. exfalso.
  assert (c ∈ serverCandidatesWithFreeSlots l) as H by (by apply elem_of_free).
  rewrite Hn in H. by apply elem_of_nil in H.
Qed.

(** What the pool holds, for any candidates whose active ones are among all of them. *)
Lemma routingPool_spec active all c :
  (forall c, c ∈ active -> c ∈ all) -> c ∈ routingPool active all ->
  c ∈ all /\
  (c ∈ active \/ forall c', c' ∈ active -> hasFreeSlot c' = false) /\
  (hasFreeSlot c = true \/ forall c', c' ∈ all -> hasFreeSlot c' = false).
Proof.
  intros Hsub. unfold routingPool.
  destruct (serverCandidatesWithFreeSlots active) as [|a la] eqn:Ha.
  2: { rewrite <- Ha, elem_of_free. intros [? ?]. auto. }
  pose proof (no_free _ Ha) as Hna.
  destruct (serverCandidatesWithFreeSlots all) as [|b lb] eqn:Hb.
  2: { rewrite <- Hb, elem_of_free. intros [? ?]. auto. }
  pose proof (no_free _ Hb) as Hnb.
  destruct all as [|x all]; [|by auto]. intros Hc. auto.
Qed.

Lemma routingPool_nil active all :
  (forall c, c ∈ active -> c ∈ all) -> routingPool active all = [] <-> all = [].
Proof.
  intros Hsub. unfold routingPool. split.
  - destruct (serverCandidatesWithFreeSlots active) eqn:Ha; [|done].
    destruct (serverCandidatesWithFreeSlots all); [|done]. by destruct all.
  - intros ->. destruct active as [|c active]; [done|].
    specialize (Hsub c). set_solver.
Qed.

Lemma leastLoaded_nil l : leastLoaded l = [] <-> l = [].
Proof.
  destruct l as [|c rest]; [done|]. split; [|done]. cbn. intros Hn. exfalso. revert Hn.
  assert (forall best, best <> [] -> foldl bestStep best rest <> []) as H; [|by apply H].
  induction rest as [|x rest IH]; intros best Hb; [done|]. cbn. apply IH.
  unfold bestStep. destruct best as [|b best]; [done|]. repeat split_match; done.
Qed.

(** The candidates of the server and the ones equally good to route to. *)
Definition routableTo (alive : Z -> bool) (m : ServerManager) (s : server) :=
  routingPool (serverRoutableCandidatesLocked alive m s false)
              (serverRoutableCandidatesLocked alive m s true).

Lemma routableTo_cursor alive m s n :
  routableTo alive m (s <| RoundRobinCursor := n |>) = routableTo alive m s.
Proof. done. Qed.

(** The pick is the entry of the least loaded ones that the cursor points at. *)
Lemma pickServerInstance_index alive m s advance :
  0 <= RoundRobinCursor s ->
  pickServerInstance alive m s advance =
  let best := leastLoaded (routableTo alive m s) in
  (listenPort <$> best !! Z.to_nat (RoundRobinCursor s mod Z.of_nat (length best)),
   if bool_decide (best = []) then s
   else if advance then s <| RoundRobinCursor ::= Z.add 1 |> else s).
Proof.
  intros Hc. unfold pickServerInstance. fold (routableTo alive m s).
  destruct (leastLoaded (routableTo alive m s)) as [|b best] eqn:Hb; [done|].
  rewrite bool_decide_false by done. cbn zeta. f_equal. f_equal. f_equal. f_equal.
  destruct (Z.ltb_spec 1 (Z.of_nat (length (b :: best)))) as [Hl|Hl].
  - apply Z.rem_mod_nonneg; cbn in *; lia.
  - replace (Z.of_nat (length (b :: best))) with 1 by (cbn in *; lia). by rewrite Z.mod_1_r.
Qed.

(** C33.  A connection is routed to a running, routable instance of the server, and to none only
    when the server has none (not even a draining one).  The instance chosen is active unless
    every active instance is full, has a free slot unless every routable instance is full, and
    no instance of the pool it was chosen from is less loaded. *)
Theorem pickServerInstance_least alive m s advance :
  reg_ok m -> 0 <= RoundRobinCursor s ->
  match fst (pickServerInstance alive m s advance) with
  | None => forall i, i ∈ InstanceIDs s -> candidateOf alive m s true i = None
  | Some port =>
      exists i c, i ∈ InstanceIDs s /\ candidateOf alive m s true i = Some c /\
        listenPort c = port /\ 1 <= port <= 65535 /\
        (c ∈ serverRoutableCandidatesLocked alive m s false \/
         forall c', c' ∈ serverRoutableCandidatesLocked alive m s false -> hasFreeSlot c' = false) /\
        (hasFreeSlot c = true \/
         forall c', c' ∈ serverRoutableCandidatesLocked alive m s true -> hasFreeSlot c' = false) /\
        Forall (loadLe c) (routableTo alive m s)
  end.
Proof.
  intros Hok Hcur. rewrite pickServerInstance_index by done. cbn [fst].
  set (active := serverRoutableCandidatesLocked alive m s false).
  set (all := serverRoutableCandidatesLocked alive m s true).
  assert (forall c, c ∈ active -> c ∈ all) as Hsub by apply active_subset.
  destruct (decide (routableTo alive m s = [])) as [Hn|Hne].
  - rewrite Hn. cbn. apply (routingPool_nil _ _ Hsub) in Hn. intros i Hi.
    destruct (candidateOf alive m s true i) as [c|] eqn:Hc; [|done].
    assert (c ∈ all) as Hin by (apply list_elem_of_omap; eauto). fold all in Hn. rewrite Hn in Hin. set_solver.
  - assert (Forall byteCandidate (routableTo alive m s)) as Hbytes.
    { pose proof (candidates_bytes alive m s true Hok) as Hb. rewrite Forall_forall in Hb |- *.
      intros c Hc. apply Hb. by apply (routingPool_spec _ _ _ Hsub). }
    destruct (leastLoaded_least _ Hne Hbytes) as (b & rest & Hbest & Hmin & _ & Hfil).
    set (best := leastLoaded (routableTo alive m s)) in *.
    assert (0 < Z.of_nat (length best)) by (rewrite Hbest; cbn; lia).
    destruct (lookup_lt_is_Some_2 best (Z.to_nat (RoundRobinCursor s mod Z.of_nat (length best))))
      as [c Hc].
    { pose proof (Z.mod_pos_bound (RoundRobinCursor s) (Z.of_nat (length best))). lia. }
    rewrite Hc. cbn. apply list_elem_of_lookup_2 in Hc. rewrite Hfil in Hc.
    apply list_elem_of_filter in Hc as [Heq Hc].
    destruct (routingPool_spec _ _ _ Hsub Hc) as (Hall & Hact & Hfree).
    pose proof Hall as Hi. apply list_elem_of_omap in Hi as (i & Hi & Hcand).
    destruct (candidateOf_Some _ _ _ _ _ _ Hcand) as (_ & _ & _ & _ & Hport & _).
    exists i, c. split_and!; [done..|lia|lia|done|done|].
    rewrite Forall_forall in Hmin, Hbytes |- *. intros x Hx.
    assert (loadLe c b) by (unfold loadLe, loadEq in *; lia).
    assert (b ∈ routableTo alive m s).
    { assert (b ∈ best) as Hb by (rewrite Hbest; set_solver). rewrite Hfil in Hb.
      by apply list_elem_of_filter in Hb as [_ ?]. }
    apply (loadLe_trans c b x); auto; by apply Hbytes.
Qed.

(** The ports of [n] consecutive advancing picks, with nothing else happening in between. *)
Fixpoint pickMany (alive : Z -> bool) (m : ServerManager) (n : nat) (s : server)
    : list (option Z) :=
  match n with
  | O => []
  | S n => let '(port, s') := pickServerInstance alive m s true in
           port :: pickMany alive m n s'
  end.

Lemma pickMany_index alive m n : forall s,
  0 <= RoundRobinCursor s -> leastLoaded (routableTo alive m s) <> [] ->
  pickMany alive m n s =
  (fun j => listenPort <$> leastLoaded (routableTo alive m s) !!
      Z.to_nat (j mod Z.of_nat (length (leastLoaded (routableTo alive m s)))))
  <$> seqZ (RoundRobinCursor s) (Z.of_nat n).
Proof.
  induction n as [|n IH]; intros s Hc Hne; [done|]. cbn [pickMany].
  rewrite pickServerInstance_index by done. cbn zeta. rewrite bool_decide_false by done.
  rewrite seqZ_cons by lia. cbn [fmap list_fmap]. f_equal.
  rewrite IH; [|cbn; lia|done].
  replace (Z.pred (Z.of_nat (S n))) with (Z.of_nat n) by lia.
  replace (Z.succ (RoundRobinCursor s)) with (RoundRobinCursor (s <| RoundRobinCursor ::= Z.add 1 |>))
    by (cbn; lia). done.
Qed.

Lemma lookup_mod_rotate {A} (l : list A) c :
  0 <= c -> l <> [] ->
  (fun j => l !! Z.to_nat (j mod Z.of_nat (length l))) <$> seqZ c (Z.of_nat (length l))
  = Some <$> rotate (Z.to_nat c) l.
Proof.
  intros Hc Hne. set (k := length l).
  assert (0 < k)%nat as Hk by (unfold k; destruct l; [done|cbn; lia]).
  apply list_eq. intros i. rewrite !list_lookup_fmap.
  destruct (decide (i < k)%nat) as [Hi|Hi].
  - rewrite lookup_seqZ_lt by lia. cbn. rewrite lookup_rotate_r by done.
    unfold rotate_nat_add. rewrite Z2Nat.id by lia.
    set (j := Z.to_nat _). assert (j < k)%nat as Hj.
    { pose proof (Z.mod_pos_bound (c + Z.of_nat i) (Z.of_nat k)). unfold j. lia. }
    by destruct (lookup_lt_is_Some_2 l j Hj) as [x ->].
  - rewrite lookup_seqZ_ge by lia. cbn.
    by rewrite lookup_ge_None_2 by (rewrite length_rotate; unfold k in Hi; lia).
Qed.

Lemma rotate_Permutation {A} n (l : list A) : rotate n l ≡ₚ l.
Proof. unfold rotate. rewrite Permutation_app_comm. by rewrite take_drop. Qed.

(** Ties are broken round robin: over an unchanging registry, as many consecutive
    connections as there are equally least-loaded instances reach each of them exactly once,
    wherever the cursor stands. *)
Theorem pickServerInstance_round_robin alive m s :
  0 <= RoundRobinCursor s ->
  let best := leastLoaded (routableTo alive m s) in
  pickMany alive m (length best) s ≡ₚ Some <$> (listenPort <$> best).
Proof.
  intros Hc best. destruct (decide (best = [])) as [Hn|Hne].
  { unfold best in *. by rewrite Hn. }
  rewrite pickMany_index by done. fold best.
  transitivity (fmap listenPort <$> (Some <$> rotate (Z.to_nat (RoundRobinCursor s)) best)).
  - rewrite <- lookup_mod_rotate by done. by rewrite <- list_fmap_compose.
  - rewrite rotate_Permutation. by rewrite <- !list_fmap_compose.
Qed.

(** * Decisions: facts *)

(** Instance [i] runs and is active. *)
Definition activeRunning (alive : Z -> bool) (m : ServerManager)
    (states : gmap Z instanceState) (i : Z) : bool :=
  match runningByID alive m i, states !! i with
  | Some _, Some st => bool_decide (Lifecycle st = Active)
  | _, _ => false
  end.
Definition activeCount (alive : Z -> bool) (m : ServerManager)
    (states : gmap Z instanceState) (ids : list Z) : Z :=
  Z.of_nat (length (List.filter (activeRunning alive m states) ids)).

(** Every running instance of the server has resolved its port. *)
Definition portsResolved (alive : Z -> bool) (m : ServerManager) (s : server) : Prop :=
  forall i rec, i ∈ InstanceIDs s -> runningByID alive m i = Some rec ->
    1 <= recordListenPort rec <= 65535.

Definition isActive (lc : instanceLifecycle) : Z := if bool_decide (lc = Active) then 1 else 0.

Lemma activeCount_insert alive m states ids i st st' rec :
  NoDup ids -> i ∈ ids -> runningByID alive m i = Some rec -> states !! i = Some st ->
  activeCount alive m (<[i := st']> states) ids
  = activeCount alive m states ids - isActive (Lifecycle st) + isActive (Lifecycle st').
Proof.
  intros Hnd Hin Hr Hst. unfold activeCount.
  assert (forall l, i ∉ l ->
            List.filter (activeRunning alive m (<[i:=st']> states)) l
            = List.filter (activeRunning alive m states) l) as Hout.
  { intros l Hl. apply filter_ext_in. intros j Hj%list_elem_of_In. unfold activeRunning.
    rewrite lookup_insert_ne; [done|]. intros <-. done. }
  induction ids as [|j ids IH]; [set_solver|]. apply NoDup_cons in Hnd as [Hj Hnd].
  cbn [List.filter]. destruct (decide (i = j)) as [<-|Hne].
  - rewrite Hout by done.
    assert (forall states' st0, states' !! i = Some st0 ->
              activeRunning alive m states' i = bool_decide (Lifecycle st0 = Active)) as Hact.
    { intros states' st0 Hs0. unfold activeRunning. by rewrite Hr, Hs0. }
    rewrite (Hact _ _ Hst), (Hact _ st') by apply lookup_insert_eq.
    unfold isActive. repeat case_bool_decide; cbn; lia.
  - assert (i ∈ ids) as Hi by set_solver. specialize (IH Hnd Hi).
    assert (activeRunning alive m (<[i:=st']> states) j = activeRunning alive m states j) as ->.
    { unfold activeRunning. by rewrite lookup_insert_ne. }
    destruct (activeRunning alive m states j); cbn [length]; lia.
Qed.

(** Creating the state of an instance that had none makes nothing active. *)
Lemma ensureServerInstanceState_spec states i st states' :
  ensureServerInstanceState states i = (st, states') ->
  states' !! i = Some st /\ (forall j, j <> i -> states' !! j = states !! j) /\
  (states !! i = None -> st = mkState Warming 0) /\
  (forall st0, states !! i = Some st0 -> st = st0 /\ states' = states).
Proof.
  unfold ensureServerInstanceState. destruct (states !! i) as [st0|] eqn:He; intros [= <- <-].
  - split_and!; try done. by intros ? [= <-].
  - split_and!; [by rewrite lookup_insert_eq| |done|done]. intros j Hj. by rewrite lookup_insert_ne.
Qed.

Lemma activeCount_ensure alive m states i st states' ids :
  ensureServerInstanceState states i = (st, states') ->
  activeCount alive m states' ids = activeCount alive m states ids.
Proof.
  intros He. destruct (ensureServerInstanceState_spec _ _ _ _ He) as (Hi & Hne & Hw & Hs).
  unfold activeCount. do 2 f_equal. apply filter_ext. intros j. unfold activeRunning.
  destruct (runningByID alive m j); [|done]. destruct (decide (j = i)) as [->|]; [|by rewrite Hne].
  rewrite Hi. destruct (states !! i) as [st0|]; [by destruct (Hs _ eq_refl) as [-> _]|].
  by rewrite Hw.
Qed.

Section Loop.
Context (alive : Z -> bool) (m : ServerManager) (freeSlots needed : Z) (inFlight : bool).
Let step := decideOne alive m freeSlots needed inFlight.

(** What one round of the loop does to the state of its instance, given the active count. *)
Definition decidedState (rec : instance) (st : instanceState) (active despawn : Z)
  : instanceState * bool :=
  if bool_decide (Lifecycle st = Terminating) then (st, false) else
  if bool_decide (LastSeen rec = None) then (mkState Warming 0, false) else
  if 0 <? Players rec then (mkState Active 0, false) else
  if (1 <? active) && (needed <=? freeSlots - Z.max 1 (MaxPlayers rec - Players rec))
   && negb (inFlight && negb (bool_decide (Lifecycle st = Draining)))
  then if (despawnZeroPolls <=? ZeroPollStreak st + 1) && (despawn <? 0)
   then (mkState Terminating 0, true)
   else (mkState Draining (ZeroPollStreak st + 1), false)
  else (mkState Active 0, false).

Lemma decideOne_spec d i rec st states :
  runningByID alive m i = Some rec -> ensureServerInstanceState (dStates d) i = (st, states) ->
  let '(st', gone) := decidedState rec st (activeRoutableCount d) (despawnServerID d) in
  step d i = mkDecide (<[i := st']> states)
       (activeRoutableCount d - isActive (Lifecycle st) + isActive (Lifecycle st'))
       (if gone then i else despawnServerID d).
Proof.
  intros Hr He. destruct (ensureServerInstanceState_spec _ _ _ _ He) as (Hi & _).
  unfold step, decideOne, decidedState. rewrite Hr, He. unfold isActive.
  destruct d as [states0 active despawn], st as [lc streak]. cbn in *.
  destruct (bool_decide (lc = Terminating)) eqn:Ht; cbn.
  { bool_prop. subst lc. unfold field_update; cbn. f_equal; [by rewrite insert_id|lia]. }
  destruct (LastSeen rec) as [t|].
  2: { cbn. unfold setLifecycle, field_update. cbn. f_equal. repeat case_bool_decide; simplify_eq; lia. }
  rewrite (bool_decide_false (Some t = None)) by done.
  destruct (0 <? Players rec) eqn:Hp.
  { unfold setLifecycle, field_update. cbn. f_equal. repeat case_bool_decide; simplify_eq; lia. }
  destruct (_ && negb (inFlight && _)) eqn:Hcan; cbn [negb].
  - destruct (_ && (despawn <? 0)) eqn:Hd; unfold setLifecycle, field_update; cbn;
  [rewrite insert_insert_eq|]; rewrite ?Hd; cbn; f_equal;
  repeat case_bool_decide; simplify_eq; try done; lia.
  - unfold setLifecycle, field_update. cbn. f_equal. repeat case_bool_decide; simplify_eq; lia.
Qed.
End Loop.

Section LoopFacts.
Context (alive : Z -> bool) (m : ServerManager) (freeSlots needed : Z) (inFlight : bool).
Let step := decideOne alive m freeSlots needed inFlight.

Lemma decideOne_stopped d i : runningByID alive m i = None -> step d i = d.
Proof. intros Hr. unfold step, decideOne. by rewrite Hr. Qed.

Lemma decideOne_other d i j : i <> j -> dStates (step d i) !! j = dStates d !! j.
Proof.
  intros Hne. destruct (runningByID alive m i) as [rec|] eqn:Hr;
  [|by rewrite decideOne_stopped].
  destruct (ensureServerInstanceState (dStates d) i) as [st states] eqn:He.
  pose proof (decideOne_spec alive m freeSlots needed inFlight d i rec st states Hr He) as Hs.
  destruct (decidedState _ _ _ _ _ _ _) as [st' gone]. unfold step. rewrite Hs. cbn.
  rewrite lookup_insert_ne by done. destruct (ensureServerInstanceState_spec _ _ _ _ He) as (_ & H & _).
  apply H. congruence.
Qed.

Lemma loop_other l j : forall d, j ∉ l -> dStates (foldl step d l) !! j = dStates d !! j.
Proof.
  induction l as [|i l IH]; intros d Hj; [done|]. cbn [foldl].
  rewrite IH by set_solver. apply decideOne_other. set_solver.
Qed.

(** The loop's count is the number of active running instances, at every round. *)
Lemma decideOne_count d i ids :
  NoDup ids -> i ∈ ids -> activeRoutableCount d = activeCount alive m (dStates d) ids ->
  activeRoutableCount (step d i) = activeCount alive m (dStates (step d i)) ids.
Proof.
  intros Hnd Hi Hc. destruct (runningByID alive m i) as [rec|] eqn:Hr;
  [|by rewrite decideOne_stopped].
  destruct (ensureServerInstanceState (dStates d) i) as [st states] eqn:He.
  pose proof (decideOne_spec alive m freeSlots needed inFlight d i rec st states Hr He) as Hs.
  destruct (decidedState _ _ _ _ _ _ _) as [st' gone]. unfold step. rewrite Hs. cbn.
  destruct (ensureServerInstanceState_spec _ _ _ _ He) as (Hst & _).
  rewrite (activeCount_insert _ _ _ _ _ st _ rec), (activeCount_ensure _ _ _ _ _ _ _ He) by done.
  lia.
Qed.

Lemma loop_count ids l : forall d,
  NoDup ids -> (forall i, i ∈ l -> i ∈ ids) ->
  activeRoutableCount d = activeCount alive m (dStates d) ids ->
  activeRoutableCount (foldl step d l) = activeCount alive m (dStates (foldl step d l)) ids.
Proof.
  induction l as [|i l IH]; intros d Hnd Hl Hc; [done|]. cbn [foldl]. apply IH; [done|set_solver|].
  apply decideOne_count; [done|set_solver|done].
Qed.

(** The instance the loop picks for despawning, and the round that picked it. *)
Lemma loop_despawn l : forall d,
  NoDup l -> despawnServerID (foldl step d l) <> despawnServerID d ->
  exists pre i post rec st states,
  l = pre ++ i :: post /\ despawnServerID (foldl step d l) = i /\
  runningByID alive m i = Some rec /\
  ensureServerInstanceState (dStates (foldl step d pre)) i = (st, states) /\
  decidedState freeSlots needed inFlight rec st (activeRoutableCount (foldl step d pre))
  (despawnServerID (foldl step d pre)) = (mkState Terminating 0, true).
Proof.
  induction l as [|i l IH] using rev_ind; intros d Hnd; [done|]. rewrite foldl_snoc.
  apply NoDup_app in Hnd as (Hnd & _ & _). intros Hne.
  destruct (decide (despawnServerID (step (foldl step d l) i) = despawnServerID (foldl step d l)))
  as [He|Hd].
  - rewrite He in Hne |- *. destruct (IH d Hnd Hne) as (pre & j & post & rec & st & states & Hl & Hj & H').
  exists pre, j, (post ++ [i]), rec, st, states. split; [by rewrite Hl, <- app_assoc|]. done.
  - destruct (runningByID alive m i) as [rec|] eqn:Hr; [|by rewrite decideOne_stopped in Hd].
  destruct (ensureServerInstanceState (dStates (foldl step d l)) i) as [st states] eqn:Hs.
  pose proof (decideOne_spec alive m freeSlots needed inFlight _ i rec st states Hr Hs) as Hspec.
  destruct (decidedState _ _ _ _ _ _ _) as [st' gone] eqn:Hdec. fold step in Hspec.
  rewrite Hspec in Hd |- *. cbn in *. destruct gone; [|done].
  exists l, i, [], rec, st, states. split_and!; [done..|]. rewrite Hdec. f_equal.
  unfold decidedState in Hdec. repeat split_match; done.
Qed.

(** A guarded decrement never takes the count below one. *)
Lemma decideOne_keeps d i :
  (forall rec st, runningByID alive m i = Some rec -> dStates d !! i = Some st ->
   Lifecycle st = Active -> LastSeen rec <> None) ->
  1 <= activeRoutableCount d -> 1 <= activeRoutableCount (step d i).
Proof.
  intros Hw Hc. destruct (runningByID alive m i) as [rec|] eqn:Hr;
  [|by rewrite decideOne_stopped].
  destruct (ensureServerInstanceState (dStates d) i) as [st states] eqn:He.
  destruct (ensureServerInstanceState_spec _ _ _ _ He) as (_ & _ & Hnew & Hold).
  assert (Lifecycle st = Active -> LastSeen rec <> None) as Hw'.
  { intros Ha. destruct (dStates d !! i) as [st0|] eqn:H0.
  - destruct (Hold _ eq_refl) as [-> _]. by apply (Hw rec st0).
  - rewrite Hnew in Ha by done. done. }
  pose proof (decideOne_spec alive m freeSlots needed inFlight d i rec st states Hr He) as Hs.
  destruct (decidedState _ _ _ _ _ _ _) as [st' gone] eqn:Hd. unfold step. rewrite Hs. cbn.
  unfold decidedState in Hd. unfold isActive. repeat split_match; bool_prop; subst; cbn;
  repeat case_bool_decide; simplify_eq; try lia; exfalso; naive_solver.
Qed.
End LoopFacts.

(** ** From the loop to the pass *)

(** The loop of a pass over an autoscaled server, as the pass starts it. *)
Definition passHeadroom (alive : Z -> bool) (m : ServerManager) (s : server) (now : Z) : Z * Z :=
  let s := refreshServer alive m s in
  (if 0 <? aggregateMaxUsers s then Z.max 0 (aggregateMaxUsers s - aggregateUsers s) else 0,
   fst (serverNeededHeadroom now s)).
Definition passStart (alive : Z -> bool) (m : ServerManager) (s : server) : decideState :=
  mkDecide (instanceStates s) (joinableInstances (refreshServer alive m s)) (-1).
Definition passStep (alive : Z -> bool) (m : ServerManager) (s : server) (now : Z) :=
  decideOne alive m (fst (passHeadroom alive m s now)) (snd (passHeadroom alive m s now))
    (ScaleUpInFlight s).
Definition passEnd (alive : Z -> bool) (m : ServerManager) (s : server) (now : Z) : decideState :=
  foldl (passStep alive m s now) (passStart alive m s) (InstanceIDs s).

(** When a pass asks for a replica. *)
Definition scaleUpDue (alive : Z -> bool) (m : ServerManager) (s : server) (now : Z) : bool :=
  let s' := refreshServer alive m s in
  (0 <? aggregateMaxUsers s')
  && (fst (passHeadroom alive m s now) <? snd (passHeadroom alive m s now))
  && negb (ScaleUpInFlight s)
  && (aggregateInstances s' <? Z.max 1 (serverMaxInstances m))
  && match LastScaleUpAt s with None => true | Some t => scaleUpCooldown <=? now - t end.

Lemma decideServerActions_eq alive m s now :
  Autoscales s = true ->
  decideServerActions alive m s now =
  let s' := (pruneServerDemand now (refreshServer alive m s))
              <| instanceStates := dStates (passEnd alive m s now) |> in
  let d := despawnServerID (passEnd alive m s now) in
  if scaleUpDue alive m s now
  then (s' <| ScaleUpInFlight := true |>, (ServerID s, d)) else (s', (-1, d)).
Proof.
  intros Ha. unfold decideServerActions, passEnd, passStep, passStart, scaleUpDue, passHeadroom.
  pose proof (refreshServer_core alive m s) as (Hid & _ & _ & HA & HI & _ & HL & HF & HS & _).
  rewrite <- Hid, <- HL, <- HF, <- HS, <- HI. rewrite HA, Ha.
  generalize (refreshServer alive m s). intros s1. cbn [negb]. unfold serverNeededHeadroom.
  generalize (dynamicHeadroom (Z.of_nat (length (joinDemandAt (pruneServerDemand now s1))))).
  intros headroom. cbn [fst snd]. done.
Qed.

Lemma joinable_activeCount alive m s :
  Autoscales s = true -> portsResolved alive m s -> Z.of_nat (length (InstanceIDs s)) <= 65535 ->
  joinableInstances (refreshServer alive m s)
  = activeCount alive m (instanceStates s) (InstanceIDs s).
Proof.
  intros Ha Hp Hlen. cbn -[candidateOf].
  assert (forall ids, (forall i, i ∈ ids -> i ∈ InstanceIDs s) ->
    length (omap (candidateOf alive m s false) ids)
    = length (List.filter (activeRunning alive m (instanceStates s)) ids)) as Hl.
  { induction ids as [|i ids IH]; intros Hin; [done|]. cbn -[candidateOf].
    unfold candidateOf at 1, activeRunning at 1, lifecycleRoutable. rewrite Ha.
    destruct (runningByID alive m i) as [rec|] eqn:Hr; [|apply IH; set_solver].
    destruct (Hp i rec) as [H1 H2]; [set_solver|done|].
    destruct ((recordListenPort rec <? 1) || (65535 <? recordListenPort rec)) eqn:Hb.
    { apply orb_true_iff in Hb. bool_prop. lia. }
    destruct (instanceStates s !! i) as [[lc k]|]; cbn; [|apply IH; set_solver].
    destruct lc; cbn; rewrite IH by set_solver; done. }
  unfold serverRoutableCandidatesLocked. rewrite Hl by done. unfold activeCount.
  apply clamp_uint16_id. pose proof (List.filter_length_le (activeRunning alive m (instanceStates s))
    (InstanceIDs s)). lia.
Qed.

(** The states the loop has reached when it comes to an instance are the initial ones there. *)
Lemma pass_turn alive m s now pre i post :
  NoDup (InstanceIDs s) -> InstanceIDs s = pre ++ i :: post ->
  dStates (foldl (passStep alive m s now) (passStart alive m s) pre) !! i = instanceStates s !! i.
Proof.
  intros Hnd Hl. rewrite Hl in Hnd. apply NoDup_app in Hnd as (_ & Hx & _).
  unfold passStep. rewrite loop_other; [done|]. intros Hi. apply Hx in Hi. set_solver.
Qed.

(** What a round that despawns has checked. *)
Lemma decidedState_gone free needed inFlight rec st active despawn st' :
  decidedState free needed inFlight rec st active despawn = (st', true) ->
  LastSeen rec <> None /\ Players rec <= 0 /\ 1 < active /\
  needed <= free - Z.max 1 (MaxPlayers rec - Players rec) /\
  despawnZeroPolls <= ZeroPollStreak st + 1.
Proof. unfold decidedState. intros Hd. repeat split_match. by bool_prop. Qed.

(** The active instances have all been polled since they started. *)
Definition activesPolled (alive : Z -> bool) (m : ServerManager) (s : server) : Prop :=
  forall i rec st, runningByID alive m i = Some rec -> instanceStates s !! i = Some st ->
    Lifecycle st = Active -> LastSeen rec <> None.

(** From a round at which an instance is active, one is to the end of the pass. *)
Lemma pass_keeps alive m s now pre post :
  NoDup (InstanceIDs s) -> InstanceIDs s = pre ++ post -> activesPolled alive m s ->
  1 <= activeRoutableCount (foldl (passStep alive m s now) (passStart alive m s) pre) ->
  1 <= activeRoutableCount (passEnd alive m s now).
Proof.
  intros Hnd. revert pre. induction post as [|i post IH]; intros pre Hl Hw H1.
  - unfold passEnd. by rewrite Hl, app_nil_r.
  - apply (IH (pre ++ [i])); [by rewrite Hl, <- app_assoc|done|]. rewrite foldl_snoc.
    apply decideOne_keeps; [|done]. fold (passStep alive m s now).
    rewrite (pass_turn _ _ _ _ _ _ post Hnd Hl). apply Hw.
Qed.

Lemma passEnd_count alive m s now :
  Autoscales s = true -> NoDup (InstanceIDs s) -> portsResolved alive m s -> Z.of_nat (length (InstanceIDs s)) <= 65535 ->
  activeRoutableCount (passEnd alive m s now) = activeCount alive m (dStates (passEnd alive m s now)) (InstanceIDs s).
Proof. intros Ha Hnd Hp Hlen. unfold passEnd, passStep. apply loop_count; [done|done|]. by apply joinable_activeCount. Qed.

(** The round of a pass that despawns: an idle instance that was draining already, without which
    there is room enough, at a moment at which two others were active. *)
Lemma pass_despawn alive m p s now :
  Autoscales s = true -> server_ok (serverByInstanceID m) p s ->
  portsResolved alive m s -> Z.of_nat (length (InstanceIDs s)) <= 65535 ->
  despawnServerID (passEnd alive m s now) <> -1 ->
  exists i rec st states,
    despawnServerID (passEnd alive m s now) = i /\
    i ∈ InstanceIDs s /\ runningByID alive m i = Some rec /\ LastSeen rec <> None /\
    Players rec <= 0 /\ instanceStates s !! i = Some st /\ Lifecycle st = Draining /\
    despawnZeroPolls <= ZeroPollStreak st + 1 /\
    states !! i = Some st /\ 1 < activeCount alive m states (InstanceIDs s) /\
    snd (passHeadroom alive m s now) <= fst (passHeadroom alive m s now) - Z.max 1 (MaxPlayers rec - Players rec) /\
    dStates (passEnd alive m s now) !! i = Some (mkState Terminating 0) /\
    (activesPolled alive m s -> 1 <= activeRoutableCount (passEnd alive m s now)).
Proof.
  intros Ha [Hnd _ _ Hst _ _] Hports Hlen Hne.
  destruct (loop_despawn alive m _ _ _ (InstanceIDs s) (passStart alive m s) Hnd Hne)
    as (pre & i & post & rec & st & states & Hl & Hdi & Hr & He & Hd).
  fold (passStep alive m s now) in Hdi, He, Hd. exists i.
  assert (i ∈ InstanceIDs s) as Hin by (rewrite Hl; set_solver).
  destruct (ensureServerInstanceState_spec _ _ _ _ He) as (_ & _ & Hnew & Hold).
  rewrite (pass_turn _ _ _ _ _ _ _ Hnd Hl) in Hnew, Hold.
  pose proof (decideOne_spec alive m (fst (passHeadroom alive m s now)) (snd (passHeadroom alive m s now)) (ScaleUpInFlight s)
    _ i rec st states Hr He) as Hround. rewrite Hd in Hround.
  apply decidedState_gone in Hd as (Hseen & Hpl & Hact & Hroom & Hstreak).
  destruct (instanceStates s !! i) as [st0|] eqn:Hs0.
  2: { rewrite Hnew in * by done. unfold despawnZeroPolls in *. cbn in *. lia. }
  destruct (Hold _ eq_refl) as [<- _]. destruct (Hst _ _ Hs0) as [Hk Hdr].
  assert (Lifecycle st = Draining) as Hdrain.
  { destruct (decide (Lifecycle st = Draining)) as [|Hx]; [done|].
    apply Hdr in Hx. unfold despawnZeroPolls in *. lia. }
  exists rec, st, (dStates (foldl (passStep alive m s now) (passStart alive m s) pre)).
  split_and!; try done.
  - by rewrite (pass_turn _ _ _ _ _ _ _ Hnd Hl).
  - unfold passStep. rewrite <- loop_count; [done|done|intros j Hj; rewrite Hl; set_solver|by apply joinable_activeCount].
  - assert (i ∉ post) as Hpost by (rewrite Hl in Hnd; apply NoDup_app in Hnd as (_ & _ & [? _]%NoDup_cons); done).
    unfold passEnd. rewrite Hl, foldl_app. cbn [foldl]. unfold passStep at 1. rewrite loop_other by done.
    fold (passStep alive m s now). unfold passStep at 1. rewrite Hround. cbn. by rewrite lookup_insert_eq.
  - intros Hw. apply (pass_keeps alive m s now pre (i :: post)); [done|done|done|lia].
Qed.

Lemma decideServerActions_despawn alive m s now :
  Autoscales s = true ->
  snd (snd (decideServerActions alive m s now)) = despawnServerID (passEnd alive m s now).
Proof.
  intros Ha. rewrite decideServerActions_eq by done. cbn zeta. by destruct (scaleUpDue _ _ _ _).
Qed.

Lemma decideServerActions_states alive m s now :
  Autoscales s = true ->
  instanceStates (fst (decideServerActions alive m s now)) = dStates (passEnd alive m s now).
Proof.
  intros Ha. rewrite decideServerActions_eq by done. cbn zeta. by destruct (scaleUpDue _ _ _ _).
Qed.

Lemma activeRunning_Some alive m states i :
  activeRunning alive m states i = true <->
  exists rec st, runningByID alive m i = Some rec /\ states !! i = Some st /\ Lifecycle st = Active.
Proof.
  unfold activeRunning. split.
  - destruct (runningByID alive m i) as [rec|]; [|done].
    destruct (states !! i) as [st|]; [|done]. intros H. bool_prop. eauto.
  - intros (rec & st & -> & -> & Ha). by apply bool_decide_eq_true.
Qed.

Lemma runningInstances_length alive m s :
  length (runningInstances alive m s)
  = length (List.filter (fun i => bool_decide (is_Some (runningByID alive m i))) (InstanceIDs s)).
Proof.
  unfold runningInstances. induction (InstanceIDs s) as [|i ids IH]; [done|]. cbn.
  destruct (runningByID alive m i) eqn:Hr; cbn; by rewrite IH.
Qed.

(** A running instance that is not active makes the active ones fewer than the running ones. *)
Lemma activeCount_lt alive m states s i rec :
  i ∈ InstanceIDs s -> runningByID alive m i = Some rec ->
  activeRunning alive m states i = false ->
  activeCount alive m states (InstanceIDs s) < Z.of_nat (length (runningInstances alive m s)).
Proof.
  intros Hi Hr Hna. rewrite runningInstances_length. unfold activeCount.
  revert Hi. induction (InstanceIDs s) as [|j ids IH]; [set_solver|]. intros Hi. cbn [List.filter].
  assert (length (List.filter (activeRunning alive m states) ids)
          <= length (List.filter (fun i => bool_decide (is_Some (runningByID alive m i))) ids))%nat.
  { clear. induction ids as [|k ids IH]; [done|]. cbn [List.filter].
    destruct (activeRunning alive m states k) eqn:Hk.
    - apply activeRunning_Some in Hk as (rec & _ & -> & _). rewrite bool_decide_true by eauto.
      cbn [length]. lia.
    - case_bool_decide; cbn [length]; lia. }
  destruct (decide (j = i)) as [->|Hne].
  - rewrite Hna, bool_decide_true by eauto. cbn [length]. lia.
  - specialize (IH ltac:(set_solver)). destruct (activeRunning alive m states j) eqn:Hj.
    + apply activeRunning_Some in Hj as (r & _ & -> & _). rewrite bool_decide_true by eauto.
      cbn [length]. lia.
    + case_bool_decide; cbn [length]; lia.
Qed.


(** A server with one or two running instances is never scaled down: no pass asks to
    despawn, however long one of the two has been idle. *)
Theorem decideServerActions_two_never_despawn alive m p s now :
  Autoscales s = true -> server_ok (serverByInstanceID m) p s ->
  portsResolved alive m s -> Z.of_nat (length (InstanceIDs s)) <= 65535 ->
  (length (runningInstances alive m s) <= 2)%nat ->
  snd (snd (decideServerActions alive m s now)) = -1.
Proof.
  intros Ha Hs Hp Hlen Htwo. rewrite decideServerActions_despawn by done.
  destruct (decide (despawnServerID (passEnd alive m s now) = -1)) as [|Hne]; [done|].
  destruct (pass_despawn _ _ _ _ _ Ha Hs Hp Hlen Hne)
    as (i & rec & st & states & _ & Hi & Hr & _ & _ & _ & Hdr & _ & Hst & Hact & _).
  pose proof (activeCount_lt alive m states s i rec Hi Hr) as Hlt.
  assert (activeRunning alive m states i = false) as Hna.
  { apply not_true_iff_false. intros (? & ? & _ & Hx & Hy)%activeRunning_Some. congruence. }
  specialize (Hlt Hna). lia.
Qed.

(** Draining leaves somewhere to play: if a server has an active instance, and its active
    instances have all been polled, it still has one after the pass. *)
Theorem decideServerActions_keeps_active alive m p s now :
  Autoscales s = true -> server_ok (serverByInstanceID m) p s ->
  portsResolved alive m s -> Z.of_nat (length (InstanceIDs s)) <= 65535 ->
  activesPolled alive m s ->
  let s' := fst (decideServerActions alive m s now) in
  1 <= activeCount alive m (instanceStates s) (InstanceIDs s) ->
  1 <= activeCount alive m (instanceStates s') (InstanceIDs s).
Proof.
  intros Ha [Hnd _ _ _ _ _] Hp Hlen Hw. cbn zeta. rewrite decideServerActions_states by done.
  pose proof (joinable_activeCount alive m s Ha Hp Hlen) as Hj. rewrite <- Hj. intros H1.
  rewrite <- passEnd_count by done. by apply (pass_keeps alive m s now [] (InstanceIDs s)).
Qed.

Lemma ServerID_decide alive m s now :
  ServerID (fst (decideServerActions alive m s now)) = ServerID s.
Proof.
  destruct (Autoscales s) eqn:Ha.
  - rewrite decideServerActions_eq by done. cbn zeta.
    rewrite <- (ServerID_refresh alive m s). generalize (refreshServer alive m s) as s1.
    generalize (passEnd alive m s now) as d. by destruct (scaleUpDue _ _ _ _).
  - unfold decideServerActions. autorewrite with nexus. rewrite Ha. apply ServerID_refresh.
Qed.

Lemma decidedState_ok free needed inFlight rec st active despawn :
  state_ok st -> state_ok (fst (decidedState free needed inFlight rec st active despawn)).
Proof.
  intros [Hk Hd]. unfold decidedState. repeat split_match; unfold state_ok; cbn; split; try done; lia.
Qed.

Lemma decideOne_server_ok owners p alive m free needed inFlight s d i :
  i ∈ InstanceIDs s -> server_ok owners p (s <| instanceStates := dStates d |>) ->
  server_ok owners p
    (s <| instanceStates := dStates (decideOne alive m free needed inFlight d i) |>).
Proof.
  intros Hi Hs. destruct (runningByID alive m i) as [rec|] eqn:Hr;
    [|by rewrite decideOne_stopped].
  destruct (ensureServerInstanceState (dStates d) i) as [st states] eqn:He.
  destruct (ensureServerInstanceState_spec _ _ _ _ He) as (_ & _ & _ & Hold).
  assert (is_Some (dStates d !! i)) as [st0 Hst0] by (by apply (sk_states _ _ _ Hs)).
  destruct (Hold _ Hst0) as [-> ->].
  pose proof (decideOne_spec alive m free needed inFlight d i rec st0 _ Hr He) as Hspec.
  destruct (decidedState _ _ _ _ _ _ _) as [st' gone] eqn:Hd. rewrite Hspec. cbn [dStates].
  apply (setState_ok _ _ i st' _ Hs Hi).
  replace st' with (fst (decidedState free needed inFlight rec st0 (activeRoutableCount d)
    (despawnServerID d))) by (by rewrite Hd).
  apply decidedState_ok. by apply (sk_state _ _ _ Hs i).
Qed.

Lemma decideServerActions_ok owners p alive m s now :
  server_ok owners p s -> server_ok owners p (fst (decideServerActions alive m s now)).
Proof.
  intros Hs. destruct (Autoscales s) eqn:Ha.
  2: { unfold decideServerActions. autorewrite with nexus. rewrite Ha. by apply refreshServer_ok. }
  assert (server_ok owners p (s <| instanceStates := dStates (passEnd alive m s now) |>)) as Hp.
  { unfold passEnd, passStep.
    assert (forall l d, (forall i, i ∈ l -> i ∈ InstanceIDs s) ->
      server_ok owners p (s <| instanceStates := dStates d |>) ->
      server_ok owners p (s <| instanceStates := dStates (foldl (decideOne alive m
        (fst (passHeadroom alive m s now)) (snd (passHeadroom alive m s now)) (ScaleUpInFlight s))
        d l) |>)) as Hl.
    { induction l as [|i l IH]; intros d Hin Hd; [done|]. cbn [foldl]. apply IH; [set_solver|].
      apply decideOne_server_ok; [set_solver|done]. }
    apply Hl; [done|]. by apply (server_ok_core _ _ s). }
  rewrite decideServerActions_eq by done. cbn zeta.
  revert Hp. generalize (passEnd alive m s now). intros d.
  destruct (refreshServer_core alive m s) as (HD & HL & _ & _ & HI & HC & _).
  revert HI HC HD HL. generalize (refreshServer alive m s). intros s1 HI HC HD HL.
  destruct (scaleUpDue _ _ _ _); (apply server_ok_core; [exact HI|reflexivity|exact HC|exact HD|exact HL]).
Qed.

Lemma decideServerActionsLocked_ok alive p now m :
  reg_ok m -> reg_ok (fst (decideServerActionsLocked alive p now m)).
Proof.
  intros Hok. unfold decideServerActionsLocked.
  destruct (servers m !! p) as [s|] eqn:Hs; [|done].
  pose proof (ServerID_decide alive m s now) as Hid.
  pose proof (decideServerActions_ok (serverByInstanceID m) p alive m s now) as Hso.
  destruct (decideServerActions alive m s now) as [s' r]. cbn in *.
  apply updServer_ok; [done|]. intros s0 Hs0 Hs0'. rewrite Hs in Hs0. injection Hs0 as <-. auto.
Qed.

Lemma reconcileDecisions_ok alive now ids m :
  reg_ok m -> reg_ok (rManager (reconcileDecisions alive now ids m)).
Proof.
  intros Hok. unfold reconcileDecisions, forEachUniqueInt.
  assert (reg_ok (rManager (mkReconcile m [] []))) as Hr by done. revert Hr.
  generalize (mkReconcile m [] []). induction (uniqueInts ∅ ids) as [|i l IH]; intros r Hr; [done|].
  cbn [foldl]. apply IH. unfold reconcileOne.
  destruct (serversByID (rManager r) !! i) as [p|]; [|done].
  pose proof (decideServerActionsLocked_ok alive p now _ Hr) as Hd.
  by destruct (decideServerActionsLocked alive p now (rManager r)) as [m' [up down]].
Qed.

(** What a pass does to each instance: a stopped one and one being terminated are left
    alone, one that was never polled is warming, one with players is active with its streak
    cleared, and an idle one is active, draining one poll longer, or terminated. *)
Theorem decideServerActions_states_spec alive m p s now i :
  Autoscales s = true -> server_ok (serverByInstanceID m) p s -> i ∈ InstanceIDs s ->
  let st' := instanceStates (fst (decideServerActions alive m s now)) !! i in
  match runningByID alive m i, instanceStates s !! i with
  | Some rec, Some st =>
      if bool_decide (Lifecycle st = Terminating) then st' = Some st
      else if bool_decide (LastSeen rec = None) then st' = Some (mkState Warming 0)
      else if 0 <? Players rec then st' = Some (mkState Active 0)
      else st' = Some (mkState Active 0) \/ st' = Some (mkState Draining (ZeroPollStreak st + 1)) \/
           (st' = Some (mkState Terminating 0) /\ despawnZeroPolls <= ZeroPollStreak st + 1)
  | _, st => st' = st
  end.
Proof.
  intros Ha [Hnd _ Hstates _ _ _] Hi. cbn zeta. rewrite decideServerActions_states by done.
  unfold passEnd. apply list_elem_of_split in Hi as (pre & post & Hl).
  pose proof (pass_turn alive m s now pre i post Hnd Hl) as Hturn.
  rewrite Hl, foldl_app. cbn [foldl].
  rewrite Hl in Hnd. apply NoDup_app in Hnd as (_ & _ & [Hni _]%NoDup_cons).
  assert (forall d, dStates (foldl (passStep alive m s now) d post) !! i = dStates d !! i) as Hpost.
  { intros d. unfold passStep. by apply loop_other. }
  rewrite Hpost. set (d := foldl (passStep alive m s now) _ pre) in *.
  destruct (runningByID alive m i) as [rec|] eqn:Hr;
    [|unfold passStep; rewrite decideOne_stopped by done; exact Hturn].
  destruct (ensureServerInstanceState (dStates d) i) as [st states] eqn:He.
  destruct (ensureServerInstanceState_spec _ _ _ _ He) as (_ & _ & _ & Hold).
  destruct (instanceStates s !! i) as [st0|] eqn:Hs0.
  - destruct (Hold _ Hturn) as [-> ->].
    pose proof (decideOne_spec alive m (fst (passHeadroom alive m s now))
      (snd (passHeadroom alive m s now)) (ScaleUpInFlight s) d i rec st0 _ Hr He) as Hspec.
    destruct (decidedState _ _ _ _ _ _ _) as [st' gone] eqn:Hd.
    unfold passStep. rewrite Hspec. cbn [dStates]. rewrite lookup_insert_eq.
    unfold decidedState in Hd.
    case_bool_decide; [congruence|]. case_bool_decide; [congruence|].
    destruct (0 <? Players rec); [congruence|]. destruct (_ && negb _); [|naive_solver].
    destruct (_ && (_ <? 0)) eqn:Hg; simplify_eq; [|naive_solver]. bool_prop. auto.
  - exfalso. apply eq_None_not_Some in Hs0. apply Hs0, Hstates. rewrite Hl. set_solver.
Qed.

(** A pass asks for a replica exactly when the server autoscales, knows its capacity, has
    fewer free slots than the headroom its demand needs, has no launch in flight, is below the
    instance cap and is out of its cooldown; it then records the launch as in flight, and
    otherwise leaves that flag as it was. *)
Theorem decideServerActions_scale_up_iff alive m s now :
  let '(s', (up, _)) := decideServerActions alive m s now in
  let r := refreshServer alive m s in
  let due :=
    Autoscales s = true /\ 0 < aggregateMaxUsers r /\
    aggregateMaxUsers r - aggregateUsers r < fst (serverNeededHeadroom now r) /\
    ScaleUpInFlight s = false /\ aggregateInstances r < Z.max 1 (serverMaxInstances m) /\
    (forall t, LastScaleUpAt s = Some t -> scaleUpCooldown <= now - t) in
  (due /\ up = ServerID s /\ ScaleUpInFlight s' = true) \/
  (~ due /\ up = -1 /\ ScaleUpInFlight s' = ScaleUpInFlight s).
Proof.
  destruct (Autoscales s) eqn:Ha.
  2: { unfold decideServerActions. autorewrite with nexus. rewrite Ha. cbn [negb].
       autorewrite with nexus. right. split; [|done]. by intros [? _]. }
  rewrite decideServerActions_eq by done. cbn zeta.
  assert (ScaleUpInFlight (refreshServer alive m s) = ScaleUpInFlight s) as HF
    by apply ScaleUpInFlight_refresh.
  revert HF. unfold scaleUpDue, passHeadroom. cbn [fst snd].
  generalize (passEnd alive m s now). intros d.
  generalize (refreshServer alive m s). intros r HF.
  set (needed := fst (serverNeededHeadroom now r)).
  assert (4 <= needed) as H4.
  { unfold needed, serverNeededHeadroom. cbn [fst]. unfold demandMinFreeSlots. lia. }
  clearbody needed.
  destruct (_ && _ && _ && _ && _) eqn:Hdue; cbn [fst snd].
  - left. split; [|done]. bool_prop. rewrite (proj2 (Z.ltb_lt 0 (aggregateMaxUsers r))) in * by done.
    split_and!; try done; [lia|]. intros t Ht. rewrite Ht in *. by bool_prop.
  - right. split; [|done]. intros (_ & Hmax & Hfree & Hfl & Hcap & Hcool).
    rewrite Hfl in Hdue. apply (proj2 (Z.ltb_lt _ _)) in Hmax, Hcap. rewrite Hmax, Hcap in Hdue.
    rewrite (proj2 (Z.ltb_lt _ needed)) in Hdue by lia. cbn in Hdue.
    destruct (LastScaleUpAt s) as [t|]; [|done]. specialize (Hcool t eq_refl). bool_prop. lia.
Qed.

(** Every window's worth of joins up to 400, checked by evaluation. *)
Lemma dynamicHeadroom_table :
  forallb (fun n => dynamicHeadroom n =? (3 * n + 4) / 5) (seqZ 0 401) = true.
Proof. vm_compute. reflexivity. Qed.

Lemma dynamicHeadroom_ceil n : 0 <= n <= 400 -> dynamicHeadroom n = (3 * n + 4) / 5.
Proof.
  intros Hn. pose proof dynamicHeadroom_table as Ht. rewrite forallb_forall in Ht.
  apply Z.eqb_eq, Ht, list_elem_of_In, elem_of_seqZ. lia.
Qed.

(** The headroom a server needs is four slots, or three fifths of the joins of the last
    thirty seconds rounded up when that is more: the float64 computation is exact there, for up
    to 400 joins in the window.  Joins older than the window are forgotten. *)
Theorem serverNeededHeadroom_exact now s :
  let recent := List.filter (fun ts => now - demandWindow <=? ts) (joinDemandAt s) in
  let '(needed, s') := serverNeededHeadroom now s in
  joinDemandAt s' = recent /\
  (Z.of_nat (length recent) <= 400 ->
   needed = Z.max 4 ((3 * Z.of_nat (length recent) + 4) / 5)).
Proof.
  cbn zeta. unfold serverNeededHeadroom. cbn [fst snd].
  assert (joinDemandAt (pruneServerDemand now s)
          = List.filter (fun ts => now - demandWindow <=? ts) (joinDemandAt s)) as ->.
  { unfold pruneServerDemand. cbn [joinDemandAt field_update]. apply filter_ext.
    intros ts. rewrite Z.ltb_antisym. by rewrite negb_involutive. }
  split; [done|]. intros Hl. rewrite dynamicHeadroom_ceil by lia. done.
Qed.

(** [forEachUniqueInt] runs its callback once for each value of the list. *)
Lemma uniqueInts_spec l : forall seen,
  NoDup (uniqueInts seen l) /\ forall v, v ∈ uniqueInts seen l <-> v ∈ l /\ v ∉ seen.
Proof.
  induction l as [|x l IH]; intros seen; cbn.
  { split; [constructor|]. set_solver. }
  case_bool_decide as Hx.
  - destruct (IH seen) as [Hn Hm]. split; [done|]. intros v. rewrite Hm. set_solver.
  - destruct (IH ({[x]} ∪ seen)) as [Hn Hm]. split.
    + apply NoDup_cons. split; [|done]. rewrite Hm. set_solver.
    + intros v. rewrite elem_of_cons, Hm. destruct (decide (v = x)); set_solver.
Qed.

(** * Concrete pools *)

(** A pool of three instances on ports 26000 to 26002, capacity eight each, with four, four and
    no players. *)
Definition poolAlive (p : Z) : bool := (7 <=? p) && (p <=? 9).
Definition poolRun (pid users : Z) (r : instance) : instance :=
  r <| Running := Some (mkManaged pid (Some pid) None) |> <| Players := users |>
    <| MaxPlayers := 8 |> <| LastSeen := Some 1 |>.
Definition poolEmpty : ServerManager :=
  (registerServerLaunch (H := plain_unicode) poolAlive sampleLaunch
     (NewServerManager <| serverMaxInstances := 3 |>)).2.
Definition poolAdd (m : ServerManager) : ServerManager :=
  (appendServerInstanceLocked poolAlive 0 sampleLaunch Warming m).2.
Definition poolUp (i users : Z) (m : ServerManager) : ServerManager :=
  updatePort i (26000 + i) (updInstance i (poolRun (7 + i) (Z.min 8 (Z.max 0 users))) m).
Definition pool3 : ServerManager :=
  poolUp 2 0 (poolUp 1 4 (poolUp 0 4 (poolAdd (poolAdd poolEmpty)))).
(** [n] passes, one second apart. *)
Fixpoint passes (n : nat) (m : ServerManager) : ServerManager :=
  match n with
  | O => m
  | S n => passes n (fst (decideServerActionsLocked poolAlive 0 (Z.of_nat n * second) m))
  end.

Lemma poolUp_ok i users m : reg_ok m -> reg_ok (poolUp i users m).
Proof.
  intros Hok. apply updatePort_ok, updInstance_runtime_ok; [done|].
  intros rec. unfold poolRun. cbn. split_and!; try done; lia.
Qed.

Lemma poolEmpty_ok : reg_ok poolEmpty.
Proof.
  apply registerServerLaunch_ok. constructor; cbn; intros *; rewrite ?lookup_empty; done.
Qed.

Lemma pool3_ok : reg_ok pool3.
Proof.
  do 3 apply poolUp_ok. apply appendServerInstanceLocked_ok; [apply appendServerInstanceLocked_ok|];
    [exact poolEmpty_ok|by (eexists; vm_compute; reflexivity)..].
Qed.

Lemma passes_ok n : forall m, reg_ok m -> reg_ok (passes n m).
Proof. induction n as [|n IH]; intros m Hok; [done|]. apply IH, decideServerActionsLocked_ok, Hok. Qed.

(** The server of [pool3] after [n] passes. *)
Definition poolServer (n : nat) : option server := servers (passes n pool3) !! 0.

Definition portsResolvedb (alive : Z -> bool) (m : ServerManager) (s : server) : bool :=
  forallb (fun i => match runningByID alive m i with
                    | Some rec => validPort (recordListenPort rec)
                    | None => true
                    end) (InstanceIDs s).

Lemma portsResolvedb_ok alive m s : portsResolvedb alive m s = true -> portsResolved alive m s.
Proof.
  unfold portsResolvedb. rewrite forallb_forall. intros H i rec Hi%list_elem_of_In Hr.
  specialize (H i Hi). rewrite Hr in H. unfold validPort in H. bool_prop. lia.
Qed.

(** The pool's server after some passes, with what the theorems ask of it. *)
Lemma pool_server_ok n m :
  reg_ok m ->
  match servers (passes n m) !! 0 with
  | Some s => server_ok (serverByInstanceID (passes n m)) 0 s
  | None => True
  end.
Proof.
  intros Hok. destruct (servers (passes n m) !! 0) as [s|] eqn:Hs; [|done].
  by apply (ro_server _ _ (passes_ok n m Hok)) in Hs as [_ ?].
Qed.


(** Two idle instances after ten passes: both keep running. *)
Definition pool2 : ServerManager := poolUp 1 0 (poolUp 0 0 (poolAdd poolEmpty)).

Lemma pool2_ok : reg_ok pool2.
Proof.
  do 2 apply poolUp_ok. apply appendServerInstanceLocked_ok; [exact poolEmpty_ok|].
  eexists. vm_compute. reflexivity.
Qed.

Lemma decideServerActions_two_never_despawn_witness :
  exists s, servers (passes 10 pool2) !! 0 = Some s /\
    length (runningInstances poolAlive (passes 10 pool2) s) = 2%nat /\
    snd (snd (decideServerActions poolAlive (passes 10 pool2) s (11 * second))) = -1.
Proof.
  pose proof (pool_server_ok 10 pool2 pool2_ok) as Hok.
  destruct (servers (passes 10 pool2) !! 0) as [s|] eqn:Hs; [|vm_compute in Hs; done].
  exists s. split; [reflexivity|].
  assert (length (runningInstances poolAlive (passes 10 pool2) s) = 2%nat) as H2.
  { vm_compute in Hs. injection Hs as <-. vm_compute. reflexivity. }
  split; [exact H2|].
  apply (decideServerActions_two_never_despawn poolAlive (passes 10 pool2) 0 s (11 * second)).
  - vm_compute in Hs. injection Hs as <-. reflexivity.
  - exact Hok.
  - apply portsResolvedb_ok. vm_compute in Hs. injection Hs as <-. vm_compute. reflexivity.
  - vm_compute in Hs. injection Hs as <-. cbn. lia.
  - rewrite H2. lia.
Defined.

Lemma decideServerActions_keeps_active_witness :
  exists s, poolServer 5 = Some s /\
    activeCount poolAlive (passes 5 pool3) (instanceStates s) (InstanceIDs s) = 2 /\
    1 <= activeCount poolAlive (passes 5 pool3)
           (instanceStates (fst (decideServerActions poolAlive (passes 5 pool3) s (9 * second))))
           (InstanceIDs s).
Proof.
  pose proof (pool_server_ok 5 pool3 pool3_ok) as Hok. unfold poolServer.
  assert (map_Forall (fun _ r => LastSeen r <> None) (instances (passes 5 pool3))) as Hseen.
  { apply (bool_decide_unpack _). vm_compute. exact I. }
  destruct (servers (passes 5 pool3) !! 0) as [s|] eqn:Hs; [|vm_compute in Hs; done].
  exists s. split; [reflexivity|].
  assert (activeCount poolAlive (passes 5 pool3) (instanceStates s) (InstanceIDs s) = 2) as H2.
  { vm_compute in Hs. injection Hs as <-. vm_compute. reflexivity. }
  split; [exact H2|].
  apply (decideServerActions_keeps_active poolAlive (passes 5 pool3) 0 s (9 * second)).
  - vm_compute in Hs. injection Hs as <-. reflexivity.
  - exact Hok.
  - apply portsResolvedb_ok. vm_compute in Hs. injection Hs as <-. vm_compute. reflexivity.
  - vm_compute in Hs. injection Hs as <-. cbn. lia.
  - intros i rec st (_ & Hr & _)%runningByID_Some _ _. exact (Hseen _ _ Hr).
  - rewrite H2. lia.
Defined.

Lemma decideServerActions_states_spec_witness :
  exists s, poolServer 4 = Some s /\ 2 ∈ InstanceIDs s /\
    instanceStates s !! 2 = Some (mkState Draining 4) /\
    (exists st', instanceStates
       (fst (decideServerActions poolAlive (passes 4 pool3) s (9 * second))) !! 2 = Some st' /\
       (st' = mkState Active 0 \/ st' = mkState Draining 5 \/ st' = mkState Terminating 0)).
Proof.
  pose proof (pool_server_ok 4 pool3 pool3_ok) as Hok. unfold poolServer.
  destruct (servers (passes 4 pool3) !! 0) as [s|] eqn:Hs; [|vm_compute in Hs; done].
  exists s. split; [reflexivity|].
  assert (Autoscales s = true /\ InstanceIDs s = [0; 1; 2] /\
          instanceStates s !! 2 = Some (mkState Draining 4)) as (Ha & Hids & Hst).
  { vm_compute in Hs. injection Hs as <-. split_and!; reflexivity. }
  assert (2 ∈ InstanceIDs s) as Hin by (rewrite Hids; apply list_elem_of_In; cbn; auto).
  split; [exact Hin|]. split; [exact Hst|].
  assert (exists rec, runningByID poolAlive (passes 4 pool3) 2 = Some rec /\
            LastSeen rec = Some 1 /\ Players rec = 0) as (rec & Hr & Hseen & Hpl).
  { eexists. split; [vm_compute; reflexivity|]. split; reflexivity. }
  pose proof (decideServerActions_states_spec poolAlive (passes 4 pool3) 0 s (9 * second) 2 Ha Hok Hin)
    as T.
  cbn zeta in T. rewrite Hr, Hst, Hpl, Hseen in T.
  change (bool_decide (Lifecycle (mkState Draining 4) = Terminating)) with false in T.
  change (bool_decide (Some 1 = None)) with false in T. change (0 <? 0) with false in T.
  cbv iota in T. destruct T as [T|[T|[T _]]]; rewrite T; eauto 10.
Defined.

Lemma serverNeededHeadroom_exact_witness :
  exists s', serverNeededHeadroom (40 * second)
               ((newServer (H := plain_unicode) NewServerManager sampleLaunch)
                  <| joinDemandAt := repeat (9 * second) 5 ++ repeat (20 * second) 11 |>) = (7, s').
Proof.
  pose proof (serverNeededHeadroom_exact (40 * second)
    ((newServer (H := plain_unicode) NewServerManager sampleLaunch)
       <| joinDemandAt := repeat (9 * second) 5 ++ repeat (20 * second) 11 |>)) as T.
  cbn zeta in T. destruct (serverNeededHeadroom _ _) as [needed s']. destruct T as [_ T].
  exists s'. f_equal. rewrite T; vm_compute; [reflexivity|done].
Defined.

(** Draining may overshoot: the free slots a pass measures are not reduced as it drains, so three
    idle instances of three slots each lose two at once and three joinable slots are left, below
    the headroom of four that each draining was checked to leave. *)
Definition poolSmall : ServerManager :=
  let up i m := updInstance i (fun r => r <| MaxPlayers := 3 |>) (poolUp i 0 m) in
  passes 0 (setServerInstanceLifecycleLocked poolAlive 0 0 Active
    (setServerInstanceLifecycleLocked poolAlive 0 1 Active
      (setServerInstanceLifecycleLocked poolAlive 0 2 Active
        (up 2 (up 1 (up 0 (poolAdd (poolAdd poolEmpty)))))))).

Example draining_overshoots :
  exists s s', servers poolSmall !! 0 = Some s /\
    s' = refreshServer poolAlive poolSmall
           (fst (decideServerActions poolAlive poolSmall s (9 * second))) /\
    joinableMaxUsers s = 9 /\ joinableMaxUsers s' - joinableUsers s' = 3 /\
    fst (serverNeededHeadroom (9 * second) s) = 4.
Proof. do 2 eexists. split; [vm_compute; reflexivity|]. split; [reflexivity|]. vm_compute. done. Qed.

Lemma pickServerInstance_least_witness :
  exists s, poolServer 1 = Some s /\
    fst (pickServerInstance poolAlive (passes 1 pool3) s true) = Some 26000 /\
    exists i c, i ∈ InstanceIDs s /\
      candidateOf poolAlive (passes 1 pool3) s true i = Some c /\ listenPort c = 26000.
Proof.
  assert (exists s, poolServer 1 = Some s /\ RoundRobinCursor s = 0 /\
            fst (pickServerInstance poolAlive (passes 1 pool3) s true) = Some 26000)
    as (s & Hs & Hc & Hp)
    by (eexists; split; [vm_compute; reflexivity|]; split; [reflexivity|vm_compute; reflexivity]).
  exists s. split; [exact Hs|]. split; [exact Hp|].
  pose proof (pickServerInstance_least poolAlive (passes 1 pool3) s true
    (passes_ok 1 pool3 pool3_ok) ltac:(lia)) as T.
  rewrite Hp in T. destruct T as (i & c & Hi & Hcand & Hport & _). exists i, c. auto.
Defined.

Lemma pickServerInstance_round_robin_witness :
  exists s, poolServer 1 = Some s /\
    pickMany poolAlive (passes 1 pool3)
      (length (leastLoaded (routableTo poolAlive (passes 1 pool3) s))) s
    ≡ₚ [Some 26000; Some 26001].
Proof.
  assert (exists s, poolServer 1 = Some s /\ RoundRobinCursor s = 0 /\
            listenPort <$> leastLoaded (routableTo poolAlive (passes 1 pool3) s) = [26000; 26001])
    as (s & Hs & Hc & Hp)
    by (eexists; split; [vm_compute; reflexivity|]; split; [reflexivity|vm_compute; reflexivity]).
  exists s. split; [exact Hs|].
  pose proof (pickServerInstance_round_robin poolAlive (passes 1 pool3) s ltac:(lia)) as T.
  cbv zeta in T. rewrite Hp in T. exact T.
Defined.
