(* ===== verification/Snapshot.v ===== *)
(** Views of the registry: the sorted listings of internal/orch/ops.go, the snapshots of
    state.go and the console labels and relay filter of manager.go.  They read the registry and
    change nothing. *)
From S2P Require Import Prelude GoStrings LaunchPlan Registry Autoscale.

(** * Listings (ops.go) *)

Definition lineLe (a b : server) : Prop := sLine a <= sLine b.
#[export] Instance lineLe_dec a b : Decision (lineLe a b).
Proof. unfold lineLe. apply _. Defined.

(** ops.go [serversLocked] *)
Definition serversLocked (m : ServerManager) : list server :=
  merge_sort lineLe (omap (fun kp => servers m !! snd kp) (map_to_list (serversByID m))).

(** ops.go [findServerByIndexLocked] *)
Definition findServerByIndexLocked (target : Z) (m : ServerManager) : result string server :=
  let index := target - 1 in
  if (0 <=? index) && (index <? Z.of_nat (length (serversLocked m))) then
    match serversLocked m !! Z.to_nat index with
    | Some s => Ok s
    | None => Err ("unknown target " ++ Itoa target)%string
    end
  else Err ("unknown target " ++ Itoa target)%string.

(** The comparison of ops.go [serverInstancesLocked]: by port where both have one, those with a
    port first, then by id. *)
Definition instanceLeb (a b : instance) : bool :=
  let aPort := recordListenPort a in
  let bPort := recordListenPort b in
  if (0 <? aPort) && (0 <? bPort) then
    if aPort =? bPort then id a <=? id b else aPort <? bPort
  else if 0 <? aPort then true
  else if 0 <? bPort then false
  else id a <=? id b.
Definition instanceLe (a b : instance) : Prop := instanceLeb a b = true.
#[export] Instance instanceLe_dec a b : Decision (instanceLe a b).
Proof. unfold instanceLe. apply _. Defined.

(** ops.go [serverInstancesLocked] *)
Definition serverInstancesLocked (m : ServerManager) (s : server) : list instance :=
  merge_sort instanceLe (omap (instanceByID m) (InstanceIDs s)).

(** * Snapshots (state.go) *)

(** state.go [ServerSnapshot] *)
Record ServerSnapshot := mkSnapshot {
  snLine : Z; CandidatePort : Z; snListenPort : Z; GameDir : string; snHostname : string;
  snMapName : string; snPlayers : Z; snMaxPlayers : Z; Instances : Z; State : string;
  PID : Z; LastError : string;
}.
#[export] Instance eta_snapshot : EtaRecord ServerSnapshot := fun s =>
  mkSnapshot (snLine s) (CandidatePort s) (snListenPort s) (GameDir s) (snHostname s)
    (snMapName s) (snPlayers s) (snMaxPlayers s) (Instances s) (State s) (PID s) (LastError s).

Section Snapshots.
Variable alive : Z -> bool.

(** rec.Running.Cmd.Process.Pid, 0 when there is none *)
Definition runningPID (rec : instance) : Z :=
  match Running rec with
  | Some srv => default 0 (msProcess srv)
  | None => 0
  end.

(** The loop's variables in state.go [buildServerSnapshotLocked]. *)
Record snapLoop := mkSnapLoop {
  slSnap : ServerSnapshot; runningCount : Z; awaitingInfo : bool; slLastError : string }.

(** Its body. *)
Definition snapshotOne (m : ServerManager) (l : snapLoop) (i : Z) : snapLoop :=
  match instanceByID m i with
  | None => l
  | Some rec =>
      let err := if (slLastError l =? "")%string && negb (lastError rec =? "")%string
      then lastError rec else slLastError l in
      if negb (instanceRunning alive rec)
      then mkSnapLoop (slSnap l) (runningCount l) (awaitingInfo l) err else
      let fill (cur new : string) (ok : bool) :=
      if (cur =? "")%string && ok then new else cur in
      let snap := slSnap l in
      let snap := snap
      <| PID ::= fun p => if p =? 0 then runningPID rec else p |>
      <| GameDir ::= fun g => fill g (recordGameDir rec) true |>
      <| snHostname ::= fun h =>
      fill h (Hostname rec) (negb (TrimSpace (Hostname rec) =? "")%string) |>
      <| snMapName ::= fun n =>
      fill n (MapName rec) (negb (TrimSpace (MapName rec) =? "")%string) |> in
      mkSnapLoop snap (runningCount l + 1) (awaitingInfo l || awaitingServerInfo rec) err
  end.

(** state.go [buildServerSnapshotLocked] *)
Definition buildServerSnapshotLocked (m : ServerManager) (s : server) : ServerSnapshot :=
  let snap := mkSnapshot (sLine s)
  (default 0 (fst (pickServerInstance alive m s false))) 0
  (DisplayGameDir s) (DisplayHostname s) (DisplayMap s)
  (wrap8 (Z.min (aggregateUsers s) 255)) (wrap8 (Z.min (aggregateMaxUsers s) 255))
  (if Autoscales s then joinableInstances s else 0) "stopped" 0 "" in
  let l := foldl (snapshotOne m) (mkSnapLoop snap 0 false "") (InstanceIDs s) in
  let snap := (slSnap l) <| LastError := slLastError l |> in
  if 0 <? runningCount l then
  let snap := snap <| State := if awaitingInfo l then "starting" else "running" |>%string in
  if 1 <? runningCount l then snap <| PID := 0 |> else snap
  else if negb (LastError snap =? "")%string then snap <| State := "crashed"%string |>
  else snap.

(** state.go [buildInstanceSnapshotLocked]; the server is the instance's, if it has one. *)
Definition buildInstanceSnapshotLocked (s : option server) (rec : instance) : ServerSnapshot :=
  let snap := mkSnapshot (Line (Launch rec)) 0 (recordListenPort rec) (recordGameDir rec)
  (TrimSpace (Hostname rec)) (TrimSpace (MapName rec)) (Players rec) (MaxPlayers rec) 0
  "stopped" 0 (lastError rec) in
  let orElse (cur new : string) := if (cur =? "")%string then new else cur in
  let snap := match s with
        | Some s => snap <| snLine := sLine s |>
            <| snHostname ::= fun h => orElse h (DisplayHostname s) |>
            <| snMapName ::= fun n => orElse n (DisplayMap s) |>
            <| GameDir ::= fun g => orElse g (DisplayGameDir s) |>
        | None => snap
        end in
  if negb (instanceRunning alive rec) then
  if negb (LastError snap =? "")%string then snap <| State := "crashed"%string |> else snap
  else
  snap <| State := (if awaitingServerInfo rec then "starting" else "running")%string |>
   <| PID := runningPID rec |>.

(** state.go [Snapshots], [InstanceSnapshots] *)
Definition Snapshots (m : ServerManager) : list ServerSnapshot :=
  map (buildServerSnapshotLocked m) (serversLocked m).

Definition InstanceSnapshots (target : Z) (m : ServerManager)
  : result string (list ServerSnapshot) :=
  let* servers := (if 0 <? target
             then let* s := findServerByIndexLocked target m in Ok [s]
             else Ok (serversLocked m)) in
  Ok (flat_map (fun s => map (buildInstanceSnapshotLocked (Some s)) (serverInstancesLocked m s))
  servers).
End Snapshots.

(** * Console labels and the relay filter (manager.go) *)

(** manager.go [serverConsoleLabelLocked]; the nil record's label is "server". *)
Definition serverConsoleLabelLocked (m : ServerManager) (rec : option instance) : string :=
  match rec with
  | None => "server"
  | Some rec =>
      let s := match serverByInstanceID m !! id rec with
               | Some p => servers m !! p
               | None => None
               end in
      let orElse (new old : string) := if (new =? "")%string then old else new in
      let hostname := match s with
                      | Some s => orElse (TrimSpace (DisplayHostname s)) "server"
                      | None => "server"
                      end in
      let hostname := orElse (TrimSpace (Hostname rec)) hostname in
      let port := recordListenPort rec in
      let sline := match s with Some s => sLine s | None => (-1)%Z end in
      if (0 <=? sline)%Z then
        if (0 <? port)%Z then Itoa (sline + 1)%Z ++ "-" ++ hostname ++ "-" ++ Itoa port
        else Itoa (sline + 1)%Z ++ "-" ++ hostname
      else if (0 <? port)%Z then hostname ++ "-" ++ Itoa port
      else if (0 <=? Line (Launch rec))%Z then Itoa (Line (Launch rec) + 1)%Z ++ "-" ++ hostname
      else hostname
  end%string.

(** manager.go [formatLaunchLabel] *)
Definition formatLaunchLabel (launch : serverLaunch) : string :=
  if 0 <=? Line launch then ("line=" ++ Itoa (Line launch + 1))%string else "replica".

(** manager.go [serverConsoleRelayEnabled]: consoles are compared by pointer. *)
Definition serverConsoleRelayEnabled (rec : instance) (console : Z) : bool :=
  match Running rec with
  | Some srv => bool_decide (msConsole srv = Some console) && relayConsoleReady rec
  | None => false
  end.

(** * Facts *)

#[export] Instance lineLe_total : Total lineLe.
Proof. intros a b. unfold lineLe. lia. Qed.
#[export] Instance lineLe_trans : Transitive lineLe.
Proof. intros a b c. unfold lineLe. lia. Qed.

(** A server is registered under its id. *)
Definition registered (m : ServerManager) (s : server) : Prop :=
  exists p, serversByID m !! ServerID s = Some p /\ servers m !! p = Some s.

Lemma serversLocked_elem m s :
  reg_ok m -> s ∈ serversLocked m <-> registered m s.
Proof.
  intros Hok. unfold serversLocked. rewrite merge_sort_Permutation, list_elem_of_omap.
  unfold registered. split.
  - intros ([k p] & Hkp%elem_of_map_to_list & Hs). exists p.
    destruct (ro_byid _ _ Hok _ _ Hkp) as (s' & Hs' & Hid). cbn in Hs. rewrite Hs in Hs'.
    injection Hs' as <-. by rewrite Hid.
  - intros (p & Hk & Hs). exists (ServerID s, p). by rewrite elem_of_map_to_list.
Qed.

Lemma omap_sLine_NoDup m l :
  reg_ok m -> NoDup (fst <$> l) -> (forall kp, kp ∈ l -> serversByID m !! fst kp = Some (snd kp)) ->
  NoDup (sLine <$> omap (fun kp : Z * Z => servers m !! snd kp) l).
Proof.
  intros Hok. induction l as [|[k p] l IH]; [constructor|]. intros [Hk Hnd]%NoDup_cons Hl. cbn in *.
  assert (NoDup (sLine <$> omap (fun kp : Z * Z => servers m !! snd kp) l)) as IHl
    by (apply IH; [done|set_solver]).
  destruct (servers m !! p) as [s|] eqn:Hs; [|done]. cbn. apply NoDup_cons. split; [|done].
  intros (s' & Heq & Hs')%list_elem_of_fmap. apply list_elem_of_omap in Hs' as ([k' p'] & Hin & Hs').
  cbn in Hs'. apply Hk. apply list_elem_of_fmap. exists (k', p'). split; [|done]. cbn.
  assert (forall k p s, (k, p) ∈ (k, p) :: l -> serversByID m !! k = Some p ->
            servers m !! p = Some s -> k = sLine s + 1) as Hline.
  { intros k0 p0 s0 _ Hk0 Hs0. destruct (ro_byid _ _ Hok _ _ Hk0) as (s1 & Hs1 & <-).
    rewrite Hs0 in Hs1. injection Hs1 as <-. apply (ro_server _ _ Hok) in Hs0 as [_ Hs0].
    apply (sk_line _ _ _ Hs0). }
  rewrite (Hline k p s), (Hline k' p' s'); [lia|set_solver| |done|set_solver| |done];
    by apply (Hl (_, _)); set_solver.
Qed.

Lemma StronglySorted_strict {A} (f : A -> Z) l :
  StronglySorted (fun a b => f a <= f b) l -> NoDup (f <$> l) ->
  StronglySorted (fun a b => f a < f b) l.
Proof.
  induction 1 as [|a l Hs IH Hf]; [constructor|]. cbn. intros [Ha Hn]%NoDup_cons.
  constructor; [auto|]. rewrite Forall_forall in *. intros b Hb. specialize (Hf b Hb).
  assert (f b <> f a); [|lia]. intros He. apply Ha. rewrite <- He. by apply list_elem_of_fmap_2.
Qed.

(** The servers are listed once each in the order of their configuration lines, so a
    1-based target names the same server for as long as none is added or removed below it; a
    target outside the list is an error and nothing else is. *)
Theorem findServerByIndexLocked_spec m :
  reg_ok m ->
  StronglySorted (fun a b => sLine a < sLine b) (serversLocked m) /\
  (forall s, s ∈ serversLocked m <-> registered m s) /\
  forall target,
    match findServerByIndexLocked target m with
    | Ok s => 1 <= target /\ serversLocked m !! Z.to_nat (target - 1) = Some s
    | Err _ => ~ (1 <= target <= Z.of_nat (length (serversLocked m)))
    end.
Proof.
  intros Hok. split_and!; [|intros s; by apply serversLocked_elem|].
  - apply (StronglySorted_strict sLine); [apply (StronglySorted_merge_sort lineLe)|].
    unfold serversLocked. rewrite merge_sort_Permutation.
    apply omap_sLine_NoDup; [done|apply NoDup_fst_map_to_list|]. by intros [k p] ?%elem_of_map_to_list.
  - intros target. unfold findServerByIndexLocked. destruct (_ && _) eqn:Hr.
    + bool_prop. destruct (lookup_lt_is_Some_2 (serversLocked m) (Z.to_nat (target - 1))) as [s Hs];
        [lia|]. rewrite Hs. split; [lia|done].
    + apply andb_false_iff in Hr. destruct Hr; bool_prop; lia.
Qed.

(** ** The order of the instances *)

Lemma instanceLeb_spec a b :
  instanceLe a b <->
  let key r := if 0 <? recordListenPort r then (0, recordListenPort r) else (1, 0) in
  key a = key b /\ id a <= id b \/ fst (key a) < fst (key b) \/
  fst (key a) = fst (key b) /\ snd (key a) < snd (key b).
Proof.
  unfold instanceLe, instanceLeb. cbn zeta.
  destruct (Z.ltb_spec 0 (recordListenPort a)), (Z.ltb_spec 0 (recordListenPort b)); cbn.
  - destruct (Z.eqb_spec (recordListenPort a) (recordListenPort b)) as [->|Hne].
    + rewrite Z.leb_le. split; [auto|]. intros [[_ ?]|[?|[_ ?]]]; lia.
    + rewrite Z.ltb_lt. split; [auto|]. intros [[[= ?] ?]|[?|[_ ?]]]; lia.
  - split; [lia|done].
  - split; [done|]. intros [[[= ?] ?]|[?|[? ?]]]; lia.
  - rewrite Z.leb_le. split; [auto|]. intros [[_ ?]|[?|[_ ?]]]; lia.
Qed.

#[export] Instance instanceLe_total : Total instanceLe.
Proof.
  intros a b. rewrite !instanceLeb_spec. cbv beta zeta.
  destruct (0 <? recordListenPort a), (0 <? recordListenPort b); cbn; try lia.
  - destruct (Z.lt_trichotomy (recordListenPort a) (recordListenPort b)) as [?|[->|?]];
      [left; right; right; split; [done|lia]| |right; right; right; split; [done|lia]].
    destruct (Z.le_ge_cases (id a) (id b)); auto.
  - destruct (Z.le_ge_cases (id a) (id b)); auto.
Qed.
#[export] Instance instanceLe_trans : Transitive instanceLe.
Proof.
  intros a b c. rewrite !instanceLeb_spec. cbv beta zeta.
  destruct (0 <? recordListenPort a), (0 <? recordListenPort b), (0 <? recordListenPort c); cbn;
    intros [[? ?]|[?|[? ?]]] [[? ?]|[?|[? ?]]]; simplify_eq; try lia; left; split; congruence || lia.
Qed.

Lemma instanceLe_antisymm a b : instanceLe a b -> instanceLe b a -> id a = id b.
Proof.
  rewrite !instanceLeb_spec. cbv beta zeta.
  destruct (0 <? recordListenPort a), (0 <? recordListenPort b); cbn;
    intros [[? ?]|[?|[? ?]]] [[? ?]|[?|[? ?]]]; simplify_eq; lia.
Qed.

(** The instances of a server are listed once each, those that listen first and by port,
    the others after them by id; no other order satisfies the comparison the code sorts by, so
    the listing does not depend on the (unstable) sorting algorithm. *)
Theorem serverInstancesLocked_canonical m s l :
  reg_ok m ->
  (l = serverInstancesLocked m s <->
   StronglySorted instanceLe l /\ l ≡ₚ omap (instanceByID m) (InstanceIDs s)).
Proof.
  intros Hok. unfold serverInstancesLocked.
  pose proof (StronglySorted_merge_sort instanceLe (omap (instanceByID m) (InstanceIDs s))) as Hs.
  pose proof (merge_sort_Permutation instanceLe (omap (instanceByID m) (InstanceIDs s))) as Hp.
  split; [by intros ->|]. intros [Hls Hlp].
  apply (StronglySorted_unique_strong instanceLe); [|done..|by rewrite Hp].
  intros a b Ha Hb Hab Hba.
  assert (forall r, r ∈ l -> instances m !! id r = Some r) as Hin.
  { intros r Hr. rewrite Hlp in Hr. apply list_elem_of_omap in Hr as (i & _ & Hr).
    unfold instanceByID in Hr. case_bool_decide; [|done].
    destruct (ro_inst _ _ Hok _ _ Hr) as (-> & _). done. }
  pose proof (Hin a Ha) as HA. rewrite Hp, <- Hlp in Hb. pose proof (Hin b Hb) as HB.
  rewrite (instanceLe_antisymm a b Hab Hba) in HA. congruence.
Qed.

(** ** Snapshot states *)

Section SnapshotFacts.
Variable alive : Z -> bool.

(** The first recorded error among the instances. *)
Fixpoint firstError (l : list instance) : string :=
  match l with
  | [] => ""
  | r :: l => if (lastError r =? "")%string then firstError l else lastError r
  end.

Lemma firstError_app l k :
  firstError (l ++ k) = if (firstError l =? "")%string then firstError k else firstError l.
Proof.
  induction l as [|r l IH]; [done|]. cbn. destruct (String.eqb_spec (lastError r) "") as [|Hne];
  [done|]. by rewrite (proj2 (String.eqb_neq _ _)) by done.
Qed.

Lemma snapshotOne_loop m snap ids :
  let l := foldl (snapshotOne alive m) (mkSnapLoop snap 0 false "") ids in
  let recs := omap (instanceByID m) ids in
  let run := List.filter (instanceRunning alive) recs in
  slLastError l = firstError recs /\
  runningCount l = Z.of_nat (length run) /\
  awaitingInfo l = existsb awaitingServerInfo run /\
  LastError (slSnap l) = LastError snap /\ State (slSnap l) = State snap /\
  CandidatePort (slSnap l) = CandidatePort snap /\ Instances (slSnap l) = Instances snap /\
  (run = [] -> PID (slSnap l) = PID snap) /\
  (forall r, run = [r] -> PID snap = 0 -> PID (slSnap l) = runningPID r).
Proof.
  induction ids as [|i ids IH] using rev_ind; cbn zeta in *; [by cbn|].
  rewrite foldl_snoc, omap_app. destruct IH as (He & Hc & Ha & HL & HS & HC & HI & HP0 & HP1).
  set (l := foldl _ _ ids) in *. cbn [omap list_omap]. unfold snapshotOne.
  destruct (instanceByID m i) as [rec|]; [|by rewrite app_nil_r].
  rewrite firstError_app, List.filter_app. cbn [firstError List.filter]. rewrite <- He.
  destruct (instanceRunning alive rec) eqn:Hr; cbn -[omap].
  - rewrite existsb_app, length_app, <- Ha, Hc. cbn.
  assert ((if (slLastError l =? "")%string && negb (lastError rec =? "")%string
       then lastError rec else slLastError l) =
      (if (slLastError l =? "")%string
       then if (lastError rec =? "")%string then "" else lastError rec
       else slLastError l)) as ->.
  { destruct (String.eqb_spec (slLastError l) "") as [->|]; [|done].
  by destruct (lastError rec =? "")%string. }
  rewrite orb_false_r. split_and!; try done; [lia|by destruct (List.filter _ _)|].
  intros r Hr1 Hp. destruct (List.filter _ (omap (instanceByID m) ids)) as [|r0 [|]] eqn:Hf;
  try done. injection Hr1 as <-. by rewrite HP0, Hp.
  - rewrite app_nil_r. split_and!; try done.
  destruct (String.eqb_spec (slLastError l) "") as [->|]; [|done].
  by destruct (lastError rec =? "")%string.
Qed.

(** A server's snapshot tells its state: "starting" or "running" exactly when one of its
processes is alive (starting while one still awaits its first poll), otherwise "crashed"
when an instance recorded an error and "stopped" when none did; it shows a process id only
when exactly one process is alive, and the port it suggests is one routing would pick. *)
Theorem buildServerSnapshotLocked_state m s :
  let snap := buildServerSnapshotLocked alive m s in
  let recs := omap (instanceByID m) (InstanceIDs s) in
  let run := List.filter (instanceRunning alive) recs in
  State snap = (if bool_decide (run = [])
          then if (firstError recs =? "")%string then "stopped" else "crashed"
          else if existsb awaitingServerInfo run then "starting" else "running")%string /\
  LastError snap = firstError recs /\
  PID snap = match run with [r] => runningPID r | _ => 0 end /\
  CandidatePort snap = default 0 (fst (pickServerInstance alive m s false)) /\
Instances snap = (if Autoscales s then joinableInstances s else 0).
Proof.
  cbn zeta. unfold buildServerSnapshotLocked.
  set (snap0 := mkSnapshot _ _ _ _ _ _ _ _ _ _ _ _).
  destruct (snapshotOne_loop m snap0 (InstanceIDs s)) as (He & Hc & Ha & HL & HS & HC & HI & HP0 & HP1).
  set (l := foldl _ _ _) in *.
  set (run := List.filter (instanceRunning alive) (omap (instanceByID m) (InstanceIDs s))) in *.
  rewrite Hc, Ha. destruct run as [|r [|r' run']].
  - change (0 <? Z.of_nat (length [])) with false. cbv iota.
  change (LastError ((slSnap l) <| LastError := slLastError l |>)) with (slLastError l). rewrite He.
  destruct (firstError (omap (instanceByID m) (InstanceIDs s)) =? "")%string;
  (split_and!; [done || by rewrite <- HS|done|by apply HP0|done|done]).
  - change (0 <? Z.of_nat (length [r])) with true. change (1 <? Z.of_nat (length [r])) with false.
  rewrite bool_decide_false by done. cbv iota. split_and!; [done|done|by apply HP1|done|done].
  - rewrite bool_decide_false by done. rewrite (proj2 (Z.ltb_lt 0 _)) by (cbn; lia).
  rewrite (proj2 (Z.ltb_lt 1 _)) by (cbn; lia). split_and!; done.
Qed.
End SnapshotFacts.

(** * Concrete views *)

Lemma findServerByIndexLocked_spec_witness :
  match findServerByIndexLocked 1 sampleManager with
  | Ok s => 1 <= 1 /\ serversLocked sampleManager !! Z.to_nat (1 - 1) = Some s
  | Err _ => False
  end.
Proof.
  pose proof (proj2 (proj2 (findServerByIndexLocked_spec sampleManager sampleManager_ok)) 1) as T.
  destruct (findServerByIndexLocked 1 sampleManager) as [s|e] eqn:Hf; [exact T|].
  vm_compute in Hf. discriminate Hf.
Defined.

Lemma serverInstancesLocked_canonical_witness :
  exists s, servers sampleManager !! 0 = Some s /\
    map id (serverInstancesLocked sampleManager s) = [0; 1] /\
    StronglySorted instanceLe (serverInstancesLocked sampleManager s).
Proof.
  eexists. split; [vm_compute; reflexivity|]. split; [vm_compute; reflexivity|].
  match goal with |- StronglySorted _ (serverInstancesLocked _ ?s) =>
    exact (proj1 (proj1 (serverInstancesLocked_canonical sampleManager s _ sampleManager_ok)
             eq_refl)) end.
Defined.
