(* ===== verification/Lifecycle.v ===== *)
(** Processes: internal/orch/launcher.go and ops.go, and the parts of autoscale.go and state.go
    that launch, observe and stop them.

    Every operation of the code is a sequence of critical sections of the manager's lock with
    system calls between them.  Each critical section is a definition here (a pure function on
    the manager); the operations compose them in the code's order, taking what the system
    answers as an argument ([startEnv], [stopEnv]); and [mstep] lets the critical sections of
    any number of goroutines interleave. *)
From S2P Require Import Prelude GoStrings LaunchPlan Registry Autoscale Snapshot.

(** * Errors *)

(** ops.go's sentinel errors, formatted errors, and fmt.Errorf and errors.Join wrappers. *)
Inductive opError :=
  | errText (msg : string)
  | errAlreadyRunning
  | errAlreadyStopped
  | errTarget (target : Z) (e : opError)
  | errJoin (es : list opError).

(** * Starting a process (launcher.go) *)

(** launcher.go [serverStartupCCREPTimeout] *)
Definition serverStartupCCREPTimeout : Z := 10 * second.

(** launcher.go [resetRecordStartupState] *)
Definition resetRecordStartupState (rec : instance) : instance :=
  rec <| relayConsoleReady := false |> <| awaitingServerInfo := false |>
      <| startupTimedOutOnce := false |>.

(** What the system answers to launcher.go [startServer]: the error of each call, if any; what
    the process reported when it was dead after 50 ms; and the process that was started. *)
Record startEnv := mkStartEnv {
  seMkdir : option string;
  seOpen : option string;
  sePty : option string;
  seSpawn : option string;
  seExited : option (option string);
  seServer : managedServer;
}.

Section Lifecycle.
Variable logsDir : string.
Context `{GoUnicode}.

(** launcher.go [startServer] *)
Definition startServer (launch : serverLaunch) (env : startEnv) : result string managedServer :=
  let logDir := filepath_Join [logsDir; LogDir launch] in
  match seMkdir env with
  | Some e => Err ("mkdir " ++ logDir ++ ": " ++ e)%string
  | None =>
      let logPath := filepath_Join [logDir; "server.log"%string] in
      match seOpen env with
      | Some e => Err ("open " ++ logPath ++ ": " ++ e)%string
      | None =>
          let launchLabel := formatLaunchLabel launch in
          let what := (launchLabel ++ " bin=" ++ Quote (Binary launch))%string in
          match sePty env with
          | Some e => Err ("open pty for server " ++ what ++ ": " ++ e)%string
          | None =>
              match seSpawn env with
              | Some e => Err ("start server " ++ what ++ ": " ++ e)%string
              | None =>
                  match seExited env with
                  | Some e => Err ("server " ++ what ++ " exited immediately: "
                      ++ default "process exited" e ++ " (see " ++ logPath
                      ++ ")")%string
                  | None => Ok (seServer env)
                  end
              end
          end
      end
  end.

Variable alive : Z -> bool.

(** launcher.go [startRecord], its first critical section: the launch to run, with the record's
stale ports forgotten. *)
Definition startRecordBegin (i : Z) (m : ServerManager)
    : result opError (serverLaunch * ServerManager) :=
  match instances m !! i with
  | None => Err (errText "server record not found")
  | Some rec =>
      if (runtimeBasedir m =? "")%string then Err (errText "runtime not initialized") else
      if instanceRunning alive rec then Err errAlreadyRunning else
      let m := removeServerIDFromPortLocked (resolvedPort rec) i m in
      let m := match spec rec with
      | Some sp => removeServerIDFromPortLocked (ListenPort sp) i m
      | None => m
      end in
      let m := updInstance i (fun rec =>
        rec <| resolvedPortKnown := false |> <| resolvedPort := 0 |>
        <| resolvedSearchPath := [] |> <| spec := None |>) m in
      Ok (Launch rec, m)
  end.

(** Its critical section when the process did not start, *)
Definition startRecordFail (i : Z) (err : string) (m : ServerManager) : ServerManager :=
  updInstance i (fun rec =>
    (resetRecordStartupState (rec <| Running := None |>)) <| lastError := err |>) m.

(** and when it did. *)
Definition startRecordDone (i : Z) (srv : managedServer) (m : ServerManager) : ServerManager :=
  updInstance i (fun rec =>
    rec <| Running := Some srv |> <| relayConsoleReady := false |>
    <| awaitingServerInfo := true |> <| startupTimedOutOnce := false |>
    <| lastError := ""%string |> <| Hostname := ""%string |> <| MapName := ""%string |>
    <| Players := 0 |> <| MaxPlayers := 0 |> <| LastSeen := None |>) m.

(** launcher.go [startRecord] *)
Definition startRecord (i : Z) (env : startEnv) (m : ServerManager)
    : option opError * ServerManager :=
  match startRecordBegin i m with
  | Err e => (Some e, m)
  | Ok (launch, m) =>
      match startServer launch env with
      | Err e => (Some (errText e), startRecordFail i e m)
      | Ok srv => (None, resetServerInstanceState alive i (startRecordDone i srv m))
      end
  end.

(** launcher.go [monitorServerStartupTimeout], once its timer fired: the label it warns about. *)
Definition monitorServerStartupTimeout (i : Z) (srv : managedServer) (m : ServerManager)
    : option string * ServerManager :=
  match instances m !! i with
  | None => (None, m)
  | Some rec =>
      if negb (bool_decide (msPtr <$> Running rec = Some (msPtr srv)))
      || negb (awaitingServerInfo rec) || startupTimedOutOnce rec
      then (None, m)
      else
      let m := updInstance i (fun rec => rec <| startupTimedOutOnce := true |>) m in
      (Some (serverConsoleLabelLocked m (instances m !! i)), m)
  end.

(** * Stopping a process (launcher.go) *)

(** The error [cmd.Wait] gives: an [*exec.ExitError] or another. *)
Inductive waitError := exitError | otherError (msg : string).
(** What a select of [stopServer] received. *)
Inductive selected := ctxDone (err : string) | processDone (err : option waitError) | timerFired.
(** What [stopServer] does to the process, in order. *)
Inductive stopEffect := writeQuit | sendTerm | sendKill | waited (d : Z).

Record stopEnv := mkStopEnv {
  seFirst : selected;
  seAliveAfterQuit : bool;
  seSecond : selected;
  seAliveBeforeKill : bool;
  seThird : selected;
}.

Definition srvAlive (srv : managedServer) : bool :=
  match msProcess srv with Some p => alive p | None => false end.

(** The closure [clearRunning] of [stopServer]. *)
Definition clearRunning (i : Z) (srv : managedServer) (m : ServerManager) : ServerManager :=
  match instances m !! i with
  | None => m
  | Some rec =>
      if bool_decide (msPtr <$> Running rec = Some (msPtr srv)) then
      let m := updInstance i (fun rec =>
        (resetRecordStartupState (rec <| Running := None |>)) <| lastError := ""%string |>) m in
      match serverByInstanceID m !! i with
      | Some owner => refreshServerSnapshotLocked alive owner m
      | None => m
      end
      else m
  end.
Definition clearResult (err : option waitError) : option opError :=
  match err with
  | None | Some exitError => None
  | Some (otherError msg) => Some (errText msg)
  end.

(** The critical section after a process outlived SIGKILL, and the error it reports. *)
Definition didNotExit (i : Z) (srv : managedServer) (m : ServerManager) : opError * ServerManager :=
  let m := match instances m !! i with
       | Some rec => if bool_decide (msPtr <$> Running rec = Some (msPtr srv))
                     then updInstance i (fun rec =>
                            rec <| lastError := "did not exit after kill"%string |>) m
                     else m
       | None => m
       end in
  let rec := instances m !! i in
  let gameDir := match rec with
             | Some rec => match spec rec with
                           | Some sp => activeGameDir (SearchPath sp)
                           | None => ""%string
                           end
             | None => ""%string
             end in
  (errText ("server " ++ serverConsoleLabelLocked m rec ++ " mod=" ++ Quote gameDir
        ++ " did not exit after kill")%string, m).

Definition quitGrace (killAfter : Z) : Z :=
  let quitGrace := 750 * 10 ^ 6 in
  if (0 <? killAfter) && (killAfter <? quitGrace) then killAfter else quitGrace.

(** [stopServer] from its second select on. *)
Definition stopAfterSignal (i : Z) (srv : managedServer) (waitAfterSignal : Z) (env : stopEnv)
  (m : ServerManager) : list stopEffect * option opError * ServerManager :=
  match seSecond env with
  | ctxDone err => ([], Some (errText err), m)
  | processDone err => ([], clearResult err, clearRunning i srv m)
  | timerFired =>
      let kill := match msProcess srv with
      | Some _ => if seAliveBeforeKill env then [sendKill] else []
      | None => []
      end in
      let effects := waited waitAfterSignal :: kill in
      match seThird env with
      | processDone err => (effects, clearResult err, clearRunning i srv m)
      | timerFired =>
          let '(err, m) := didNotExit i srv m in
          (effects ++ [waited second], Some err, m)
      | ctxDone err => (effects, Some (errText err), m)
      end
  end.

(** launcher.go [stopServer] *)
Definition stopServer (i : Z) (srv : option managedServer) (killAfter : Z) (sendSignal : bool)
  (env : stopEnv) (m : ServerManager) : list stopEffect * option opError * ServerManager :=
  match srv with
  | None => ([], None, m)
  | Some srv =>
      if sendSignal && srvAlive srv then
      let quit := match msConsole srv with Some _ => [writeQuit] | None => [] end in
      let waitAfterSignal := Z.max 0 (killAfter - quitGrace killAfter) in
      match seFirst env with
      | ctxDone err => (quit, Some (errText err), m)
      | processDone err => (quit, clearResult err, clearRunning i srv m)
      | timerFired =>
          let term := if seAliveAfterQuit env then [sendTerm] else [] in
          let '(effects, err, m) := stopAfterSignal i srv waitAfterSignal env m in
          (quit ++ [waited (quitGrace killAfter)] ++ term ++ effects, err, m)
      end
      else stopAfterSignal i srv killAfter env m
  end.
End Lifecycle.

(** * Replicas (autoscale.go) *)

Section Replicas.
Variable logsDir : string.
Context `{GoUnicode}.
Variable alive : Z -> bool.

(** autoscale.go [registerServerReplicaInstance]; [stamp] is the formatted current time. *)
Definition registerServerReplicaInstance (serverID : Z) (stamp : string) (m : ServerManager)
    : result string (option Z) * ServerManager :=
  match serversByID m !! serverID with
  | None => (Err "unknown server"%string, m)
  | Some p =>
      match servers m !! p with
      | None => (Err "unknown server"%string, m)
      | Some s =>
          if negb (ScaleUpInFlight s) then (Ok None, m) else
          if negb (Autoscales s)
          then (Ok None, updServer p (fun s => s <| ScaleUpInFlight := false |>) m) else
          let t := TemplateLaunch s in
          let replicaID := nextInstanceID m in
          let launch := mkLaunch (-1)
          ("replica-" ++ Itoa replicaID ++ "-" ++ filepath_Base (Binary t) ++ "-" ++ stamp)
          (Binary t) (forceLaunchPortZero (Args t)) in
          let '(i, m) := appendServerInstanceLocked alive p launch Warming m in
          (Ok (Some i), m)
      end
  end.

(** autoscale.go [launchServerReplica], its last critical section: the launch is no longer in
flight, whether it succeeded or not. *)
Definition launchServerReplicaEnd (serverID i : Z) (failed : bool) (now : Z) (m : ServerManager)
    : ServerManager :=
  match serversByID m !! serverID with
  | None => m
  | Some p =>
      let m := updServer p (fun s => s <| ScaleUpInFlight := false |>) m in
      if failed then removeServerRecordLocked alive i m
      else refreshServerSnapshotLocked alive p
      (updServer p (fun s => s <| LastScaleUpAt := Some now |>) m)
  end.

(** autoscale.go [launchServerReplica] *)
Definition launchServerReplica (serverID : Z) (stamp : string) (env : startEnv) (now : Z)
  (m : ServerManager) : ServerManager :=
  match registerServerReplicaInstance serverID stamp m with
  | (Err _, m) | (Ok None, m) => m
  | (Ok (Some i), m) =>
      let '(err, m) := startRecord logsDir alive i env m in
      launchServerReplicaEnd serverID i (bool_decide (is_Some err)) now m
  end.

(** autoscale.go [despawnServerInstance], its first critical section: the process to stop, if
the despawn goes ahead. *)
Definition despawnBegin (i : Z) (m : ServerManager) : option managedServer * ServerManager :=
  match serverByInstanceID m !! i with
  | None => (None, m)
  | Some p =>
      match runningByID alive m i with
      | None => (None, setServerInstanceLifecycleLocked alive p i Warming m)
      | Some rec =>
          let count := match servers m !! p with
          | Some s => serverRunningCountLocked alive m s
          | None => 0
          end in
          if count <=? 1 then (None, setServerInstanceLifecycleLocked alive p i Active m)
          else (Running rec, m)
      end
  end.

(** Its last critical section. *)
Definition despawnEnd (i : Z) (failed : bool) (m : ServerManager) : ServerManager :=
  match serverByInstanceID m !! i with
  | None => m
  | Some p => if failed then setServerInstanceLifecycleLocked alive p i Active m
          else removeServerRecordLocked alive i m
  end.

(** autoscale.go [despawnServerInstance]; [ctx] is done after three seconds. *)
Definition despawnServerInstance (i : Z) (env : stopEnv) (m : ServerManager)
    : list stopEffect * ServerManager :=
  match despawnBegin i m with
  | (None, m) => ([], m)
  | (Some srv, m) =>
      let '(effects, err, m) := stopServer alive i (Some srv) (2 * second) true env m in
      (effects, despawnEnd i (bool_decide (is_Some err)) m)
  end.

(** What the system does during a reconciliation: the answers to each launch and each stop. *)
Record reconcileEnv := mkReconcileEnv {
  reNow : Z;
  reStamp : Z -> string;
  reStart : Z -> startEnv;
  reStop : Z -> stopEnv;
}.

(** autoscale.go [reconcileServers] *)
Definition reconcileServers (env : reconcileEnv) (serverIDs : list Z) (m : ServerManager)
    : ServerManager :=
  match serverIDs with
  | [] => m
  | _ =>
      let r := reconcileDecisions alive (reNow env) serverIDs m in
      let m := forEachUniqueInt (fun serverID m =>
        launchServerReplica serverID (reStamp env serverID) (reStart env serverID)
        (reNow env) m) (scaleUps r) (rManager r) in
      forEachUniqueInt (fun i m => snd (despawnServerInstance i (reStop env i) m)) (despawns r) m
  end.

(** autoscale.go [reconcileAllServers] *)
Definition reconcileAllServers (env : reconcileEnv) (m : ServerManager) : ServerManager :=
  reconcileServers env (map fst (map_to_list (serversByID m))) m.

(** * Poll results (state.go) *)

(** The variables of the loop of state.go [updateGameState]: an online command is a console
label and the console, if the process has one. *)
Record observeState := mkObserve {
  obManager : ServerManager;
  onlineCommands : list (string * option Z);
  observedServerIDs : list Z;
}.

(** Its body. *)
Definition observeOne (hostname mapName : string) (players maxPlayers now : Z)
  (o : observeState) (i : Z) : observeState :=
  let m := obManager o in
  match instanceByID m i with
  | None => o
  | Some rec =>
      let m := updInstance i (fun rec =>
        rec <| Hostname := hostname |> <| MapName := mapName |> <| Players := players |>
        <| MaxPlayers := maxPlayers |> <| LastSeen := Some now |>) m in
      let observed := match serverByInstanceID m !! i with
      | Some p => match servers m !! p with
          | Some s => observedServerIDs o ++ [ServerID s]
          | None => observedServerIDs o
          end
      | None => observedServerIDs o
      end in
      match Running rec with
      | Some srv =>
          if awaitingServerInfo rec then
          let m := updInstance i (fun rec =>
            rec <| awaitingServerInfo := false |> <| relayConsoleReady := true |>) m in
          mkObserve m (onlineCommands o ++
            [(serverConsoleLabelLocked m (instances m !! i), msConsole srv)]) observed
          else mkObserve m (onlineCommands o) observed
      | None => mkObserve m (onlineCommands o) observed
      end
  end.

(** state.go [updateGameState], its critical section *)
Definition updateGameStateLocked (port : Z) (hostname mapName : string)
  (players maxPlayers now : Z) (m : ServerManager) : observeState :=
  if (port <? 1) || (65535 <? port) then mkObserve m [] [] else
  foldl (observeOne hostname mapName players maxPlayers now) (mkObserve m [] []) (idsAtPort m port).

(** state.go [updateGameState]: the consoles that are told the server is online, and the
manager after the reconciliation. *)
Definition updateGameState (env : reconcileEnv) (port : Z) (hostname mapName : string)
  (players maxPlayers : Z) (m : ServerManager) : list (string * option Z) * ServerManager :=
  let o := updateGameStateLocked port hostname mapName players maxPlayers (reNow env) m in
  (onlineCommands o, reconcileServers env (observedServerIDs o) (obManager o)).

(** state.go [runningServers] *)
Definition runningServers (m : ServerManager) : list (Z * managedServer) :=
  omap (fun i => match instances m !! i with
             | Some rec => match Running rec with Some srv => Some (i, srv) | None => None end
             | None => None
             end) (elements (instancesByID m)).
End Replicas.

(** * Operator commands (ops.go) *)

Section Operations.
Variable logsDir : string.
Context `{GoUnicode}.
Variable alive : Z -> bool.

(** ops.go [LaunchServer], the critical section that chooses the launch's line: one above the
largest of the registered servers. *)
Definition nextLine (m : ServerManager) : Z :=
  foldr (fun kp line => match servers m !! snd kp with
                    | Some s => Z.max (sLine s) line
                    | None => line
                    end) (-1) (map_to_list (serversByID m)) + 1.
Definition launchFor (m : ServerManager) (binary stamp : string) (args : list string)
  : serverLaunch :=
  let line := nextLine m in
  mkLaunch line (Itoa line ++ "-" ++ filepath_Base binary ++ "-" ++ stamp) binary args.

(** ops.go [LaunchServer] *)
Definition LaunchServer (binary : string) (args : list string) (stamp : string) (env : startEnv)
  (m : ServerManager) : option opError * ServerManager :=
  let binary := TrimSpace binary in
  if (binary =? "")%string then (Some (errText "missing binary"), m) else
  match findUnsupportedLaunchArg args with
  | Some arg => (Some (errText (arg ++ " is not currently supported")), m)
  | None =>
      if (runtimeBasedir m =? "")%string then (Some (errText "runtime not initialized"), m) else
      let launch := launchFor m binary stamp args in
      let '(i, m) := registerServerLaunch alive launch m in
      startRecord logsDir alive i env m
  end.

Definition invalidTarget (target : Z) : opError := errText ("invalid target " ++ Itoa target).

(** The loop of ops.go [StartServer] over the records. *)
Fixpoint startRecords (env : Z -> startEnv) (started : bool) (ids : list Z) (m : ServerManager)
    : option opError * ServerManager :=
  match ids with
  | [] => (if started then None else Some errAlreadyRunning, m)
  | i :: ids =>
      match startRecord logsDir alive i (env i) m with
      | (None, m) => startRecords env true ids m
      | (Some errAlreadyRunning, m) => startRecords env started ids m
      | (Some e, m) => (Some e, m)
      end
  end.

(** ops.go [StartServer] *)
Definition StartServer (env : Z -> startEnv) (target : Z) (m : ServerManager)
    : option opError * ServerManager :=
  if target <=? 0 then (Some (invalidTarget target), m) else
  match findServerByIndexLocked target m with
  | Err e => (Some (errText e), m)
  | Ok s =>
      match serverInstancesLocked m s with
      | [] =>
          match serversByID m !! ServerID s with
          | None => (Some (errText ("unknown target " ++ Itoa target)), m)
          | Some p =>
              let '(i, m) := appendServerInstanceLocked alive p (TemplateLaunch s) Warming m in
              startRecords env false [i] m
          end
      | records => startRecords env false (map id records) m
      end
  end.

(** The loop of ops.go [StopServer]: the processes were captured before it. *)
Fixpoint stopRecords (env : Z -> stopEnv) (killAfter : Z) (stopped : bool)
  (records : list (Z * option managedServer)) (m : ServerManager)
    : option opError * ServerManager :=
  match records with
  | [] => (if stopped then None else Some errAlreadyStopped, m)
  | (i, srv) :: records =>
      let dead := match srv with Some srv => negb (srvAlive alive srv) | None => true end in
      if dead
      then stopRecords env killAfter stopped records (removeServerRecordLocked alive i m)
      else
      match stopServer alive i srv killAfter true (env i) m with
      | (_, Some e, m) => (Some e, m)
      | (_, None, m) =>
          stopRecords env killAfter true records (removeServerRecordLocked alive i m)
      end
  end.

(** ops.go [StopServer] *)
Definition StopServer (env : Z -> stopEnv) (killAfter target : Z) (m : ServerManager)
  : option opError * ServerManager :=
  if target <=? 0 then (Some (invalidTarget target), m) else
  match findServerByIndexLocked target m with
  | Err e => (Some (errText e), m)
  | Ok s => stopRecords env killAfter false
          (map (fun rec => (id rec, Running rec)) (serverInstancesLocked m s)) m
  end.

(** ops.go [RestartServer] *)
Definition RestartServer (stops : Z -> stopEnv) (starts : Z -> startEnv) (killAfter target : Z)
  (m : ServerManager) : option opError * ServerManager :=
  if target <=? 0 then (Some (invalidTarget target), m) else
  match StopServer stops killAfter target m with
  | (None, m) | (Some errAlreadyStopped, m) => StartServer starts target m
  | (Some e, m) => (Some e, m)
  end.

(** ops.go [runServersAll], over the targets 1 to [n] *)
Fixpoint runTargets (runOne : Z -> ServerManager -> option opError * ServerManager)
  (ignoreErr : opError -> bool) (target : Z) (n : nat) (errs : list opError)
  (m : ServerManager) : list opError * ServerManager :=
  match n with
  | O => (errs, m)
  | S n =>
      let '(err, m) := runOne target m in
      let errs := match err with
      | Some e => if ignoreErr e then errs else errs ++ [errTarget target e]
      | None => errs
      end in
      runTargets runOne ignoreErr (target + 1) n errs m
  end.
Definition runServersAll (runOne : Z -> ServerManager -> option opError * ServerManager)
  (ignoreErr : opError -> bool) (m : ServerManager) : option opError * ServerManager :=
  let '(errs, m) := runTargets runOne ignoreErr 1 (length (Snapshots alive m)) [] m in
  (match errs with [] => None | _ => Some (errJoin errs) end, m).

(** ops.go [StartServersAll], [StopServersAll], [RestartServersAll] *)
Definition isAlreadyRunning (e : opError) : bool :=
  match e with errAlreadyRunning => true | _ => false end.
Definition isAlreadyStopped (e : opError) : bool :=
  match e with errAlreadyStopped => true | _ => false end.
Definition StartServersAll (env : Z -> startEnv) : ServerManager -> option opError * ServerManager :=
  runServersAll (StartServer env) isAlreadyRunning.
Definition StopServersAll (env : Z -> stopEnv) (killAfter : Z)
  : ServerManager -> option opError * ServerManager :=
  runServersAll (StopServer env killAfter) isAlreadyStopped.
Definition RestartServersAll (stops : Z -> stopEnv) (starts : Z -> startEnv) (killAfter : Z)
  : ServerManager -> option opError * ServerManager :=
  runServersAll (RestartServer stops starts killAfter) (fun _ => false).

(** The loop of ops.go [RemoveServer]: instances already removed stay removed when a later one
turns out to be running. *)
Fixpoint removeRecords (ids : list Z) (m : ServerManager) : option opError * ServerManager :=
  match ids with
  | [] => (None, m)
  | i :: ids =>
      match instanceByID m i with
      | None => removeRecords ids m
      | Some rec =>
          if instanceRunning alive rec
          then (Some (errText "server is running; stop server first"), m)
          else
          let m := match Running rec with
          | Some _ => updInstance i (fun rec =>
              resetRecordStartupState (rec <| Running := None |>)) m
          | None => m
          end in
          removeRecords ids (removeServerRecordLocked alive i m)
      end
  end.

(** ops.go [RemoveServer] *)
Definition RemoveServer (target : Z) (m : ServerManager) : option opError * ServerManager :=
  if target <=? 0 then (Some (invalidTarget target), m) else
  match findServerByIndexLocked target m with
  | Err e => (Some (errText e), m)
  | Ok s =>
      match removeRecords (InstanceIDs s) m with
      | (Some e, m) => (Some e, m)
      | (None, m) => (None, m <| serversByID ::= delete (ServerID s) |>)
      end
  end.

(** * Starting and stopping everything (launcher.go) *)

(** launcher.go [StopAll], with the processes that were told to terminate first. *)
Fixpoint stopEntries (env : Z -> stopEnv) (killAfter : Z) (errs : list opError)
  (running : list (Z * managedServer)) (m : ServerManager) : list opError * ServerManager :=
  match running with
  | [] => (errs, m)
  | (i, srv) :: running =>
      let '(_, err, m) := stopServer alive i (Some srv) killAfter false (env i) m in
      stopEntries env killAfter (errs ++ match err with Some e => [e] | None => [] end) running m
  end.
Definition StopAll (env : Z -> stopEnv) (killAfter : Z) (m : ServerManager)
  : list Z * option opError * ServerManager :=
  let running := runningServers m in
  let terminated := map fst (List.filter (fun e => srvAlive alive (snd e)) running) in
  let '(errs, m) := stopEntries env killAfter [] running m in
  let m := resetServerRegistryLocked (m <| runtimeBasedir := ""%string |>) in
  (terminated, match errs with [] => None | _ => Some (errJoin errs) end, m).

(** What the system answers to launcher.go [StartAll]: the checks of its directories, the
launch plan and the prepared base directory. *)
Record startAllEnv := mkStartAllEnv {
  saGameDir : string;
  saGameDirIsDir : bool;
  saMkdirLogs : option string;
  saPlan : result string (list serverLaunch);
  saBasedir : result string string;
  saStart : serverLaunch -> startEnv;
  saStop : Z -> stopEnv;
}.

(** Its loop over the launches. *)
Fixpoint startLaunches (env : startAllEnv) (launches : list serverLaunch) (m : ServerManager)
    : option opError * ServerManager :=
  match launches with
  | [] => (None, m)
  | launch :: launches =>
      let '(i, m) := registerServerLaunch alive launch m in
      match startRecord logsDir alive i (saStart env launch) m with
      | (None, m) => startLaunches env launches m
      | (Some e, m) => (Some e, snd (StopAll (saStop env) (2 * second) m))
      end
  end.

(** launcher.go [StartAll].  It starts from fresh tables: the objects of an earlier run are not
reachable from them. *)
Definition StartAll (env : startAllEnv) (m : ServerManager) : option opError * ServerManager :=
  if (saGameDir env =? "")%string then (Some (errText "GAME_DIR is empty"), m) else
  if negb (saGameDirIsDir env)
  then (Some (errText ("GAME_DIR is not a directory: " ++ saGameDir env)), m) else
  if (logsDir =? "")%string then (Some (errText "LOGS_DIR is empty"), m) else
  match saMkdirLogs env with
  | Some e => (Some (errText ("failed to create LOGS_DIR: " ++ e)), m)
  | None =>
      match saPlan env with
      | Err e => (Some (errText e), m)
      | Ok launches =>
          match saBasedir env with
          | Err e => (Some (errText e), m)
          | Ok basedir =>
              startLaunches env launches
              (mkManager ∅ ∅ ∅ ∅ 0 ∅ ∅ (serverMaxInstances m) 0 basedir)
          end
      end
  end.
End Operations.

(** * Interleavings

    One step of any goroutine: a critical section of some operation, run with whatever processes
    are alive at that moment.  Shutting down ([StopAll]) ends the run and is not a step. *)

Section Steps.
Variable logsDir : string.
Context `{GoUnicode}.

Inductive mstep (m : ServerManager) : ServerManager -> Prop :=
  | step_register alive launch : mstep m (snd (registerServerLaunch alive launch m))
  | step_append alive k p launch :
  serversByID m !! k = Some p -> mstep m (snd (appendServerInstanceLocked alive p launch Warming m))
  | step_start_begin alive i launch m' :
  startRecordBegin alive i m = Ok (launch, m') -> mstep m m'
  | step_start_fail i err : mstep m (startRecordFail i err m)
  | step_start_done i srv : mstep m (startRecordDone i srv m)
  | step_reset_state alive i : mstep m (resetServerInstanceState alive i m)
  | step_port i port : mstep m (updatePort i port m)
  | step_path i path : mstep m (updateSearchPathNormalized i (normalizeSearchPath path) m)
  | step_timeout i srv : mstep m (snd (monitorServerStartupTimeout i srv m))
  | step_clear alive i srv : mstep m (clearRunning alive i srv m)
  | step_no_exit i srv : mstep m (snd (didNotExit i srv m))
  | step_observe port hostname mapName players maxPlayers now :
  0 <= players <= 255 -> 0 <= maxPlayers <= 255 ->
  mstep m (obManager (updateGameStateLocked port hostname mapName players maxPlayers now m))
  | step_decide alive now ids : mstep m (rManager (reconcileDecisions alive now ids m))
  | step_replica alive serverID stamp :
  mstep m (snd (registerServerReplicaInstance alive serverID stamp m))
  | step_replica_end alive serverID i failed now :
  mstep m (launchServerReplicaEnd alive serverID i failed now m)
  | step_despawn_begin alive i : mstep m (snd (despawnBegin alive i m))
  | step_despawn_end alive i failed : mstep m (despawnEnd alive i failed m)
  | step_remove_record alive i : mstep m (removeServerRecordLocked alive i m)
  | step_remove_server alive target : mstep m (snd (RemoveServer alive target m))
  | step_route alive p : mstep m (updServer p (fun s => snd (pickServerInstance alive m s true)) m)
  | step_demand p now : mstep m (updServer p (noteServerDemand now) m)
  | step_max size : mstep m (SetServerMaxInstances size m).

(** The tables launcher.go [StartAll] starts a run with. *)
Definition freshManager (maxInstances : Z) (basedir : string) : ServerManager :=
  mkManager ∅ ∅ ∅ ∅ 0 ∅ ∅ maxInstances 0 basedir.

Definition reachable (m : ServerManager) : Prop :=
  exists maxInstances basedir, rtc mstep (freshManager maxInstances basedir) m.
End Steps.

(** ** Every critical section keeps the registry consistent *)

Lemma freshManager_ok max basedir : reg_ok (freshManager max basedir).
Proof. constructor; cbn; intros *; rewrite ?lookup_empty; done. Qed.

(** An instance taken out of the index under both its ports is in it under none. *)
Lemma unindex_ok i rec m :
  reg_ok m -> instances m !! i = Some rec ->
  let m1 := removeServerIDFromPortLocked (resolvedPort rec) i m in
  let m2 := match spec rec with
            | Some sp => removeServerIDFromPortLocked (ListenPort sp) i m1
            | None => m1
            end in
  reg_ok_but (Some i) m2 /\ instances m2 = instances m /\ instancesByID m2 = instancesByID m /\
  (i ∈ instancesByID m -> forall q, 0 < q -> i ∉ idsAtPort m2 q).
Proof.
  intros Hok Hr m1 m2.
  assert (forall port m', instances (removeServerIDFromPortLocked port i m') = instances m' /\
            instancesByID (removeServerIDFromPortLocked port i m') = instancesByID m') as Hsame.
  { intros port m'. unfold removeServerIDFromPortLocked. by repeat split_match. }
  split_and!.
  - unfold m2. destruct (spec rec); unfold m1; auto using removeServerIDFromPortLocked_ok, reg_ok_weaken.
  - unfold m2, m1. destruct (spec rec); by rewrite ?(proj1 (Hsame _ _)).
  - unfold m2, m1. destruct (spec rec); by rewrite ?(proj2 (Hsame _ _)).
  - intros Hin q Hq.
    assert (i ∉ idsAtPort m1 q) as H1.
    { unfold m1. rewrite idsAtPort_remove.
      assert (i ∈ idsAtPort m q <-> resolvedPort rec = q) as Hidx by (by apply (ro_index _ _ Hok i)).
      case_decide as Hd; [|rewrite Hidx; congruence]. subst q.
      rewrite (proj2 (Z.leb_gt _ _)) by lia. rewrite elem_of_filter_neq. tauto. }
    unfold m2. destruct (spec rec); [|done]. rewrite idsAtPort_remove.
    case_decide; [|done]. destruct (_ <=? 0); [done|]. rewrite elem_of_filter_neq. tauto.
Qed.

Lemma startRecordBegin_ok alive i m launch m' :
  reg_ok m -> startRecordBegin alive i m = Ok (launch, m') -> reg_ok m'.
Proof.
  intros Hok. unfold startRecordBegin. destruct (instances m !! i) as [rec|] eqn:Hr; [|done].
  destruct (_ =? _)%string; [done|]. destruct (instanceRunning alive rec); [done|].
  intros [= _ <-]. destruct (unindex_ok i rec m Hok Hr) as (Hbut & HI & HB & Hout).
  set (m2 := match spec rec with Some _ => _ | None => _ end) in *.
  apply (reg_ok_restore i).
  - apply updInstance_but_ok; [done|]. intros r _ [Hp Hk Hs Hpl]. split; [done|].
    constructor; cbn; [lia|done|done|done].
  - intros r Hin. cbn in Hin. rewrite updInstance_lookup, decide_True by done.
    destruct (instances m2 !! i); [|done]. cbn. intros [= <-] q Hq. cbn.
    change (idsAtPort (updInstance i _ m2) q) with (idsAtPort m2 q).
    split; [|lia]. intros Hx. exfalso. rewrite HB in Hin. by apply (Hout Hin q Hq).
Qed.

(** Updates of the runtime fields alone. *)
Ltac runtime :=
  apply updInstance_runtime_ok; [assumption|]; intros ?rec; cbn; split_and!; (done || lia || tauto).

Lemma startRecordFail_ok i err m : reg_ok m -> reg_ok (startRecordFail i err m).
Proof. intros Hok. unfold startRecordFail, resetRecordStartupState. runtime. Qed.
Lemma startRecordDone_ok i srv m : reg_ok m -> reg_ok (startRecordDone i srv m).
Proof. intros Hok. unfold startRecordDone. runtime. Qed.

Lemma monitorServerStartupTimeout_ok i srv m :
  reg_ok m -> reg_ok (snd (monitorServerStartupTimeout i srv m)).
Proof.
  intros Hok. unfold monitorServerStartupTimeout. destruct (instances m !! i); [|done].
  destruct (_ || _); [done|]. cbn -[updInstance]. runtime.
Qed.

Lemma clearRunning_ok alive i srv m : reg_ok m -> reg_ok (clearRunning alive i srv m).
Proof.
  intros Hok. unfold clearRunning. destruct (instances m !! i) as [rec|]; [|done].
  case_bool_decide; [|done]. unfold resetRecordStartupState. cbv zeta.
  match goal with |- context [match ?o with Some _ => _ | None => _ end] => destruct o end;
    [apply refreshServerSnapshotLocked_ok|]; runtime.
Qed.

Lemma didNotExit_ok `{GoUnicode} i srv m : reg_ok m -> reg_ok (snd (didNotExit i srv m)).
Proof.
  intros Hok. unfold didNotExit. cbn [snd]. destruct (instances m !! i); [|done].
  case_bool_decide; [|done]. runtime.
Qed.

Lemma observeOne_ok hostname mapName players maxPlayers now o i :
  0 <= players <= 255 -> 0 <= maxPlayers <= 255 -> reg_ok (obManager o) ->
  reg_ok (obManager (observeOne hostname mapName players maxPlayers now o i)).
Proof.
  intros Hp Hm Hok. unfold observeOne. destruct (instanceByID (obManager o) i) as [rec|]; [|done].
  assert (reg_ok (updInstance i (fun rec =>
    rec <| Hostname := hostname |> <| MapName := mapName |> <| Players := players |>
        <| MaxPlayers := maxPlayers |> <| LastSeen := Some now |>) (obManager o))) as H1 by runtime.
  destruct (Running rec); [|done]. destruct (awaitingServerInfo rec); [|done].
  cbn [obManager]. runtime.
Qed.

Lemma updateGameStateLocked_ok port hostname mapName players maxPlayers now m :
  0 <= players <= 255 -> 0 <= maxPlayers <= 255 -> reg_ok m ->
  reg_ok (obManager (updateGameStateLocked port hostname mapName players maxPlayers now m)).
Proof.
  intros Hp Hm Hok. unfold updateGameStateLocked. destruct (_ || _); [done|].
  assert (reg_ok (obManager (mkObserve m [] []))) as Ho by done. revert Ho.
  generalize (mkObserve m [] []). induction (idsAtPort m port) as [|i l IH]; [done|].
  intros o Ho. cbn [foldl]. by apply IH, observeOne_ok.
Qed.

Lemma updServer_core_ok p f m :
  reg_ok m -> (forall s, same_core s (f s) \/ (InstanceIDs (f s) = InstanceIDs s /\
     instanceStates (f s) = instanceStates s /\ RoundRobinCursor (f s) = RoundRobinCursor s /\
     ServerID (f s) = ServerID s /\ sLine (f s) = sLine s)) ->
  reg_ok (updServer p f m).
Proof.
  intros Hok Hf. apply updServer_ok; [done|]. intros s _ Hs.
  destruct (Hf s) as [(? & ? & _ & _ & ? & ? & _ & _ & ? & _)|(? & ? & ? & ? & ?)];
    (split; [done|]; by apply (server_ok_core _ _ s)).
Qed.

Lemma registerServerReplicaInstance_ok `{GoUnicode} alive serverID stamp m :
  reg_ok m -> reg_ok (snd (registerServerReplicaInstance alive serverID stamp m)).
Proof.
  intros Hok. unfold registerServerReplicaInstance.
  destruct (serversByID m !! serverID) as [p|]; [|done].
  destruct (servers m !! p) as [s|] eqn:Hs; [|done].
  destruct (negb (ScaleUpInFlight s)); [done|]. destruct (negb (Autoscales s)).
  - apply updServer_core_ok; [done|]. by right.
  - match goal with |- context [appendServerInstanceLocked alive p ?l Warming m] =>
      pose proof (appendServerInstanceLocked_ok alive p l Warming m Hok) as Ha end.
    destruct (appendServerInstanceLocked _ _ _ _ _) as [i m']. apply Ha. eauto.
Qed.

Lemma launchServerReplicaEnd_ok alive serverID i failed now m :
  reg_ok m -> reg_ok (launchServerReplicaEnd alive serverID i failed now m).
Proof.
  intros Hok. unfold launchServerReplicaEnd.
  destruct (serversByID m !! serverID) as [p|]; [|done].
  assert (reg_ok (updServer p (fun s => s <| ScaleUpInFlight := false |>) m)) as H1
    by (apply updServer_core_ok; [done|by right]).
  destruct failed; [by apply removeServerRecordLocked_ok|].
  apply refreshServerSnapshotLocked_ok, updServer_core_ok; [done|by right].
Qed.

Lemma despawnBegin_ok alive i m : reg_ok m -> reg_ok (snd (despawnBegin alive i m)).
Proof.
  intros Hok. unfold despawnBegin. destruct (serverByInstanceID m !! i) as [p|]; [|done].
  destruct (runningByID alive m i); [|by apply setServerInstanceLifecycleLocked_ok].
  destruct (_ <=? 1); [by apply setServerInstanceLifecycleLocked_ok|done].
Qed.

Lemma despawnEnd_ok alive i failed m : reg_ok m -> reg_ok (despawnEnd alive i failed m).
Proof.
  intros Hok. unfold despawnEnd. destruct (serverByInstanceID m !! i) as [p|]; [|done].
  destruct failed; [by apply setServerInstanceLifecycleLocked_ok|by apply removeServerRecordLocked_ok].
Qed.

Lemma removeRecords_ok `{GoUnicode} alive ids : forall m, reg_ok m -> reg_ok (snd (removeRecords alive ids m)).
Proof.
  induction ids as [|i ids IH]; intros m Hok; [done|]. cbn [removeRecords].
  destruct (instanceByID m i) as [rec|]; [|by apply IH].
  destruct (instanceRunning alive rec); [done|]. apply IH, removeServerRecordLocked_ok.
  destruct (Running rec); [|done]. unfold resetRecordStartupState. runtime.
Qed.

Lemma unregisterServer_ok k m : reg_ok m -> reg_ok (m <| serversByID ::= delete k |>).
Proof.
  intros [Hi Hl Ho Hw Hs Hb Hp Hx]. constructor; try done.
  cbn. intros j p [_ ?]%lookup_delete_Some. by apply Hb.
Qed.

Lemma RemoveServer_ok `{GoUnicode} alive target m : reg_ok m -> reg_ok (snd (RemoveServer alive target m)).
Proof.
  intros Hok. unfold RemoveServer. destruct (target <=? 0); [done|].
  destruct (findServerByIndexLocked target m) as [s|]; [|done].
  pose proof (removeRecords_ok alive (InstanceIDs s) m Hok) as Hr.
  destruct (removeRecords alive (InstanceIDs s) m) as [[e|] m']; [done|].
  by apply unregisterServer_ok.
Qed.

Lemma pickServerInstance_core alive m s :
  0 <= RoundRobinCursor s ->
  let s' := snd (pickServerInstance alive m s true) in
  ServerID s' = ServerID s /\ sLine s' = sLine s /\ InstanceIDs s' = InstanceIDs s /\
  instanceStates s' = instanceStates s /\ 0 <= RoundRobinCursor s'.
Proof.
  intros Hc. cbn zeta. rewrite pickServerInstance_index by done. cbn [snd].
  case_bool_decide; [done|]. cbn. split_and!; (done || lia).
Qed.

Lemma pickServer_ok alive p m :
  reg_ok m -> reg_ok (updServer p (fun s => snd (pickServerInstance alive m s true)) m).
Proof.
  intros Hok. apply updServer_ok; [done|]. intros s _ [Hn Ho Hst Hs Hc Hl].
  destruct (pickServerInstance_core alive m s Hc) as (HD & HL & HI & HS & HC).
  split; [done|]. constructor; rewrite ?HI, ?HS, ?HD, ?HL; auto.
Qed.

Lemma mstep_ok `{GoUnicode} m m' : mstep m m' -> reg_ok m -> reg_ok m'.
Proof.
  intros Hstep Hok. destruct Hstep.
  - by apply registerServerLaunch_ok.
  - apply appendServerInstanceLocked_ok; [done|].
    destruct (ro_byid _ _ Hok _ _ H0) as (s & Hs & _). eauto.
  - by eapply startRecordBegin_ok.
  - by apply startRecordFail_ok.
  - by apply startRecordDone_ok.
  - by apply resetServerInstanceState_ok.
  - by apply updatePort_ok.
  - by apply updateSearchPathNormalized_ok.
  - by apply monitorServerStartupTimeout_ok.
  - by apply clearRunning_ok.
  - by apply didNotExit_ok.
  - by apply updateGameStateLocked_ok.
  - by apply reconcileDecisions_ok.
  - by apply registerServerReplicaInstance_ok.
  - by apply launchServerReplicaEnd_ok.
  - by apply despawnBegin_ok.
  - by apply despawnEnd_ok.
  - by apply removeServerRecordLocked_ok.
  - by apply RemoveServer_ok.
  - by apply pickServer_ok.
  - apply updServer_core_ok; [done|]. by right.
  - destruct Hok. by constructor.
Qed.

Lemma steps_ok `{GoUnicode} m m' : rtc mstep m m' -> reg_ok m -> reg_ok m'.
Proof. induction 1 as [|m1 m2 m3 H12 _ IH]; [done|]. intros Hok. by apply IH, (mstep_ok m1). Qed.

(** ** The operations are made of those steps *)

Section Refinement.
Variable logsDir : string.
Context `{GoUnicode}.

Lemma startRecord_steps alive i env m : rtc mstep m (snd (startRecord logsDir alive i env m)).
Proof.
  unfold startRecord. destruct (startRecordBegin alive i m) as [[launch m1]|e] eqn:Hb; [|done].
  eapply rtc_l; [by eapply step_start_begin|].
  destruct (startServer logsDir launch env) as [srv|e].
  - eapply rtc_l; [apply (step_start_done _ i srv)|]. apply rtc_once, step_reset_state.
  - apply rtc_once, step_start_fail.
Qed.

Lemma stopAfterSignal_steps alive i srv wait env m :
  rtc mstep m (snd (stopAfterSignal alive i srv wait env m)).
Proof.
  unfold stopAfterSignal. destruct (seSecond env); cbn [snd]; [done|apply rtc_once, step_clear|].
  destruct (seThird env); cbn [snd]; [done|apply rtc_once, step_clear|].
  pose proof (step_no_exit m i srv) as Hs. destruct (didNotExit i srv m) as [e m']. by apply rtc_once.
Qed.

Lemma stopServer_steps alive i srv killAfter sendSignal env m :
  rtc mstep m (snd (stopServer alive i srv killAfter sendSignal env m)).
Proof.
  unfold stopServer. destruct srv as [srv|]; [|done].
  destruct (sendSignal && srvAlive alive srv); [|apply stopAfterSignal_steps].
  destruct (seFirst env); cbn [snd]; [done|apply rtc_once, step_clear|].
  pose proof (stopAfterSignal_steps alive i srv (Z.max 0 (killAfter - quitGrace killAfter)) env m) as Hs.
  by destruct (stopAfterSignal _ _ _ _ _ _) as [[effects err] m'].
Qed.

Lemma launchServerReplica_steps alive serverID stamp env now m :
  rtc mstep m (launchServerReplica logsDir alive serverID stamp env now m).
Proof.
  unfold launchServerReplica. pose proof (step_replica m alive serverID stamp) as Hr.
  destruct (registerServerReplicaInstance alive serverID stamp m) as [[[i|]|e] m1];
  [|by apply rtc_once..].
  eapply rtc_l; [exact Hr|]. pose proof (startRecord_steps alive i env m1) as Hs.
  destruct (startRecord logsDir alive i env m1) as [err m2]. cbn in *.
  etrans; [exact Hs|]. apply rtc_once, step_replica_end.
Qed.

Lemma despawnServerInstance_steps alive i env m :
  rtc mstep m (snd (despawnServerInstance alive i env m)).
Proof.
  unfold despawnServerInstance. pose proof (step_despawn_begin m alive i) as Hb.
  destruct (despawnBegin alive i m) as [[srv|] m1]; [|by apply rtc_once].
  eapply rtc_l; [exact Hb|]. pose proof (stopServer_steps alive i (Some srv) (2 * second) true env m1) as Hs.
  destruct (stopServer _ _ _ _ _ _ _) as [[effects err] m2]. cbn [snd] in *.
  etrans; [exact Hs|]. apply rtc_once, step_despawn_end.
Qed.

Lemma forEachUniqueInt_steps (fn : Z -> ServerManager -> ServerManager) values m :
  (forall v m, rtc mstep m (fn v m)) -> rtc mstep m (forEachUniqueInt fn values m).
Proof.
  intros Hf. unfold forEachUniqueInt. revert m.
  induction (uniqueInts ∅ values) as [|v l IH]; intros m; [done|]. cbn [foldl].
  etrans; [apply Hf|apply IH].
Qed.

Lemma reconcileServers_steps alive env ids m :
  rtc mstep m (reconcileServers logsDir alive env ids m).
Proof.
  unfold reconcileServers. destruct ids as [|k ids]; [done|].
  eapply rtc_l; [apply (step_decide m alive (reNow env) (k :: ids))|].
  etrans; [apply forEachUniqueInt_steps; intros; apply launchServerReplica_steps|].
  apply forEachUniqueInt_steps. intros. apply despawnServerInstance_steps.
Qed.

Lemma updateGameState_steps alive env port hostname mapName players maxPlayers m :
  0 <= players <= 255 -> 0 <= maxPlayers <= 255 ->
  rtc mstep m (snd (updateGameState logsDir alive env port hostname mapName players maxPlayers m)).
Proof.
  intros Hp Hm. eapply rtc_l; [by apply (step_observe m port hostname mapName players maxPlayers (reNow env))|].
  apply reconcileServers_steps.
Qed.

Lemma LaunchServer_steps alive binary args stamp env m :
  rtc mstep m (snd (LaunchServer logsDir alive binary args stamp env m)).
Proof.
  unfold LaunchServer. cbv zeta. destruct (_ =? _)%string; [done|].
  destruct (findUnsupportedLaunchArg args); [done|]. destruct (_ =? _)%string; [done|].
  set (launch := launchFor _ _ _ _). pose proof (step_register m alive launch) as Hr.
  destruct (registerServerLaunch alive launch m) as [i m1].
  eapply rtc_l; [exact Hr|]. apply startRecord_steps.
Qed.

Lemma startRecords_steps alive env ids : forall started m,
  rtc mstep m (snd (startRecords logsDir alive env started ids m)).
Proof.
  induction ids as [|i ids IH]; intros started m; [done|]. cbn [startRecords].
  pose proof (startRecord_steps alive i (env i) m) as Hs.
  destruct (startRecord logsDir alive i (env i) m) as [[e|] m1]; cbn [snd] in Hs.
  - destruct e; try exact Hs. etrans; [exact Hs|apply IH].
  - etrans; [exact Hs|apply IH].
Qed.

Lemma StartServer_steps alive env target m :
  rtc mstep m (snd (StartServer logsDir alive env target m)).
Proof.
  unfold StartServer. destruct (target <=? 0); [done|].
  destruct (findServerByIndexLocked target m) as [s|]; [|done].
  destruct (serverInstancesLocked m s); [|apply startRecords_steps].
  destruct (serversByID m !! ServerID s) as [p|] eqn:Hp; [|done].
  pose proof (step_append m alive (ServerID s) p (TemplateLaunch s) Hp) as Ha.
  destruct (appendServerInstanceLocked _ _ _ _ _) as [i m1].
  eapply rtc_l; [exact Ha|apply startRecords_steps].
Qed.

Lemma stopRecords_steps alive env killAfter records : forall stopped m,
  rtc mstep m (snd (stopRecords alive env killAfter stopped records m)).
Proof.
  induction records as [|[i srv] records IH]; intros stopped m; [done|]. cbn [stopRecords].
  match goal with |- context [if ?b then _ else _] => destruct b end.
  - eapply rtc_l; [apply (step_remove_record m alive i)|apply IH].
  - pose proof (stopServer_steps alive i srv killAfter true (env i) m) as Hs.
  destruct (stopServer _ _ _ _ _ _ _) as [[effects [e|]] m1]; cbn [snd] in Hs; [exact Hs|].
  etrans; [exact Hs|].
  eapply rtc_l; [apply (step_remove_record m1 alive i)|apply IH].
Qed.

Lemma StopServer_steps alive env killAfter target m :
  rtc mstep m (snd (StopServer alive env killAfter target m)).
Proof.
  unfold StopServer. destruct (target <=? 0); [done|].
  destruct (findServerByIndexLocked target m); [|done]. apply stopRecords_steps.
Qed.

Lemma RestartServer_steps alive stops starts killAfter target m :
  rtc mstep m (snd (RestartServer logsDir alive stops starts killAfter target m)).
Proof.
  unfold RestartServer. destruct (target <=? 0); [done|].
  pose proof (StopServer_steps alive stops killAfter target m) as Hs.
  destruct (StopServer alive stops killAfter target m) as [[e|] m1]; cbn [snd] in Hs.
  - destruct e; try exact Hs. etrans; [exact Hs|apply StartServer_steps].
  - etrans; [exact Hs|apply StartServer_steps].
Qed.

Lemma runServersAll_steps alive runOne ignoreErr m :
  (forall target m, rtc mstep m (snd (runOne target m))) ->
  rtc mstep m (snd (runServersAll alive runOne ignoreErr m)).
Proof.
  intros Hone. unfold runServersAll.
  assert (forall n target errs m, rtc mstep m (snd (runTargets runOne ignoreErr target n errs m)))
  as Hall.
  { induction n as [|n IH]; intros target errs m0; [done|]. cbn [runTargets].
  pose proof (Hone target m0) as H1. destruct (runOne target m0) as [err m1].
  etrans; [exact H1|apply IH]. }
  pose proof (Hall (length (Snapshots alive m)) 1 [] m) as H1.
  by destruct (runTargets _ _ _ _ _ _) as [errs m1].
Qed.

(** An operation of the manager, by an operator, the poller or the autoscaler. *)
Inductive operation :=
  | opLaunch (binary : string) (args : list string) (stamp : string) (env : startEnv)
  | opStart (env : Z -> startEnv) (target : Z)
  | opStop (env : Z -> stopEnv) (killAfter target : Z)
  | opRestart (stops : Z -> stopEnv) (starts : Z -> startEnv) (killAfter target : Z)
  | opRemove (target : Z)
  | opStartAll (env : Z -> startEnv)
  | opStopAll (env : Z -> stopEnv) (killAfter : Z)
  | opRestartAll (stops : Z -> stopEnv) (starts : Z -> startEnv) (killAfter : Z)
  | opReconcile (env : reconcileEnv)
  | opObserve (env : reconcileEnv) (port : Z) (hostname mapName : string) (players maxPlayers : byte)
  | opPort (i port : Z)
  | opPath (i : Z) (path : list string).

Definition runOperation (alive : Z -> bool) (op : operation) (m : ServerManager) : ServerManager :=
  match op with
  | opLaunch binary args stamp env => snd (LaunchServer logsDir alive binary args stamp env m)
  | opStart env target => snd (StartServer logsDir alive env target m)
  | opStop env killAfter target => snd (StopServer alive env killAfter target m)
  | opRestart stops starts killAfter target =>
      snd (RestartServer logsDir alive stops starts killAfter target m)
  | opRemove target => snd (RemoveServer alive target m)
  | opStartAll env => snd (StartServersAll logsDir alive env m)
  | opStopAll env killAfter => snd (StopServersAll alive env killAfter m)
  | opRestartAll stops starts killAfter => snd (RestartServersAll logsDir alive stops starts killAfter m)
  | opReconcile env => reconcileAllServers logsDir alive env m
  | opObserve env port hostname mapName players maxPlayers =>
      snd (updateGameState logsDir alive env port hostname mapName (byteZ players) (byteZ maxPlayers) m)
  | opPort i port => updatePort i port m
  | opPath i path => updateSearchPathNormalized i (normalizeSearchPath path) m
  end.

(** Every operation refines the step relation: run alone, it is a sequence of the critical
sections that [mstep] interleaves. *)
Theorem runOperation_steps alive op m : rtc mstep m (runOperation alive op m).
Proof.
  destruct op; cbn [runOperation].
  - apply LaunchServer_steps.
  - apply StartServer_steps.
  - apply StopServer_steps.
  - apply RestartServer_steps.
  - apply rtc_once, step_remove_server.
  - apply runServersAll_steps. intros. apply StartServer_steps.
  - apply runServersAll_steps. intros. apply StopServer_steps.
  - apply runServersAll_steps. intros. apply RestartServer_steps.
  - apply reconcileServers_steps.
  - apply updateGameState_steps; match goal with |- 0 <= byteZ ?b <= 255 => pose proof (byteZ_range b); lia end.
  - apply rtc_once, step_port.
  - apply rtc_once, step_path.
Qed.

(** C1.  The registry stays consistent: whatever operations run and however their critical
sections interleave, in every state reachable from a fresh manager each server lists its
instances once and exactly those that it owns, with a lifecycle state for each; the port
index lists each registered instance under its resolved port and under no other; instance ids
are never reused; ports are 16-bit and player counts bytes. *)
Theorem reachable_consistent m : reachable m -> reg_ok m.
Proof.
  intros (max & basedir & Hsteps). eapply steps_ok; [exact Hsteps|apply freshManager_ok].
Qed.
End Refinement.

(** ** What the operations leave alone *)

(** [m'] has the servers of [m], under the same ids, with the same launch flags. *)
Record keepsServers (m m' : ServerManager) : Prop := {
  ks_byid : serversByID m' = serversByID m;
  ks_basedir : runtimeBasedir m' = runtimeBasedir m;
  ks_server : forall p s, servers m !! p = Some s ->
    exists s', servers m' !! p = Some s' /\ ScaleUpInFlight s' = ScaleUpInFlight s /\
      LastScaleUpAt s' = LastScaleUpAt s /\ Autoscales s' = Autoscales s;
}.

#[export] Instance keepsServers_preorder : PreOrder keepsServers.
Proof.
  split; [constructor; eauto|]. intros m1 m2 m3 [H1 H2 H3] [K1 K2 K3].
  constructor; [congruence..|]. intros p s Hs. destruct (H3 _ _ Hs) as (s2 & Hs2 & A & B & C).
  destruct (K3 _ _ Hs2) as (s3 & Hs3 & D & E & F). exists s3. split_and!; congruence.
Qed.

Lemma keeps_same m m' :
  serversByID m' = serversByID m -> runtimeBasedir m' = runtimeBasedir m ->
  servers m' = servers m -> keepsServers m m'.
Proof. intros H1 H2 H3. constructor; [done..|]. rewrite H3. eauto. Qed.

Lemma keeps_updServer p f m :
  (forall s, ScaleUpInFlight (f s) = ScaleUpInFlight s /\ LastScaleUpAt (f s) = LastScaleUpAt s /\
     Autoscales (f s) = Autoscales s) -> keepsServers m (updServer p f m).
Proof.
  intros Hf. constructor; [done..|]. intros q s Hs. rewrite updServer_lookup, Hs.
  case_decide; cbn; eexists; (split; [done|]); [apply Hf|done].
Qed.

Lemma keeps_refresh alive p m : keepsServers m (refreshServerSnapshotLocked alive p m).
Proof. apply keeps_updServer. intros s. by autorewrite with nexus. Qed.

Lemma keeps_unindex port i m : keepsServers m (removeServerIDFromPortLocked port i m).
Proof. unfold removeServerIDFromPortLocked. repeat split_match; by apply keeps_same. Qed.

Lemma keeps_startRecord `{GoUnicode} logsDir alive i env m :
  keepsServers m (snd (startRecord logsDir alive i env m)).
Proof.
  unfold startRecord. destruct (startRecordBegin alive i m) as [[launch m1]|e] eqn:Hb; [|done].
  assert (keepsServers m m1) as H1.
  { revert Hb. unfold startRecordBegin. destruct (instances m !! i) as [rec|]; [|done].
    destruct (_ =? _)%string; [done|]. destruct (instanceRunning alive rec); [done|].
    intros [= _ <-].
    match goal with |- keepsServers m (updInstance i ?f ?m2) =>
      transitivity m2; [|by apply keeps_same] end.
    destruct (spec rec); [etrans; [apply keeps_unindex|]|]; apply keeps_unindex. }
  etrans; [exact H1|]. destruct (startServer logsDir launch env) as [srv|e]; cbn [snd].
  - transitivity (startRecordDone i srv m1); [by apply keeps_same|]. unfold resetServerInstanceState.
    destruct (serverByInstanceID (startRecordDone i srv m1) !! i); [|done].
    etrans; [|apply keeps_refresh]. by apply keeps_updServer.
  - by apply keeps_same.
Qed.

Lemma keeps_removeServerRecordLocked alive i m :
  keepsServers m (removeServerRecordLocked alive i m).
Proof.
  unfold removeServerRecordLocked. destruct (instanceByID m i) as [rec|]; [|done].
  set (m2 := match spec rec with Some _ => _ | None => _ end).
  assert (keepsServers m m2) as H2.
  { unfold m2. destruct (spec rec); [etrans; [apply keeps_unindex|]|]; apply keeps_unindex. }
  etrans; [exact H2|]. destruct (serverByInstanceID m2 !! i) as [p|]; [|by apply keeps_same].
  set (m3 := m2 <| serverByInstanceID ::= delete i |>).
  transitivity m3; [by apply keeps_same|].
  transitivity (updServer p (forgetInstance i) m3); [by apply keeps_updServer|].
  etrans; [apply (keeps_refresh alive p)|]. by apply keeps_same.
Qed.

Lemma instancesByID_remove alive i m :
  instancesByID (removeServerRecordLocked alive i m) = instancesByID m ∖ {[i]} \/
  instancesByID (removeServerRecordLocked alive i m) = instancesByID m /\ instanceByID m i = None.
Proof.
  unfold removeServerRecordLocked. destruct (instanceByID m i) as [rec|]; [left|by right].
  assert (forall port m', instancesByID (removeServerIDFromPortLocked port i m') = instancesByID m')
    as Hsame by (intros; unfold removeServerIDFromPortLocked; by repeat split_match).
  destruct (spec rec) as [sp|];
    repeat match goal with |- context [match ?o with Some _ => _ | None => _ end] => destruct o end;
    cbn; by rewrite ?Hsame.
Qed.

Lemma not_in_after_remove alive i m :
  reg_ok m -> i ∉ instancesByID (removeServerRecordLocked alive i m).
Proof.
  intros Hok. destruct (instancesByID_remove alive i m) as [->|[-> Hn]]; [set_solver|].
  intros Hi. destruct (ro_live _ _ Hok _ Hi) as [rec Hr]. revert Hn. unfold instanceByID.
  by rewrite bool_decide_true, Hr.
Qed.

Lemma instancesByID_remove_sub alive i m j :
  j ∈ instancesByID (removeServerRecordLocked alive i m) -> j ∈ instancesByID m.
Proof. destruct (instancesByID_remove alive i m) as [->|[-> _]]; set_solver. Qed.

Lemma instancesByID_startRecord `{GoUnicode} logsDir alive i env m :
  instancesByID (snd (startRecord logsDir alive i env m)) = instancesByID m.
Proof.
  unfold startRecord, startRecordBegin. destruct (instances m !! i) as [rec|]; [|done].
  destruct (_ =? _)%string; [done|]. destruct (instanceRunning alive rec); [done|].
  assert (forall port m', instancesByID (removeServerIDFromPortLocked port i m') = instancesByID m')
    as Hsame by (intros; unfold removeServerIDFromPortLocked; by repeat split_match).
  destruct (startServer _ _ _); cbn [snd]; unfold resetServerInstanceState; destruct (spec rec);
    repeat match goal with |- context [match ?o with Some _ => _ | None => _ end] => destruct o end;
    cbn; by rewrite ?Hsame.
Qed.

Lemma instancesByID_clearRunning alive i srv m :
  instancesByID (clearRunning alive i srv m) = instancesByID m.
Proof.
  unfold clearRunning. destruct (instances m !! i); [|done]. case_bool_decide; [|done]. cbv zeta.
  by match goal with |- context [match ?o with Some _ => _ | None => _ end] => destruct o end.
Qed.

Lemma instancesByID_stopServer `{GoUnicode} alive i srv killAfter sendSignal env m :
  instancesByID (snd (stopServer alive i srv killAfter sendSignal env m)) = instancesByID m.
Proof.
  assert (forall srv wait, instancesByID (snd (stopAfterSignal alive i srv wait env m)) = instancesByID m)
    as Hafter.
  { intros srv0 wait. unfold stopAfterSignal. destruct (seSecond env); [done|apply instancesByID_clearRunning|].
    destruct (seThird env); [done|apply instancesByID_clearRunning|]. unfold didNotExit. cbn.
    destruct (instances m !! i); [|done]. by case_bool_decide. }
  unfold stopServer. destruct srv as [srv|]; [|done].
  destruct (sendSignal && srvAlive alive srv); [|apply Hafter].
  destruct (seFirst env); [done|apply instancesByID_clearRunning|].
  pose proof (Hafter srv (Z.max 0 (killAfter - quitGrace killAfter))) as Ha.
  by destruct (stopAfterSignal _ _ _ _ _ _) as [[effects err] m'].
Qed.

(** ** What the operations do *)

Section Behaviour.
Variable logsDir : string.
Context `{GoUnicode}.
Variable alive : Z -> bool.

(** The record of [startRecord] after a successful start. *)
Definition justStarted (srv : managedServer) (rec : instance) : Prop :=
  Running rec = Some srv /\ awaitingServerInfo rec = true /\ relayConsoleReady rec = false /\
  startupTimedOutOnce rec = false /\ lastError rec = ""%string /\ Hostname rec = ""%string /\
  MapName rec = ""%string /\ Players rec = 0 /\ MaxPlayers rec = 0 /\ LastSeen rec = None /\
  resolvedPortKnown rec = false /\ resolvedPort rec = 0 /\ spec rec = None /\
  resolvedSearchPath rec = [].

Lemma startRecordBegin_lookup i m launch m' :
  startRecordBegin alive i m = Ok (launch, m') ->
  exists rec, instances m !! i = Some rec /\ launch = Launch rec /\
  runtimeBasedir m <> ""%string /\ instanceRunning alive rec = false /\
  instances m' !! i = Some (rec <| resolvedPortKnown := false |> <| resolvedPort := 0 |>
        <| resolvedSearchPath := [] |> <| spec := None |>).
Proof.
  unfold startRecordBegin. destruct (instances m !! i) as [rec|] eqn:Hr; [|done].
  destruct (String.eqb_spec (runtimeBasedir m) ""); [done|].
  destruct (instanceRunning alive rec) eqn:Hrun; [done|]. intros [= <- <-].
  exists rec. split_and!; try done. rewrite updInstance_lookup, decide_True by done.
  assert (forall port m', instances (removeServerIDFromPortLocked port i m') = instances m') as Hsame
  by (intros; unfold removeServerIDFromPortLocked; by repeat split_match).
  destruct (spec rec); by rewrite !Hsame, Hr.
Qed.

(** Starting an instance: it is refused, with nothing changed, when the instance is
already running; otherwise either its process runs, with the state of any earlier run
cleared and a first poll awaited, or it has no process and keeps the error. *)
Theorem startRecord_outcome i env rec m :
  instances m !! i = Some rec -> runtimeBasedir m <> ""%string ->
  let '(err, m') := startRecord logsDir alive i env m in
  if instanceRunning alive rec then err = Some errAlreadyRunning /\ m' = m else
  exists rec', instances m' !! i = Some rec' /\ Launch rec' = Launch rec /\
  match startServer logsDir (Launch rec) env with
  | Ok srv => err = None /\ justStarted srv rec'
  | Err e => err = Some (errText e) /\ Running rec' = None /\ lastError rec' = e /\
           awaitingServerInfo rec' = false
  end.
Proof.
  intros Hr Hbase. unfold startRecord. destruct (startRecordBegin alive i m) as [[launch m1]|e] eqn:Hb.
  - destruct (startRecordBegin_lookup _ _ _ _ Hb) as (r & Hr' & -> & _ & Hrun & H1).
  rewrite Hr in Hr'. injection Hr' as <-. rewrite Hrun.
  destruct (startServer logsDir (Launch rec) env) as [srv|e].
  + unfold resetServerInstanceState.
  match goal with |- context [match ?o with Some _ => _ | None => _ end] => destruct o end;
    eexists; (split; [cbn; by rewrite lookup_alter_eq, H1|]); unfold justStarted; cbn; auto 20.
  + eexists. split; [cbn; by rewrite lookup_alter_eq, H1|]. done.
  - revert Hb. unfold startRecordBegin. rewrite Hr. apply String.eqb_neq in Hbase. rewrite Hbase.
  by destruct (instanceRunning alive rec); [intros [= <-]|].
Qed.

(** A replica launch always ends: once [launchServerReplica] returns, no launch is in
flight, so the server can scale again.  If the process started, the new instance is
registered and the cooldown starts; if it did not, the instance is gone and the cooldown is
untouched. *)
Theorem launchServerReplica_settles serverID stamp env now m p s :
  reg_ok m -> runtimeBasedir m <> ""%string ->
  serversByID m !! serverID = Some p -> servers m !! p = Some s ->
  ScaleUpInFlight s = true -> Autoscales s = true ->
  let m' := launchServerReplica logsDir alive serverID stamp env now m in
  let i := nextInstanceID m in
  exists s', servers m' !! p = Some s' /\ ScaleUpInFlight s' = false /\
  ((i ∈ instancesByID m' /\ LastScaleUpAt s' = Some now) \/
   (i ∉ instancesByID m' /\ LastScaleUpAt s' = LastScaleUpAt s)).
Proof.
  intros Hok Hbase Hk Hs Hfl Ha m' i. unfold m', launchServerReplica, registerServerReplicaInstance.
  rewrite Hk, Hs, Hfl, Ha. cbn [negb].
  set (launch := mkLaunch _ _ _ _).
  assert (appendServerInstanceLocked alive p launch Warming m
      = (i, (appendServerInstanceLocked alive p launch Warming m).2)) as Happ by done.
  pose proof (appendServerInstanceLocked_ok alive p launch Warming m Hok ltac:(eauto)) as Hok1.
  assert (keepsServers m (appendServerInstanceLocked alive p launch Warming m).2 /\
      i ∈ instancesByID (appendServerInstanceLocked alive p launch Warming m).2) as [Hk1 Hin1].
  { unfold appendServerInstanceLocked. cbn [snd]. split; [|cbn; set_solver].
  etrans; [|apply keeps_refresh]. etrans; [|by apply keeps_updServer]. by apply keeps_same. }
  rewrite Happ. revert Hok1 Hk1 Hin1. generalize ((appendServerInstanceLocked alive p launch Warming m).2).
  intros m1 Hok1 Hk1 Hin1.
  pose proof (keeps_startRecord logsDir alive i env m1) as Hk2.
  pose proof (instancesByID_startRecord logsDir alive i env m1) as Hin2.
  pose proof (steps_ok _ _ (startRecord_steps logsDir alive i env m1) Hok1) as Hok2.
  destruct (startRecord logsDir alive i env m1) as [err m2]. cbn [snd] in *.
  assert (keepsServers m m2) as [Hby _ Hsrv] by (by transitivity m1).
  destruct (Hsrv _ _ Hs) as (s2 & Hs2 & _ & Hl2 & _).
  unfold launchServerReplicaEnd. rewrite Hby, Hk.
  set (m3 := updServer p (fun s => s <| ScaleUpInFlight := false |>) m2).
  assert (servers m3 !! p = Some (s2 <| ScaleUpInFlight := false |>)) as Hs3
  by (unfold m3; by rewrite updServer_lookup, decide_True, Hs2).
  case_bool_decide.
  - destruct (ks_server _ _ (keeps_removeServerRecordLocked alive i m3) _ _ Hs3)
  as (s4 & Hs4 & Hf4 & Hl4 & _).
  exists s4. split_and!; [done|done|]. right. split; [|by rewrite Hl4].
  apply not_in_after_remove. apply updServer_core_ok; [done|by right].
  - eexists. split_and!.
  + unfold refreshServerSnapshotLocked. rewrite updServer_lookup, decide_True by done.
  rewrite updServer_lookup, decide_True, Hs3 by done. done.
  + by autorewrite with nexus.
  + left. split; [cbn; rewrite Hin2; done|]. by autorewrite with nexus.
Qed.

(** The time a stop has waited. *)
Definition waitedFor (effects : list stopEffect) : Z :=
  foldr (fun e t => match e with waited d => d + t | _ => t end) 0 effects.

Lemma waitedFor_app l k : waitedFor (l ++ k) = waitedFor l + waitedFor k.
Proof.
  unfold waitedFor. induction l as [|e l IH]; [done|]. cbn. rewrite IH. destruct e; lia.
Qed.

(** The two waits of [stopServer] are together the grace period. *)
Definition graceOf (killAfter : Z) : Z := if 0 <? killAfter then killAfter else 750 * 10 ^ 6.
Lemma quitGrace_split killAfter :
  quitGrace killAfter + Z.max 0 (killAfter - quitGrace killAfter) = graceOf killAfter /\ 0 <= quitGrace killAfter.
Proof.
  unfold quitGrace, graceOf. change (750 * 10 ^ 6) with 750000000.
  destruct (Z.ltb_spec 0 killAfter); cbn [andb]; [|lia].
  destruct (Z.ltb_spec killAfter 750000000); lia.
Qed.

(** What [stopServer] may do before the grace period is over: ask the console, wait, signal, wait. *)
Definition warnings (quit term : list stopEffect) (g w : Z) : list stopEffect :=
  quit ++ [waited g] ++ term ++ [waited w].
Lemma warnings_waited quit term g w :
  waitedFor quit = 0 -> waitedFor term = 0 -> waitedFor (warnings quit term g w) = g + w.
Proof. intros Hq Ht. unfold warnings. rewrite !waitedFor_app, Hq, Ht. cbn. lia. Qed.

(** Its effects end with at most a kill and a last wait. *)
Lemma escalation quit term g w kill tail :
  waitedFor quit = 0 -> waitedFor term = 0 -> sendKill ∉ quit -> sendKill ∉ term ->
  (kill = [] \/ kill = [sendKill]) -> (tail = [] \/ tail = [waited second]) -> 0 <= g -> 0 <= w ->
  let effects := warnings quit term g w ++ kill ++ tail in
  0 <= waitedFor effects <= (g + w) + second /\
  (sendKill ∈ effects -> exists post, effects = warnings quit term g w ++ sendKill :: post).
Proof.
  intros Hq Ht Hnq Hnt Hk Htl Hg Hw effects. unfold effects. rewrite !waitedFor_app, warnings_waited by done. split.
  - destruct Hk as [-> | ->], Htl as [-> | ->]; cbn; unfold second; lia.
  - intros Hin. destruct Hk as [-> | ->]; [exfalso|by exists tail].
    revert Hin. unfold warnings. destruct Htl as [-> | ->]; set_solver.
Qed.

(** C29.  Stopping a process escalates in order: it is killed only after it was asked to quit
(when it has a console) and, if it was still alive after the grace period, told to
terminate, and only after the whole of [killAfter] (or the 750 ms grace when that is zero)
has passed; and a stop never waits longer than that and one more second. *)
Theorem stopServer_escalates i srv killAfter env m :
  srvAlive alive srv = true ->
  let '(effects, err, m') := stopServer alive i (Some srv) killAfter true env m in
  let grace := if 0 <? killAfter then killAfter else 750 * 10 ^ 6 in
  0 <= waitedFor effects <= grace + second /\
  (sendKill ∈ effects ->
   exists pre post, effects = pre ++ sendKill :: post /\
   waitedFor pre = grace /\
   (msConsole srv <> None -> head pre = Some writeQuit) /\
   (seAliveAfterQuit env = true -> sendTerm ∈ pre)).
Proof.
  intros Hal. unfold stopServer. rewrite Hal. cbn [andb].
  set (quit := match msConsole srv with Some _ => [writeQuit] | None => [] end).
  set (term := if seAliveAfterQuit env then [sendTerm] else []).
  destruct (quitGrace_split killAfter) as [Hsum Hg].
  change (if 0 <? killAfter then killAfter else 750 * 10 ^ 6) with (graceOf killAfter).
  set (grace := graceOf killAfter) in *. clearbody grace.
  set (w := Z.max 0 (killAfter - quitGrace killAfter)) in *.
  assert (0 <= w) as Hw by lia. clearbody w. generalize dependent (quitGrace killAfter). intros g Hsum Hg.
  assert (waitedFor quit = 0 /\ waitedFor term = 0 /\ sendKill ∉ quit /\ sendKill ∉ term) as (Hwq & Hwt & Hnq & Hnt).
  { unfold quit, term. destruct (msConsole srv), (seAliveAfterQuit env); set_solver. }
  destruct (seFirst env) as [e|e|]; [split; [unfold second; lia|done]..|].
  unfold stopAfterSignal. destruct (seSecond env) as [e|e|].
  1,2: rewrite !waitedFor_app, Hwq, Hwt; (split; [cbn; unfold second; lia|set_solver]).
  set (kill := match msProcess srv with Some _ => if seAliveBeforeKill env then [sendKill] else [] | None => [] end).
  assert (kill = [] \/ kill = [sendKill]) as Hk.
  { unfold kill. destruct (msProcess srv), (seAliveBeforeKill env); auto. }
  assert (forall tail, tail = [] \/ tail = [waited second] ->
    let effects := warnings quit term g w ++ kill ++ tail in
    0 <= waitedFor effects <= grace + second /\
    (sendKill ∈ effects -> exists pre post, effects = pre ++ sendKill :: post /\ waitedFor pre = grace /\
       (msConsole srv <> None -> head pre = Some writeQuit) /\ (seAliveAfterQuit env = true -> sendTerm ∈ pre))) as Hall.
  { intros tail Htail effects. destruct (escalation quit term g w kill tail) as [Hbound Hlast]; [done..|].
    rewrite Hsum in Hbound. split; [done|]. intros [post Hpost]%Hlast. exists (warnings quit term g w), post.
    split_and!; [done|by rewrite warnings_waited| |]; unfold warnings, quit, term.
    - by destruct (msConsole srv).
    - intros ->. set_solver. }
  assert (forall tail, quit ++ [waited g] ++ term ++ (waited w :: kill) ++ tail
            = warnings quit term g w ++ kill ++ tail) as Heq by (intros; unfold warnings; by rewrite <- !app_assoc).
  destruct (seThird env) as [e|e|].
  - specialize (Hall [] (or_introl eq_refl)). by rewrite <- Heq, !app_nil_r in Hall.
  - specialize (Hall [] (or_introl eq_refl)). by rewrite <- Heq, !app_nil_r in Hall.
  - destruct (didNotExit i srv m) as [err m']. specialize (Hall [waited second] (or_intror eq_refl)).
    by rewrite <- Heq in Hall.
Qed.

Lemma stopServer_error i srv killAfter sendSignal env m e :
  (stopServer alive i srv killAfter sendSignal env m).1.2 = Some e -> exists msg, e = errText msg.
Proof.
  assert (forall err, clearResult err = Some e -> exists msg, e = errText msg) as Hclear.
  { intros [[|msg]|]; cbn; [done|intros [= <-]; eauto|done]. }
  assert (forall srv wait, (stopAfterSignal alive i srv wait env m).1.2 = Some e ->
        exists msg, e = errText msg) as Hafter.
  { intros srv0 wait. unfold stopAfterSignal.
  destruct (seSecond env); cbn [fst snd]; [intros [= <-]; eauto|apply Hclear|].
  destruct (seThird env); cbn; [intros [= <-]; eauto|apply Hclear|]. intros [= <-]. eauto. }
  unfold stopServer. destruct srv as [srv|]; [|done].
  destruct (sendSignal && srvAlive alive srv); [|apply Hafter].
  destruct (seFirst env); cbn [fst snd]; [intros [= <-]; eauto|apply Hclear|].
  pose proof (Hafter srv (Z.max 0 (killAfter - quitGrace killAfter))) as Ha.
  by destruct (stopAfterSignal _ _ _ _ _ _) as [[effects err] m'].
Qed.

(** The processes [StopServer] captures. *)
Definition captured (m : ServerManager) (s : server) : list (Z * option managedServer) :=
  map (fun rec => (id rec, Running rec)) (serverInstancesLocked m s).
Definition capturedDead (r : Z * option managedServer) : Prop :=
  match r.2 with Some srv => srvAlive alive srv = false | None => True end.

Lemma elem_of_captured m s i srv :
  reg_ok m ->
  (i, srv) ∈ captured m s <->
  exists rec, i ∈ InstanceIDs s /\ i ∈ instancesByID m /\ instances m !! i = Some rec /\ Running rec = srv.
Proof.
  intros Hok. unfold captured, serverInstancesLocked. rewrite list_elem_of_In, in_map_iff. split.
  - intros (rec & [= <- <-] & Hx). apply list_elem_of_In in Hx.
  rewrite merge_sort_Permutation in Hx. apply list_elem_of_omap in Hx as (j & Hj & Hx).
  unfold instanceByID in Hx. case_bool_decide; [|done].
  destruct (ro_inst _ _ Hok _ _ Hx) as (-> & _). eauto.
  - intros (rec & Hi & Hm & Hr & <-). destruct (ro_inst _ _ Hok _ _ Hr) as (Hid & _).
  exists rec. split; [by rewrite Hid|]. apply list_elem_of_In. rewrite merge_sort_Permutation.
  apply list_elem_of_omap. exists i. split; [done|]. unfold instanceByID. by rewrite bool_decide_true.
Qed.

Lemma captured_dead m s :
  reg_ok m ->
  Forall capturedDead (captured m s) <-> forall i, i ∈ InstanceIDs s -> runningByID alive m i = None.
Proof.
  intros Hok. rewrite Forall_forall. split.
  - intros Hd i Hi. destruct (runningByID alive m i) as [rec|] eqn:Hrun; [|done].
  apply runningByID_Some in Hrun as (Hm & Hr & Hrun).
  specialize (Hd (i, Running rec)). unfold capturedDead, srvAlive in Hd. cbn in Hd.
  unfold instanceRunning in Hrun. destruct (Running rec) as [srv|] eqn:Hs; [|done].
  rewrite Hrun in Hd. assert (true = false); [|done]. apply Hd, elem_of_captured; [done|]. eauto.
  - intros Hd [i srv] (rec & Hi & Hm & Hr & <-)%elem_of_captured; [|done].
  specialize (Hd i Hi). unfold capturedDead, srvAlive. cbn.
  destruct (Running rec) as [srv|] eqn:Hs; [|done].
  destruct (msProcess srv) as [pid|] eqn:Hp; [|done].
  destruct (alive pid) eqn:Hpid; [|done]. exfalso.
  apply eq_None_not_Some in Hd. apply Hd. exists rec. apply runningByID_Some.
  split_and!; [done..|]. unfold instanceRunning. by rewrite Hs, Hp.
Qed.

(** The loop of [StopServer]: it only removes, and when it ends normally it removed everything. *)
Lemma stopRecords_spec env killAfter l : forall stopped m0,
  reg_ok m0 ->
  let '(err, m') := stopRecords alive env killAfter stopped l m0 in
  (forall i, i ∈ instancesByID m' -> i ∈ instancesByID m0) /\
  (err = None \/ err = Some errAlreadyStopped ->
   (forall i, i ∈ map fst l -> i ∉ instancesByID m') /\
   (err = Some errAlreadyStopped <-> stopped = false /\ Forall capturedDead l)).
Proof.
  induction l as [|[i srv] l IH]; intros stopped m0 Hok0; cbn [stopRecords].
  { split; [done|]. intros _. split; [set_solver|]. destruct stopped; split; try done;
  by intros [? _]. }
  set (dead := match srv with Some srv => negb (srvAlive alive srv) | None => true end).
  assert (dead = true <-> capturedDead (i, srv)) as Hd.
  { unfold dead, capturedDead. destruct srv; [apply negb_true_iff|done]. }
  assert (forall m1 m' : ServerManager, reg_ok m1 ->
  (forall j, j ∈ instancesByID m' -> j ∈ instancesByID (removeServerRecordLocked alive i m1)) ->
  (forall j, j ∈ map fst l -> j ∉ instancesByID m') ->
  forall j, j ∈ map fst ((i, srv) :: l) -> j ∉ instancesByID m') as Hcons.
  { intros m1 m' Hok1 Hsub Hgone j. cbn [map fst]. intros [->|Hj]%elem_of_cons; [|by apply Hgone].
  intros Hx%Hsub. by apply not_in_after_remove in Hx. }
  destruct dead eqn:Hdd.
  - pose proof (removeServerRecordLocked_ok alive i m0 Hok0) as Hok1.
  specialize (IH stopped _ Hok1). destruct (stopRecords _ _ _ _ _ _) as [err m'].
  destruct IH as [Hsub IH]. split; [intros j Hj; by eapply instancesByID_remove_sub, Hsub|].
  intros He. destruct (IH He) as [Hgone Hiff].
  split; [exact (Hcons m0 m' Hok0 Hsub Hgone)|]. rewrite Hiff, Forall_cons. tauto.
  - pose proof (steps_ok _ _ (stopServer_steps alive i srv killAfter true (env i) m0) Hok0) as Hok1.
  pose proof (instancesByID_stopServer alive i srv killAfter true (env i) m0) as HB.
  pose proof (stopServer_error i srv killAfter true (env i) m0) as Herr.
  destruct (stopServer _ _ _ _ _ _ _) as [[effects [e|]] m1]; cbn [fst snd] in *.
  { destruct (Herr _ eq_refl) as [msg ->]. split; [by rewrite HB|]. by intros [|]. }
  pose proof (removeServerRecordLocked_ok alive i m1 Hok1) as Hok2.
  specialize (IH true _ Hok2). destruct (stopRecords _ _ _ _ _ _) as [err m'].
  destruct IH as [Hsub IH]. split.
  { intros j Hj. rewrite <- HB. by eapply instancesByID_remove_sub, Hsub. }
  intros He. destruct (IH He) as [Hgone Hiff]. split; [exact (Hcons m1 m' Hok1 Hsub Hgone)|].
  rewrite Hiff, Forall_cons. split; [by intros [? _]|]. intros (_ & Hx & _). by apply Hd in Hx.
Qed.

(** When [StopServer] reports success, or that the server was already stopped, every
instance the server had is gone from the registry; it says "already stopped" exactly when
none of their processes was alive. *)
Theorem StopServer_removes env killAfter target m s :
  reg_ok m -> 0 < target -> findServerByIndexLocked target m = Ok s ->
  let '(err, m') := StopServer alive env killAfter target m in
  err = None \/ err = Some errAlreadyStopped ->
  (forall i, i ∈ InstanceIDs s -> i ∉ instancesByID m') /\
  (err = Some errAlreadyStopped <->
   forall i, i ∈ InstanceIDs s -> runningByID alive m i = None).
Proof.
  intros Hok Ht Hf. unfold StopServer. rewrite (proj2 (Z.leb_gt _ _)), Hf by lia.
  fold (captured m s). pose proof (stopRecords_spec env killAfter (captured m s) false m Hok) as Hl.
  destruct (stopRecords _ _ _ _ _ _) as [err m']. destruct Hl as [Hsub Hl]. intros He.
  destruct (Hl He) as [Hgone Hiff]. split.
  - intros i Hi Hm. apply (Hgone i); [|done].
  destruct (ro_live _ _ Hok i (Hsub i Hm)) as [rec Hr].
  apply list_elem_of_In, in_map_iff. exists (i, Running rec). split; [done|].
  apply list_elem_of_In, elem_of_captured; eauto 10.
  - rewrite Hiff, <- captured_dead by done. tauto.
Qed.

(** ** Interleavings the lock does not prevent *)

Lemma nextLine_above m k p s :
  serversByID m !! k = Some p -> servers m !! p = Some s -> sLine s < nextLine m.
Proof.
  intros Hk Hs. unfold nextLine. apply elem_of_map_to_list in Hk. revert Hk.
  induction (map_to_list (serversByID m)) as [|[k' p'] l IH]; [by intros ?%elem_of_nil|].
  intros [Heq|Hin]%elem_of_cons; cbn.
  - injection Heq as <- <-. rewrite Hs. lia.
  - specialize (IH Hin). destruct (servers m !! p'); lia.
Qed.

(** What [registerServerLaunch] adds to the tables. *)
Lemma registerServerLaunch_tables alv launch m :
  let m' := snd (registerServerLaunch alv launch m) in
  serversByID m' = <[Line launch + 1 := nextServerPtr m]> (serversByID m) /\
  nextServerPtr m' = nextServerPtr m + 1 /\ nextInstanceID m' = nextInstanceID m + 1 /\
  serverByInstanceID m' = <[nextInstanceID m := nextServerPtr m]> (serverByInstanceID m) /\
  instancesByID m' = {[nextInstanceID m]} ∪ instancesByID m.
Proof.
  assert (ServerID (newServer m launch) = Line launch + 1) as Hid.
  { unfold newServer. by destruct (launchConfiguredPort launch). }
  cbv zeta. unfold registerServerLaunch. rewrite Hid. done.
Qed.

(** A line chosen by [LaunchServer] is not in use when it is chosen, but the lock is
released before the server is registered: two launches that choose before either registers
choose the same line, and the second registration replaces the first.  The first server
keeps its instance, but no id leads to it any more. *)
Theorem LaunchServer_race m alive' binary1 binary2 stamp1 stamp2 args1 args2 :
  reg_ok m ->
  let l1 := launchFor m binary1 stamp1 args1 in
  let l2 := launchFor m binary2 stamp2 args2 in
  let m1 := snd (registerServerLaunch alive l1 m) in
  let m2 := snd (registerServerLaunch alive' l2 m1) in
  let p1 := nextServerPtr m in
  serversByID m !! (Line l1 + 1) = None /\ Line l1 = Line l2 /\
  serverByInstanceID m2 !! nextInstanceID m = Some p1 /\ nextInstanceID m ∈ instancesByID m2 /\
  serversByID m1 !! (Line l1 + 1) = Some p1 /\ forall k, serversByID m2 !! k <> Some p1.
Proof.
  intros Hok l1 l2 m1 m2 p1.
  assert (forall k p, serversByID m !! k = Some p -> p <> p1) as Hfresh.
  { intros k p Hk ->. destruct (ro_byid _ _ Hok _ _ Hk) as (s & Hs & _).
  apply (ro_server _ _ Hok) in Hs as [Hlt _]. unfold p1 in Hlt. lia. }
  destruct (registerServerLaunch_tables alive l1 m) as (HA1 & HB1 & HC1 & HD1 & HE1).
  pose proof (registerServerLaunch_tables alive' l2 m1) as (HA2 & _ & _ & HD2 & HE2).
  fold m1 in HA1, HB1, HC1, HD1, HE1. fold m2 in HA2, HD2, HE2.
  split_and!.
  - destruct (serversByID m !! (Line l1 + 1)) as [p|] eqn:Hk; [|done].
  destruct (ro_byid _ _ Hok _ _ Hk) as (s & Hs & Hsid).
  pose proof (nextLine_above m _ p s Hk Hs) as Hlt.
  apply (ro_server _ _ Hok) in Hs as [_ Hs]. pose proof (sk_line _ _ _ Hs).
  unfold l1, launchFor in Hsid. cbn in Hsid. lia.
  - done.
  - rewrite HD2, HC1, lookup_insert_ne, HD1 by lia. apply lookup_insert_eq.
  - rewrite HE2, HE1. set_solver.
  - rewrite HA1. apply lookup_insert_eq.
  - intros k. rewrite HA2, HA1, HB1. change (Line l2) with (Line l1). rewrite insert_insert_eq.
  rewrite lookup_insert. case_decide as Hd; [|by intros ?%Hfresh].
  intros [= Hx]. unfold p1 in Hx. lia.
Qed.

(** [StopServer] takes an instance whose process is still being started for a dead one:
it removes the record, and the start completes on a record the registry no longer maps.
The process then runs, but neither the registry nor [StopAll] knows of it. *)
Theorem stop_during_start_orphans alive' i srv launch m m1 :
  reg_ok m -> i ∈ instancesByID m -> startRecordBegin alive i m = Ok (launch, m1) ->
  let m3 := startRecordDone i srv (removeServerRecordLocked alive' i m1) in
  mstep m m1 /\ mstep m1 (removeServerRecordLocked alive' i m1) /\
  mstep (removeServerRecordLocked alive' i m1) m3 /\
  (exists rec, instances m3 !! i = Some rec /\ Running rec = Some srv) /\
  i ∉ instancesByID m3 /\ forall srv', (i, srv') ∉ runningServers m3.
Proof.
  intros Hok Hin Hb m3. destruct (startRecordBegin_lookup _ _ _ _ Hb) as (rec & _ & _ & _ & _ & H1).
  pose proof (startRecordBegin_ok _ _ _ _ _ Hok Hb) as Hok1.
  assert (i ∉ instancesByID m3) as Hni by (apply not_in_after_remove; exact Hok1).
  split_and!; [by eapply step_start_begin|constructor|constructor| |done|].
  - assert (instances (removeServerRecordLocked alive' i m1) = instances m1) as HI.
  { unfold removeServerRecordLocked.
  assert (forall port m', instances (removeServerIDFromPortLocked port i m') = instances m') as Hsame
    by (intros; unfold removeServerIDFromPortLocked; by repeat split_match).
  destruct (instanceByID m1 i) as [r|]; [|done]. destruct (spec r);
    repeat match goal with |- context [match ?o with Some _ => _ | None => _ end] => destruct o end;
    cbn; by rewrite ?Hsame. }
  eexists. split; [unfold m3, startRecordDone; rewrite updInstance_lookup, decide_True, HI, H1 by done|]; done.
  - intros srv' Hx. unfold runningServers in Hx. apply list_elem_of_omap in Hx as (j & Hj & Hx).
  destruct (instances m3 !! j) as [r|]; [|done]. destruct (Running r); [|done].
  injection Hx as -> _. by apply elem_of_elements in Hj.
Qed.
End Behaviour.

(** * Concrete runs *)

Definition lifeAlive (p : Z) : bool := p =? 7.
Definition lifeServer : managedServer := mkManaged 0 (Some 7) (Some 0).
Definition lifeStart : startEnv := mkStartEnv None None None None None lifeServer.
Definition lifeManager : ServerManager :=
  snd (registerServerLaunch (H := plain_unicode) lifeAlive sampleLaunch (freshManager 3 "/run")).
Definition lifeRunning : ServerManager := startRecordDone 0 lifeServer lifeManager.
Definition lifeScaling : ServerManager :=
  updServer 0 (fun s => s <| ScaleUpInFlight := true |>) lifeManager.

Lemma lifeManager_ok : reg_ok lifeManager.
Proof. apply registerServerLaunch_ok, freshManager_ok. Qed.
Lemma lifeRunning_ok : reg_ok lifeRunning.
Proof. apply startRecordDone_ok, lifeManager_ok. Qed.
Lemma lifeScaling_ok : reg_ok lifeScaling.
Proof. apply updServer_core_ok; [exact lifeManager_ok|by right]. Qed.

Lemma reachable_consistent_witness :
  reachable (H := plain_unicode) lifeRunning /\ reg_ok lifeRunning.
Proof.
  assert (reachable (H := plain_unicode) lifeRunning) as Hr.
  { exists 3, "/run"%string. eapply rtc_l; [apply (step_register _ lifeAlive sampleLaunch)|].
    apply rtc_once. apply (step_start_done _ 0 lifeServer). }
  split; [exact Hr|]. exact (reachable_consistent (H := plain_unicode) lifeRunning Hr).
Defined.

Lemma startRecord_outcome_witness :
  exists rec m', instances lifeManager !! 0 = Some rec /\
    startRecord (H := plain_unicode) "/logs" lifeAlive 0 lifeStart lifeManager = (None, m') /\
    exists rec', instances m' !! 0 = Some rec' /\ Launch rec' = sampleLaunch /\
      Running rec' = Some lifeServer /\ awaitingServerInfo rec' = true.
Proof.
  assert (exists rec, instances lifeManager !! 0 = Some rec /\ instanceRunning lifeAlive rec = false /\
            Launch rec = sampleLaunch) as (rec & Hr & Hrun & Hl)
    by (eexists; split; [vm_compute; reflexivity|]; split; reflexivity).
  pose proof (startRecord_outcome (H := plain_unicode) "/logs" lifeAlive 0 lifeStart rec lifeManager Hr
    ltac:(discriminate)) as T.
  destruct (startRecord (H := plain_unicode) "/logs" lifeAlive 0 lifeStart lifeManager) as [err m'].
  rewrite Hrun in T. destruct T as (rec' & Hr' & Hl' & T).
  change (startServer (H := plain_unicode) "/logs" (Launch rec) lifeStart)
    with (@Ok string managedServer lifeServer) in T.
  destruct T as [-> (T1 & T2 & _)]. exists rec, m'. split; [exact Hr|]. split; [reflexivity|].
  exists rec'. rewrite Hl', Hl. auto.
Defined.

Lemma launchServerReplica_settles_witness :
  exists s', servers (launchServerReplica (H := plain_unicode) "/logs" lifeAlive 1 "stamp" lifeStart 5
                        lifeScaling) !! 0 = Some s' /\ ScaleUpInFlight s' = false.
Proof.
  assert (exists s, servers lifeScaling !! 0 = Some s /\ ScaleUpInFlight s = true /\ Autoscales s = true)
    as (s & Hs & Hf & Ha) by (eexists; split; [vm_compute; reflexivity|]; split; reflexivity).
  destruct (launchServerReplica_settles (H := plain_unicode) "/logs" lifeAlive 1 "stamp" lifeStart 5
    lifeScaling 0 s lifeScaling_ok ltac:(discriminate) ltac:(vm_compute; reflexivity) Hs Hf Ha)
    as (s' & Hs' & Hf' & _).
  exists s'. split; [exact Hs'|exact Hf'].
Defined.

(** A process that ignores everything is killed two seconds in. *)
Definition stubborn : stopEnv := mkStopEnv timerFired true timerFired true timerFired.

Lemma stopServer_escalates_witness :
  fst (fst (stopServer (H := plain_unicode) lifeAlive 0 (Some lifeServer) (2 * second) true stubborn
              lifeRunning))
  = [writeQuit; waited 750000000; sendTerm; waited 1250000000; sendKill; waited second] /\
  waitedFor (fst (fst (stopServer (H := plain_unicode) lifeAlive 0 (Some lifeServer) (2 * second) true
                         stubborn lifeRunning))) <= 3 * second.
Proof.
  split; [vm_compute; reflexivity|].
  pose proof (stopServer_escalates (H := plain_unicode) lifeAlive 0 lifeServer (2 * second) stubborn
    lifeRunning eq_refl) as T.
  destruct (stopServer (H := plain_unicode) _ _ _ _ _ _ _) as [[effects err] m'].
  exact (proj2 (proj1 T)).
Defined.

Lemma StopServer_removes_witness :
  exists s m', findServerByIndexLocked 1 lifeRunning = Ok s /\ InstanceIDs s = [0] /\
    StopServer (H := plain_unicode) lifeAlive
      (fun _ => mkStopEnv (processDone (Some exitError)) false timerFired false timerFired)
      (2 * second) 1 lifeRunning = (None, m') /\ 0 ∉ instancesByID m'.
Proof.
  assert (exists s, findServerByIndexLocked 1 lifeRunning = Ok s /\ InstanceIDs s = [0]) as (s & Hs & Hi)
    by (eexists; split; [vm_compute; reflexivity|reflexivity]).
  set (env := fun _ : Z => mkStopEnv (processDone (Some exitError)) false timerFired false timerFired).
  pose proof (StopServer_removes (H := plain_unicode) lifeAlive env (2 * second) 1 lifeRunning s
    lifeRunning_ok ltac:(lia) Hs) as T.
  assert (fst (StopServer (H := plain_unicode) lifeAlive env (2 * second) 1 lifeRunning) = None) as He
    by (vm_compute; reflexivity).
  destruct (StopServer (H := plain_unicode) lifeAlive env (2 * second) 1 lifeRunning) as [err m'].
  cbn in He. subst err. exists s, m'. split; [exact Hs|]. split; [exact Hi|]. split; [reflexivity|].
  apply (proj1 (T (or_introl eq_refl))). rewrite Hi. apply list_elem_of_singleton. reflexivity.
Defined.

Lemma LaunchServer_race_witness :
  let l1 := launchFor lifeManager "nqserver" "A" [] in
  let l2 := launchFor lifeManager "nqserver" "B" [] in
  let m2 := snd (registerServerLaunch (H := plain_unicode) lifeAlive l2
                  (snd (registerServerLaunch (H := plain_unicode) lifeAlive l1 lifeManager))) in
  Line l1 = 1 /\ Line l2 = 1 /\ 1 ∈ instancesByID m2 /\
  map ServerID (serversLocked m2) = [1; 2] /\ forall k, serversByID m2 !! k <> Some 1.
Proof.
  cbv zeta.
  pose proof (LaunchServer_race (H := plain_unicode) lifeAlive lifeManager lifeAlive "nqserver" "nqserver"
    "A" "B" [] [] lifeManager_ok) as T.
  cbv zeta in T. destruct T as (_ & _ & _ & T1 & _ & T2).
  split; [vm_compute; reflexivity|]. split; [vm_compute; reflexivity|].
  split; [exact T1|]. split; [vm_compute; reflexivity|exact T2].
Defined.

Lemma stop_during_start_orphans_witness :
  exists launch m1, startRecordBegin lifeAlive 0 lifeManager = Ok (launch, m1) /\
    0 ∉ instancesByID (startRecordDone 0 lifeServer (removeServerRecordLocked lifeAlive 0 m1)).
Proof.
  destruct (startRecordBegin lifeAlive 0 lifeManager) as [[launch m1]|e] eqn:Hb;
    [|vm_compute in Hb; discriminate Hb].
  exists launch, m1. split; [reflexivity|].
  assert (0 ∈ instancesByID lifeManager) as Hin.
  { apply (bool_decide_unpack _). vm_compute. exact I. }
  pose proof (stop_during_start_orphans (H := plain_unicode) lifeAlive lifeAlive 0 lifeServer launch
    lifeManager m1 lifeManager_ok Hin Hb) as T.
  cbv zeta in T. exact (proj1 (proj2 (proj2 (proj2 (proj2 T))))).
Defined.
