(* ===== verification/Restart.v ===== *)
(** Stopping and restarting a server as a whole: internal/orch/ops.go [StopServer],
    [RestartServer] and [StopServersAll], whose definitions are in Lifecycle.v.  The lemmas say
    what stopping a server takes from the tables and what it leaves; the theorem is the contract
    of a restart, run alone. *)
From S2P Require Import Prelude GoStrings LaunchPlan Registry Autoscale Snapshot Lifecycle.

(** * What stopping leaves *)

(** What of a server object no operation on its instances changes. *)
Definition identity (s : server) : Z * Z * serverLaunch := (ServerID s, sLine s, TemplateLaunch s).

(** [m'] is [m] with some of the instances [ids] taken out: the servers are the same ones under
    the same ids, the other instances keep their owners and their records. *)
Record sheds (ids : list Z) (m m' : ServerManager) : Prop := {
  sh_byid : serversByID m' = serversByID m;
  sh_basedir : runtimeBasedir m' = runtimeBasedir m;
  sh_next : nextInstanceID m' = nextInstanceID m;
  sh_server : forall p, identity <$> servers m' !! p = identity <$> servers m !! p;
  sh_owner : forall i, serverByInstanceID m' !! i = serverByInstanceID m !! i \/
               i ∈ ids /\ serverByInstanceID m' !! i = None;
  sh_record : forall i, i ∉ ids -> instances m' !! i = instances m !! i;
}.

#[export] Instance sheds_preorder ids : PreOrder (sheds ids).
Proof.
  split; [constructor; auto|]. intros m1 m2 m3 [] []. constructor; try congruence.
  - intros i. destruct (sh_owner1 i) as [->|?]; auto.
  - intros i Hi. rewrite sh_record1; auto.
Qed.

Lemma sheds_updServer ids p f m :
  (forall s, identity (f s) = identity s) -> sheds ids m (updServer p f m).
Proof.
  intros Hf. constructor; auto. intros q. rewrite updServer_lookup. case_decide; [|done].
  destruct (servers m !! q); cbn; by rewrite ?Hf.
Qed.

Lemma sheds_updInstance ids i f m : i ∈ ids -> sheds ids m (updInstance i f m).
Proof.
  intros Hi. constructor; auto. intros j Hj. rewrite updInstance_lookup.
  case_decide; [by subst|done].
Qed.

Lemma sheds_refresh ids alive p m : sheds ids m (refreshServerSnapshotLocked alive p m).
Proof.
  apply sheds_updServer. intros s. unfold identity.
  by destruct (refreshServer_core alive m s) as (-> & -> & -> & ?).
Qed.

Lemma sheds_unindex ids port i m : sheds ids m (removeServerIDFromPortLocked port i m).
Proof. unfold removeServerIDFromPortLocked. repeat split_match; by constructor; auto. Qed.

Lemma sheds_remove ids alive i m : i ∈ ids -> sheds ids m (removeServerRecordLocked alive i m).
Proof.
  intros Hi. unfold removeServerRecordLocked. destruct (instanceByID m i) as [rec|]; [|done].
  set (m2 := match spec rec with Some _ => _ | None => _ end).
  assert (sheds ids m m2) as H2.
  { unfold m2. destruct (spec rec); [etrans; [apply sheds_unindex|]|]; apply sheds_unindex. }
  etrans; [exact H2|]. destruct (serverByInstanceID m2 !! i) as [p|]; [|by constructor; auto].
  set (m3 := m2 <| serverByInstanceID ::= delete i |>).
  transitivity m3.
  { constructor; auto. intros j. cbn. destruct (decide (i = j)) as [<-|Hne].
    - right. by rewrite lookup_delete_eq.
    - left. by rewrite lookup_delete_ne. }
  transitivity (updServer p (forgetInstance i) m3); [by apply sheds_updServer|].
  etrans; [apply (sheds_refresh ids alive p)|]. by constructor; auto.
Qed.

Lemma sheds_clearRunning ids alive i srv m : i ∈ ids -> sheds ids m (clearRunning alive i srv m).
Proof.
  intros Hi. unfold clearRunning. destruct (instances m !! i); [|done].
  case_bool_decide; [|done]. cbv zeta. set (m1 := updInstance i _ m).
  assert (sheds ids m m1) by by apply sheds_updInstance.
  destruct (serverByInstanceID m1 !! i); [|done]. etrans; [done|apply sheds_refresh].
Qed.

Section Stopping.
Context `{GoUnicode}.
Variable alive : Z -> bool.

Lemma sheds_stopServer ids i srv killAfter sendSignal env m :
  i ∈ ids -> sheds ids m (snd (stopServer alive i srv killAfter sendSignal env m)).
Proof.
  intros Hi.
  assert (forall srv wait, sheds ids m (snd (stopAfterSignal alive i srv wait env m))) as Hafter.
  { intros srv0 wait. unfold stopAfterSignal.
    destruct (seSecond env); [done|by apply sheds_clearRunning|].
    destruct (seThird env); [done|by apply sheds_clearRunning|]. unfold didNotExit. cbn.
    destruct (instances m !! i); [|done]. case_bool_decide; [by apply sheds_updInstance|done]. }
  unfold stopServer. destruct srv as [srv|]; [|done].
  destruct (sendSignal && srvAlive alive srv); [|apply Hafter].
  destruct (seFirst env); [done|by apply sheds_clearRunning|].
  pose proof (Hafter srv (Z.max 0 (killAfter - quitGrace killAfter))) as Ha.
  by destruct (stopAfterSignal _ _ _ _ _ _) as [[effects err] m'].
Qed.

Lemma sheds_stopRecords ids env killAfter l : forall stopped m,
  (forall r, r ∈ l -> fst r ∈ ids) -> sheds ids m (snd (stopRecords alive env killAfter stopped l m)).
Proof.
  induction l as [|[i srv] l IH]; intros stopped m Hl; [done|]. cbn [stopRecords].
  assert (i ∈ ids) as Hi by (apply (Hl (i, srv)), list_elem_of_here).
  assert (forall r, r ∈ l -> fst r ∈ ids) as Hl' by (intros; apply Hl; by right).
  destruct (match srv with Some _ => _ | None => _ end).
  - etrans; [by apply sheds_remove|by apply IH].
  - pose proof (sheds_stopServer ids i srv killAfter true (env i) m Hi) as H1.
    destruct (stopServer _ _ _ _ _ _ _) as [[effects [e|]] m1]; [done|]. etrans; [exact H1|].
    etrans; [by apply (sheds_remove ids alive i)|by apply IH].
Qed.

(** ** The same target names the same server *)

Lemma omap_lines {A} (f g : A -> option server) (l : list A) :
  (forall x, identity <$> f x = identity <$> g x) -> sLine <$> omap f l = sLine <$> omap g l.
Proof.
  intros Hfg. induction l as [|x l IH]; [done|]. specialize (Hfg x). cbn.
  destruct (f x), (g x); cbn in *; [|done..]. by injection Hfg as _ -> _; rewrite IH.
Qed.

Lemma sheds_lines ids m m' :
  sheds ids m m' -> sLine <$> serversLocked m' = sLine <$> serversLocked m.
Proof.
  intros Hs. apply (StronglySorted_unique Z.le).
  1-2: apply (StronglySorted_fmap _ lineLe); [done|apply (StronglySorted_merge_sort lineLe)].
  unfold serversLocked. rewrite !merge_sort_Permutation, (sh_byid _ _ _ Hs).
  rewrite (omap_lines (fun kp : Z * Z => servers m' !! snd kp) (fun kp => servers m !! snd kp)); [done|].
  intros [k p]. apply (sh_server _ _ _ Hs).
Qed.

Lemma sheds_target ids m m' target s :
  reg_ok m -> reg_ok m' -> sheds ids m m' -> findServerByIndexLocked target m = Ok s ->
  exists p s', serversByID m !! ServerID s = Some p /\ servers m !! p = Some s /\
    servers m' !! p = Some s' /\ identity s' = identity s /\
    findServerByIndexLocked target m' = Ok s'.
Proof.
  intros Hok Hok' Hs Hf.
  pose proof (proj2 (proj2 (findServerByIndexLocked_spec m Hok)) target) as H1. rewrite Hf in H1.
  destruct H1 as [Ht Hl].
  pose proof (proj1 (serversLocked_elem m s Hok) (list_elem_of_lookup_2 _ _ _ Hl)) as (p & Hk & Hp).
  pose proof (sheds_lines _ _ _ Hs) as Hlines.
  assert (sLine <$> serversLocked m' !! Z.to_nat (target - 1) = Some (sLine s)) as Hl'.
  { by rewrite <- list_lookup_fmap, Hlines, list_lookup_fmap, Hl. }
  apply fmap_Some in Hl' as (s' & Hl' & Hline).
  pose proof (proj1 (serversLocked_elem m' s' Hok') (list_elem_of_lookup_2 _ _ _ Hl')) as (p' & Hk' & Hp').
  apply (ro_server _ _ Hok) in Hp as Hs1. apply (ro_server _ _ Hok') in Hp' as Hs2.
  assert (p' = p) as ->.
  { rewrite (sk_line _ _ _ (proj2 Hs2)), <- Hline, <- (sk_line _ _ _ (proj2 Hs1)) in Hk'.
    rewrite (sh_byid _ _ _ Hs), Hk in Hk'. by injection Hk'. }
  exists p, s'. split_and!; [done..| |].
  - pose proof (sh_server _ _ _ Hs p) as Hid. rewrite Hp, Hp' in Hid. by apply (inj Some) in Hid.
  - unfold findServerByIndexLocked. apply lookup_lt_Some in Hl' as Hlt.
    cbv zeta. rewrite (proj2 (Z.leb_le 0 _)), (proj2 (Z.ltb_lt _ _)) by lia. cbn [andb].
    by rewrite Hl'.
Qed.
End Stopping.

(** * Restarting *)

Section Restart.
Variable logsDir : string.
Context `{GoUnicode}.
Variable alive : Z -> bool.

Lemma sheds_StopServer env killAfter target m s :
  reg_ok m -> findServerByIndexLocked target m = Ok s ->
  sheds (InstanceIDs s) m (snd (StopServer alive env killAfter target m)).
Proof.
  intros Hok Hf. unfold StopServer. destruct (_ <=? _); [done|]. rewrite Hf.
  apply sheds_stopRecords. intros [i srv] (rec & Hi & _)%(elem_of_captured m s i srv Hok). exact Hi.
Qed.

(** A server whose instances are all gone lists none. *)
Lemma InstanceIDs_gone ids m m' p s s' :
  reg_ok m -> reg_ok m' -> sheds ids m m' -> servers m !! p = Some s -> servers m' !! p = Some s' ->
  (forall i, i ∈ InstanceIDs s -> i ∉ instancesByID m') -> InstanceIDs s' = [].
Proof.
  intros Hok Hok' Hs Hp Hp' Hgone.
  apply (ro_server _ _ Hok) in Hp as [_ Hp]. apply (ro_server _ _ Hok') in Hp' as [_ Hp'].
  destruct (InstanceIDs s') as [|i l] eqn:Hl; [done|]. exfalso.
  assert (serverByInstanceID m' !! i = Some p) as Ho.
  { apply (sk_owner _ _ _ Hp'). rewrite Hl. apply list_elem_of_here. }
  apply (Hgone i); [|apply (ro_owned _ _ Hok'); eauto]. apply (sk_owner _ _ _ Hp).
  destruct (sh_owner _ _ _ Hs i) as [<-|[_ Hn]]; [done|congruence].
Qed.

(** The owners are those of before a start. *)
Lemma serverByInstanceID_startRecord i env m :
  serverByInstanceID (snd (startRecord logsDir alive i env m)) = serverByInstanceID m.
Proof.
  unfold startRecord, startRecordBegin. destruct (instances m !! i) as [rec|]; [|done].
  destruct (_ =? _)%string; [done|]. destruct (instanceRunning alive rec); [done|].
  assert (forall port m', serverByInstanceID (removeServerIDFromPortLocked port i m')
            = serverByInstanceID m') as Hsame
    by (intros; unfold removeServerIDFromPortLocked; by repeat split_match).
  destruct (startServer _ _ _); cbn [snd]; unfold resetServerInstanceState; destruct (spec rec);
    repeat match goal with |- context [match ?o with Some _ => _ | None => _ end] => destruct o end;
    cbn; by rewrite ?Hsame.
Qed.

(** Only the started instance's record changes. *)
Lemma instances_startRecord i env m j :
  j <> i -> instances (snd (startRecord logsDir alive i env m)) !! j = instances m !! j.
Proof.
  intros Hj. unfold startRecord, startRecordBegin. destruct (instances m !! i) as [rec|]; [|done].
  destruct (_ =? _)%string; [done|]. destruct (instanceRunning alive rec); [done|].
  assert (forall port m', instances (removeServerIDFromPortLocked port i m') = instances m') as Hsame
    by (intros; unfold removeServerIDFromPortLocked; by repeat split_match).
  destruct (startServer _ _ _); cbn [snd]; unfold resetServerInstanceState; destruct (spec rec);
    repeat match goal with |- context [match ?o with Some _ => _ | None => _ end] => destruct o end;
    cbn; by rewrite ?lookup_alter_ne, ?Hsame by done.
Qed.

(** What starting an instance with the server's template leads to. *)
Definition startedFresh (launch : serverLaunch) (env : startEnv) (err : option opError)
  (rec : instance) : Prop :=
  Launch rec = launch /\
  match startServer logsDir launch env with
  | Ok srv => err = None /\ justStarted srv rec
  | Err e => err = Some (errText e) /\ Running rec = None /\ lastError rec = e
  end.

(** The server [p] has the one instance [i], with the record [rec]; every other instance is as
    in [m]. *)
Record onlyInstance (p i : Z) (rec : instance) (m m' : ServerManager) : Prop := {
  oi_server : exists s', servers m' !! p = Some s' /\ InstanceIDs s' = [i];
  oi_byid : serversByID m' = serversByID m;
  oi_live : i ∈ instancesByID m';
  oi_record : instances m' !! i = Some rec;
  oi_owners : forall j, j <> i -> serverByInstanceID m' !! j = serverByInstanceID m !! j;
  oi_records : forall j, j <> i -> instances m' !! j = instances m !! j;
}.

(** The instances of a server that had none before [i] was given to it. *)
Lemma only_owned m p i s owners s' :
  reg_ok m -> servers m !! p = Some s -> InstanceIDs s = [] -> server_ok owners p s' ->
  (forall j, owners !! j = <[i := p]> (serverByInstanceID m) !! j) -> InstanceIDs s' = [i].
Proof.
  intros Hok Hp Hnone Hs' Hown. apply (ro_server _ _ Hok) in Hp as [_ Hs].
  assert (forall j, j ∈ InstanceIDs s' <-> j = i) as Hj.
  { intros j. rewrite (sk_owner _ _ _ Hs'), Hown, lookup_insert. case_decide; [naive_solver|].
    rewrite <- (sk_owner _ _ _ Hs), Hnone. split; [by intros ?%elem_of_nil|congruence]. }
  apply Permutation_singleton_r, NoDup_Permutation; [apply (sk_nodup _ _ _ Hs')|apply NoDup_singleton|].
  intros j. by rewrite Hj, list_elem_of_singleton.
Qed.

(** Starting a server that has no instance. *)
Lemma StartServer_empty starts target m p s :
  reg_ok m -> 0 < target -> findServerByIndexLocked target m = Ok s ->
  serversByID m !! ServerID s = Some p -> servers m !! p = Some s -> InstanceIDs s = [] ->
  runtimeBasedir m <> ""%string ->
  let '(err, m') := StartServer logsDir alive starts target m in
  let i := nextInstanceID m in
  exists rec, onlyInstance p i rec m m' /\ startedFresh (TemplateLaunch s) (starts i) err rec.
Proof.
  intros Hok Ht Hf Hk Hp Hnone Hbase. unfold StartServer.
  rewrite (proj2 (Z.leb_gt _ _)), Hf by lia. unfold serverInstancesLocked. rewrite Hnone, Hk.
  cbn [omap list_omap merge_sort merge_sort_aux]. change (merge_sort instanceLe []) with (@nil instance).
  cbv iota. set (launch := TemplateLaunch s). set (i := nextInstanceID m).
  destruct (appendServerInstanceLocked alive p launch Warming m) as [i' m2] eqn:Ha.
  assert (i' = i /\ m2 = snd (appendServerInstanceLocked alive p launch Warming m)) as [-> Hm2]
    by (rewrite Ha; by injection Ha as <- _).
  assert (reg_ok m2) as Hok2 by (rewrite Hm2; apply appendServerInstanceLocked_ok; eauto).
  assert (instances m2 !! i = Some (newInstance i launch)) as Hi
    by (rewrite Hm2; cbn; apply lookup_insert_eq).
  pose proof (startRecord_outcome logsDir alive i (starts i) _ m2 Hi ltac:(by rewrite Hm2)) as Hout.
  pose proof (serverByInstanceID_startRecord i (starts i) m2) as How.
  pose proof (fun j => instances_startRecord i (starts i) m2 j) as Hrecs.
  pose proof (keeps_startRecord logsDir alive i (starts i) m2) as Hkeeps.
  pose proof (steps_ok _ _ (startRecord_steps logsDir alive i (starts i) m2) Hok2) as Hok3.
  cbn [startRecords]. destruct (startRecord logsDir alive i (starts i) m2) as [err m3].
  cbn [snd instanceRunning newInstance Running Launch] in *.
  destruct Hout as (rec & Hrec & Hlaunch & Hout).
  assert (onlyInstance p i rec m m3) as Honly.
  { assert (forall j, serverByInstanceID m3 !! j = <[i := p]> (serverByInstanceID m) !! j) as Hown
      by (intros j; rewrite How, Hm2; done).
    assert (serverByInstanceID m3 !! i = Some p) as Hpi by (rewrite Hown; apply lookup_insert_eq).
    destruct (ro_owner _ _ Hok3 _ _ Hpi) as [s3 Hs3].
    constructor; [| |apply (ro_owned _ _ Hok3); eauto|done| |].
    - exists s3. split; [done|]. apply (ro_server _ _ Hok3) in Hs3 as [_ Hs3].
      by apply (only_owned m p i s (serverByInstanceID m3) s3).
    - by rewrite (ks_byid _ _ Hkeeps), Hm2.
    - intros j Hj. by rewrite Hown, lookup_insert_ne.
    - intros j Hj. rewrite Hrecs, Hm2 by done. cbn. by rewrite lookup_insert_ne. }
  change (merge_stack instanceLe []) with (@nil instance). cbv iota.
  unfold startedFresh. destruct (startServer logsDir launch (starts i)) as [srv|e].
  - destruct Hout as [-> Hout]. eauto 10.
  - destruct Hout as (-> & Hrun & Herr & _). eauto 10.
Qed.

(** The instances [s] had in [m] have made way for one new one, started with the template of
    [s]; the other instances have their owners and records of [m]. *)
Definition replaced (s : server) (env : Z -> startEnv) (err : option opError)
  (m m' : ServerManager) : Prop :=
  (forall i, i ∈ InstanceIDs s -> i ∉ instancesByID m') /\
  exists p s' rec, let i := nextInstanceID m in
    serversByID m !! ServerID s = Some p /\ servers m !! p = Some s /\
    serversByID m' !! ServerID s = Some p /\ servers m' !! p = Some s' /\ InstanceIDs s' = [i] /\
    i ∈ instancesByID m' /\ instances m' !! i = Some rec /\
    startedFresh (TemplateLaunch s) (env i) err rec /\
    forall j, j ∉ InstanceIDs s -> j <> i ->
      serverByInstanceID m' !! j = serverByInstanceID m !! j /\ instances m' !! j = instances m !! j.

Lemma StartServer_replaces starts target m m1 s :
  reg_ok m -> reg_ok m1 -> 0 < target -> findServerByIndexLocked target m = Ok s ->
  runtimeBasedir m <> ""%string -> sheds (InstanceIDs s) m m1 ->
  (forall i, i ∈ InstanceIDs s -> i ∉ instancesByID m1) ->
  let '(err, m') := StartServer logsDir alive starts target m1 in replaced s starts err m m'.
Proof.
  intros Hok Hok1 Ht Hf Hbase Hsheds Hgone.
  destruct (sheds_target _ _ _ _ _ Hok Hok1 Hsheds Hf) as (p & s1 & Hk & Hp & Hp1 & Hid & Hf1).
  injection Hid as Hid _ Htemplate.
  pose proof (InstanceIDs_gone _ _ _ _ _ _ Hok Hok1 Hsheds Hp Hp1 Hgone) as Hnone.
  assert (serversByID m1 !! ServerID s1 = Some p) as Hk1 by by rewrite (sh_byid _ _ _ Hsheds), Hid.
  pose proof (StartServer_empty starts target m1 p s1 Hok1 Ht Hf1 Hk1 Hp1 Hnone
    ltac:(by rewrite (sh_basedir _ _ _ Hsheds))) as Hstart.
  pose proof (steps_ok _ _ (StartServer_steps logsDir alive starts target m1) Hok1) as Hok'.
  destruct (StartServer logsDir alive starts target m1) as [err m']. cbv zeta in Hstart.
  rewrite (sh_next _ _ _ Hsheds), Htemplate in Hstart.
  destruct Hstart as (rec & [(s' & Hs' & Hids) Hbyid Hlive Hrec Hown Hrecs] & Hfresh). split.
  - intros i Hi Hin. assert (i <> nextInstanceID m) as Hne.
    { pose proof (proj2 (ro_server _ _ Hok _ _ Hp)) as Hsk.
      assert (i ∈ instancesByID m) as Him
        by (apply (ro_owned _ _ Hok); exists p; by apply (sk_owner _ _ _ Hsk)).
      apply (ro_live _ _ Hok) in Him as [r Hr]. apply (ro_inst _ _ Hok) in Hr as (_ & Hlt & _). lia. }
    apply (Hgone i Hi), (ro_owned _ _ Hok1). rewrite <- Hown by done. by apply (ro_owned _ _ Hok').
  - exists p, s', rec. cbv zeta. split_and!; try done.
    { by rewrite Hbyid, (sh_byid _ _ _ Hsheds). }
    intros j Hj Hne. rewrite Hown, Hrecs, (sh_record _ _ _ Hsheds) by done. split; [|done].
    by destruct (sh_owner _ _ _ Hsheds j) as [?|[? _]].
Qed.

(** C5.  Restarting a server, whatever its processes do.  When an instance cannot be stopped,
the error is reported and nothing is started.  Otherwise none of the instances the server had
is registered any more, and the server, found under the same id, has exactly one instance, with
a new id and the launch of the server's template: its process runs with the state of any
earlier run cleared and the restart reports success, or it has no process, keeps the reason
and the restart reports it.  Apart from the instances the server had, no instance changes its
owner or its record. *)
Theorem RestartServer_replaces stops starts killAfter target m s :
  reg_ok m -> 0 < target -> findServerByIndexLocked target m = Ok s ->
  runtimeBasedir m <> ""%string ->
  let '(stopped, m1) := StopServer alive stops killAfter target m in
  let '(err, m') := RestartServer logsDir alive stops starts killAfter target m in
  match stopped with
  | None | Some errAlreadyStopped => replaced s starts err m m'
  | Some e => err = Some e /\ m' = m1
  end.
Proof.
  intros Hok Ht Hf Hbase.
  pose proof (StopServer_removes alive stops killAfter target m s Hok Ht Hf) as Hstop.
  pose proof (sheds_StopServer stops killAfter target m s Hok Hf) as Hsheds.
  pose proof (steps_ok _ _ (StopServer_steps alive stops killAfter target m) Hok) as Hok1.
  unfold RestartServer. rewrite (proj2 (Z.leb_gt _ _)) by lia.
  destruct (StopServer alive stops killAfter target m) as [stopped m1]. cbn [snd] in Hsheds, Hok1.
  assert (stopped = None \/ stopped = Some errAlreadyStopped ->
    let '(err, m') := StartServer logsDir alive starts target m1 in replaced s starts err m m') as Hstart.
  { intros Hs. apply StartServer_replaces; auto. by apply Hstop. }
  destruct stopped as [[]|]; first [by apply Hstart; auto|done].
Qed.
End Restart.

(** * A concrete restart *)

(** Quits when told to; the next process is started with the same pid. *)
Definition quits : Z -> stopEnv :=
  fun _ => mkStopEnv (processDone (Some exitError)) false timerFired false timerFired.

Lemma RestartServer_replaces_witness :
  exists m', RestartServer (H := plain_unicode) "/logs" lifeAlive quits (fun _ => lifeStart) (2 * second) 1
      lifeRunning = (None, m') /\
    0 ∉ instancesByID m' /\ 1 ∈ instancesByID m' /\
    exists rec, instances m' !! 1 = Some rec /\ Launch rec = sampleLaunch.
Proof.
  assert (exists s, findServerByIndexLocked 1 lifeRunning = Ok s /\ InstanceIDs s = [0] /\
            TemplateLaunch s = sampleLaunch) as (s & Hs & Hi & Ht)
    by (eexists; split; [vm_compute; reflexivity|split; reflexivity]).
  pose proof (RestartServer_replaces (H := plain_unicode) "/logs" lifeAlive quits (fun _ => lifeStart)
    (2 * second) 1 lifeRunning s lifeRunning_ok ltac:(lia) Hs ltac:(done)) as T.
  assert (fst (StopServer (H := plain_unicode) lifeAlive quits (2 * second) 1 lifeRunning) = None) as He
    by (vm_compute; reflexivity).
  assert (fst (RestartServer (H := plain_unicode) "/logs" lifeAlive quits (fun _ => lifeStart)
            (2 * second) 1 lifeRunning) = None) as Hr by (vm_compute; reflexivity).
  destruct (StopServer (H := plain_unicode) lifeAlive quits (2 * second) 1 lifeRunning) as [stopped m1].
  destruct (RestartServer (H := plain_unicode) _ _ _ _ _ _ _) as [err m'].
  cbn [fst] in He, Hr. subst stopped err. exists m'. split; [reflexivity|].
  destruct T as (Hgone & p & s' & rec & _ & _ & _ & _ & _ & Hlive & Hrec & (Hlaunch & _) & _).
  change (nextInstanceID lifeRunning) with 1 in *.
  split; [apply Hgone; rewrite Hi; apply list_elem_of_singleton; reflexivity|].
  split; [exact Hlive|]. exists rec. split; [exact Hrec|]. by rewrite Hlaunch.
Defined.
