(* ===== verification/Slist.v ===== *)
(** The server list and the server-info poller: internal/orch/slist.go.

    Datagrams are byte lists.  A Go map is iterated in an arbitrary order that changes from one
    iteration to the next: the order in which the poller sees the ports is an argument. *)
From S2P Require Import Prelude GoStrings LaunchPlan Registry Autoscale Snapshot Lifecycle.

(** * The CCREQ and CCREP datagrams *)

Definition netFlagLengthMask : Z := 0x0000ffff.
Definition netFlagCtl : Z := 0x80000000.
Definition netProtocolVersion : Z := 3.
Definition ccreqServerInfo : Z := 0x02.
Definition ccrepServerInfo : Z := 0x83.

(** slist.go [appendCString] *)
Definition appendCString (buf : bytes) (s : string) : bytes := buf ++ blist s ++ [byte_of 0].

(** slist.go [buildCCREQServerInfo] *)
Definition buildCCREQServerInfo : bytes :=
  let buf := [byte_of 0; byte_of 0; byte_of 0; byte_of 0] in
  let buf := buf ++ [byte_of ccreqServerInfo] in
  let buf := appendCString buf "QUAKE" in
  let buf := buf ++ [byte_of netProtocolVersion] in
  let control := Z.lor netFlagCtl (Z.of_nat (length buf)) in
  put32 control ++ drop 4 buf.

(** slist.go [readCString], from the bytes at [start] on: the string and the bytes after its
    terminator. *)
Definition readCString (rest : bytes) : option (string * bytes) :=
  match cut_byte (byte_of 0) rest with
  | Some (s, rest) => Some (btext s, rest)
  | None => None
  end.

Record serverInfo := mkInfo {
  siHostname : string; siMapName : string; siPlayers : byte; siMaxPlayers : byte;
  siProtocol : byte }.

(** slist.go [parseCCREPServerInfo] *)
Definition parseCCREPServerInfo (payload : bytes) : option serverInfo :=
  match payload with
  | b0 :: b1 :: b2 :: b3 :: kind :: rest =>
      let control := be32 b0 b1 b2 b3 in
      if negb (Z.ldiff control netFlagLengthMask =? netFlagCtl)
         || negb (Z.land control netFlagLengthMask =? Z.of_nat (length payload))
         || negb (byteZ kind =? ccrepServerInfo)
      then None else
      let? (_, rest) := readCString rest in
      let? (hostname, rest) := readCString rest in
      let? (mapName, rest) := readCString rest in
      match rest with
      | players :: maxPlayers :: protocol :: _ =>
          if byteZ protocol =? netProtocolVersion
          then Some (mkInfo hostname mapName players maxPlayers protocol) else None
      | _ => None
      end
  | _ => None
  end.

(** * The server list *)

Definition hostcacheNameMax : Z := 23.
Definition hostcacheFieldMax : Z := 15.

(** slist.go [serverListEntry] *)
Record serverListEntry := mkEntry {
  eListenPort : Z; eHostname : string; eMapName : string; eGameDir : string;
  eUsers : Z; eMaxUsers : Z; eInstances : Z }.
#[export] Instance eta_entry : EtaRecord serverListEntry := fun e =>
  mkEntry (eListenPort e) (eHostname e) (eMapName e) (eGameDir e) (eUsers e) (eMaxUsers e)
    (eInstances e).

(** slist.go [truncateSlistField] *)
Definition truncateSlistField (s : string) (maxBytes : Z) : string :=
  if len s <=? maxBytes then s else btext (take (Z.to_nat maxBytes) (blist s)).

(** slist.go [normalizeServerListEntry] *)
Definition normalizeServerListEntry (e : serverListEntry) : serverListEntry :=
  let orElse (s d : string) := if (s =? "")%string then d else s in
  e <| eHostname := truncateSlistField (orElse (eHostname e) "UNNAMED") hostcacheNameMax |>
    <| eMapName := truncateSlistField (orElse (eMapName e) "?") hostcacheFieldMax |>
    <| eGameDir := truncateSlistField (orElse (eGameDir e) "id1") hostcacheFieldMax |>.

(** slist.go [SlistEntry], the client-facing shape *)
Record SlistEntry := mkSlistEntry {
  sePort : Z; seHostname : string; seMap : string; seGameDir : string;
  seUsers : Z; seMaxUsers : Z; seInstances : Z }.

(** slist.go [slistEntriesFrom] *)
Definition slistEntriesFrom (entries : list serverListEntry) : list SlistEntry :=
  omap (fun e =>
    if (eListenPort e <=? 0) || (65535 <? eListenPort e) then None else
    let e := normalizeServerListEntry e in
    Some (mkSlistEntry (eListenPort e) (eHostname e) (eMapName e) (eGameDir e)
            (eUsers e) (eMaxUsers e) (eInstances e))) entries.

Section Slist.
Variable logsDir : string.
Context `{GoUnicode}.
Variable alive : Z -> bool.

(** The loop of slist.go [serverListEntriesLocked]: routing a server's pick moves its cursor. *)
Fixpoint listEntries (ss : list server) (m : ServerManager)
  : list serverListEntry * ServerManager :=
  match ss with
  | [] => ([], m)
  | s :: ss =>
    if aggregateInstances s =? 0 then listEntries ss m else
    let '(port, s') := pickServerInstance alive m s true in
    let m := match serversByID m !! ServerID s with
             | Some p => updServer p (fun _ => s') m
             | None => m
             end in
    match port with
    | None => listEntries ss m
    | Some port =>
        let '(out, m) := listEntries ss m in
        (mkEntry port (DisplayHostname s) (DisplayMap s) (DisplayGameDir s) (joinableUsers s)
           (joinableMaxUsers s) (if Autoscales s then joinableInstances s else 0) :: out, m)
    end
  end.

(** slist.go [serverListEntriesLocked] *)
Definition serverListEntriesLocked (m : ServerManager) : list serverListEntry * ServerManager :=
  listEntries (serversLocked m) m.

(** The comparison of slist.go [snapshotForSlist] *)
Definition entryLe (a b : serverListEntry) : Prop :=
  match String.compare (ToLower (eHostname a)) (ToLower (eHostname b)) with
  | Lt => True
  | Gt => False
  | Eq => eListenPort a <= eListenPort b
  end.
#[local] Instance entryLe_dec a b : Decision (entryLe a b).
Proof. unfold entryLe. destruct (String.compare _ _); apply _. Defined.

(** slist.go [snapshotForSlist], [SlistEntries] *)
Definition snapshotForSlist (m : ServerManager) : list serverListEntry * ServerManager :=
  let '(out, m) := serverListEntriesLocked m in (merge_sort entryLe out, m).
Definition SlistEntries (m : ServerManager) : list SlistEntry * ServerManager :=
  let '(out, m) := snapshotForSlist m in (slistEntriesFrom out, m).

(** * The poller *)

Definition serverInfoPollStep : Z := 500 * 10 ^ 6.

(** slist.go [fillRunningPortsLocked], in the order of the model's map *)
Definition portRunning (m : ServerManager) (port : Z) : bool :=
  (1 <=? port) && (port <=? 65535)
  && existsb (fun i => bool_decide (is_Some (runningByID alive m i))) (idsAtPort m port).
Definition fillRunningPortsLocked (m : ServerManager) : list Z :=
  List.filter (portRunning m) (map fst (map_to_list (instanceIDsByPort m))).

(** The choice of a tick of slist.go [pollLoop]: the port polled and the next index. *)
Definition pollNext (ports : list Z) (rrNext : Z) : option Z * Z :=
  match ports with
  | [] => (None, rrNext)
  | _ =>
    let rrNext := if Z.of_nat (length ports) <=? rrNext then 0 else rrNext in
    (ports !! Z.to_nat rrNext, rrNext + 1)
  end.

(** slist.go [readLoop] on a datagram from [port] *)
Definition readDatagram (env : reconcileEnv) (port : Z) (payload : bytes) (m : ServerManager)
  : list (string * option Z) * ServerManager :=
  if (port <? 1) || (65535 <? port) then ([], m) else
  match parseCCREPServerInfo payload with
  | None => ([], m)
  | Some i => updateGameState logsDir alive env port (siHostname i) (siMapName i)
              (byteZ (siPlayers i)) (byteZ (siMaxPlayers i)) m
  end.
End Slist.

(** * Facts *)

Lemma cut_byte_Some b l x y : cut_byte b l = Some (x, y) <-> l = x ++ b :: y /\ b ∉ x.
Proof. split; [apply cut_byte_spec|]. intros [-> Hx]. by apply cut_byte_app. Qed.

Lemma readCString_Some l s rest :
  readCString l = Some (s, rest) <-> l = blist s ++ byte_of 0 :: rest /\ byte_of 0 ∉ blist s.
Proof.
  unfold readCString. destruct (cut_byte (byte_of 0) l) as [[x y]|] eqn:Hc.
  - apply cut_byte_Some in Hc as [-> Hx]. split.
    + intros [= <- <-]. by rewrite blist_btext.
    + intros [Hl Hs]. enough (cut_byte (byte_of 0) (x ++ byte_of 0 :: y) = Some (blist s, rest)) as Hc.
      { rewrite (proj2 (cut_byte_Some _ _ _ _) (conj eq_refl Hx)) in Hc. injection Hc as -> ->.
        by rewrite btext_blist. }
      by apply cut_byte_Some.
  - split; [done|]. intros Hl. apply cut_byte_Some in Hl. congruence.
Qed.

Lemma control_word c n :
  0 <= c < 2 ^ 32 -> 0 <= n ->
  (Z.ldiff c netFlagLengthMask = netFlagCtl /\ Z.land c netFlagLengthMask = n) <->
  c = netFlagCtl + n /\ n < 2 ^ 16.
Proof.
  intros Hc Hn. change netFlagLengthMask with (Z.ones 16).
  rewrite Z.ldiff_ones_r, Z.land_ones, Z.shiftl_mul_pow2, Z.shiftr_div_pow2 by lia.
  unfold netFlagCtl. change (2 ^ 16) with 65536. change (2 ^ 32) with 4294967296 in Hc.
  Z.to_euclidean_division_equations. lia.
Qed.

(** A server-info reply: the bytes that follow its first five. *)
Definition replyBody (address : string) (i : serverInfo) : bytes :=
  blist address ++ byte_of 0 :: blist (siHostname i) ++ byte_of 0 :: blist (siMapName i)
    ++ [byte_of 0; siPlayers i; siMaxPlayers i; siProtocol i].

(** C36.  The parser accepts exactly the well-formed replies: a control word with the datagram's
    own length, the reply code, three strings each up to its first zero byte, two counts and
    protocol 3, whatever follows; and it returns their fields. *)
Theorem parseCCREPServerInfo_iff payload i :
  parseCCREPServerInfo payload = Some i <->
  exists address trailing,
    payload = put32 (netFlagCtl + Z.of_nat (length payload)) ++ byte_of ccrepServerInfo
              :: replyBody address i ++ trailing /\
    Z.of_nat (length payload) < 2 ^ 16 /\ byteZ (siProtocol i) = netProtocolVersion /\
    byte_of 0 ∉ blist address /\ byte_of 0 ∉ blist (siHostname i) /\
    byte_of 0 ∉ blist (siMapName i).
Proof.
  unfold parseCCREPServerInfo. split.
  - destruct payload as [|b0 [|b1 [|b2 [|b3 [|kind rest]]]]]; try done.
    set (payload := b0 :: _). destruct (_ || _) eqn:Hhd; [done|]. bool_prop.
    destruct (proj1 (control_word (be32 b0 b1 b2 b3) (Z.of_nat (length payload))
      (be32_range _ _ _ _) ltac:(lia))) as [Hc Hlen]; [done|].
    destruct (readCString rest) as [[address r1]|] eqn:HR1; [|done].
    destruct (readCString r1) as [[hostname r2]|] eqn:HR2; [|done].
    destruct (readCString r2) as [[mapName r3]|] eqn:HR3; [|done].
    destruct r3 as [|pl [|mx [|proto tail]]]; try done.
    destruct (Z.eqb_spec (byteZ proto) netProtocolVersion) as [Hproto|]; [|done].
    intros [= <-]. apply readCString_Some in HR1 as [-> Ha], HR2 as [-> Hh], HR3 as [-> Hm].
    exists address, tail. cbn [siProtocol siHostname siMapName]. split_and!; try done.
    rewrite <- Hc, put32_be32. unfold payload, replyBody. cbn.
    assert (kind = byte_of ccrepServerInfo) as -> by (by apply byteZ_inj; rewrite byteZ_of).
    do 5 f_equal. by rewrite <- !app_assoc, !app_comm_cons, <- !app_assoc.
  - intros (address & tail & Hp & Hlen & Hproto & Ha & Hh & Hm).
    set (n := Z.of_nat (length payload)) in *. unfold put32 in Hp. cbn [app] in Hp. rewrite Hp.
    assert (0 <= n) by lia.
    assert (netFlagCtl + n < 2 ^ 32) by (unfold netFlagCtl; lia).
    destruct (proj2 (control_word (netFlagCtl + n) n ltac:(unfold netFlagCtl; lia) ltac:(done)))
      as [Hc1 Hc2]; [done|].
    rewrite be32_put32 by (unfold netFlagCtl; lia). rewrite Hc1, Hc2.
    rewrite byteZ_of. change (wrap8 ccrepServerInfo) with ccrepServerInfo. rewrite !Z.eqb_refl. cbn [negb orb].
    unfold replyBody. rewrite <- ?app_assoc. cbn [app]. rewrite <- ?app_assoc. cbn [app].
    rewrite (proj2 (readCString_Some _ _ _) (conj eq_refl Ha)).
    rewrite <- ?app_assoc. cbn [app]. rewrite (proj2 (readCString_Some _ _ _) (conj eq_refl Hh)).
    rewrite <- ?app_assoc. cbn [app]. rewrite (proj2 (readCString_Some _ _ _) (conj eq_refl Hm)).
    rewrite Hproto, Z.eqb_refl. by destruct i.
Qed.

(** ** Listing *)

(** The entry of a server, and whether it has one. *)
Definition entryOf (alive : Z -> bool) (m : ServerManager) (s : server) : option serverListEntry :=
  if aggregateInstances s =? 0 then None else
  match fst (pickServerInstance alive m s true) with
  | None => None
  | Some port =>
      Some (mkEntry port (DisplayHostname s) (DisplayMap s) (DisplayGameDir s) (joinableUsers s)
              (joinableMaxUsers s) (if Autoscales s then joinableInstances s else 0))
  end.

(** A listed server's cursor advances. *)
Definition bumped (alive : Z -> bool) (m : ServerManager) (s : server) : server :=
  match entryOf alive m s with
  | Some _ => s <| RoundRobinCursor ::= Z.add 1 |>
  | None => s
  end.

Lemma ServerID_bumped alive m s : ServerID (bumped alive m s) = ServerID s.
Proof. unfold bumped. by destruct (entryOf alive m s). Qed.

Lemma pickServerInstance_bump alive m s :
  0 <= RoundRobinCursor s ->
  snd (pickServerInstance alive m s true)
  = match fst (pickServerInstance alive m s true) with
    | Some _ => s <| RoundRobinCursor ::= Z.add 1 |>
    | None => s
    end.
Proof.
  intros Hc. rewrite pickServerInstance_index by done. cbv zeta. cbn [fst snd].
  set (best := leastLoaded (routableTo alive m s)).
  case_bool_decide as Hb; [by rewrite Hb|].
  assert (0 < Z.of_nat (length best)) by (destruct best; [done|cbn; lia]).
  destruct (lookup_lt_is_Some_2 best (Z.to_nat (RoundRobinCursor s mod Z.of_nat (length best))))
    as [c ->]; [|done].
  pose proof (Z.mod_pos_bound (RoundRobinCursor s) (Z.of_nat (length best))). lia.
Qed.

Lemma pickServerInstance_servers alive m f s a :
  pickServerInstance alive (m <| servers ::= f |>) s a = pickServerInstance alive m s a.
Proof. done. Qed.

(** The loop's state never differs from the start but in the server objects. *)
Lemma listEntries_step alive s ss f m :
  0 <= RoundRobinCursor s ->
  exists g, listEntries alive (s :: ss) (m <| servers ::= f |>) =
    (let '(out, m') := listEntries alive ss (m <| servers ::= g |>) in
     (match entryOf alive m s with Some e => e :: out | None => out end, m')) /\
    g (servers m) = match serversByID m !! ServerID s with
                    | Some p => if aggregateInstances s =? 0 then f (servers m)
                                else alter (fun _ => bumped alive m s) p (f (servers m))
                    | None => f (servers m)
                    end.
Proof.
  intros Hc. cbn [listEntries]. unfold bumped, entryOf.
  destruct (aggregateInstances s =? 0).
  { exists f. split; [|by destruct (serversByID m !! ServerID s)].
    by destruct (listEntries alive ss (m <| servers ::= f |>)). }
  rewrite (pickServerInstance_servers alive m f s true).
  pose proof (pickServerInstance_bump alive m s Hc) as Hb.
  destruct (pickServerInstance alive m s true) as [port s']. cbn [fst snd] in *. subst s'.
  change (serversByID (m <| servers ::= f |>)) with (serversByID m).
  destruct (serversByID m !! ServerID s) as [p|], port as [port|].
  - exists (fun x => alter (fun _ => s <| RoundRobinCursor ::= Z.add 1 |>) p (f x)). by split.
  - exists (fun x => alter (fun _ => s) p (f x)). split; [|done]. by destruct (listEntries _ _ _).
  - exists f. by split.
  - exists f. split; [|done]. by destruct (listEntries _ _ _).
Qed.

Lemma serversLocked_NoDup m : reg_ok m -> NoDup (ServerID <$> serversLocked m).
Proof.
  intros Hok.
  assert (forall s, s ∈ serversLocked m -> registered m s) as Hreg
    by (intros s; by apply serversLocked_elem).
  assert (NoDup (sLine <$> serversLocked m)) as Hnd.
  { unfold serversLocked. rewrite merge_sort_Permutation.
    apply omap_sLine_NoDup; [done|apply NoDup_fst_map_to_list|]. by intros [k p] ?%elem_of_map_to_list. }
  apply (NoDup_fmap_1 (fun l => l - 1)). rewrite <- list_fmap_compose.
  replace (((fun l => l - 1) ∘ ServerID) <$> serversLocked m) with (sLine <$> serversLocked m); [done|].
  apply list_fmap_ext. intros j s Hs. cbn. apply list_elem_of_lookup_2, Hreg in Hs as (p & _ & Hs).
  apply (ro_server _ _ Hok) in Hs as [_ Hs]. pose proof (sk_line _ _ _ Hs). lia.
Qed.

Lemma listEntries_spec alive m : forall ss f,
  (forall s, s ∈ ss -> registered m s /\ 0 <= RoundRobinCursor s) ->
    NoDup (ServerID <$> ss) ->
    (forall s p, s ∈ ss -> serversByID m !! ServerID s = Some p -> f (servers m) !! p = Some s) ->
    let '(entries, m') := listEntries alive ss (m <| servers ::= f |>) in
    entries = omap (entryOf alive m) ss /\
    exists g, m' = m <| servers ::= g |> /\
    forall p s, serversByID m !! ServerID s = Some p -> f (servers m) !! p = Some s ->
       g (servers m) !! p = Some (if bool_decide (ServerID s ∈ ServerID <$> ss)
                                  then bumped alive m s else s).
Proof.
  induction ss as [|s ss IH]; intros f Hss Hns Hf.
  { split; [done|]. exists f. split; [done|]. intros p s _ Hs.
    by rewrite bool_decide_false by apply not_elem_of_nil. }
  destruct (Hss s ltac:(left)) as [(p0 & Hp0 & _) Hc0].
  apply NoDup_cons in Hns as [Hni Hns].
  destruct (listEntries_step alive s ss f m Hc0) as (g & -> & Hg). rewrite Hp0 in Hg.
  assert (forall p s', serversByID m !! ServerID s' = Some p -> ServerID s' <> ServerID s ->
            f (servers m) !! p = Some s' -> g (servers m) !! p = Some s') as Hkeep.
  { intros p s' Hp Hne Hs'. rewrite Hg. destruct (aggregateInstances s =? 0); [done|].
    rewrite lookup_alter_ne; [done|]. intros <-. pose proof (Hf s p0 ltac:(left) Hp0). congruence. }
  specialize (IH g ltac:(set_solver) Hns).
  destruct (listEntries alive ss (m <| servers ::= g |>)) as [out m'].
  destruct IH as (-> & h & -> & Hh).
  { intros s' p Hs' Hp. apply Hkeep; [done| |apply Hf; [by right|done]].
    intros He. apply Hni. rewrite <- He. by apply list_elem_of_fmap_2. }
  split; [cbn; by destruct (entryOf alive m s)|]. exists h. split; [done|].
  intros p s' Hp Hs'. destruct (decide (ServerID s' = ServerID s)) as [He|Hne].
  - assert (p = p0) as -> by congruence.
    assert (s' = s) as -> by (pose proof (Hf s p0 ltac:(left) Hp0); congruence).
    rewrite bool_decide_true by (cbn; left).
    rewrite <- (ServerID_bumped alive m s) in Hp at 1.
    rewrite (Hh p0 (bumped alive m s)); [|done|].
    + by rewrite ServerID_bumped, bool_decide_false.
    + rewrite Hg. destruct (Z.eqb_spec (aggregateInstances s) 0) as [Hz|].
      * unfold bumped, entryOf. by rewrite Hz.
      * by rewrite lookup_alter_eq, Hs'.
  - rewrite (Hh p s' Hp) by (by apply Hkeep). cbn [fmap list_fmap].
    by rewrite (bool_decide_ext (ServerID s' ∈ ServerID s :: (ServerID <$> ss))
      (ServerID s' ∈ ServerID <$> ss)) by (rewrite elem_of_cons; tauto).
Qed.

(** The server list has an entry for each server with a running instance that can be
    routed to, and for no other, in the order of the lines: listing one server does not affect
    the entry of another.  Listing is not a pure read, however: it advances the routing cursor
    of every listed server. *)
Theorem serverListEntriesLocked_entries alive m :
  reg_ok m ->
  let '(entries, m') := serverListEntriesLocked alive m in
  entries = omap (entryOf alive m) (serversLocked m) /\
  instances m' = instances m /\ serversByID m' = serversByID m /\
  (forall p s, servers m !! p = Some s -> serversByID m !! ServerID s = Some p ->
     servers m' !! p = Some (match entryOf alive m s with
                             | Some _ => s <| RoundRobinCursor ::= Z.add 1 |>
                             | None => s
                             end)).
Proof.
  intros Hok. unfold serverListEntriesLocked.
  assert (forall s, s ∈ serversLocked m -> registered m s) as Hreg
    by (intros s; by apply serversLocked_elem).
  pose proof (listEntries_spec alive m (serversLocked m) (fun x => x)) as Hall. cbv beta in Hall.
  replace (m <| servers ::= fun x => x |>) with m in Hall by (by destruct m).
  destruct (listEntries alive (serversLocked m) m) as [entries m'].
  destruct Hall as (-> & g & -> & Hg).
  - intros s Hs. split; [by apply Hreg|]. destruct (Hreg s Hs) as (p & _ & Hp).
    apply (ro_server _ _ Hok) in Hp as [_ Hp]. apply (sk_cursor _ _ _ Hp).
  - by apply serversLocked_NoDup.
  - intros s p Hs Hp. destruct (Hreg s Hs) as (q & Hq & Hsq). congruence.
  - split_and!; [done..|]. intros p s Hs Hp. cbn. rewrite (Hg p s Hp Hs).
    rewrite bool_decide_true; [done|]. apply list_elem_of_fmap_2, serversLocked_elem; [done|].
    by exists p.
Qed.

(** ** Client-facing entries *)

Lemma truncateSlistField_len s n : 0 <= n -> len (truncateSlistField s n) <= n.
Proof.
  intros Hn. unfold truncateSlistField. destruct (Z.leb_spec (len s) n); [done|].
  unfold len. rewrite blist_btext, length_take. lia.
Qed.

(** What reaches a client fits the fields of its host cache: every port is valid, the name
    is at most 23 bytes and the map and game directory at most 15, and none of the three is
    empty. *)
Theorem slistEntriesFrom_bounds entries :
  Forall (fun e => 1 <= sePort e <= 65535 /\
    1 <= len (seHostname e) <= hostcacheNameMax /\ 1 <= len (seMap e) <= hostcacheFieldMax /\
    1 <= len (seGameDir e) <= hostcacheFieldMax) (slistEntriesFrom entries).
Proof.
  apply Forall_forall. intros e He. apply list_elem_of_omap in He as (x & _ & Hx).
  destruct (_ || _) eqn:Hr; [done|]. bool_prop. injection Hx as <-.
  assert (forall s d n, d <> ""%string -> 0 < n ->
    1 <= len (truncateSlistField (if (s =? "")%string then d else s) n) <= n) as Hf.
  { intros s d n Hd Hn. split; [|apply truncateSlistField_len; lia].
    set (t := if (s =? "")%string then d else s).
    assert (t <> ""%string) as Ht by (unfold t; destruct (String.eqb_spec s ""); done).
    assert (1 <= len t) by (destruct t; [done|cbn; unfold len; cbn; lia]).
    unfold truncateSlistField. destruct (Z.leb_spec (len t) n); [done|].
    unfold len in *. rewrite blist_btext, length_take. lia. }
  cbn. split_and!; try lia; by apply Hf.
Qed.

(** ** Polling *)

(** The ports of consecutive ticks, the map of ports being iterated in the given orders. *)
Fixpoint pollPorts (orders : list (list Z)) (rrNext : Z) : list (option Z) :=
  match orders with
  | [] => []
  | ports :: orders => let '(port, rrNext) := pollNext ports rrNext in
                       port :: pollPorts orders rrNext
  end.

Lemma pollPorts_stable ports k : forall rr,
  0 <= rr <= Z.of_nat (length ports) -> ports <> [] ->
  pollPorts (repeat ports k) rr
  = (fun j => ports !! Z.to_nat (j mod Z.of_nat (length ports))) <$> seqZ rr (Z.of_nat k).
Proof.
  induction k as [|k IH]; intros rr Hrr Hne; [done|]. cbn [repeat pollPorts].
  assert (0 < Z.of_nat (length ports)) as Hpos by (destruct ports; [done|cbn; lia]).
  set (n := Z.of_nat (length ports)) in *.
  assert (pollNext ports rr = (ports !! Z.to_nat (rr mod n), (if n <=? rr then 0 else rr) + 1)) as ->.
  { unfold pollNext. fold n. destruct ports as [|p ports]; [done|]. do 3 f_equal.
    destruct (Z.leb_spec n rr); [|by rewrite Z.mod_small by lia].
    replace rr with n by lia. by rewrite Z.mod_same by lia. }
  rewrite seqZ_cons by lia. cbn [fmap list_fmap]. f_equal.
  replace (Z.pred (Z.of_nat (S k))) with (Z.of_nat k) by lia. unfold Z.succ.
  destruct (Z.leb_spec n rr); [|apply IH; [lia|done]].
  rewrite IH by (lia || done). replace rr with n by lia.
  apply list_eq. intros i. rewrite !list_lookup_fmap.
  destruct (decide (Z.of_nat i < Z.of_nat k)); [|by rewrite !lookup_seqZ_ge by lia].
  rewrite !lookup_seqZ_lt by lia. cbn. do 2 f_equal.
  replace (n + 1 + Z.of_nat i) with (0 + 1 + Z.of_nat i + 1 * n) by lia. by rewrite Z.mod_add by lia.
Qed.

(** Polling is fair only while the order of the ports is: over [n] ticks that iterate the
    ports in one order each of the [n] ports is polled exactly once, but Go's map order may
    change at every tick, and then one of two ports may be polled forever and the other never. *)
Theorem poll_order_matters :
  (forall ports rr, ports <> [] -> 0 <= rr <= Z.of_nat (length ports) ->
     pollPorts (repeat ports (length ports)) rr ≡ₚ Some <$> ports) /\
  (forall a b k, exists orders, length orders = k /\ Forall (fun o => o ≡ₚ [a; b]) orders /\
     pollPorts orders 0 = repeat (Some a) k).
Proof.
  split.
  - intros ports rr Hne Hrr. rewrite pollPorts_stable by done.
    rewrite lookup_mod_rotate by (lia || done). by rewrite rotate_Permutation.
  - intros a b k.
    assert (forall k, exists orders, length orders = k /\ Forall (fun o => o ≡ₚ [a; b]) orders /\
      (pollPorts orders 0 = repeat (Some a) k /\ True) /\
      exists orders', length orders' = k /\ Forall (fun o => o ≡ₚ [a; b]) orders' /\
        pollPorts orders' 1 = repeat (Some a) k /\
      exists orders'', length orders'' = k /\ Forall (fun o => o ≡ₚ [a; b]) orders'' /\
        pollPorts orders'' 2 = repeat (Some a) k) as Hall.
    { clear k. induction k as [|k (o0 & L0 & F0 & [P0 _] & o1 & L1 & F1 & P1 & o2 & L2 & F2 & P2)].
      { exists []. split_and!; try done. exists []. split_and!; try done. by exists []. }
      exists ([a; b] :: o1). split_and!; [by rewrite <- L1|by constructor| |done|].
      { change (pollPorts ([a; b] :: o1) 0) with (Some a :: pollPorts o1 1). by rewrite P1. }
      exists ([b; a] :: o2). split_and!; [by rewrite <- L2|constructor; [apply Permutation_swap|done]| |].
      { change (pollPorts ([b; a] :: o2) 1) with (Some a :: pollPorts o2 2). by rewrite P2. }
      exists ([a; b] :: o1). split_and!; [by rewrite <- L1|by constructor|].
      change (pollPorts ([a; b] :: o1) 2) with (Some a :: pollPorts o1 1). by rewrite P1. }
    destruct (Hall k) as (o & ? & ? & [? _] & _). by exists o.
Qed.

(** * Concrete replies *)

Definition sampleReply : bytes :=
  let body := replyBody "10.0.0.1:26000" (mkInfo "Quake" "e1m1" (byte_of 2) (byte_of 8) (byte_of 3)) in
  put32 (netFlagCtl + (5 + Z.of_nat (length body))) ++ byte_of ccrepServerInfo :: body.

Example buildCCREQServerInfo_bytes :
  map byteZ buildCCREQServerInfo = [128; 0; 0; 12; 2; 81; 85; 65; 75; 69; 0; 3].
Proof. reflexivity. Qed.

Lemma parseCCREPServerInfo_iff_witness :
  parseCCREPServerInfo sampleReply
  = Some (mkInfo "Quake" "e1m1" (byte_of 2) (byte_of 8) (byte_of 3)).
Proof.
  apply parseCCREPServerInfo_iff. exists "10.0.0.1:26000"%string, [].
  assert (forall l : bytes, bool_decide (byte_of 0 ∈ l) = false -> byte_of 0 ∉ l) as Hnot
    by (intros l Hl; exact (bool_decide_eq_false_1 _ Hl)).
  split_and!; try reflexivity; apply Hnot; vm_compute; reflexivity.
Defined.

Lemma serverListEntriesLocked_entries_witness :
  let '(entries, m') := serverListEntriesLocked sampleAlive sampleManager in
  entries = [mkEntry 26000 "Quake" "" "" 2 8 1] /\ instances m' = instances sampleManager.
Proof.
  pose proof (serverListEntriesLocked_entries sampleAlive sampleManager sampleManager_ok) as T.
  destruct (serverListEntriesLocked sampleAlive sampleManager) as [entries m'].
  destruct T as (-> & HI & _). split; [vm_compute; reflexivity|exact HI].
Defined.

Lemma poll_order_matters_witness :
  pollPorts (repeat [26000; 26001] 2) 1 ≡ₚ [Some 26000; Some 26001].
Proof. apply (proj1 poll_order_matters [26000; 26001] 1); [discriminate|cbn; lia]. Defined.
