(* ===== verification/Poller.v ===== *)
(** The goroutines of the server-info poller: internal/orch/slist.go [StartInfoPoller], [Start],
    [Stop], [pollLoop] and [readLoop].

    The two loops share one UDP socket and run until the context is done or the socket is closed.
    They, [Stop], the cancellation of the context and the rest of the program interleave; each
    critical section, each blocking call and each datagram is a step. *)
From S2P Require Import Prelude GoStrings LaunchPlan Registry Autoscale Snapshot Lifecycle Slist.

(** Where [pollLoop] is: before the first polls, with ports left to poll first, in the select,
    past the reconciliation of a tick, about to poll a port, returned. *)
Inductive pollPhase :=
  | toPrime | priming (ports : list Z) | atSelect (rrNext : Z) | toFill (rrNext : Z)
  | toPoll (port rrNext : Z) | pollDone.

(** The datagrams that left the socket and those that [readLoop] took from it. *)
Inductive traffic := sentTo (port : Z) (req : bytes) | takenFrom (port : Z) (payload : bytes).

(** The poller and the manager it serves; [pConnClosed] is the state of the socket, [pCtxDone]
    that of the context. *)
Record serverInfoPoller := mkPoller {
  pPolling : pollPhase; pReading : bool; pConnClosed : bool; pCtxDone : bool;
  pMgr : ServerManager; pTraffic : list traffic }.
#[export] Instance eta_poller : EtaRecord serverInfoPoller := fun p =>
  mkPoller (pPolling p) (pReading p) (pConnClosed p) (pCtxDone p) (pMgr p) (pTraffic p).

(** What the system does at a step of [pollLoop]: which processes are alive, the answers to a
    reconciliation, the order the map of ports is iterated in, whether the select takes
    [ctx.Done] when it may, whether the socket, if open, sends. *)
Record pollEnv := mkPollEnv {
  peAlive : Z -> bool; peReconcile : reconcileEnv; peOrder : list Z -> list Z;
  peDone : bool; peSends : bool }.

(** An iteration of a Go map visits each key once. *)
Definition orderly (e : pollEnv) : Prop := forall l, peOrder e l ≡ₚ l.

(** What a read of the open socket returns: a datagram, or an error, a passed deadline or another. *)
Inductive readResult := datagram (port : Z) (payload : bytes) | readFailed.
Record readEnv := mkReadEnv {
  rdAlive : Z -> bool; rdReconcile : reconcileEnv; rdResult : readResult }.

(** slist.go [Start]: without a socket there is no poller. *)
Definition Start (listenErr : option string) (m : ServerManager) : string + serverInfoPoller :=
  match listenErr with
  | Some err => inl ("server info poller: listen udp: " ++ err)%string
  | None => inr (mkPoller toPrime true false false m [])
  end.

(** slist.go [StartInfoPoller]: what it logs, and the poller its stop function stops, if any. *)
Definition StartInfoPoller (listenErr : option string) (m : ServerManager)
  : list string * option serverInfoPoller :=
  match Start listenErr m with
  | inl err => (["Server info poller disabled: " ++ err]%string, None)
  | inr p => ([], Some p)
  end.

(** slist.go [Stop]; [stopOnce] makes a second call do nothing, and the first closes the socket. *)
Definition Stop (p : serverInfoPoller) : serverInfoPoller := p <| pConnClosed := true |>.

(** The buffer of slist.go [readLoop] *)
Definition readBufferSize : nat := 2048.

Section Poller.
Variable logsDir : string.
Context `{GoUnicode}.

(** [WriteToUDP] of the request to a port: on a closed socket it fails with [net.ErrClosed], which
    ends the loop; another failure is as good as a lost datagram. *)
Definition writeRequest (e : pollEnv) (port : Z) (next : pollPhase) (p : serverInfoPoller) : serverInfoPoller :=
  if pConnClosed p then p <| pPolling := pollDone |>
  else p <| pPolling := next |>
         <| pTraffic ::= fun t => t ++ (if peSends e then [sentTo port buildCCREQServerInfo] else []) |>.

(** slist.go [pollLoop], up to its next blocking call or critical section *)
Definition pollLoopStep (e : pollEnv) (p : serverInfoPoller) : serverInfoPoller :=
  match pPolling p with
  | toPrime => p <| pPolling := priming (peOrder e (fillRunningPortsLocked (peAlive e) (pMgr p))) |>
  | priming [] => p <| pPolling := atSelect 0 |>
  | priming (port :: ports) => writeRequest e port (priming ports) p
  | atSelect rrNext =>
      if pCtxDone p && peDone e then p <| pPolling := pollDone |>
      else p <| pPolling := toFill rrNext |>
             <| pMgr ::= reconcileAllServers logsDir (peAlive e) (peReconcile e) |>
  | toFill rrNext =>
      let ports := peOrder e (fillRunningPortsLocked (peAlive e) (pMgr p)) in
      match pollNext ports rrNext with
      | (None, rrNext) => p <| pPolling := atSelect rrNext |>
      | (Some port, rrNext) => p <| pPolling := toPoll port rrNext |>
      end
  | toPoll port rrNext => writeRequest e port (atSelect rrNext) p
  | pollDone => p
  end.

(** slist.go [readLoop], one round *)
Definition readLoopStep (e : readEnv) (p : serverInfoPoller) : serverInfoPoller :=
  if negb (pReading p) then p
  else if pConnClosed p then p <| pReading := false |>
  else match rdResult e with
       | readFailed => if pCtxDone p then p <| pReading := false |> else p
       | datagram port payload =>
           let payload := firstn readBufferSize payload in
           p <| pMgr ::= fun m => snd (readDatagram logsDir (rdAlive e) (rdReconcile e) port payload m) |>
             <| pTraffic ::= fun t => t ++ [takenFrom port payload] |>
       end.

(** The loops, [Stop], the context and the rest of the program, interleaved. *)
Inductive pstep (p : serverInfoPoller) : serverInfoPoller -> Prop :=
  | ps_poll e : orderly e -> pstep p (pollLoopStep e p)
  | ps_read e : pstep p (readLoopStep e p)
  | ps_stop : pstep p (Stop p)
  | ps_cancel : pstep p (p <| pCtxDone := true |>)
  | ps_rest m : rtc mstep (pMgr p) m -> pstep p (p <| pMgr := m |>).

(** [pollLoop] run alone *)
Definition runPollLoop (es : list pollEnv) (p : serverInfoPoller) : serverInfoPoller :=
  foldl (fun p e => pollLoopStep e p) p es.
End Poller.

(** * Facts *)

(** How many steps of its own [pollLoop] has left once the context is done. *)
Definition stepsLeft (p : serverInfoPoller) : nat :=
  match pPolling p with
  | toPrime => size (instanceIDsByPort (pMgr p)) + 3
  | priming ports => length ports + 2
  | atSelect _ => 1
  | toFill _ => 3
  | toPoll _ _ => 2
  | pollDone => 0
  end.

(** The ports a phase is about to poll *)
Definition duePorts (ph : pollPhase) : list Z :=
  match ph with priming ports => ports | toPoll port _ => [port] | _ => [] end.
Definition traffic_ok (t : traffic) : Prop :=
  match t with
  | sentTo port req => 1 <= port <= 65535 /\ req = buildCCREQServerInfo
  | takenFrom _ payload => (length payload <= readBufferSize)%nat
  end.
(** The requests sent, and those about to be, go to ports of a UDP address; reads are bounded. *)
Definition poller_ok (p : serverInfoPoller) : Prop :=
  Forall traffic_ok (pTraffic p) /\ Forall (fun port => 1 <= port <= 65535) (duePorts (pPolling p)).

Lemma fillRunningPortsLocked_range alive m :
  Forall (fun port => 1 <= port <= 65535) (fillRunningPortsLocked alive m).
Proof.
  apply List.Forall_forall. unfold fillRunningPortsLocked, portRunning.
  intros port [_ Hp]%filter_In. rewrite !andb_true_iff in Hp. lia.
Qed.

Lemma fillRunningPortsLocked_length alive m :
  (length (fillRunningPortsLocked alive m) <= size (instanceIDsByPort m))%nat.
Proof.
  unfold fillRunningPortsLocked. etrans; [apply filter_length_le|]. by rewrite length_map, length_map_to_list.
Qed.

Lemma fillRunningPortsLocked_none m : fillRunningPortsLocked (fun _ => false) m = [].
Proof.
  unfold fillRunningPortsLocked.
  assert (forall port, portRunning (fun _ => false) m port = false) as Hnone.
  { intros port. unfold portRunning. apply andb_false_iff. right. apply not_true_iff_false.
    intros (i & _ & [rec Hr]%bool_decide_eq_true)%existsb_exists.
    apply runningByID_Some in Hr as (_ & _ & Hr). revert Hr. unfold instanceRunning. by repeat split_match. }
  induction (map fst _) as [|port ports IH]; [done|]. cbn. by rewrite Hnone.
Qed.

Lemma pollNext_Some ports rr : ports <> [] -> exists port rr', pollNext ports rr = (Some port, rr').
Proof.
  unfold pollNext. destruct ports as [|q ports]; [done|]. intros _.
  set (ps := q :: ports). assert (0 < Z.of_nat (length ps)) by (cbn; lia). clearbody ps.
  set (rr0 := if _ <=? rr then 0 else rr).
  assert (Z.to_nat rr0 < length ps)%nat as [port ->]%lookup_lt_is_Some_2; [|by eauto].
  unfold rr0. destruct (Z.leb_spec (Z.of_nat (length ps)) rr); lia.
Qed.

Lemma pollNext_due ports rr port rr' :
  pollNext ports rr = (Some port, rr') -> port ∈ ports.
Proof.
  unfold pollNext. destruct ports as [|q ports]; [done|]. intros [= Hl _].
  by apply list_elem_of_lookup_2 in Hl.
Qed.

Section Facts.
Variable logsDir : string.
Context `{GoUnicode}.

Lemma order_range e m : orderly e ->
  Forall (fun port => 1 <= port <= 65535) (peOrder e (fillRunningPortsLocked (peAlive e) m)).
Proof. intros Ho. rewrite (Ho _). apply fillRunningPortsLocked_range. Qed.

Lemma pollLoopStep_ok e p : orderly e -> poller_ok p -> poller_ok (pollLoopStep logsDir e p).
Proof.
  intros Ho [Ht Hd]. unfold pollLoopStep, poller_ok, writeRequest in *.
  destruct (pPolling p) as [|[|port ports]|rr|rr|port rr|] eqn:Hph; cbn in *.
  - split; [done|]. by apply order_range.
  - by split.
  - apply Forall_cons in Hd as [Hp Hd]. destruct (pConnClosed p); cbn; [by split|]. split; [|done].
    apply Forall_app. split; [done|]. destruct (peSends e); by constructor.
  - destruct (pCtxDone p && peDone e); by split.
  - destruct (pollNext _ rr) as [[port|] rr'] eqn:Hn; cbn; (split; [done|]); [|done].
    apply pollNext_due in Hn. pose proof (order_range e (pMgr p) Ho) as Hr. rewrite List.Forall_forall in Hr.
    constructor; [|done]. by apply Hr, list_elem_of_In.
  - apply Forall_cons in Hd as [Hp _]. destruct (pConnClosed p); cbn; [by split|]. split; [|done].
    apply Forall_app. split; [done|]. destruct (peSends e); by constructor.
  - by rewrite Hph.
Qed.

Lemma readLoopStep_ok e p : poller_ok p -> poller_ok (readLoopStep logsDir e p).
Proof.
  intros [Ht Hd]. unfold readLoopStep. repeat split_match; try done. split; [|done]. apply Forall_app. split; [done|]. constructor; [|done]. apply firstn_le_length.
Qed.

Lemma pstep_ok p p' : pstep logsDir p p' -> poller_ok p -> poller_ok p'.
Proof. destruct 1; [by apply pollLoopStep_ok|apply readLoopStep_ok|done..]. Qed.

(** The poller changes the manager only by the operations of the manager. *)
Lemma pstep_manager p p' : pstep logsDir p p' -> rtc mstep (pMgr p) (pMgr p').
Proof.
  destruct 1 as [e _|e| | |m Hm]; cbn; try done.
  - unfold pollLoopStep, writeRequest. repeat split_match; cbn; try done. apply reconcileServers_steps.
  - unfold readLoopStep. repeat split_match; cbn; try done. unfold readDatagram.
    repeat split_match; cbn; try done. apply updateGameState_steps; match goal with |- 0 <= byteZ ?b <= 255 => pose proof (byteZ_range b); lia end.
Qed.

Lemma stepsLeft_decreases e p :
  orderly e -> pCtxDone p = true -> peDone e = true ->
  (stepsLeft (pollLoopStep logsDir e p) <= pred (stepsLeft p))%nat
  /\ pCtxDone (pollLoopStep logsDir e p) = true.
Proof.
  intros Ho Hc He. unfold pollLoopStep, writeRequest, stepsLeft.
  destruct (pPolling p) as [|[|port ports]|rr|rr|port rr|] eqn:Hph; cbn.
  - split; [|done]. rewrite (Permutation_length (Ho _)).
    pose proof (fillRunningPortsLocked_length (peAlive e) (pMgr p)). lia.
  - split; [lia|done].
  - destruct (pConnClosed p); cbn; (split; [lia|done]).
  - rewrite Hc, He. cbn. by split.
  - destruct (pollNext _ rr) as [[port|] rr']; cbn; (split; [lia|done]).
  - destruct (pConnClosed p); cbn; (split; [lia|done]).
  - rewrite Hph. by split.
Qed.

Lemma runPollLoop_ends es : forall p,
  pCtxDone p = true -> Forall (fun e => orderly e /\ peDone e = true) es ->
  (stepsLeft p <= length es)%nat -> pPolling (runPollLoop logsDir es p) = pollDone.
Proof.
  induction es as [|e es IH]; intros p Hc Hes Hlen; cbn in *.
  - unfold stepsLeft in Hlen. destruct (pPolling p); try lia. done.
  - apply Forall_cons in Hes as [[Ho He] Hes]. destruct (stepsLeft_decreases e p Ho Hc He).
    apply IH; [done|done|lia].
Qed.

(** What [Stop] fixes: nothing is sent or taken any more, and a loop that returned stays so. *)
Definition stopped (p p' : serverInfoPoller) : Prop :=
  pConnClosed p' = true /\ pTraffic p' = pTraffic p /\
  (pReading p = false -> pReading p' = false) /\ (pPolling p = pollDone -> pPolling p' = pollDone).

Lemma pstep_stopped p p' : pstep logsDir p p' -> pConnClosed p = true -> stopped p p'.
Proof.
  unfold stopped. destruct 1; intros Hc; cbn; try done.
  - unfold pollLoopStep, writeRequest. rewrite Hc. by repeat split_match.
  - unfold readLoopStep. rewrite Hc. by destruct (pReading p) eqn:?; cbn; rewrite ?Hc.
Qed.

Lemma psteps_stopped p p' : rtc (pstep logsDir) p p' -> pConnClosed p = true -> stopped p p'.
Proof.
  induction 1 as [p|p p1 p2 H1 _ IH]; intros Hc; [done|].
  destruct (pstep_stopped p p1 H1 Hc) as (Hc1 & Ht & Hr & Hp). destruct (IH Hc1) as (? & Ht' & ? & ?).
  split_and!; [done|congruence|auto|auto].
Qed.

Lemma stopped_round e1 e2 rr p :
  pConnClosed p = true -> pPolling p = toFill rr -> orderly e1 ->
  fillRunningPortsLocked (peAlive e1) (pMgr p) <> [] ->
  pPolling (runPollLoop logsDir [e1; e2] p) = pollDone.
Proof.
  intros Hc Hph Ho Hrun. destruct (pollNext_Some (peOrder e1 (fillRunningPortsLocked (peAlive e1) (pMgr p))) rr)
    as (port & rr' & Hn); [intros Hnil; apply Hrun, Permutation_nil; by rewrite <- Hnil, (Ho _)|].
  cbn [runPollLoop foldl]. unfold pollLoopStep at 2. rewrite Hph, Hn. unfold pollLoopStep, writeRequest. cbn. by rewrite Hc.
Qed.
End Facts.

(** [Stop] alone does not end [pollLoop], although it is documented to terminate both goroutines:
    while no server runs there is no write to fail, and the loop goes on reconciling. *)
Theorem Stop_lingers `{GoUnicode} logsDir p rr es :
  pPolling p = atSelect rr -> pCtxDone p = false ->
  Forall (fun e => orderly e /\ peAlive e = fun _ => false) es ->
  pPolling (runPollLoop logsDir es (Stop p)) <> pollDone.
Proof.
  intros Hph Hc Hes.
  assert (forall p, pCtxDone p = false -> pPolling p = atSelect rr \/ pPolling p = toFill rr ->
            pPolling (runPollLoop logsDir es p) <> pollDone) as Hall; [|apply Hall; cbn; auto].
  clear p Hph Hc. induction Hes as [|e es [Ho He] _ IH]; intros p Hc Hph; cbn.
  { by destruct Hph as [-> | ->]. }
  apply IH; unfold pollLoopStep; destruct Hph as [-> | ->]; rewrite ?Hc; cbn; auto.
  - rewrite He, fillRunningPortsLocked_none, (proj1 (Permutation_nil_r _) (Ho [])). cbn. auto.
  - rewrite He, fillRunningPortsLocked_none, (proj1 (Permutation_nil_r _) (Ho [])). cbn. auto.
Qed.

(** Whatever happens, requests go to ports of UDP addresses and the manager the poller serves only
    changes by its own operations. *)
Theorem poller_sound `{GoUnicode} logsDir listenErr m p p' :
  snd (StartInfoPoller listenErr m) = Some p -> rtc (pstep logsDir) p p' ->
  Forall traffic_ok (pTraffic p') /\ rtc mstep m (pMgr p').
Proof.
  destruct listenErr as [err|]; [done|]. intros [= <-] Hsteps.
  assert (poller_ok p' /\ rtc mstep (pMgr (mkPoller toPrime true false false m [])) (pMgr p')) as [[Ht _] Hm]; [|by split].
  assert (poller_ok (mkPoller toPrime true false false m [])) as Hok by (by split; constructor).
  revert Hok. induction Hsteps as [p|p p1 p2 H1 _ IH]; intros Hok; [by split|].
  destruct (IH (pstep_ok logsDir p p1 H1 Hok)). split; [done|].
  etrans; [by apply (pstep_manager logsDir)|done].
Qed.

(** C35.  The poller stops.  Once the context is done [pollLoop] returns within a bounded number
    of steps of its own, whatever it was doing, if its select takes the context when it may, and
    [readLoop] at its next failed read, such as its deadline.  Once [Stop] has closed the socket no
    datagram is sent and none is taken, whatever else happens, [readLoop] returns at its next read,
    and [pollLoop] at the next write it tries: the first tick that finds a running port. *)
Theorem poller_stops `{GoUnicode} logsDir p :
  (pCtxDone p = true ->
     (forall es, Forall (fun e => orderly e /\ peDone e = true) es -> (stepsLeft p <= length es)%nat ->
        pPolling (runPollLoop logsDir es p) = pollDone) /\
     (forall e, rdResult e = readFailed -> pReading (readLoopStep logsDir e p) = false)) /\
  (pConnClosed p = true ->
     (forall p', rtc (pstep logsDir) p p' -> pTraffic p' = pTraffic p /\
        (forall e, pReading (readLoopStep logsDir e p') = false) /\
        (forall e, duePorts (pPolling p') <> [] -> pPolling (pollLoopStep logsDir e p') = pollDone)) /\
     (forall rr e1 e2, pPolling p = toFill rr -> orderly e1 ->
        fillRunningPortsLocked (peAlive e1) (pMgr p) <> [] ->
        pPolling (runPollLoop logsDir [e1; e2] p) = pollDone)).
Proof.
  split; intros Hc; split.
  - intros es. by apply runPollLoop_ends.
  - intros e He. unfold readLoopStep. rewrite He, Hc. by repeat split_match; rewrite ?negb_true_iff in *.
  - intros p' Hsteps. destruct (psteps_stopped logsDir p p' Hsteps Hc) as (Hc' & Ht & _).
    split_and!; [done| |].
    + intros e. unfold readLoopStep. rewrite Hc'. by destruct (pReading p') eqn:?.
    + intros e. unfold pollLoopStep, writeRequest. rewrite Hc'. by destruct (pPolling p') as [|[]| | | |].
  - intros rr e1 e2 Hph Ho Hrun. by apply stopped_round with rr.
Qed.

(** * A concrete poller *)

Definition pollerReconcile : reconcileEnv :=
  mkReconcileEnv 5 (fun _ => "stamp"%string) (fun _ => lifeStart) (fun _ => stubborn).
Definition pollerEnv : pollEnv := mkPollEnv sampleAlive pollerReconcile (fun l => l) true true.
Definition quietEnv : pollEnv := mkPollEnv (fun _ => false) pollerReconcile (fun l => l) true true.
Definition pollerRead : readEnv := mkReadEnv sampleAlive pollerReconcile (datagram 26000 sampleReply).
Definition newPoller : serverInfoPoller := mkPoller toPrime true false false sampleManager [].
(** It polled the running port, took the reply, and is about to look for the port of a tick. *)
Definition primedPoller : serverInfoPoller :=
  runPollLoop (H := plain_unicode) "/logs" [pollerEnv; pollerEnv] newPoller.
Definition repliedPoller : serverInfoPoller :=
  readLoopStep (H := plain_unicode) "/logs" pollerRead primedPoller.
Definition atTick : serverInfoPoller := newPoller <| pPolling := toFill 0 |>.
Definition atTickCancelled : serverInfoPoller := atTick <| pCtxDone := true |>.
Definition quietPoller : serverInfoPoller := newPoller <| pPolling := atSelect 0 |>.

Lemma poller_stops_witness :
  stepsLeft atTickCancelled = 3%nat /\
  pPolling (runPollLoop (H := plain_unicode) "/logs" [pollerEnv; pollerEnv; pollerEnv]
              atTickCancelled) = pollDone /\
  pPolling (runPollLoop (H := plain_unicode) "/logs" [pollerEnv; pollerEnv] (Stop atTick)) = pollDone /\
  (forall p', rtc (pstep (H := plain_unicode) "/logs") (Stop atTick) p' -> pTraffic p' = []).
Proof.
  assert (orderly pollerEnv) as Ho by (intros l; reflexivity).
  split; [reflexivity|]. split; [|split].
  - apply (proj1 (proj1 (poller_stops (H := plain_unicode) "/logs" atTickCancelled) eq_refl)).
    + by repeat constructor.
    + cbn. lia.
  - apply (proj2 (proj2 (poller_stops (H := plain_unicode) "/logs" (Stop atTick)) eq_refl) 0);
      [reflexivity|exact Ho|vm_compute; discriminate].
  - intros p' Hp.
    exact (proj1 (proj1 (proj2 (poller_stops (H := plain_unicode) "/logs" (Stop atTick)) eq_refl) p' Hp)).
Defined.

Lemma poller_sound_witness :
  Forall traffic_ok (pTraffic repliedPoller) /\
  pTraffic repliedPoller = [sentTo 26000 buildCCREQServerInfo; takenFrom 26000 sampleReply].
Proof.
  split; [|vm_compute; reflexivity].
  assert (orderly pollerEnv) as Ho by (intros l; reflexivity).
  refine (proj1 (poller_sound (H := plain_unicode) "/logs" None sampleManager newPoller repliedPoller eq_refl _)).
  eapply rtc_l; [exact (ps_poll (H := plain_unicode) "/logs" newPoller pollerEnv Ho)|].
  eapply rtc_l; [exact (ps_poll (H := plain_unicode) "/logs" _ pollerEnv Ho)|].
  apply rtc_once. exact (ps_read (H := plain_unicode) "/logs" primedPoller pollerRead).
Defined.

Lemma Stop_lingers_witness :
  pPolling (runPollLoop (H := plain_unicode) "/logs" (repeat quietEnv 100)
              (Stop quietPoller)) <> pollDone.
Proof.
  apply (Stop_lingers (H := plain_unicode) "/logs" quietPoller 0);
    [reflexivity|reflexivity|].
  apply Forall_forall. intros e Hin%list_elem_of_In. apply repeat_spec in Hin as ->. split; [intros l|]; reflexivity.
Defined.
