(* ===== verification/Console.v ===== *)
(** Server consoles: internal/orch/console.go, rcon.go and the relay of manager.go.

    The lines a server writes to its pseudo-terminal arrive one by one; subscribers are bounded
    channels that the publisher never waits for.  The pseudo-terminal itself and the timers are
    events: a write succeeds or fails, and a collector sees lines, the end of the stream, or
    its timeout. *)
From S2P Require Import Prelude GoStrings LaunchPlan Registry Snapshot Lifecycle.

(** * Lines *)

(** console.go [consoleSentinelPrefix] *)
Definition consoleSentinelPrefix : string := "__NQX_".

(** console.go [newConsoleSentinels], for a random [id] *)
Definition newConsoleSentinels (id : string) : string * string :=
  (consoleSentinelPrefix ++ "B_" ++ id, consoleSentinelPrefix ++ "E_" ++ id)%string.

(** console.go [isConsoleSentinelLine] *)
Definition isConsoleSentinelLine (line : string) : bool :=
  HasPrefix (TrimSpace line) consoleSentinelPrefix.

(** console.go [parsePortConsoleLine] *)
Definition portLinePrefix : string :=
  btext (quoteByte :: blist "port" ++ quoteByte :: blist " is " ++ [quoteByte]).
Definition parsePortConsoleLine (line : string) : option Z :=
  let s := TrimSpace line in
  if negb (HasPrefix s portLinePrefix) then None else
  match Cut (TrimPrefix s portLinePrefix) quoteByte with
  | (digits, _, true) =>
      match Atoi digits with
      | Some port => if (port <? 0) || (65535 <? port) then None else Some port
      | None => None
      end
  | _ => None
  end.

(** console.go [formatServerConsoleCommand] *)
Definition formatServerConsoleCommand (cmd : string) : string :=
  let line := TrimSpace cmd in
  if (line =? "")%string then "" else (line ++ ";" ++ lf)%string.

Section Lines.
Context `{GoUnicode}.

(** console.go [shouldSkipConsoleLine] *)
Definition shouldSkipConsoleLine (line : string) (skipContains : list string) : bool :=
  if (line =? "")%string then false else
  existsb (fun token =>
    let token := TrimSpace token in
    negb (token =? "")%string && Contains (ToLower line) (ToLower token)) skipContains.

(** console.go [parseSearchPathConsoleLine]: nothing when the line is not a path line. *)
Definition parseSearchPathConsoleLine (line : string) : option string :=
  let trimmed := TrimSpace line in
  if (trimmed =? "")%string then None else
  let pathToken := List.hd ""%string (Fields trimmed) in
  if negb (Contains pathToken "/") then None else
  let pathToken := TrimSuffix pathToken "/" in
  if (pathToken =? "")%string then Some ""%string else
  if shouldSkipConsoleLine pathToken [".pak"%string] then Some ""%string else
  let base := filepath_Base pathToken in
  if (base =? "")%string || (base =? ".")%string || (base =? "/")%string then Some ""%string
  else Some base.

(** manager.go [shouldRelayServerConsoleLine] *)
Definition shouldRelayServerConsoleLine (line : string) : bool :=
  let trimmed := TrimSpace line in
  if (trimmed =? "")%string then false else
  if HasPrefix trimmed consoleSentinelPrefix then false else
  let lower := ToLower trimmed in
  if Contains lower "packfile:" then false else
  if Contains lower "findfile: can't find maps/" && HasSuffix lower ".ent" then false else
  if Contains lower "findfile:" && negb (Contains lower "can't find") then false else
  true.

(** manager.go [formatServerConsoleRelayLine] *)
Definition formatServerConsoleRelayLine (m : ServerManager) (rec : option instance) (line : string)
    : option string :=
  let msg := TrimRight line (btext [crByte; lfByte]) in
  if negb (shouldRelayServerConsoleLine msg) then None
  else Some ("[" ++ serverConsoleLabelLocked m rec ++ "] " ++ msg)%string.
End Lines.

(** * The console *)

(** console.go [serverConsole], without its locks; [pty] is whether it has a pseudo-terminal, and
    a subscriber is its channel's capacity and the lines waiting in it. *)
Record serverConsole := mkConsole {
  pty : bool;
  suppressedRelayEcho : gmap string Z;
  nextSubscriberID : Z;
  subscribers : gmap Z (Z * list string);
  history : list string;
  historyCap : Z;
}.
#[export] Instance eta_console : EtaRecord serverConsole := fun c =>
  mkConsole (pty c) (suppressedRelayEcho c) (nextSubscriberID c) (subscribers c) (history c) (historyCap c).

(** console.go [newServerConsole] *)
Definition newServerConsole (pty : bool) : serverConsole := mkConsole pty ∅ 0 ∅ [] 2048.

(** console.go [normalizeConsoleRelayLine] *)
Definition normalizeConsoleRelayLine (line : string) : string := TrimSpace (ReplaceByte line crByte "").

(** console.go [queueSuppressedRelayEchoLine] *)
Definition queueSuppressedRelayEchoLine (line : string) (c : serverConsole) : serverConsole :=
  let key := normalizeConsoleRelayLine line in
  if (key =? "")%string then c
  else c <| suppressedRelayEcho ::= <[key := default 0 (suppressedRelayEcho c !! key) + 1]> |>.

(** console.go [consumeSuppressedRelayEchoLine] *)
Definition consumeSuppressedRelayEchoLine (line : string) (c : serverConsole)
    : bool * serverConsole :=
  let key := normalizeConsoleRelayLine line in
  if (key =? "")%string then (false, c) else
  let count := default 0 (suppressedRelayEcho c !! key) in
  if count <=? 0 then (false, c)
  else if count =? 1 then (true, c <| suppressedRelayEcho ::= delete key |>)
  else (true, c <| suppressedRelayEcho ::= <[key := count - 1]> |>).

Definition ErrClosedPipe : string := "io: read/write on closed pipe".

(** console.go [writeCommandWithOptions]: the bytes written, if any; [writeErr] is what the
    pseudo-terminal answered. *)
Definition writeCommandWithOptions (cmd : string) (suppressRelayEcho : bool)
    (writeErr : option string) (c : serverConsole) : option string * option string * serverConsole :=
  if negb (pty c) then (None, Some ErrClosedPipe, c) else
  let line := formatServerConsoleCommand cmd in
  if (line =? "")%string then (None, None, c) else
  let c := if suppressRelayEcho then queueSuppressedRelayEchoLine line c else c in
  match writeErr with
  | Some e => (None, Some e, if suppressRelayEcho then snd (consumeSuppressedRelayEchoLine line c) else c)
  | None => (Some line, None, c)
  end.

(** console.go [subscribe] and the cancellation it returns *)
Definition subscribe (buffer : Z) (c : serverConsole) : Z * serverConsole :=
  let buffer := if buffer <=? 0 then 128 else buffer in
  let i := nextSubscriberID c in
  (i, c <| nextSubscriberID := i + 1 |> <| subscribers ::= <[i := (buffer, [])]> |>).
Definition cancelSubscriber (i : Z) (c : serverConsole) : serverConsole :=
  c <| subscribers ::= delete i |>.

(** console.go [appendHistoryLine] *)
Definition appendHistoryLine (line : string) (c : serverConsole) : serverConsole :=
  if (line =? "")%string then c else
  if Z.of_nat (length (history c)) <? historyCap c
  then c <| history ::= fun h => h ++ [line] |>
  else c <| history ::= fun h => tail h ++ [line] |>.

(** A send that does not wait: a full channel loses the line. *)
Definition trySend (line : string) (sub : Z * list string) : Z * list string :=
  if Z.of_nat (length (snd sub)) <? fst sub then (fst sub, snd sub ++ [line]) else sub.

(** console.go [publishLine] *)
Definition publishLine (line : string) (c : serverConsole) : serverConsole :=
  if (line =? "")%string then c else
  let c := if isConsoleSentinelLine line then c else appendHistoryLine line c in
  c <| subscribers ::= fmap (trySend line) |>.

(** The loop of console.go [tail] over the history, newest first. *)
Fixpoint tailLoop (n : nat) (filter : string -> option string) (newest : list string)
    : list string :=
  match newest, n with
  | [], _ | _, O => []
  | line :: rest, S n' =>
      match filter line with
      | None => tailLoop n filter rest
      | Some kept => kept :: tailLoop n' filter rest
      end
  end.
Definition consoleTail (n : Z) (filter : string -> option string) (c : serverConsole)
    : list string :=
  if n <=? 0 then [] else rev (tailLoop (Z.to_nat n) filter (rev (history c))).

(** console.go [closeSubscribers] *)
Definition closeSubscribers (c : serverConsole) : serverConsole := c <| subscribers := ∅ |>.

(** A line through the loop of console.go [run]: the line logged, if any. *)
Definition runLine (line : string) (c : serverConsole) : option string * serverConsole :=
  if (line =? "")%string then (None, c) else
  let '(suppressed, c) := consumeSuppressedRelayEchoLine line c in
  if suppressed then (None, c)
  else (if isConsoleSentinelLine line then None else Some line, publishLine line c).
Fixpoint runLines (lines : list string) (c : serverConsole) : list string * serverConsole :=
  match lines with
  | [] => ([], c)
  | line :: lines =>
      let '(log, c) := runLine line c in
      let '(logs, c) := runLines lines c in
      (match log with Some l => l :: logs | None => logs end, c)
  end.
(** console.go [run] *)
Definition consoleRun (lines : list string) (c : serverConsole) : list string * serverConsole :=
  if negb (pty c) then ([], c) else
  let '(logs, c) := runLines lines c in (logs, closeSubscribers c).

(** * Captured commands *)

(** What a collector receives. *)
Inductive collectEvent := gotLine (line : string) | linesClosed | collectTimeout.

(** console.go [collectBetweenSentinels]; no more events means it is still waiting. *)
Fixpoint collectBetweenSentinels (begin_ end_ : string) (started : bool) (out : string)
    (events : list collectEvent) : option string :=
  match events with
  | [] => None
  | linesClosed :: _ | collectTimeout :: _ => Some out
  | gotLine line :: events =>
      let trimmed := TrimSpace line in
      if negb started
      then collectBetweenSentinels begin_ end_ (trimmed =? begin_)%string out events
      else if (trimmed =? end_)%string then Some out
      else collectBetweenSentinels begin_ end_ true (out ++ line)%string events
  end.

(** console.go [captureCommandBetweenSentinels]: the command it frames, *)
Definition frameCommand (preamble cmd begin_ end_ : string) : string :=
  let pre := TrimRight (TrimSpace preamble) ";" in
  ((if (pre =? "")%string then "" else pre ++ "; ")
   ++ "echo " ++ begin_ ++ "; " ++ cmd ++ "; echo " ++ end_)%string.

(** the filter of its subscription, *)
Definition sentinelFilter (begin_ end_ : string) (baseFilter : string -> option string)
    (line : string) : option string :=
  let trimmed := TrimSpace line in
  if (trimmed =? begin_)%string || (trimmed =? end_)%string then Some line else baseFilter line.

(** its subscription [subscribeFiltered]: the channel the lines are published to, whether it has
    been closed, the filtered line its goroutine waits to send on, and the channel of the
    collector, which the goroutine closes when it returns; *)
Definition captureBuffer : Z := 256.
Record filtered := mkFiltered {
  fSub : Z * list string; fSubClosed : bool; fHeld : option string; fOut : list string; fOutClosed : bool }.
#[export] Instance eta_filtered : EtaRecord filtered := fun f =>
  mkFiltered (fSub f) (fSubClosed f) (fHeld f) (fOut f) (fOutClosed f).
Definition subscribeFiltered (buffer : Z) : filtered := mkFiltered (buffer, []) false None [] false.

(** what happens while the command is captured: a line is published, the console stops, the
    goroutine does what it can, the collector receives, its timer fires; *)
Inductive captureEvent := published (line : string) | streamCloses | filterMoves | collectorTakes | timeoutFires.
#[export] Instance captureEvent_eq_dec : EqDecision captureEvent.
Proof. solve_decision. Defined.
Definition filterStep (filter : string -> option string) (f : filtered) : filtered :=
  match fHeld f with
  | Some line => if Z.of_nat (length (fOut f)) <? captureBuffer
                 then f <| fHeld := None |> <| fOut ::= fun out => out ++ [line] |> else f
  | None =>
      match snd (fSub f) with
      | line :: rest => f <| fSub := (fst (fSub f), rest) |> <| fHeld := filter line |>
      | [] => if fSubClosed f then f <| fOutClosed := true |> else f
      end
  end.
Definition captureStep (filter : string -> option string) (f : filtered) (e : captureEvent)
    : list collectEvent * filtered :=
  match e with
  | published line => ([], if (line =? "")%string || fSubClosed f then f else f <| fSub ::= trySend line |>)
  | streamCloses => ([], f <| fSubClosed := true |>)
  | filterMoves => ([], filterStep filter f)
  | collectorTakes =>
      match fOut f with
      | line :: rest => ([gotLine line], f <| fOut := rest |>)
      | [] => (if fOutClosed f then [linesClosed] else [], f)
      end
  | timeoutFires => ([collectTimeout], f)
  end.

(** and what the collector receives, and the reply it makes of it. *)
Definition captureRun (filter : string -> option string) (events : list captureEvent) : list collectEvent * filtered :=
  foldl (fun '(got, f) e => let '(g, f) := captureStep filter f e in (got ++ g, f))
    ([], subscribeFiltered captureBuffer) events.
Definition captureReply (begin_ end_ : string) (baseFilter : string -> option string)
    (events : list captureEvent) : option string :=
  collectBetweenSentinels begin_ end_ false ""
    (fst (captureRun (sentinelFilter begin_ end_ baseFilter) events)).

(** * The startup monitor *)

(** The variables of console.go [monitorServerStartup]. *)
Record startupState := mkStartup {
  requestedPort : bool;
  resolvedPortFlag : bool;
  requestedPath : bool;
  collectingPath : bool;
  resolvedPath : bool;
  pathEntries : list string;
}.
#[export] Instance eta_startup : EtaRecord startupState := fun s =>
  mkStartup (requestedPort s) (resolvedPortFlag s) (requestedPath s) (collectingPath s)
    (resolvedPath s) (pathEntries s).
Definition startupInit : startupState := mkStartup false false false false false [].

(** What it does: commands it writes, and callbacks. *)
Inductive startupEffect := wrote (cmd : string) | onPort (port : Z) | onSearchPath (path : list string).

Section Startup.
Context `{GoUnicode}.
Variables needPort needPath : bool.

Definition startupBanner : string := "========Quake Initialized=========".

(** A line through the loop of console.go [monitorServerStartup] asks for the path and the port
  when the banner appears ([writeOk] is whether writing a command succeeds at that moment), *)
Definition startupRequest (writeOk : string -> bool) (trimmed : string) (s : startupState)
    : list startupEffect * startupState :=
  if Contains trimmed startupBanner then
    let '(e1, s) := if needPath && negb (requestedPath s) && writeOk "path"%string
                    then ([wrote "path"], s <| requestedPath := true |>) else ([], s) in
    let '(e2, s) := if needPort && negb (requestedPort s) && writeOk "port"%string
                    then ([wrote "port"], s <| requestedPort := true |>) else ([], s) in
    (e1 ++ e2, s)
  else ([], s).

(** reads the port, *)
Definition startupPort (trimmed : string) (s : startupState)
    : list startupEffect * startupState :=
  if needPort && requestedPort s && negb (resolvedPortFlag s) then
    match parsePortConsoleLine trimmed with
    | Some port => ([onPort port], s <| resolvedPortFlag := true |>)
    | None => ([], s)
    end
  else ([], s).

(** and reads the path; the flag is the [continue] that skips the check that ends the loop. *)
Definition startupPath (trimmed : string) (s : startupState)
    : list startupEffect * startupState * bool :=
  if needPath && requestedPath s && negb (resolvedPath s) then
    if collectingPath s then
      match parseSearchPathConsoleLine trimmed with
      | Some gameDir =>
          ([], if (gameDir =? "")%string then s else s <| pathEntries ::= fun l => l ++ [gameDir] |>,
           true)
      | None =>
          let s := s <| collectingPath := false |> in
          match pathEntries s with
          | [] => ([], s, false)
          | entries => ([onSearchPath entries], s <| resolvedPath := true |>, false)
          end
      end
    else if Contains trimmed "Current search path:"
         then ([], s <| collectingPath := true |> <| pathEntries := [] |>, false)
         else ([], s, false)
  else ([], s, false).

(** The line's effects, the new variables, and whether the loop returned. *)
Definition startupLine (writeOk : string -> bool) (line : string) (s : startupState)
    : list startupEffect * startupState * bool :=
  let trimmed := TrimSpace line in
  let '(e1, s) := startupRequest writeOk trimmed s in
  let '(e2, s) := startupPort trimmed s in
  let '(e3, s, continue) := startupPath trimmed s in
  (e1 ++ e2 ++ e3, s,
   if continue then false
   else (negb needPort || resolvedPortFlag s) && (negb needPath || resolvedPath s)).

(** console.go [monitorServerStartup] over the lines of the console until it closes. *)
Fixpoint startupLoop (lines : list (string * (string -> bool))) (s : startupState)
    : list startupEffect :=
  match lines with
  | [] => if collectingPath s && negb (resolvedPath s) then
            match pathEntries s with [] => [] | entries => [onSearchPath entries] end
          else []
  | (line, writeOk) :: lines =>
      let '(effects, s, returned) := startupLine writeOk line s in
      if returned then effects else effects ++ startupLoop lines s
  end.
Definition monitorServerStartup (lines : list (string * (string -> bool)))
    : list startupEffect :=
  if negb needPort && negb needPath then [] else startupLoop lines startupInit.
End Startup.

(** * Remote console commands (rcon.go) *)

Section Rcon.
Context `{GoUnicode}.

(** rcon.go [trimTrailingCommandSemicolons]; each round shortens the text, so its length is
  enough fuel. *)
Fixpoint trimSemicolons (fuel : nat) (out : string) : string :=
  match fuel with
  | O => out
  | S fuel => if HasSuffix out ";" then trimSemicolons fuel (TrimSpace (TrimSuffix out ";")) else out
  end.
Definition trimTrailingCommandSemicolons (cmd : string) : string :=
  let out := TrimSpace cmd in trimSemicolons (length (blist out)) out.

(** rcon.go [sanitizeServerAuditText] *)
Definition sanitizeServerAuditText (text : string) : string :=
  let text := ReplaceByte text crByte " " in
  let text := ReplaceByte text lfByte " " in
  let text := ReplaceByte text quoteByte "'" in
  let text := TrimSpace text in
  if (text =? "")%string then "" else Join (Fields text) " ".

(** rcon.go [formatServerCommandAuditEcho] *)
Definition formatServerCommandAuditEcho (cmd actorID : string) : string :=
  let execCmd := trimTrailingCommandSemicolons cmd in
  if (execCmd =? "")%string then "" else
  let actor := sanitizeServerAuditText actorID in
  let actor := if (actor =? "")%string then "admin" else actor in
  ("echo " ++ btext [quoteByte] ++ actor ++ ": " ++ sanitizeServerAuditText execCmd
   ++ btext [quoteByte])%string.

(** rcon.go [formatServerCommandReply] *)
Definition formatServerCommandReply (output : string) : string :=
  let output := ReplaceByte output crByte "" in
  if (TrimSpace output =? "")%string then ("Command executed successfully." ++ lf)%string
  else if HasSuffix output lf then output else (output ++ lf)%string.

(** rcon.go [serverCommandNoiseFilter] *)
Definition serverCommandNoiseFilter (line : string) : option string :=
  if negb (shouldRelayServerConsoleLine line) then None else Some line.

(** rcon.go [parseServerTailCommand]: whether it is a tail command, and its error *)
Definition parseServerTailCommand (cmd : string) : bool * option string :=
  match Fields (TrimSpace cmd) with
  | [] => (false, None)
  | f :: rest =>
      if negb (EqualFold f "tail") then (false, None)
      else match rest with
           | [] => (true, None)
           | _ => (true, Some "usage: rcon <host|port|idx> tail"%string)
           end
  end.

(** rcon.go [defaultServerTailLines], [formatServerTailReply] *)
Definition defaultServerTailLines : Z := 10.
Definition noTailReply : string := ("No buffered console output." ++ lf)%string.
Definition formatServerTailReply (lines : list string) : string :=
  match lines with
  | [] => noTailReply
  | _ =>
      let out := foldl (fun out line =>
        let line := ReplaceByte line crByte "" in
        if (line =? "")%string then out
        else (out ++ line ++ (if HasSuffix line lf then "" else lf))%string) ""%string lines in
      if (out =? "")%string then noTailReply else out
  end.

(** What happens to a captured command: it could not be written, or these events followed. *)
Record captureEnv := mkCapture {
  ceSentinelID : string;
  ceWriteErr : option string;
  ceEvents : list captureEvent;
}.

(** rcon.go [captureManagedServerCommand] on a server's console: the command written, if any,
  and the reply, unless it is still waiting for one. *)
Definition captureManagedServerCommand (console : option serverConsole) (cmd actorID : string)
    (env : captureEnv) : option string * option (result string string) :=
  match console with
  | None => (None, Some (Err "server console unavailable"%string))
  | Some c =>
      match parseServerTailCommand cmd with
      | (true, Some e) => (None, Some (Err e))
      | (true, None) =>
          (None, Some (Ok (formatServerTailReply (consoleTail defaultServerTailLines
             (fun line => if shouldRelayServerConsoleLine line then Some line else None) c))))
      | (false, _) =>
          let preamble := if (TrimSpace actorID =? "")%string then ""%string
                          else formatServerCommandAuditEcho cmd actorID in
          let '(begin_, end_) := newConsoleSentinels (ceSentinelID env) in
          match writeCommandWithOptions (frameCommand preamble cmd begin_ end_) true
                  (ceWriteErr env) c with
          | (_, Some e, _) => (None, Some (Err e))
          | (written, None, _) =>
              (written, (fun output => Ok (formatServerCommandReply output))
                        <$> captureReply begin_ end_ serverCommandNoiseFilter (ceEvents env))
          end
      end
  end.

(** rcon.go [instanceByListenPortLocked] *)
Definition instanceByListenPortLocked (alive : Z -> bool) (m : ServerManager) (port : Z)
    : option instance :=
  head (omap (runningByID alive m) (idsAtPort m port)).

(** rcon.go [DispatchInstanceCmd]: the process addressed, or the error. *)
Definition errUnknownServerInstance : string := "unknown server instance".
Definition dispatchTarget (alive : Z -> bool) (m : ServerManager) (port : Z)
    : result string managedServer :=
  if (port <? 1) || (65535 <? port) then Err errUnknownServerInstance else
  match instanceByListenPortLocked alive m port with
  | None => Err errUnknownServerInstance
  | Some rec => match Running rec with
                | Some srv => Ok srv
                | None => Err errUnknownServerInstance
                end
  end.
Definition DispatchInstanceCmd (alive : Z -> bool) (consoles : Z -> serverConsole)
    (port : Z) (cmd actorID : string) (env : captureEnv) (m : ServerManager)
    : option string * option (result string string) :=
  match dispatchTarget alive m port with
  | Err e => (None, Some (Err e))
  | Ok srv => captureManagedServerCommand (consoles <$> msConsole srv) cmd actorID env
  end.

(** manager.go [relayServerConsoleToNexus] on a line: the text relayed and the console after. *)
Definition relayServerConsoleToNexus (m : ServerManager) (i console : Z) (line : string)
    (c : serverConsole) : option string * serverConsole :=
  let '(suppressed, c) := consumeSuppressedRelayEchoLine line c in
  if suppressed then (None, c) else
  match instances m !! i with
  | Some rec => if serverConsoleRelayEnabled rec console
                then (formatServerConsoleRelayLine m (Some rec) line, c) else (None, c)
  | None => (None, c)
  end.
End Rcon.

(** * Facts *)

(** The lines a console keeps. *)
Definition keptLine (line : string) : bool :=
  negb (line =? "")%string && negb (isConsoleSentinelLine line).

Lemma history_publish line c :
  Z.of_nat (length (history c)) <= historyCap c -> 0 < historyCap c ->
  history (publishLine line c)
  = if keptLine line then lastn (Z.to_nat (historyCap c)) (history c ++ [line]) else history c.
Proof.
  intros Hlen Hpos. unfold publishLine, keptLine.
  destruct (String.eqb_spec line "") as [|Hne]; [done|]. cbn [negb andb].
  destruct (isConsoleSentinelLine line); [done|]. cbn [negb]. unfold appendHistoryLine.
  apply String.eqb_neq in Hne. rewrite Hne. destruct (Z.ltb_spec (Z.of_nat (length (history c))) (historyCap c)).
  - cbn. rewrite lastn_all; [done|]. rewrite length_app. cbn. lia.
  - cbn. destruct (Z.to_nat (historyCap c)) as [|n] eqn:Hn; [lia|]. rewrite lastn_snoc.
    unfold lastn. replace (length (history c) - n)%nat with 1%nat by lia.
    by destruct (history c).
Qed.

Lemma historyCap_publish line c : historyCap (publishLine line c) = historyCap c.
Proof.
  unfold publishLine, appendHistoryLine. destruct (line =? "")%string; [done|].
  destruct (isConsoleSentinelLine line); [done|]. by destruct (_ <? _).
Qed.

Lemma publish_history lines :
  forall c, 0 < historyCap c -> Z.of_nat (length (history c)) <= historyCap c ->
  history (foldl (fun c line => publishLine line c) c lines)
  = lastn (Z.to_nat (historyCap c)) (history c ++ List.filter keptLine lines).
Proof.
  induction lines as [|line lines IH] using rev_ind; intros c Hpos Hlen.
  { cbn. rewrite app_nil_r, lastn_all by lia. done. }
  rewrite foldl_snoc, List.filter_app. set (c' := foldl _ c lines).
  assert (historyCap c' = historyCap c) as Hcap.
  { unfold c'. clear. induction lines as [|l lines IH] using rev_ind; [done|].
    rewrite foldl_snoc. by rewrite historyCap_publish. }
  pose proof (IH c Hpos Hlen) as Hh. fold c' in Hh.
  rewrite history_publish, Hcap by (rewrite ?Hh, ?lastn_length, ?Hcap; lia).
  rewrite Hh. cbn [List.filter]. destruct (keptLine line); [|by rewrite app_nil_r].
  rewrite lastn_lastn_snoc by lia. by rewrite <- app_assoc.
Qed.

Lemma tailLoop_take n filter l : tailLoop n filter l = take n (omap filter l).
Proof.
  revert n. induction l as [|line l IH]; intros n; [by destruct n|].
  destruct n as [|n]; cbn [tailLoop omap list_omap]; destruct (filter line); cbn; try done.
  by rewrite IH.
Qed.

(** The console's tail is what was last said: whatever a server printed, [tail] returns,
    oldest first, the last [n] of the lines the filter keeps among the last 2048 lines that are
    not Nexus's own sentinels. *)
Theorem consoleTail_last n filter pty lines :
  0 < n ->
  consoleTail n filter (foldl (fun c line => publishLine line c) (newServerConsole pty) lines)
  = lastn (Z.to_nat n) (omap filter (lastn 2048 (List.filter keptLine lines))).
Proof.
  intros Hn. unfold consoleTail. rewrite (proj2 (Z.leb_gt _ _)) by lia.
  rewrite publish_history by (cbn; lia). cbn [history newServerConsole app historyCap].
  change (Z.to_nat 2048) with 2048%nat. generalize (lastn 2048 (List.filter keptLine lines)).
  intros l. by rewrite tailLoop_take, omap_rev, rev_take_rev.
Qed.

(** ** Captured replies *)

Definition concatLines (l : list string) : string := foldr String.append ""%string l.

Section Capture.
Context (begin_ end_ : string) (base : string -> option string).

Lemma collect_before lines rest out :
  Forall (fun l => TrimSpace l <> begin_) lines ->
  collectBetweenSentinels begin_ end_ false out (map gotLine lines ++ rest)
  = collectBetweenSentinels begin_ end_ false out rest.
Proof.
  induction 1 as [|l lines Hl _ IH]; [done|]. cbn. apply String.eqb_neq in Hl. by rewrite Hl.
Qed.

Lemma collect_inside lines rest : forall out,
  Forall (fun l => TrimSpace l <> end_) lines ->
  collectBetweenSentinels begin_ end_ true out (map gotLine lines ++ rest)
  = collectBetweenSentinels begin_ end_ true (out ++ concatLines lines) rest.
Proof.
  induction lines as [|l lines IH]; intros out Hl; [by rewrite string_app_nil|].
  apply Forall_cons in Hl as [Hl Hls]. cbn. apply String.eqb_neq in Hl. rewrite Hl.
  rewrite IH by done. by rewrite string_app_assoc.
Qed.
End Capture.

(** The base filter passes lines on as they are. *)
Definition keepsText (base : string -> option string) : Prop := forall l x, base l = Some x -> x = l.

Lemma omap_keeps P base begin_ end_ lines :
  keepsText base -> Forall P lines -> Forall P (omap (sentinelFilter begin_ end_ base) lines).
Proof.
  intros Hk Hf. rewrite Forall_forall in *. intros x Hx.
  apply list_elem_of_omap in Hx as (l & Hl & Hx). unfold sentinelFilter in Hx.
  destruct (_ || _); [injection Hx as <-; auto|]. apply Hk in Hx as ->. auto.
Qed.

(** ** The lossy subscription *)

(** A published line goes to the channel of the subscription as [publishLine] sends it. *)
Lemma publishLine_subscription line c i filter f : line <> ""%string ->
  subscribers c !! i = Some (fSub f) -> fSubClosed f = false ->
  subscribers (publishLine line c) !! i = Some (fSub (snd (captureStep filter f (published line)))).
Proof.
  intros Hl Hi Hc. apply String.eqb_neq in Hl. unfold publishLine, appendHistoryLine. cbn [captureStep snd].
  rewrite Hl, Hc. cbn [orb]. destruct (isConsoleSentinelLine line); [|destruct (Z.of_nat (length (history c)) <? historyCap c)];
    cbn; by rewrite lookup_fmap, Hi.
Qed.

(** The lines published while the console runs, and which of them the channel took. *)
Fixpoint offered (events : list captureEvent) : list string :=
  match events with
  | [] | streamCloses :: _ => []
  | published line :: events => (if (line =? "")%string then [] else [line]) ++ offered events
  | _ :: events => offered events
  end.
Definition takenLine (f : filtered) (e : captureEvent) : list string :=
  match e with
  | published line => if negb ((line =? "")%string || fSubClosed f) && (Z.of_nat (length (snd (fSub f))) <? fst (fSub f))
                      then [line] else []
  | _ => []
  end.
Fixpoint keptFrom (filter : string -> option string) (f : filtered) (events : list captureEvent) : list string :=
  match events with
  | [] => []
  | e :: events => takenLine f e ++ keptFrom filter (snd (captureStep filter f e)) events
  end.
Definition keptLines filter events := keptFrom filter (subscribeFiltered captureBuffer) events.

Section Lossy.
Context (filter : string -> option string).

Lemma captureRun_snoc events e : captureRun filter (events ++ [e]) =
  let '(got, f) := captureRun filter events in let '(g, f) := captureStep filter f e in (got ++ g, f).
Proof. unfold captureRun. rewrite foldl_app. cbn. by destruct (foldl _ _ _). Qed.

Lemma keptFrom_snoc events e : forall f got,
  keptFrom filter f (events ++ [e])
  = keptFrom filter f events
    ++ takenLine (snd (foldl (fun '(got, f) e => let '(g, f) := captureStep filter f e in (got ++ g, f)) (got, f) events)) e.
Proof.
  induction events as [|e' events IH]; intros f got; cbn [app keptFrom foldl snd]; [by rewrite app_nil_r|].
  destruct (captureStep filter f e') as [g f'] eqn:He. cbn [snd]. by rewrite (IH f' (got ++ g)), app_assoc.
Qed.
Lemma keptLines_snoc events e :
  keptLines filter (events ++ [e]) = keptLines filter events ++ takenLine (snd (captureRun filter events)) e.
Proof. apply keptFrom_snoc. Qed.

(** The capacity stays, and what waits was taken. *)
Lemma captureStep_cap f e : fst (fSub (snd (captureStep filter f e))) = fst (fSub f)
  /\ (fSubClosed f = true -> fSubClosed (snd (captureStep filter f e)) = true).
Proof.
  destruct e; cbn [captureStep snd].
  - destruct (_ || _); [done|]. cbn. unfold trySend. by destruct (_ <? _).
  - done.
  - unfold filterStep. destruct (fHeld f); [by destruct (_ <? _)|]. destruct (snd (fSub f)); [destruct (fSubClosed f) eqn:Hx; cbn; by rewrite ?Hx|done].
  - by destruct (fOut f).
  - done.
Qed.
Lemma captureStep_waiting f e :
  (length (snd (fSub (snd (captureStep filter f e)))) <= length (snd (fSub f)) + length (takenLine f e))%nat.
Proof.
  destruct e; cbn [captureStep snd takenLine length]; try lia.
  - destruct (_ || _); cbn [negb andb]; [cbn; lia|]. cbn. unfold trySend.
    destruct (_ <? _); cbn; rewrite ?length_app; cbn; lia.
  - cbn. lia.
  - unfold filterStep. destruct (fHeld f); [destruct (_ <? _); cbn; lia|].
    destruct (snd (fSub f)) as [|l rest] eqn:Hs; [destruct (fSubClosed f); cbn; rewrite Hs; cbn; lia|cbn; lia].
  - destruct (fOut f); cbn; lia.
Qed.

Lemma closed_keeps_none events : forall f, fSubClosed f = true -> keptFrom filter f events = [].
Proof.
  induction events as [|e events IH]; intros f Hc; [done|]. cbn [keptFrom].
  rewrite IH by (by apply captureStep_cap). rewrite app_nil_r. destruct e; try done. cbn. by rewrite Hc, orb_true_r.
Qed.

(** What is kept is among what was offered; nothing is lost that fits. *)
Lemma kept_offered events : forall f, fSubClosed f = false ->
  keptFrom filter f events `sublist_of` offered events
  /\ (Z.of_nat (length (snd (fSub f)) + length (offered events)) <= fst (fSub f) -> keptFrom filter f events = offered events).
Proof.
  induction events as [|e events IH]; intros f Hc; [done|]. cbn [keptFrom].
  destruct (captureStep_cap f e) as [Hcap _]. pose proof (captureStep_waiting f e) as Hw.
  destruct (decide (e = streamCloses)) as [->|Hne].
  { cbn [offered]. by rewrite closed_keeps_none. }
  assert (fSubClosed (snd (captureStep filter f e)) = false) as Hc'.
  { destruct e; cbn [captureStep snd]; try done.
    - by destruct (_ || _).
    - unfold filterStep. destruct (fHeld f); [by destruct (_ <? _)|]. destruct (snd (fSub f)); [by rewrite Hc|done].
    - by destruct (fOut f). }
  destruct (IH _ Hc') as [IH1 IH2]. rewrite Hcap in IH2.
  assert (offered (e :: events) = (match e with published l => if (l =? "")%string then [] else [l] | _ => [] end) ++ offered events) as ->
    by (by destruct e).
  set (o := match e with published _ => _ | _ => _ end) in *.
  assert (takenLine f e `sublist_of` o
    /\ (takenLine f e = o \/ length o = 1%nat /\ Z.of_nat (length (snd (fSub f))) >= fst (fSub f))) as [Ht1 Ht2].
  { unfold o. destruct e; cbn [takenLine]; try (split; [done|by left]). rewrite Hc, orb_false_r.
    destruct (_ =? _)%string; [split; [done|by left]|]. cbn [negb andb].
    destruct (Z.ltb_spec (Z.of_nat (length (snd (fSub f)))) (fst (fSub f))); [split; [done|by left]|].
    split; [apply sublist_nil_l|right; split; [done|lia]]. }
  split; [by apply sublist_app|]. rewrite length_app. intros Hlen.
  destruct Ht2 as [Ht2|[Ho Hfull]]; [|lia]. rewrite Ht2 in Hw |- *. f_equal. apply IH2. lia.
Qed.

(** ** What the collector receives *)

Definition linesOf (got : list collectEvent) : list string :=
  omap (fun g => match g with gotLine line => Some line | _ => None end) got.
Lemma linesOf_app g1 g2 : linesOf (g1 ++ g2) = linesOf g1 ++ linesOf g2.
Proof. apply omap_app. Qed.
Lemma linesOf_lines ls : linesOf (map gotLine ls) = ls.
Proof.
  induction ls as [|l ls IH]; [done|]. change (linesOf (map gotLine (l :: ls))) with (l :: linesOf (map gotLine ls)). by rewrite IH.
Qed.

(** Where the lines are that the channel took: with the collector, in its channel, in the
    goroutine's hand, or still to be filtered.  The collector's channel is closed after the last. *)
Definition flow_ok (got : list collectEvent) (f : filtered) (kept : list string) : Prop :=
  linesOf got ++ fOut f ++ option_list (fHeld f) ++ omap filter (snd (fSub f)) = omap filter kept
  /\ (fOutClosed f = true -> fSubClosed f = true /\ fHeld f = None /\ snd (fSub f) = [])
  /\ (linesClosed ∈ got -> fOutClosed f = true /\ fOut f = [])
  /\ (forall g1 g2, got = g1 ++ linesClosed :: g2 -> linesOf g2 = []).

Lemma captureStep_flow got f kept e : flow_ok got f kept ->
  flow_ok (got ++ fst (captureStep filter f e)) (snd (captureStep filter f e)) (kept ++ takenLine f e).
Proof.
  intros Hf. pose proof Hf as (Hall & Hclosed & Hend & Hlast). destruct e; cbn [captureStep takenLine fst snd]; rewrite ?app_nil_r.
  - destruct ((line =? "")%string || fSubClosed f) eqn:Hc; [cbn; by rewrite app_nil_r|].
    apply orb_false_iff in Hc as [_ Hc]. cbn [negb andb]. unfold flow_ok, trySend. cbn.
    destruct (Z.of_nat (length (snd (fSub f))) <? fst (fSub f)); cbn; rewrite ?app_nil_r; [|exact Hf].
    split_and!; [|intros [Hx _]%Hclosed; congruence|done|done]. by rewrite !omap_app, <- Hall, !app_assoc.
  - split_and!; try done. by intros [_ ?]%Hclosed.
  - unfold filterStep. destruct (fHeld f) as [l|] eqn:Hh.
    + destruct (_ <? _); [|exact Hf]. split_and!; cbn; try done.
      * rewrite <- Hall, <- !app_assoc. done.
      * by intros (_ & ? & _)%Hclosed.
      * intros [Ho _]%Hend. by apply Hclosed in Ho as (_ & ? & _).
    + destruct (snd (fSub f)) as [|l rest] eqn:Hs.
      * destruct (fSubClosed f) eqn:Hc; [|exact Hf].
        split_and!; cbn; rewrite ?Hh, ?Hs; try done. intros Hg. by apply Hend in Hg as [_ ?].
      * split_and!; cbn; try done.
        -- rewrite <- Hall. cbn. by destruct (filter l).
        -- by intros (_ & _ & ?)%Hclosed.
  - destruct (fOut f) as [|l rest] eqn:Ho.
    + destruct (fOutClosed f) eqn:Hoc; cbn [fst snd]; rewrite ?app_nil_r; [|exact Hf].
      split_and!; rewrite ?Ho, ?Hoc; try done.
      * by rewrite linesOf_app, app_nil_r.
      * intros g1 g2 Hg. destruct g2 as [|x g2 _] using rev_ind; [done|].
        rewrite app_comm_cons, app_assoc in Hg. apply app_inj_tail in Hg as [Hg <-].
        rewrite linesOf_app. cbn. by rewrite (Hlast g1 g2).
    + split_and!; cbn; try done.
      * rewrite linesOf_app, <- Hall, <- !app_assoc. done.
      * intros [Hg|Hg%list_elem_of_singleton]%elem_of_app; [by apply Hend in Hg as [_ ?]|done].
      * intros g1 g2 Hg. exfalso. destruct g2 as [|x g2 _] using rev_ind.
        -- by apply app_inj_tail in Hg as [_ ?].
        -- rewrite app_comm_cons, app_assoc in Hg. apply app_inj_tail in Hg as [-> _].
           assert (linesClosed ∈ g1 ++ linesClosed :: g2) as Hin by (apply elem_of_app; right; by left).
           by apply Hend in Hin as [_ ?].
  - split_and!; try done.
    + by rewrite linesOf_app, app_nil_r.
    + intros [Hg|Hg%list_elem_of_singleton]%elem_of_app; [by apply Hend|done].
    + intros g1 g2 Hg. destruct g2 as [|x g2 _] using rev_ind; [done|].
      rewrite app_comm_cons, app_assoc in Hg. apply app_inj_tail in Hg as [Hg <-].
      rewrite linesOf_app. cbn. by rewrite (Hlast g1 g2).
Qed.
Lemma captureRun_flow events :
  flow_ok (fst (captureRun filter events)) (snd (captureRun filter events)) (keptLines filter events).
Proof.
  induction events as [|e events IH] using rev_ind.
  { split_and!; try done; [by intros ?%elem_of_nil|by intros [] ? ?]. }
  rewrite captureRun_snoc, keptLines_snoc. destruct (captureRun filter events) as [got f].
  pose proof (captureStep_flow got f _ e IH) as Hs. by destruct (captureStep filter f e).
Qed.
(** Only a timer that fired, and a console that stopped, end the collecting otherwise. *)
Lemma captureRun_ends events :
  (collectTimeout ∈ fst (captureRun filter events) -> timeoutFires ∈ events)
  /\ (fSubClosed (snd (captureRun filter events)) = true -> streamCloses ∈ events).
Proof.
  induction events as [|e events [IH1 IH2]] using rev_ind; [split; [by intros ?%elem_of_nil|done]|].
  rewrite captureRun_snoc, !elem_of_app, !list_elem_of_singleton. destruct (captureRun filter events) as [got f].
  cbn [fst snd] in *. destruct e; cbn [captureStep].
  - rewrite app_nil_r. destruct (_ || _); cbn; naive_solver.
  - rewrite app_nil_r. cbn. naive_solver.
  - rewrite app_nil_r. unfold filterStep. destruct (fHeld f); [destruct (_ <? _); cbn; naive_solver|].
    destruct (snd (fSub f)); [destruct (fSubClosed f) eqn:Hc|]; cbn; rewrite ?Hc; naive_solver.
  - destruct (fOut f); [destruct (fOutClosed f)|]; cbn; rewrite ?app_nil_r, ?elem_of_app, ?list_elem_of_singleton; naive_solver.
  - cbn. rewrite elem_of_app, list_elem_of_singleton. naive_solver.
Qed.

(** Neither the goroutine nor the collector has anything to do. *)
Definition settled (f : filtered) : Prop := fOut f = [] /\ snd (captureStep filter f filterMoves) = f.
Lemma settled_empty f : settled f -> fOut f = [] /\ fHeld f = None /\ snd (fSub f) = [].
Proof.
  intros [Ho Hf]. cbn [captureStep snd] in Hf. unfold filterStep in Hf. rewrite Ho in Hf. split; [done|].
  destruct (fHeld f) as [l|] eqn:Hh.
  - apply (f_equal fHeld) in Hf. change (None = fHeld f) in Hf. congruence.
  - split; [done|]. destruct (snd (fSub f)) as [|l rest] eqn:Hs; [done|]. exfalso.
    apply (f_equal (fun f => length (snd (fSub f)))) in Hf. cbn in Hf. rewrite Hs in Hf. cbn in Hf. lia.
Qed.
End Lossy.

(** ** What it makes of it *)

Lemma prefix_app_cases {A} (k1 k2 : list A) : forall l, l `prefix_of` k1 ++ k2 ->
  l `prefix_of` k1 \/ exists m, l = k1 ++ m /\ m `prefix_of` k2.
Proof.
  induction k1 as [|x k1 IH]; intros l Hl; [right; by exists l|]. destruct l as [|y l]; [left; apply prefix_nil|].
  apply prefix_cons_inv_1 in Hl as Hy. apply prefix_cons_inv_2 in Hl. subst y.
  destruct (IH l Hl) as [?|(m & -> & ?)]; [left; by apply prefix_cons|right; by exists m].
Qed.
Lemma Forall_prefix {A} (P : A -> Prop) l k : l `prefix_of` k -> Forall P k -> Forall P l.
Proof. intros [m ->] Hk. by apply Forall_app in Hk as [? _]. Qed.

(** Lines, and then what ends them. *)
Definition stops (rest : list collectEvent) : Prop := match rest with gotLine _ :: _ => False | _ => True end.
Lemma got_split got : exists ls rest, got = map gotLine ls ++ rest /\ stops rest.
Proof.
  induction got as [|[l| |] got (ls & rest & -> & Hr)]; [by exists [], []|by exists (l :: ls), rest| |];
    by eexists [], _.
Qed.

Section Between.
Context (begin_ end_ : string) (pre body : list string) (b : string).
Context (Hb : TrimSpace b = begin_) (Hpre : Forall (fun l => TrimSpace l <> begin_) pre)
        (Hbody : Forall (fun l => TrimSpace l <> end_) body).

Lemma collect_window ls rest : body = ls \/ ls `prefix_of` body ->
  collectBetweenSentinels begin_ end_ false "" (map gotLine (pre ++ b :: ls) ++ rest)
  = collectBetweenSentinels begin_ end_ true (concatLines ls) rest.
Proof.
  intros Hls. assert (ls `prefix_of` body) as Hp by (by destruct Hls as [<-|?]).
  rewrite map_app, <- app_assoc, collect_before by done. cbn. rewrite Hb, String.eqb_refl.
  by rewrite (collect_inside begin_ end_ _ _ "") by (by eapply Forall_prefix).
Qed.
Lemma collect_stopped started out rest : stops rest ->
  collectBetweenSentinels begin_ end_ started out rest = match rest with [] => None | _ => Some out end.
Proof. by destruct rest as [|[| |]]. Qed.

(** With no end marker among them. *)
Lemma collect_cut ls rest : stops rest -> ls `prefix_of` pre ++ b :: body ->
  exists some, some `prefix_of` body /\
    collectBetweenSentinels begin_ end_ false "" (map gotLine ls ++ rest)
    = match rest with [] => None | _ => Some (concatLines some) end.
Proof.
  intros Hr [Hls|(m & -> & Hm)]%prefix_app_cases.
  - exists []. split; [apply prefix_nil|]. rewrite collect_before by (by eapply Forall_prefix). by apply collect_stopped.
  - destruct m as [|b' m].
    + exists []. split; [apply prefix_nil|]. rewrite app_nil_r, collect_before by done. by apply collect_stopped.
    + apply prefix_cons_inv_1 in Hm as Hb'. apply prefix_cons_inv_2 in Hm. subst b'. exists m. split; [done|].
      rewrite collect_window by auto. by apply collect_stopped.
Qed.
(** With the end marker. *)
Lemma collect_ended e post rest : TrimSpace e = end_ ->
  collectBetweenSentinels begin_ end_ false "" (map gotLine (pre ++ b :: body ++ e :: post) ++ rest)
  = Some (concatLines body).
Proof.
  intros He. replace (pre ++ b :: body ++ e :: post) with ((pre ++ b :: body) ++ e :: post) by (by rewrite <- app_assoc).
  rewrite (map_app _ _ (e :: post)), <- app_assoc, collect_window by auto. cbn. by rewrite He, String.eqb_refl.
Qed.
End Between.

(** The lines first received are the first of what was kept, and all of them when the stream ended
    or nothing is left to do. *)
Lemma received filter events :
  exists ls rest, fst (captureRun filter events) = map gotLine ls ++ rest /\ stops rest
  /\ ls `prefix_of` omap filter (keptLines filter events)
  /\ (rest <> [] -> timeoutFires ∈ events \/ streamCloses ∈ events /\ ls = omap filter (keptLines filter events))
  /\ (settled filter (snd (captureRun filter events)) -> rest = [] -> ls = omap filter (keptLines filter events)).
Proof.
  destruct (captureRun_flow filter events) as (Hall & Hcl & Hend & Hlast).
  destruct (captureRun_ends filter events) as [Htime Hclose].
  destruct (captureRun filter events) as [got f]. cbn [fst snd] in *.
  destruct (got_split got) as (ls & rest & -> & Hr). exists ls, rest. rewrite linesOf_app, linesOf_lines in Hall.
  split_and!; [done|done|rewrite <- Hall, <- !app_assoc; by apply prefix_app_r| |].
  - intros Hrest. destruct rest as [|[l| |] rest]; [done|done| |left; apply Htime; apply elem_of_app; right; by left].
    right. destruct Hend as [Hout Ho]; [apply elem_of_app; right; by left|]. destruct (Hcl Hout) as (Hc & Hh & Hs).
    split; [by apply Hclose|]. rewrite <- Hall, Ho, Hh, Hs.
    change (linesOf (linesClosed :: rest)) with (linesOf rest). rewrite (Hlast (map gotLine ls) rest eq_refl).
    by rewrite !app_nil_r.
  - intros Hset ->. apply settled_empty in Hset as (Ho & Hh & Hs). rewrite <- Hall, Ho, Hh, Hs. by rewrite !app_nil_r.
Qed.

(** C34.  A captured command's reply is what the server printed between the two sentinels, less
    what the filter drops, of the lines that the subscription kept.  Its channel keeps the lines
    in order and loses none while there are no more than it holds (256), but may lose any line
    beyond.  If both sentinels were kept, a reply that no timeout cut is exactly the filtered
    lines kept between them, any reply is the first of these lines, and there is a reply once
    everything kept has been handled; if the end sentinel was not kept, there is no reply until
    the timeout or the end of the console. *)
Theorem captureReply_between begin_ end_ base events pre b body :
  keepsText base -> begin_ <> end_ -> TrimSpace b = begin_ ->
  Forall (fun l => TrimSpace l <> begin_) pre -> Forall (fun l => TrimSpace l <> end_) body ->
  let filter := sentinelFilter begin_ end_ base in
  let kept := keptLines filter events in
  let reply := captureReply begin_ end_ base events in
  let cut := exists some, some `prefix_of` omap filter body /\ reply = Some (concatLines some) in
  kept `sublist_of` offered events
  /\ ((length (offered events) <= 256)%nat -> kept = offered events)
  /\ (forall e post, TrimSpace e = end_ -> kept = pre ++ b :: body ++ e :: post ->
        (reply = None \/ cut)
        /\ (timeoutFires ∉ events -> reply = None \/ reply = Some (concatLines (omap filter body)))
        /\ (settled filter (snd (captureRun filter events)) -> reply <> None))
  /\ (kept = pre ++ b :: body -> reply = None \/ (timeoutFires ∈ events \/ streamCloses ∈ events) /\ cut).
Proof.
  intros Hbase Hne Hb Hpre Hbody filter kept reply cut.
  destruct (kept_offered filter events (subscribeFiltered captureBuffer) eq_refl) as [Hsub Hfit].
  split_and!; [exact Hsub|intros Hlen; apply Hfit; cbn; unfold captureBuffer; lia| |].
  all: destruct (received filter events) as (ls & rest & Hgot & Hrest & Hls & Hends & Hset).
  all: fold kept in Hls, Hends, Hset.
  all: assert (filter b = Some b) as Hfb by (unfold filter, sentinelFilter; by rewrite Hb, String.eqb_refl).
  all: apply (omap_keeps _ base begin_ end_) in Hpre; [|done]; apply (omap_keeps _ base begin_ end_) in Hbody; [|done].
  all: unfold cut, reply, captureReply; fold filter; rewrite Hgot; fold filter in Hpre, Hbody.
  - intros e post He Hkept.
    assert (omap filter kept = (omap filter pre ++ b :: omap filter body) ++ e :: omap filter post) as Hk.
    { assert (filter e = Some e) as Hfe by (unfold filter, sentinelFilter; by rewrite He, String.eqb_refl, orb_true_r).
      rewrite Hkept, omap_app. cbn. rewrite Hfb, omap_app. cbn. by rewrite Hfe, <- app_assoc. }
    assert (forall l, l `prefix_of` omap filter pre ++ b :: omap filter body -> l <> omap filter kept) as Hshort.
    { intros l Hl ->. apply prefix_length in Hl. rewrite Hk, (length_app _ (e :: _)) in Hl. cbn [length] in Hl. lia. }
    rewrite Hk in Hls. apply prefix_app_cases in Hls as [Hls|(m & -> & Hm)].
    2: destruct m as [|e' m].
    3: { apply prefix_cons_inv_1 in Hm as ->. rewrite <- app_assoc. cbn [app].
         rewrite (collect_ended begin_ end_ _ _ b Hb Hpre Hbody e m rest He).
         split_and!; [right; by eexists|by right|done]. }
    2: rewrite app_nil_r in *.
    1: pose proof Hls as Hls'. 2: assert (omap filter pre ++ b :: omap filter body `prefix_of` omap filter pre ++ b :: omap filter body) as Hls' by done.
    all: destruct (collect_cut begin_ end_ _ _ b Hb Hpre Hbody _ rest Hrest Hls') as (some & Hsome & ->).
    all: apply Hshort in Hls'; destruct rest as [|x rest];
      [split_and!; [by left|by left|intros Hx; by destruct (Hls' (Hset Hx eq_refl))]|].
    all: split_and!; [right; by exists some| |done].
    all: intros Hno; by destruct (Hends ltac:(done)) as [?|[_ ?]].
  - intros Hkept. assert (omap filter kept = omap filter pre ++ b :: omap filter body) as Hk.
    { rewrite Hkept, omap_app. cbn. by rewrite Hfb. }
    rewrite Hk in Hls. destruct (collect_cut begin_ end_ _ _ b Hb Hpre Hbody _ rest Hrest Hls) as (some & Hsome & ->).
    destruct rest as [|x rest]; [by left|]. right. split; [|by exists some].
    destruct (Hends ltac:(done)) as [?|[? _]]; auto.
Qed.

(** ** Startup *)

Definition isPort (e : startupEffect) : bool := match e with onPort _ => true | _ => false end.
Definition isPath (e : startupEffect) : bool := match e with onSearchPath _ => true | _ => false end.
Definition isWrote (cmd : string) (e : startupEffect) : bool :=
  match e with wrote c => (c =? cmd)%string | _ => false end.
Definition count (f : startupEffect -> bool) (l : list startupEffect) : nat :=
  length (List.filter f l).

Lemma count_app f l k : count f (l ++ k) = (count f l + count f k)%nat.
Proof. unfold count. by rewrite List.filter_app, length_app. Qed.

Section StartupFacts.
Context `{GoUnicode}.
Variables needPort needPath : bool.

(** A flag is set by doing what it stands for, and things are done in order. *)
Definition accounts (s : startupState) (effects : list startupEffect) (s' : startupState) : Prop :=
  (count isPort effects + Nat.b2n (resolvedPortFlag s) = Nat.b2n (resolvedPortFlag s') /\
   count isPath effects + Nat.b2n (resolvedPath s) = Nat.b2n (resolvedPath s') /\
   count (isWrote "port") effects + Nat.b2n (requestedPort s) = Nat.b2n (requestedPort s') /\
   count (isWrote "path") effects + Nat.b2n (requestedPath s) = Nat.b2n (requestedPath s'))%nat.
Definition inOrder (s : startupState) : Prop :=
  (resolvedPortFlag s -> requestedPort s) /\ (requestedPort s -> needPort) /\
  (resolvedPath s -> requestedPath s) /\ (collectingPath s -> requestedPath s) /\
  (requestedPath s -> needPath).
Definition soundEffect (e : startupEffect) : Prop :=
  match e with
  | onPort port => 0 <= port <= 65535
  | onSearchPath path => path <> []
  | wrote cmd => cmd = "port"%string \/ cmd = "path"%string
  end.
Definition startupStep (s : startupState) (effects : list startupEffect) (s' : startupState) : Prop :=
  inOrder s -> accounts s effects s' /\ inOrder s' /\ Forall soundEffect effects.

Lemma startupStep_app s1 e1 s2 e2 s3 :
  startupStep s1 e1 s2 -> startupStep s2 e2 s3 -> startupStep s1 (e1 ++ e2) s3.
Proof.
  intros S1 S2 I1. destruct (S1 I1) as (A1 & I2 & F1). destruct (S2 I2) as (A2 & I3 & F2).
  split; [|split; [done|by apply Forall_app]]. unfold accounts in *. rewrite !count_app. lia.
Qed.

Lemma parsePortConsoleLine_range line port :
  parsePortConsoleLine line = Some port -> 0 <= port <= 65535.
Proof.
  unfold parsePortConsoleLine. destruct (negb _); [done|].
  destruct (Cut _ _) as [[digits ?] []]; [|done]. destruct (Atoi digits) as [p|]; [|done].
  destruct ((p <? 0) || (65535 <? p)) eqn:Hr; [done|]. intros [= <-]. lia.
Qed.

Lemma startupRequest_step writeOk trimmed s e s' :
  startupRequest needPort needPath writeOk trimmed s = (e, s') -> startupStep s e s'.
Proof.
  destruct s as [rqp rsp rqa col rsa entries]. unfold startupRequest.
  cbn [requestedPort requestedPath].
  destruct (Contains trimmed startupBanner); [|by intros [= <- <-] ?].
  intros Hr (I1 & I2 & I3 & I4 & I5). revert Hr. cbn in I1, I2, I3, I4, I5.
  destruct needPort eqn:Hn1, needPath eqn:Hn2, rqp, rqa, (writeOk "path"%string),
    (writeOk "port"%string);
    cbn; intros [= <- <-]; cbn; unfold accounts, inOrder; cbn; rewrite ?Hn1, ?Hn2;
    split_and!; try lia; try tauto; cbn; auto; repeat (apply List.Forall_cons; [cbn; auto|]); apply List.Forall_nil.
Qed.

Lemma startupPort_step trimmed s e s' :
  startupPort needPort trimmed s = (e, s') -> startupStep s e s'.
Proof.
  destruct s as [rqp rsp rqa col rsa entries]. unfold startupPort.
  cbn [requestedPort resolvedPortFlag].
  destruct (needPort && rqp && negb rsp) eqn:Hc; [|by intros [= <- <-] ?].
  destruct (parsePortConsoleLine trimmed) as [p|] eqn:Hp; [|by intros [= <- <-] ?].
  apply parsePortConsoleLine_range in Hp. destruct needPort, rqp, rsp; try done.
  intros [= <- <-] (I1 & I2 & I3 & I4 & I5). unfold accounts, inOrder. cbn in *.
  split_and!; try lia; try tauto. by apply Forall_singleton.
Qed.

Lemma startupPath_step trimmed s e s' b :
  startupPath needPath trimmed s = (e, s', b) -> startupStep s e s'.
Proof.
  destruct s as [rqp rsp rqa col rsa entries]. unfold startupPath.
  cbn [requestedPath collectingPath resolvedPath pathEntries].
  destruct (needPath && rqa && negb rsa) eqn:Hc; [|by intros [= <- <- <-] ?].
  destruct needPath, rqa, rsa; try done. intros Hr (I1 & I2 & I3 & I4 & I5). revert Hr.
  destruct col.
  - destruct (parseSearchPathConsoleLine trimmed) as [d|].
    { intros [= <- <- <-]. destruct (d =? "")%string;
        unfold accounts, inOrder; cbn in *; split_and!; try lia; try tauto; auto. }
    destruct entries as [|x xs]; intros [= <- <- <-]; unfold accounts, inOrder; cbn in *;
      split_and!; try lia; try tauto; auto. by apply Forall_singleton.
  - destruct (Contains trimmed _); intros [= <- <- <-];
      unfold accounts, inOrder; cbn in *; split_and!; try lia; try tauto; auto.
Qed.

Lemma startupLine_step writeOk line s e s' b :
  startupLine needPort needPath writeOk line s = (e, s', b) -> startupStep s e s'.
Proof.
  unfold startupLine. destruct (startupRequest _ _ _ _ _) as [e1 s1] eqn:H1.
  destruct (startupPort _ _ _) as [e2 s2] eqn:H2.
  destruct (startupPath _ _ _) as [[e3 s3] k] eqn:H3. intros [= <- <- _].
  eapply startupStep_app; [by eapply startupRequest_step|].
  eapply startupStep_app; [by eapply startupPort_step|by eapply startupPath_step].
Qed.

Lemma startupLoop_step lines : forall s, exists s',
  startupStep s (startupLoop needPort needPath lines s) s'.
Proof.
  induction lines as [|[line writeOk] lines IH]; intros s; cbn [startupLoop].
  - destruct (collectingPath s && negb (resolvedPath s)) eqn:Hc; [|by exists s].
    destruct (pathEntries s) as [|x xs] eqn:He; [by exists s|].
    exists (s <| resolvedPath := true |>). intros (I1 & I2 & I3 & I4 & I5).
    destruct s as [rqp rsp rqa [] [] entries]; try done. cbn in *.
    unfold accounts, inOrder; cbn. split_and!; try lia; try tauto; auto. by apply Forall_singleton.
  - destruct (startupLine _ _ _ _ _) as [[e s1] returned] eqn:Hl.
    apply startupLine_step in Hl. destruct returned; [by exists s1|].
    destruct (IH s1) as [s2 Hs2]. exists s2. by eapply startupStep_app.
Qed.

(** The startup monitor asks once and reports once: whatever a server prints and whichever
  commands fail, [port] and [path] are each sent at most once and only when needed, the port
  and the search path are each reported at most once and only when they were asked for, the
  port reported is a port, and the search path is not empty. *)
Theorem monitorServerStartup_once lines :
  let effects := monitorServerStartup needPort needPath lines in
  (count isPort effects <= count (isWrote "port") effects <= Nat.b2n needPort)%nat /\
  (count isPath effects <= count (isWrote "path") effects <= Nat.b2n needPath)%nat /\
  Forall soundEffect effects.
Proof.
  unfold monitorServerStartup. destruct (negb needPort && negb needPath).
  { cbn. repeat split; try lia. constructor. }
  destruct (startupLoop_step lines startupInit) as [s' Hs].
  destruct Hs as ((C1 & C2 & C3 & C4) & (I1 & I2 & I3 & I4 & I5) & Hf); [done|].
  cbn zeta. cbn [startupInit requestedPort resolvedPortFlag requestedPath resolvedPath Nat.b2n] in *.
  rewrite Nat.add_0_r in *. rewrite C1, C2, C3, C4. split; [|split; [|done]].
  - destruct (resolvedPortFlag s'), (requestedPort s'), needPort; cbn in *; lia || tauto.
  - destruct (resolvedPath s'), (requestedPath s'), needPath; cbn in *; lia || tauto.
Qed.
End StartupFacts.

(** ** The audit line *)

(** A byte that can neither end a quoted argument nor a console line. *)
Definition quotable (c : byte) : Prop := c <> quoteByte /\ c <> crByte /\ c <> lfByte.
Definition quotableText (s : string) : Prop := Forall quotable (blist s).

Section Audit.
Context `{GoUnicode}.

Lemma sanitizeServerAuditText_quotable text : quotableText (sanitizeServerAuditText text).
Proof.
  unfold sanitizeServerAuditText. set (t1 := ReplaceByte _ crByte _).
  set (t2 := ReplaceByte _ lfByte _). set (t3 := ReplaceByte _ quoteByte _).
  assert (quotableText t3) as Ht.
  { apply (Forall_ReplaceByte (fun c => c <> crByte /\ c <> lfByte)).
    - apply (Forall_ReplaceByte (fun c => c <> crByte)).
      + apply (Forall_ReplaceByte (fun _ : byte => True)); [by apply Forall_true|done|].
        by apply Forall_singleton.
      + done.
      + by apply Forall_singleton.
    - intros c [] ?. by split.
    - by apply Forall_singleton. }
  assert (quotableText (TrimSpace t3)) as Hs by by apply Forall_TrimSpace.
  destruct (_ =? _)%string; [constructor|].
  apply Forall_Join; [by apply Forall_Fields|by apply Forall_singleton].
Qed.

(** An audit line cannot be broken out of: whatever command an administrator sends and
  whatever name he goes by, the line echoed before it is empty or one quoted argument whose
  text has no quote and no line end, so it can neither run a command nor forge another line. *)
Theorem formatServerCommandAuditEcho_quoted cmd actorID :
  formatServerCommandAuditEcho cmd actorID = ""%string \/
  exists body, quotableText body /\
    formatServerCommandAuditEcho cmd actorID
    = ("echo " ++ btext [quoteByte] ++ body ++ btext [quoteByte])%string.
Proof.
  unfold formatServerCommandAuditEcho. destruct (_ =? _)%string; [by left|right].
  set (who := sanitizeServerAuditText actorID).
  set (actor := if (who =? "")%string then "admin"%string else who).
  exists (actor ++ ": " ++ sanitizeServerAuditText (trimTrailingCommandSemicolons cmd))%string.
  split.
  - unfold quotableText. rewrite !blist_app. repeat (apply Forall_app; split).
    + unfold actor, who. destruct (_ =? _)%string; [|apply sanitizeServerAuditText_quotable].
      cbn. repeat (apply List.Forall_cons; [done|]). apply List.Forall_nil.
    + cbn. repeat (apply List.Forall_cons; [done|]). apply List.Forall_nil.
    + apply sanitizeServerAuditText_quotable.
  - by rewrite !string_app_assoc.
Qed.
End Audit.

(** * Witnesses *)

Lemma consoleTail_last_witness :
  0 < 2 /\
  consoleTail 2 Some (foldl (fun c line => publishLine line c) (newServerConsole true)
    ["a"; "__NQX_B_1"; "b"; "c"; "__NQX_E_1"]%string) = ["b"; "c"]%string.
Proof.
  split; [lia|]. rewrite (consoleTail_last 2 Some true) by lia. vm_compute. reflexivity.
Defined.

(** Each line published is filtered and received. *)
Definition promptly (lines : list string) : list captureEvent :=
  flat_map (fun l => [published l; filterMoves; filterMoves; collectorTakes]) lines.
Lemma captureReply_between_witness :
  let filter := sentinelFilter "__NQX_B_1" "__NQX_E_1" Some in
  let events := promptly ["noise"; "__NQX_B_1"; "map:"; " dm4"; "__NQX_E_1"; "more"]%string in
  captureReply "__NQX_B_1" "__NQX_E_1" Some events <> None /\
  (captureReply "__NQX_B_1" "__NQX_E_1" Some events = None
   \/ captureReply "__NQX_B_1" "__NQX_E_1" Some events = Some "map: dm4"%string).
Proof.
  intros filter events.
  destruct (captureReply_between "__NQX_B_1" "__NQX_E_1" Some events ["noise"%string] "__NQX_B_1" ["map:"; " dm4"]%string)
    as (_ & _ & Hboth & _).
  - by intros l x [= <-].
  - discriminate.
  - vm_compute. reflexivity.
  - apply Forall_singleton. vm_compute. discriminate.
  - repeat (apply List.Forall_cons; [vm_compute; discriminate|]). apply List.Forall_nil.
  - destruct (Hboth "__NQX_E_1"%string ["more"%string]) as (_ & Hexact & Hsome); [vm_compute; reflexivity|vm_compute; reflexivity|].
    split; [apply Hsome; split; vm_compute; reflexivity|]. apply Hexact. unfold events, promptly. cbn [flat_map app].
    rewrite !elem_of_cons, elem_of_nil. intros Hx. repeat destruct Hx as [Hx|Hx]; discriminate Hx || destruct Hx.
Defined.

(** A burst of more lines than the channel holds loses the end sentinel: when everything kept has
    been handled there is no reply, and there is none until the timeout. *)
Example burst_loses_end :
  let filter := sentinelFilter "__NQX_B_1" "__NQX_E_1" Some in
  let burst := [published "__NQX_B_1"] ++ repeat (published "line") 300 ++ [published "__NQX_E_1"]
               ++ flat_map (fun _ => [filterMoves; filterMoves; collectorTakes]) (seq 0 300) in
  settled filter (snd (captureRun filter burst))
  /\ captureReply "__NQX_B_1" "__NQX_E_1" Some burst = None
  /\ captureReply "__NQX_B_1" "__NQX_E_1" Some (burst ++ [timeoutFires]) <> None.
Proof. split; [split; vm_compute; reflexivity|]. split; [vm_compute; reflexivity|vm_compute; discriminate]. Qed.

(** A server that prints its banner, its path and its port. *)
Example monitorServerStartup_example :
  monitorServerStartup (H := plain_unicode) true true
    (map (fun l => (l, fun _ => true))
       [startupBanner; "Current search path:"; "/q/id1/pak0.pak (339 files)"; "/q/id1";
        portLinePrefix ++ "26001" ++ btext [quoteByte]; "ready"]%string)
  = [wrote "path"; wrote "port"; onPort 26001; onSearchPath ["id1"]]%string.
Proof. vm_compute. reflexivity. Qed.
