(* ===== verification/Netip.v ===== *)
(** The part of Go's [net] and [net/netip] packages the program calls, for IPv4; the parser and
    the printer of IPv6 addresses are the parameter [GoNetip]. *)
From S2P Require Import Prelude GoStrings Paths.

(** A Go [[4]byte]. *)
Definition ip4 : Type := byte * byte * byte * byte.
Definition zeroIP : ip4 := (byte_of 0, byte_of 0, byte_of 0, byte_of 0).
Definition firstByte (ip : ip4) : Z := let '(a, _, _, _) := ip in byteZ a.
(** binary.BigEndian.Uint32 *)
Definition ipKey (ip : ip4) : Z := let '(a, b, c, d) := ip in be32 a b c d.

Lemma ipKey_inj ip ip' : ipKey ip = ipKey ip' -> ip = ip'.
Proof.
  destruct ip as [[[a b] c] d], ip' as [[[a' b'] c'] d']. cbn. intros H.
  apply (f_equal put32) in H. rewrite !put32_be32 in H. congruence.
Qed.

(** * Addresses *)

(** netip.Addr after [Unmap]: four bytes, or an IPv6 address by its text. *)
Inductive Addr := Addr4 (ip : ip4) | Addr6 (text : string).

(** netip.ParseAddr followed by [Unmap], on a text of an IPv6 address. *)
Class GoNetip := { parse_ipv6 : string -> option Addr }.

(** An instance for concrete evaluation. *)
Definition no_ipv6 : GoNetip := {| parse_ipv6 _ := None |}.

Definition dot : byte := "."%char.

(** One decimal field of at most 255, without leading zeros. *)
Definition parse_octet (l : bytes) : option byte :=
  match l with
  | [] => None
  | c :: rest =>
      if (byteZ c =? 48) && negb (bool_decide (rest = [])) then None else
      match digits_value 0 l with
      | Some v => if v <=? 255 then Some (byte_of v) else None
      | None => None
      end
  end.

Definition parse_ipv4 (s : bytes) : option Addr :=
  match map parse_octet (split_byte dot [] s) with
  | [Some a; Some b; Some c; Some d] => Some (Addr4 (a, b, c, d))
  | _ => None
  end.

(** The first of the characters that tell the families apart. *)
Fixpoint addr_family (l : bytes) : option byte :=
  match l with
  | [] => None
  | c :: l => if Ascii.eqb c dot || Ascii.eqb c ":"%char || Ascii.eqb c "%"%char then Some c
              else addr_family l
  end.

Definition ParseAddr `{GoNetip} (s : string) : option Addr :=
  match addr_family (blist s) with
  | Some "."%char => parse_ipv4 (blist s)
  | Some ":"%char => parse_ipv6 s
  | _ => None
  end.

(** The dotted quad. *)
Definition ip4String (ip : ip4) : string :=
  let '(a, b, c, d) := ip in
  Join (map (fun o => Itoa (byteZ o)) [a; b; c; d]) ".".
Definition addrString (a : Addr) : string :=
  match a with Addr4 ip => ip4String ip | Addr6 text => text end.

(** * net.SplitHostPort *)

(** The host and the port, cut at the last colon. *)
Definition cut_last (b : byte) (l : bytes) : option (bytes * bytes) :=
  match cut_byte b (rev l) with
  | Some (after, before) => Some (rev before, rev after)
  | None => None
  end.

Definition has_byte (b : byte) (l : bytes) : bool := existsb (Ascii.eqb b) l.

(** [None] is each of its errors: no port, too many colons, or misplaced brackets. *)
Definition SplitHostPort (s : string) : option (string * string) :=
  match cut_last ":"%char (blist s) with
  | None => None
  | Some (before, port) =>
      match before with
      | "["%char :: inside =>
          match cut_byte "]"%char inside with
          | Some (host, []) =>
              if has_byte "["%char host || has_byte "["%char port || has_byte "]"%char port then None
              else Some (btext host, btext port)
          | _ => None
          end
      | _ => if has_byte ":"%char before || has_byte "["%char (blist s) || has_byte "]"%char (blist s)
             then None else Some (btext before, btext port)
      end
  end.

Example SplitHostPort_examples :
  SplitHostPort "10.0.0.1:443" = Some ("10.0.0.1", "443")%string /\
  SplitHostPort "[::1]:80" = Some ("::1", "80")%string /\
  SplitHostPort "::1" = None /\ SplitHostPort "10.0.0.1" = None /\ SplitHostPort "[::1]" = None /\
  SplitHostPort ":8080" = Some ("", "8080")%string.
Proof. vm_compute. done. Qed.

(** * Facts *)

Lemma octet_roundtrip o : parse_octet (blist (Itoa (byteZ o))) = Some o.
Proof. destruct o as [[] [] [] [] [] [] [] []]; vm_compute; reflexivity. Qed.

(** A digit. *)
Definition is_digit (c : byte) : Prop := 48 <= byteZ c <= 57.

Lemma octet_digits o : Forall is_digit (blist (Itoa (byteZ o))).
Proof.
  apply (Forall_impl (fun c => (48 <=? byteZ c) && (byteZ c <=? 57) = true)).
  2: { intros c Hc. unfold is_digit. lia. }
  apply List.Forall_forall. intros c Hc.
  assert (forallb (fun c => (48 <=? byteZ c) && (byteZ c <=? 57)) (blist (Itoa (byteZ o))) = true) as Ha.
  { clear. destruct o as [[] [] [] [] [] [] [] []]; vm_compute; reflexivity. }
  by apply (proj1 (forallb_forall _ _) Ha).
Qed.

Lemma digits_no_dot l : Forall is_digit l -> Forall (fun c => c <> dot) l.
Proof.
  intros Hl. eapply Forall_impl; [exact Hl|]. unfold is_digit. intros c Hc ->. change (byteZ dot) with 46 in Hc. lia.
Qed.

Lemma addr_family_digits l rest : Forall is_digit l -> addr_family (l ++ dot :: rest) = Some dot.
Proof.
  induction 1 as [|c l Hc _ IH]; cbn; [done|]. unfold is_digit in Hc.
  destruct (Ascii.eqb_spec c dot) as [->|]; [change (byteZ dot) with 46 in Hc; lia|].
  destruct (Ascii.eqb_spec c ":"%char) as [->|]; [change (byteZ ":") with 58 in Hc; lia|].
  destruct (Ascii.eqb_spec c "%"%char) as [->|]; [change (byteZ "%") with 37 in Hc; lia|]. done.
Qed.

Lemma blist_ip4String a b c d :
  blist (ip4String (a, b, c, d))
  = blist (Itoa (byteZ a)) ++ dot :: blist (Itoa (byteZ b)) ++ dot :: blist (Itoa (byteZ c))
    ++ dot :: blist (Itoa (byteZ d)).
Proof. unfold ip4String. cbn [map Join]. by rewrite !blist_app. Qed.

Lemma ParseAddr_ip4String `{GoNetip} ip : ParseAddr (ip4String ip) = Some (Addr4 ip).
Proof.
  destruct ip as [[[a b] c] d]. unfold ParseAddr. rewrite blist_ip4String.
  rewrite addr_family_digits by apply octet_digits. unfold dot at 1. unfold parse_ipv4.
  pose proof (fun o => digits_no_dot _ (octet_digits o)) as Hnd.
  rewrite !split_byte_app_sep. rewrite !split_byte_none by apply Hnd.
  cbn [map rev app]. by rewrite !octet_roundtrip.
Qed.

(** Text of plain bytes, none of them white space, is left as it is. *)
Definition visible (c : byte) : Prop := 33 <= byteZ c <= 126.

Lemma drop_space_visible s2 s3 l :
  (forall a b, visible a -> visible b -> s2 a b = false) ->
  (forall a b c, visible a -> visible b -> visible c -> s3 a b c = false) ->
  Forall visible l -> drop_space s2 s3 l = l.
Proof.
  intros H2 H3 Hl. destruct Hl as [|a l Ha Hl]; [done|]. cbn.
  replace (is_space1 a) with false by (unfold is_space1, visible in *; lia).
  destruct Hl as [|b l Hb Hl]; [done|]. rewrite H2 by done.
  destruct Hl as [|c l Hc Hl]; [done|]. by rewrite H3.
Qed.

Lemma TrimSpace_visible s : Forall visible (blist s) -> TrimSpace s = s.
Proof.
  assert (forall a b, visible a -> is_space2 a b = false) as H2
    by (intros a b Ha; unfold is_space2, visible in *; lia).
  assert (forall a b c, visible a -> is_space3 a b c = false) as H3
    by (intros a b c Ha; unfold is_space3, visible in *; lia).
  intros Hs. unfold TrimSpace, trim_right_space, trim_left_space.
  rewrite (drop_space_visible _ _ (blist s)) by auto.
  rewrite drop_space_visible; [by rewrite rev_involutive, btext_blist|auto|auto|].
  by apply Forall_rev_iff.
Qed.

Lemma ip4String_visible ip : Forall visible (blist (ip4String ip)).
Proof.
  destruct ip as [[[a b] c] d]. rewrite blist_ip4String.
  assert (forall o, Forall visible (blist (Itoa (byteZ o)))) as Ho.
  { intros o. eapply Forall_impl; [apply octet_digits|]. intros x. unfold is_digit, visible. lia. }
  assert (visible dot) as Hd by (split; vm_compute; discriminate).
  repeat (apply Forall_app; split; [apply Ho|apply List.Forall_cons; [done|]]). apply Ho.
Qed.
