(* ===== verification/Trunk.v ===== *)
(** The tunnel between browsers and the game servers: nexus/trunk (vip.go, relay.go, session.go,
    trunk.go).

    A [Session]'s goroutines and the callers that push frames to it interleave; each constructor
    of [tstep] is one section that the code runs atomically (under a lock, or one channel or
    socket operation).  The transport, the UDP socket and the timers are the environment: they
    choose the frames, the errors and the timeouts.  [queued], [sent], [lost] and [udpOut] record
    what passed through a session and are read by nothing. *)
From S2P Require Import Prelude GoStrings Netip.

(** * Frames (relay.go) *)

(** relay.go [controlPort] *)
Definition controlPort : Z := 0.

(** relay.go [buildFrame]; nil is the empty frame. *)
Definition buildFrame (port : Z) (payload : bytes) : bytes :=
  if (port <? controlPort) || (65535 <? port) then [] else put16 port ++ payload.

(** relay.go [decodeFrame] *)
Definition decodeFrame (packet : bytes) : option (Z * bytes) :=
  match packet with
  | a :: b :: payload => Some (be16 a b, payload)
  | _ => None
  end.

(** relay.go [isValidServerPort] *)
Definition isValidServerPort (port : Z) : bool := (1 <=? port) && (port <=? 65535).

(** * Virtual addresses (vip.go) *)

(** vip.go [fnv64aSum]: the FNV-1a hash of hash/fnv. *)
Definition fnvOffset64 : Z := 14695981039346656037.
Definition fnvPrime64 : Z := 1099511628211.
Definition fnv64aSum (text : string) : Z :=
  foldl (fun h c => wrap64 (Z.lxor h (byteZ c) * fnvPrime64)) fnvOffset64 (blist text).

(** vip.go [virtualIPAllocator]; its server address is nil when the option was no IPv4 one. *)
Record virtualIPAllocator := mkAllocator {
  serverIP : option ip4;
  used : gset Z;
}.
#[export] Instance eta_allocator : EtaRecord virtualIPAllocator := fun a =>
  mkAllocator (serverIP a) (used a).

(** vip.go [newAllocator] *)
Definition newAllocator (serverIP : option ip4) : virtualIPAllocator := mkAllocator serverIP ∅.

Definition maxVirtualIPProbeAttempts : nat := 4096.

(** vip.go [alloc]: the key it hashes, *)
Definition allocKey (sourceKey : string) : string :=
  let sourceKey := TrimSpace sourceKey in
  if (sourceKey =? "")%string then "unknown"%string else sourceKey.

(** a probe's candidate, *)
Definition candidate (sourceKey : string) (probe : Z) : ip4 :=
  let sum := fnv64aSum ("NQ:client-ip:v1|" ++ sourceKey ++ "|" ++ Itoa probe)%string in
  (byte_of 127, byte_of (Z.shiftr sum 56), byte_of (Z.shiftr sum 48), byte_of (Z.shiftr sum 40)).

(** whether it can be had, *)
Definition freeIP (a : virtualIPAllocator) (ip : ip4) : bool :=
  negb (bool_decide (serverIP a = Some ip)) && negb (bool_decide (ipKey ip ∈ used a)).

(** and the loop over the probes. *)
Fixpoint allocProbe (a : virtualIPAllocator) (sourceKey : string) (attempts : nat) (probe : Z)
    : option (ip4 * virtualIPAllocator) :=
  match attempts with
  | O => None
  | S attempts =>
      let ip := candidate sourceKey probe in
      if freeIP a ip then Some (ip, a <| used ::= union {[ipKey ip]} |>)
      else allocProbe a sourceKey attempts (probe + 1)
  end.

(** vip.go [alloc]; [None] is its error. *)
Definition alloc (sourceKey : string) (a : virtualIPAllocator)
    : option (ip4 * virtualIPAllocator) :=
  allocProbe a (allocKey sourceKey) maxVirtualIPProbeAttempts 0.

(** vip.go [release] *)
Definition release (ip : ip4) (a : virtualIPAllocator) : virtualIPAllocator :=
  if negb (firstByte ip =? 127) then a else a <| used ::= fun u => u ∖ {[ipKey ip]} |>.

(** * Sessions (session.go, relay.go) *)

(** How far [newSession] and [End] have come. *)
Inductive sessionPhase := Binding | Live | Ending | Ended.
(** The write loop: not started, in its select, in [drainTx], or returned; [drained] is a return
    of [drainTx] on an empty queue, [failed] one on a transport error, [late] on the deadline. *)
Inductive exitReason := drained | failed | late.
Inductive writeLoopState := notStarted | selecting | draining | exited (why : exitReason).
#[export] Instance sessionPhase_eq : EqDecision sessionPhase.
Proof. solve_decision. Defined.
#[export] Instance exitReason_eq : EqDecision exitReason.
Proof. solve_decision. Defined.
#[export] Instance writeLoopState_eq : EqDecision writeLoopState.
Proof. solve_decision. Defined.

(** session.go [Session]. *)
Record Session := mkSession {
  xportName : string;
  virtualIP : ip4;
  sourceKey : string;
  connectedAt : Z;
  lastServerPort : Z;
  txDropped : Z;
  tx : list bytes;
  ctxDone : bool;
  xportClosed : bool;
  udpClosed : bool;
  phase : sessionPhase;
  runStarted : bool;
  writeLoop : writeLoopState;
  queued : list bytes;
  sent : list bytes;
  lost : list bytes;
  udpOut : list (Z * bytes);
}.
#[export] Instance eta_session : EtaRecord Session := fun s =>
  mkSession (xportName s) (virtualIP s) (sourceKey s) (connectedAt s) (lastServerPort s)
    (txDropped s) (tx s) (ctxDone s) (xportClosed s) (udpClosed s) (phase s) (runStarted s)
    (writeLoop s) (queued s) (sent s) (lost s) (udpOut s).

(** The capacity of [tx]. *)
Definition txCap : nat := 1024.

(** A send on [tx], when it has room. *)
Definition enqueue (frame : bytes) (s : Session) : option Session :=
  if (length (tx s) <? txCap)%nat
  then Some (s <| tx ::= fun q => q ++ [frame] |> <| queued ::= fun q => q ++ [frame] |>)
  else None.

(** relay.go [sendFrame]: the test before its select, *)
Definition sendFrameCheck (frame : bytes) (s : Session) : bool :=
  negb (bool_decide (frame = [])) && negb (ctxDone s).
(** the select ([pickTx] chooses when both cases are ready; [None] is waiting), *)
Definition sendFrameSelect (drop pickTx : bool) (frame : bytes) (s : Session) : option Session :=
  match enqueue frame s with
  | Some s' => if ctxDone s && negb pickTx then Some s else Some s'
  | None => if ctxDone s then Some s
            else if drop then Some (s <| txDropped ::= Z.add 1 |>) else None
  end.
(** and the call, when nothing happens in between. *)
Definition sendFrame (drop pickTx : bool) (frame : bytes) (s : Session) : option Session :=
  if sendFrameCheck frame s then sendFrameSelect drop pickTx frame s else Some s.

(** session.go [SendControl], its select: whether it returns nil, and the session. *)
Definition SendControlSelect (pickTx : bool) (payload : bytes) (s : Session)
    : option (bool * Session) :=
  match enqueue (buildFrame controlPort payload) s with
  | Some s' => if ctxDone s && negb pickTx then Some (false, s) else Some (true, s')
  | None => if ctxDone s then Some (false, s) else None
  end.
Definition SendControl (pickTx : bool) (payload : bytes) (s : Session) : option (bool * Session) :=
  if ctxDone s then Some (false, s) else SendControlSelect pickTx payload s.

(** session.go [TrySendControl], its select and the call. *)
Definition TrySendControlSelect (payload : bytes) (s : Session) : bool * Session :=
  match enqueue (buildFrame controlPort payload) s with
  | Some s' => (true, s')
  | None => (false, s)
  end.
Definition TrySendControl (payload : bytes) (s : Session) : bool * Session :=
  if ctxDone s then (false, s) else TrySendControlSelect payload s.

(** session.go [noteServerRoutePort] *)
Definition noteServerRoutePort (port : Z) (s : Session) : Session :=
  if isValidServerPort port then s <| lastServerPort := port |> else s.

(** relay.go [udpWrite]: the datagram given to the socket, for the server's address. *)
Definition udpWrite (dstPort : Z) (payload : bytes) (s : Session) : Session :=
  if ctxDone s || bool_decide (payload = []) then s
  else s <| udpOut ::= fun o => o ++ [(dstPort, payload)] |>.

(** relay.go [handleFrame] *)
Definition handleFrame (allowPort : option (Z -> bool)) (packet : bytes) (s : Session) : Session :=
  match decodeFrame packet with
  | None => s
  | Some (dstPort, payload) =>
      if dstPort =? controlPort then s else
      if match allowPort with Some f => negb (f dstPort) | None => false end then s else
      udpWrite dstPort payload (noteServerRoutePort dstPort s)
  end.

(** What the UDP socket reads from: relay.go [serverSourcePortFromAddr] *)
Inductive netAddr := udpAddr (port : Z) | otherAddr.
Definition serverSourcePortFromAddr (addr : netAddr) : option Z :=
  match addr with
  | udpAddr port => if isValidServerPort port then Some port else None
  | otherAddr => None
  end.

(** A datagram through the loop of relay.go [udpReadLoop]: the frame to send, if any. *)
Definition udpReadFrame (addr : netAddr) (packet : bytes) : option bytes :=
  let? srcPort := serverSourcePortFromAddr addr in Some (buildFrame srcPort packet).

(** relay.go [writeLoop] and [drainTx]: what one of their selects received. *)
Inductive writeLoopEvent :=
  | pinged (err : bool) | tookPacket (err : bool) | sawDone | deadlinePassed | queueEmpty.

(** The transport failed: the context is cancelled, and the transport closed. *)
Definition writeLoopFails (s : Session) : Session :=
  s <| ctxDone := true |> <| xportClosed := true |> <| writeLoop := exited failed |>.

Definition writeLoopStep (e : writeLoopEvent) (s : Session) : option Session :=
  match writeLoop s, e, tx s with
  | selecting, sawDone, _ => if ctxDone s then Some (s <| writeLoop := draining |>) else None
  | selecting, pinged err, _ => Some (if err then writeLoopFails s else s)
  | selecting, tookPacket err, packet :: rest =>
      let s := s <| tx := rest |> in
      Some (if bool_decide (packet = []) then s
            else if err then writeLoopFails (s <| lost := [packet] |>)
            else s <| sent ::= fun l => l ++ [packet] |>)
  | draining, tookPacket err, packet :: rest =>
      let s := s <| tx := rest |> in
      Some (if bool_decide (packet = []) then s
            else if err then s <| lost := [packet] |> <| writeLoop := exited failed |>
            else s <| sent ::= fun l => l ++ [packet] |>)
  | draining, queueEmpty, [] => Some (s <| writeLoop := exited drained |>)
  | draining, deadlinePassed, _ => Some (s <| writeLoop := exited late |>)
  | _, _, _ => None
  end.

(** session.go [Run], until it enters its read loop *)
Definition RunBegin (s : Session) : Session :=
  s <| runStarted := true |> <| writeLoop := selecting |>.

(** session.go [End] up to its wait, *)
Definition EndBegin (s : Session) : Session := s <| phase := Ending |> <| ctxDone := true |>.
(** whether the wait is over, *)
Definition EndReady (timedOut : bool) (s : Session) : bool :=
  negb (runStarted s) || match writeLoop s with exited _ => true | _ => false end || timedOut.
(** and after it. *)
Definition EndFinish (s : Session) : Session :=
  s <| udpClosed := true |> <| xportClosed := true |> <| virtualIP := zeroIP |>
    <| phase := Ended |>.

(** * The trunk (trunk.go) *)

(** trunk.go [Trunk]: the allocator, the registry (a set of sessions by their pointer), and the
    sessions that were made. *)
Record Trunk := mkTrunk {
  allocator : virtualIPAllocator;
  registry : gset Z;
  heap : gmap Z Session;
  allowPort : option (Z -> bool);
}.
#[export] Instance eta_trunk : EtaRecord Trunk := fun t =>
  mkTrunk (allocator t) (registry t) (heap t) (allowPort t).

(** trunk.go [New] *)
Definition New (serverIP : option ip4) (allowPort : option (Z -> bool)) : Trunk :=
  mkTrunk (newAllocator serverIP) ∅ ∅ allowPort.

(** trunk.go [sessionInfoOf], [snapshot] and [Sessions], in the order of the pointers (Go's map
    order is unspecified) *)
Record SessionInfo := mkInfo {
  infoSourceKey : string; infoVirtualIP : ip4; infoTransport : string;
  infoConnectedAt : Z; infoActiveServerPort : Z;
}.
Definition sessionInfoOf (s : Session) : SessionInfo :=
  mkInfo (sourceKey s) (virtualIP s) (xportName s) (connectedAt s) (lastServerPort s).
Definition Sessions (t : Trunk) : list SessionInfo :=
  omap (fun p => sessionInfoOf <$> heap t !! p) (elements (registry t)).

(** trunk.go [sessionByVirtualIP] *)
Definition hasVirtualIP (t : Trunk) (target : ip4) (p : Z) : bool :=
  match heap t !! p with Some s => bool_decide (virtualIP s = target) | None => false end.
Definition sessionByVirtualIP (target : ip4) (t : Trunk) : option Z :=
  if firstByte target =? 0 then None
  else head (List.filter (hasVirtualIP t target) (elements (registry t))).

(** session.go [newSession]: the address is allocated, *)
Definition newSessionAlloc (p : Z) (xport key : string) (now : Z) (t : Trunk) : option Trunk :=
  let? (ip, a) := alloc key (allocator t) in
  Some (t <| allocator := a |>
          <| heap ::= <[p := mkSession xport ip (TrimSpace key) now 0 0 [] false false false
                               Binding false notStarted [] [] [] []]> |>).
(** then the socket bound and the session registered, or the address given back. *)
Definition newSessionListen (ok : bool) (p : Z) (s : Session) (t : Trunk) : Trunk :=
  if ok then t <| heap ::= <[p := s <| phase := Live |>]> |> <| registry ::= union {[p]} |>
  else t <| allocator ::= release (virtualIP s) |> <| heap ::= delete p |>.

Definition setSession (p : Z) (s : Session) (t : Trunk) : Trunk := t <| heap ::= <[p := s]> |>.

(** session.go [End] on the trunk; it runs once. *)
Definition sessionEndBegin (p : Z) (s : Session) (t : Trunk) : Trunk :=
  setSession p (EndBegin s) (t <| registry ::= fun r => r ∖ {[p]} |>).
Definition sessionEndFinish (p : Z) (s : Session) (t : Trunk) : Trunk :=
  setSession p (EndFinish s) (t <| allocator ::= release (virtualIP s) |>).

(** trunk.go [endSession]: the session it ends. *)
Definition endSession (target : ip4) (t : Trunk) : Trunk :=
  match sessionByVirtualIP target t with
  | None => t
  | Some p => match heap t !! p with Some s => sessionEndBegin p s t | None => t end
  end.

(** The sections of all goroutines. *)
Inductive tstep : Trunk -> Trunk -> Prop :=
  | step_alloc p xport key now t t' :
      heap t !! p = None -> newSessionAlloc p xport key now t = Some t' -> tstep t t'
  | step_listen ok p s t :
      heap t !! p = Some s -> phase s = Binding -> tstep t (newSessionListen ok p s t)
  | step_run p s t :
      heap t !! p = Some s -> phase s <> Binding -> runStarted s = false ->
      tstep t (setSession p (RunBegin s) t)
  | step_frame p s packet t :
      heap t !! p = Some s -> phase s <> Binding ->
      tstep t (setSession p (handleFrame (allowPort t) packet s) t)
  | step_send p s s' drop pickTx frame t :
      heap t !! p = Some s -> phase s <> Binding -> frame <> [] ->
      sendFrameSelect drop pickTx frame s = Some s' -> tstep t (setSession p s' t)
  | step_control p s ok s' pickTx payload t :
      heap t !! p = Some s -> phase s <> Binding ->
      SendControlSelect pickTx payload s = Some (ok, s') -> tstep t (setSession p s' t)
  | step_try_control p s payload t :
      heap t !! p = Some s -> phase s <> Binding ->
      tstep t (setSession p (snd (TrySendControlSelect payload s)) t)
  | step_write_loop p s s' e t :
      heap t !! p = Some s -> phase s <> Binding ->
      writeLoopStep e s = Some s' -> tstep t (setSession p s' t)
  | step_end_begin p s t :
      heap t !! p = Some s -> phase s = Live -> tstep t (sessionEndBegin p s t)
  | step_end_finish timedOut p s t :
      heap t !! p = Some s -> phase s = Ending -> EndReady timedOut s = true ->
      tstep t (sessionEndFinish p s t).

Definition treachable (t : Trunk) : Prop :=
  exists serverIP allowPort, rtc tstep (New serverIP allowPort) t.

(** * Facts: frames *)

Lemma decodeFrame_iff packet port payload :
  decodeFrame packet = Some (port, payload)
  <-> 0 <= port <= 65535 /\ packet = buildFrame port payload.
Proof.
  unfold buildFrame, controlPort. split.
  - destruct packet as [|a [|b rest]]; try done. cbn [decodeFrame]. intros [= <- <-].
    pose proof (be16_range a b). split; [lia|].
    destruct (_ || _) eqn:Hr; [lia|]. by rewrite put16_be16.
  - intros [Hp ->]. destruct (_ || _) eqn:Hr; [lia|].
    cbn [put16 app decodeFrame]. by rewrite be16_put16 by lia.
Qed.

Lemma buildFrame_nil port payload : buildFrame port payload = [] <-> ~ 0 <= port <= 65535.
Proof. unfold buildFrame, controlPort. destruct (_ || _) eqn:Hr; cbn; split; (done || lia). Qed.

(** Frames lose nothing: a packet decodes to a port and a payload exactly when it is the
    frame built from them, for every port of 16 bits; only packets shorter than the header are
    refused, and only ports outside the 16 bits have no frame. *)
Theorem decodeFrame_buildFrame packet port payload :
  (decodeFrame packet = Some (port, payload)
   <-> 0 <= port <= 65535 /\ packet = buildFrame port payload) /\
  (decodeFrame packet = None <-> (length packet < 2)%nat) /\
  (buildFrame port payload = [] <-> ~ 0 <= port <= 65535).
Proof.
  split; [apply decodeFrame_iff|split; [|apply buildFrame_nil]].
  destruct packet as [|a [|b rest]]; cbn; split; (done || lia).
Qed.

(** What the filter of the trunk lets through. *)
Definition portAllowed (allow : option (Z -> bool)) (port : Z) : bool :=
  match allow with Some f => f port | None => true end.

(** What a client's frame reaches: it is forwarded, unchanged and to the port it names,
    exactly when the session is alive, the port is neither the control channel nor refused by
    the filter, and there is a payload; every other packet, a control frame in particular, gives
    the socket nothing. *)
Theorem handleFrame_forwards allow packet s dstPort payload :
  (udpOut (handleFrame allow packet s) = udpOut s ++ [(dstPort, payload)]
   <-> packet = buildFrame dstPort payload /\ 1 <= dstPort <= 65535 /\ payload <> [] /\
       portAllowed allow dstPort = true /\ ctxDone s = false) /\
  (udpOut (handleFrame allow packet s) = udpOut s \/
   exists p d, udpOut (handleFrame allow packet s) = udpOut s ++ [(p, d)]
               /\ lastServerPort (handleFrame allow packet s) = p) /\
  tx (handleFrame allow packet s) = tx s.
Proof.
  assert (forall p d, udpOut s = udpOut s ++ [(p, d)] -> False) as Hno.
  { intros p d He. apply (f_equal length) in He. rewrite length_app in He. cbn in He. lia. }
  unfold handleFrame. destruct (decodeFrame packet) as [[p d]|] eqn:Hd.
  2: { split_and!; [|by left|done]. split; [by intros ?%Hno|]. intros (-> & Hp & _).
       rewrite (proj2 (decodeFrame_iff _ dstPort payload)) in Hd by (split; [lia|done]). done. }
  pose proof (proj1 (decodeFrame_iff _ _ _) Hd) as [Hp Hpk].
  assert (packet = buildFrame dstPort payload /\ 1 <= dstPort <= 65535 ->
          dstPort = p /\ payload = d) as Hsame.
  { intros [Hpk2 Hr2]. assert (0 <= dstPort <= 65535) as Hr by lia.
    pose proof (proj2 (decodeFrame_iff packet dstPort payload) (conj Hr Hpk2)).
    split; congruence. }
  change (match allow with Some f => negb (f p) | None => false end)
    with (match allow with Some f => negb (f p) | None => negb true end).
  replace (match allow with Some f => negb (f p) | None => negb true end)
    with (negb (portAllowed allow p)) by (by destruct allow).
  unfold controlPort. destruct (Z.eqb_spec p 0) as [->|Hp0].
  { split_and!; [|by left|done]. split; [by intros ?%Hno|].
    intros (Hpk2 & Hr & _). destruct (Hsame (conj Hpk2 Hr)). lia. }
  destruct (portAllowed allow p) eqn:Ha; cbn [negb].
  2: { split_and!; [|by left|done]. split; [by intros ?%Hno|].
       intros (Hpk2 & Hr & _ & Hpa & _). destruct (Hsame (conj Hpk2 Hr)). congruence. }
  unfold noteServerRoutePort, isValidServerPort.
  replace ((1 <=? p) && (p <=? 65535)) with true by lia.
  unfold udpWrite. cbn [ctxDone]. destruct (ctxDone s) eqn:Hc; cbn.
  { rewrite Hc. cbn. split_and!; [|by left|done]. split; [by intros ?%Hno|]. by intros (_&_&_&_&?). }
  rewrite Hc. cbn. case_bool_decide as Hd0; cbn.
  { split_and!; [|by left|done]. split; [by intros ?%Hno|].
    intros (Hpk2 & Hr & Hne & _). destruct (Hsame (conj Hpk2 Hr)). congruence. }
  split_and!; [|by right; eauto|done]. split.
  - intros [= <- <-]%app_inj_tail%proj2. split_and!; (done || lia).
  - intros (Hpk2 & Hr & _). by destruct (Hsame (conj Hpk2 Hr)) as [-> ->].
Qed.

(** * Facts: addresses *)

Lemma freeIP_true a ip :
  freeIP a ip = true <-> serverIP a <> Some ip /\ ipKey ip ∉ used a.
Proof.
  unfold freeIP. rewrite andb_true_iff, !negb_true_iff, !bool_decide_eq_false. done.
Qed.

Lemma allocProbe_spec a key n : forall probe,
  match allocProbe a key n probe with
  | Some (ip, a') =>
      exists j, 0 <= j < Z.of_nat n /\ ip = candidate key (probe + j) /\ freeIP a ip = true /\
        (forall i, 0 <= i < j -> freeIP a (candidate key (probe + i)) = false) /\
        a' = a <| used ::= union {[ipKey ip]} |>
  | None => forall i, 0 <= i < Z.of_nat n -> freeIP a (candidate key (probe + i)) = false
  end.
Proof.
  induction n as [|n IH]; intros probe; [cbn; lia|].
  cbn [allocProbe]. destruct (freeIP a (candidate key probe)) eqn:Hf.
  { exists 0. rewrite Z.add_0_r. split_and!; (done || lia). }
  specialize (IH (probe + 1)).
  assert (forall i, (0 <= i -> freeIP a (candidate key (probe + 1 + i)) = false) ->
            -1 <= i -> freeIP a (candidate key (probe + (i + 1))) = false) as Hshift.
  { intros i Hi Hr. destruct (Z.eq_dec i (-1)) as [->|]; [by rewrite Z.add_0_r|].
    replace (probe + (i + 1)) with (probe + 1 + i) by lia. apply Hi. lia. }
  destruct (allocProbe a key n (probe + 1)) as [[ip a']|].
  - destruct IH as (j & Hj & -> & Hfree & Hbefore & ->). exists (j + 1).
    replace (probe + (j + 1)) with (probe + 1 + j) by lia.
    split_and!; try done; [lia|lia|]. intros i Hi. replace i with (i - 1 + 1) by lia.
    apply Hshift; [intros; apply Hbefore; lia|lia].
  - intros i Hi. replace i with (i - 1 + 1) by lia. apply Hshift; [intros; apply IH; lia|lia].
Qed.

(** Virtual addresses are unique and steady: a client gets the first of its own sequence of
    4096 candidates that is neither in use nor the server's, so its address depends only on
    where it connects from unless that address is taken; the address is a loopback one, it
    becomes used and nothing else changes; the allocation fails only when every candidate is
    taken. *)
Theorem alloc_first_free source a :
  let free ip := serverIP a <> Some ip /\ ipKey ip ∉ used a in
  let cand := candidate (allocKey source) in
  match alloc source a with
  | Some (ip, a') =>
      free ip /\ firstByte ip = 127 /\ used a' = {[ipKey ip]} ∪ used a /\ serverIP a' = serverIP a
      /\ exists n, 0 <= n < 4096 /\ ip = cand n /\ forall i, 0 <= i < n -> ~ free (cand i)
  | None => forall i, 0 <= i < 4096 -> ~ free (cand i)
  end.
Proof.
  intros free cand. unfold alloc.
  pose proof (allocProbe_spec a (allocKey source) maxVirtualIPProbeAttempts 0) as Hs.
  change (Z.of_nat maxVirtualIPProbeAttempts) with 4096 in Hs.
  assert (forall i, freeIP a (candidate (allocKey source) i) = false -> ~ free (cand i)) as Hnot.
  { intros i Hi Hfree. apply freeIP_true in Hfree. unfold cand in Hfree. congruence. }
  destruct (allocProbe _ _ _ _) as [[ip a']|].
  - destruct Hs as (j & Hj & Hip & Hfree & Hbefore & ->). cbn [Z.add] in Hip.
    split_and!; [by apply freeIP_true in Hfree as []..| | | |].
    + rewrite Hip. cbn. by rewrite byteZ_of.
    + done.
    + done.
    + exists j. split_and!; [lia|lia|done|]. intros i Hi. apply Hnot. apply (Hbefore i Hi).
  - intros i Hi. apply Hnot, (Hs i Hi).
Qed.

(** * Facts: sessions *)

(** What a session keeps: a bounded queue; every frame that was ever queued is sent, still waiting
    or the one a failing transport lost, in the order they were queued. *)
Record session_ok (s : Session) : Prop := {
  so_cap : (length (tx s) <= txCap)%nat;
  so_flow : queued s = sent s ++ lost s ++ tx s;
  so_lost : (length (lost s) <= 1)%nat /\ (lost s = [] \/ writeLoop s = exited failed);
  so_frames : Forall (fun f => f <> []) (queued s);
  so_run : writeLoop s = notStarted <-> runStarted s = false;
}.

(** What a step on a session leaves, and what only grows: [drains] says a write loop that returns
    from [drainTx] on the empty queue has sent what was queued. *)
Definition drains (s s' : Session) : Prop :=
  writeLoop s = exited drained \/ writeLoop s' <> exited drained \/ sent s' = queued s'.
Definition session_step (s s' : Session) : Prop :=
  session_ok s' /\ virtualIP s' = virtualIP s /\ phase s' = phase s /\
  queued s `prefix_of` queued s' /\ sent s `prefix_of` sent s' /\ drains s s' /\
  (writeLoop s = exited drained -> writeLoop s' = exited drained).

Lemma session_step_refl s : session_ok s -> session_step s s.
Proof. unfold session_step, drains. intros Hs. split_and!; auto. destruct (decide (writeLoop s = exited drained)); auto. Qed.

Lemma enqueue_step frame s s' :
  session_ok s -> frame <> [] -> enqueue frame s = Some s' -> session_step s s'.
Proof.
  intros [Hc Hf Hl Hn Hr] Hne. unfold enqueue.
  destruct (Nat.ltb_spec (length (tx s)) txCap); [|done]. intros [= <-].
  unfold session_step, drains. split_and!; cbn; try done.
  - constructor; cbn; try done.
    + rewrite length_app. cbn. lia.
    + rewrite Hf. by rewrite <- !app_assoc.
    + apply Forall_app. split; [done|]. by apply Forall_singleton.
  - by eexists.
  - destruct (decide (writeLoop s = exited drained)); auto.
Qed.

Lemma sendFrameSelect_step drop pickTx frame s s' :
  session_ok s -> frame <> [] -> sendFrameSelect drop pickTx frame s = Some s' -> session_step s s'.
Proof.
  intros Hs Hne. unfold sendFrameSelect. destruct (enqueue frame s) as [s1|] eqn:He.
  - destruct (_ && _); intros [= <-]; [by apply session_step_refl|by eapply enqueue_step].
  - destruct (ctxDone s); [intros [= <-]; by apply session_step_refl|].
    destruct drop; intros [= <-]. destruct Hs. unfold session_step, drains. cbn.
    split_and!; try done. destruct (decide (writeLoop s = exited drained)); auto.
Qed.

Lemma controlFrame_nonempty payload : buildFrame controlPort payload <> [].
Proof. rewrite buildFrame_nil. unfold controlPort. lia. Qed.

Lemma SendControlSelect_step pickTx payload s ok s' :
  session_ok s -> SendControlSelect pickTx payload s = Some (ok, s') -> session_step s s'.
Proof.
  intros Hs. unfold SendControlSelect. destruct (enqueue _ s) as [s1|] eqn:He.
  - destruct (_ && _); intros [= <- <-]; [by apply session_step_refl|].
    eapply enqueue_step; [done|apply controlFrame_nonempty|done].
  - destruct (ctxDone s); intros [= <- <-]. by apply session_step_refl.
Qed.

Lemma TrySendControlSelect_step payload s :
  session_ok s -> session_step s (snd (TrySendControlSelect payload s)).
Proof.
  intros Hs. unfold TrySendControlSelect. destruct (enqueue _ s) as [s1|] eqn:He.
  - eapply enqueue_step; [done|apply controlFrame_nonempty|done].
  - by apply session_step_refl.
Qed.

Lemma handleFrame_step allow packet s : session_ok s -> session_step s (handleFrame allow packet s).
Proof.
  intros Hs. unfold handleFrame, udpWrite, noteServerRoutePort.
  repeat split_match; try by apply session_step_refl.
  all: destruct Hs; unfold session_step, drains; cbn; split_and!; try done.
  all: destruct (decide (writeLoop s = exited drained)); auto.
Qed.

Lemma RunBegin_step s : session_ok s -> runStarted s = false -> session_step s (RunBegin s).
Proof.
  intros [Hc Hf [Hl Hl'] Hn Hr] Hrun. apply Hr in Hrun.
  unfold session_step, drains. cbn. split_and!; try done; [|by right; left|congruence].
  constructor; cbn; try done. split; [done|]. left. destruct Hl'; congruence.
Qed.

Lemma writeLoopStep_step e s s' :
  session_ok s -> writeLoopStep e s = Some s' -> session_step s s'.
Proof.
  intros Hs. pose proof Hs as [Hc Hf [Hl Hl'] Hn Hr]. unfold writeLoopStep.
  assert (forall packet rest, tx s = packet :: rest -> packet <> []) as Hne.
  { intros packet rest Htx. rewrite Hf, Htx, !Forall_app in Hn. destruct Hn as (_ & _ & Hn).
    by apply Forall_cons in Hn as []. }
  destruct (writeLoop s) eqn:Hw; try done; destruct e; try done;
    destruct (tx s) as [|packet rest] eqn:Htx; try done.
  all: try (case_bool_decide as Hp; [by destruct (Hne packet rest eq_refl)|]).
  all: repeat match goal with
       | |- context [if ?b then _ else _] => destruct b eqn:?
       end; intros [= <-]; try by apply session_step_refl.
  all: assert (lost s = []) as Hl0 by (destruct Hl'; [done|congruence]).
  all: rewrite Hl0 in Hf; cbn [app] in Hf.
  all: unfold session_step, drains; cbn; rewrite ?Hw, ?Htx; split_and!; try done; auto.
  all: try (by eexists).
  all: try (right; right; rewrite Hf, app_nil_r; done).
  all: constructor; cbn; rewrite ?Htx, ?Hl0; cbn; rewrite ?Hf, <- ?app_assoc; try done; auto.
  all: try (cbn in Hc; lia).
  all: try (rewrite Hf in Hn; done).
  all: rewrite ?Hw; try done.
  all: try (split; [discriminate|intros ?%Hr; discriminate]).
Qed.

(** * Facts: the trunk *)

Definition unfinished (t : Trunk) (p : Z) (s : Session) : Prop :=
  heap t !! p = Some s /\ phase s <> Ended.

Record trunk_ok (t : Trunk) : Prop := {
  to_session : forall p s, heap t !! p = Some s -> session_ok s;
  to_vip : forall p s, unfinished t p s ->
    firstByte (virtualIP s) = 127 /\ serverIP (allocator t) <> Some (virtualIP s);
  to_ended : forall p s, heap t !! p = Some s -> phase s = Ended -> virtualIP s = zeroIP;
  to_inj : forall p q s s', unfinished t p s -> unfinished t q s' ->
    virtualIP s = virtualIP s' -> p = q;
  to_used : forall k, k ∈ used (allocator t)
    <-> exists p s, unfinished t p s /\ k = ipKey (virtualIP s);
  to_reg : forall p, p ∈ registry t <-> exists s, heap t !! p = Some s /\ phase s = Live;
}.

Lemma New_ok serverIP allowPort : trunk_ok (New serverIP allowPort).
Proof.
  constructor; try done.
  - by intros ? ? [? _].
  - by intros ? ? ? ? [? _].
  - intros k. cbn. split; [set_solver|]. by intros (? & ? & [? _] & _).
  - intros p. cbn. split; [set_solver|]. by intros (? & ? & _).
Qed.

Lemma unfinished_set t p s0 s :
  heap t !! p = Some s0 -> phase s = phase s0 -> virtualIP s = virtualIP s0 ->
  forall q s', unfinished (setSession p s t) q s' ->
  exists s1, unfinished t q s1 /\ virtualIP s1 = virtualIP s'.
Proof.
  intros Hp Hph Hv q s' [Hq Hne]. cbn in Hq. apply lookup_insert_Some in Hq as [[<- <-]|[_ Hq]].
  - exists s0. split; [split; [done|congruence]|congruence].
  - exists s'. by split.
Qed.

(** A step on one session that keeps its address and its phase. *)
Lemma setSession_ok t p s s' :
  trunk_ok t -> heap t !! p = Some s -> session_step s s' -> trunk_ok (setSession p s' t).
Proof.
  intros [H1 H2 H3 H4 H5 H6] Hp (Hok & Hv & Hph & _).
  pose proof (unfinished_set t p s s' Hp Hph Hv) as Hun.
  constructor.
  - intros q s1. cbn. rewrite lookup_insert_Some. intros [[_ <-]|[_ ?]]; [done|eauto].
  - intros q s1 (s2 & Hs2 & <-)%Hun. cbn. eauto.
  - intros q s1. cbn. rewrite lookup_insert_Some.
    intros [[<- <-]|[_ ?]] ?; [rewrite Hv; apply (H3 p); [done|congruence]|eauto].
  - intros q1 q2 s1 s2 (s3 & Hs3 & <-)%Hun (s4 & Hs4 & <-)%Hun. eauto.
  - intros k. cbn. rewrite H5. split; intros (q & s1 & Hu & ->).
    + destruct Hu as [Hq Hne]. destruct (decide (q = p)) as [->|Hqp].
      * exists p, s'. unfold unfinished. cbn. rewrite lookup_insert_eq.
        simplify_eq. split; [split; [done|congruence]|congruence].
      * exists q, s1. unfold unfinished. cbn. by rewrite lookup_insert_ne by done.
    + apply Hun in Hu as (s2 & Hs2 & He). exists q, s2. by rewrite He.
  - intros q. cbn. rewrite H6. destruct (decide (q = p)) as [->|Hqp].
    + rewrite lookup_insert_eq. split; intros (s1 & Hs1 & Hl); simplify_eq; eauto.
      exists s'. split; [done|congruence]. exists s. split; [done|congruence].
    + by rewrite lookup_insert_ne by done.
Qed.

Lemma newSessionAlloc_ok p xport key now t t' :
  trunk_ok t -> heap t !! p = None -> newSessionAlloc p xport key now t = Some t' -> trunk_ok t'.
Proof.
  intros [H1 H2 H3 H4 H5 H6] Hp. unfold newSessionAlloc, alloc.
  pose proof (allocProbe_spec (allocator t) (allocKey key) maxVirtualIPProbeAttempts 0) as Hs.
  destruct (allocProbe _ _ _ _) as [[ip a]|]; [|done]. intros [= <-].
  destruct Hs as (j & _ & Hip & [Hsrv Hnew]%freeIP_true & _ & ->).
  assert (firstByte ip = 127) as H127 by (rewrite Hip; cbn; by rewrite byteZ_of).
  set (s0 := mkSession _ _ _ _ _ _ _ _ _ _ _ _ _ _ _ _ _).
  assert (forall q s, heap t !! q = Some s -> q <> p) as Hneq by (intros q s ? ->; congruence).
  assert (forall q s, unfinished t q s -> virtualIP s <> ip) as Hfresh.
  { intros q s Hu <-. apply Hnew, H5. eauto. }
  set (t' := t <| allocator := _ |> <| heap ::= _ |>).
  assert (forall q s, unfinished t' q s <-> q = p /\ s = s0 \/ unfinished t q s) as Hun.
  { intros q s. unfold unfinished, t'. cbn. rewrite lookup_insert_Some. split.
    - intros [[[<- <-]|[_ ?]] ?]; [by left|by right].
    - intros [[-> ->]|[Hq ?]]; [by split; [left|]|].
      split; [right; split; [by intros ->; rewrite Hp in Hq|done]|done]. }
  constructor.
  - intros q s. cbn. rewrite lookup_insert_Some. intros [[_ <-]|[_ ?]]; [|eauto].
    constructor; cbn; try done; [unfold txCap; lia|]. split; [lia|by left].
  - intros q s [[-> ->]|Hu]%Hun; [by split|]. cbn. eauto.
  - intros q s. cbn. rewrite lookup_insert_Some. intros [[_ <-]|[_ ?]]; [done|eauto].
  - intros q1 q2 s1 s2 [[-> ->]|Hu1]%Hun [[-> ->]|Hu2]%Hun Hv; [done| | |eauto].
    + by destruct (Hfresh _ _ Hu2).
    + by destruct (Hfresh _ _ Hu1).
  - intros k. cbn. rewrite elem_of_union, elem_of_singleton, H5. split.
    + intros [->|(q & s & Hu & ->)]; [exists p, s0; split; [apply Hun; by left|done]|].
      exists q, s. split; [apply Hun; by right|done].
    + intros (q & s & [[-> ->]|Hu]%Hun & ->); [by left|right; eauto].
  - intros q. cbn. rewrite H6. split; intros (s & Hs & Hl); exists s.
    + rewrite lookup_insert_ne; [done|]. by intros ->; apply Hneq in Hs.
    + apply lookup_insert_Some in Hs as [[_ <-]|[_ ?]]; [done|by split].
Qed.

(** Giving an address back. *)
Lemma release_used t p s k :
  trunk_ok t -> unfinished t p s ->
  k ∈ used (release (virtualIP s) (allocator t))
  <-> exists q s', unfinished t q s' /\ q <> p /\ k = ipKey (virtualIP s').
Proof.
  intros [H1 H2 H3 H4 H5 H6] Hu. destruct (H2 _ _ Hu) as [H127 _]. unfold release.
  rewrite H127. cbn. rewrite elem_of_difference, H5, elem_of_singleton. split.
  - intros [(q & s' & Hq & ->) Hne]. exists q, s'. split_and!; try done.
    intros ->. destruct Hq as [Hq _], Hu as [Hp _]. congruence.
  - intros (q & s' & Hq & Hne & ->). split; [eauto|]. intros He%ipKey_inj.
    by apply Hne, (H4 q p s' s).
Qed.

Lemma release_serverIP ip a : serverIP (release ip a) = serverIP a.
Proof. unfold release. by destruct (negb _). Qed.

Lemma newSessionListen_ok ok p s t :
  trunk_ok t -> heap t !! p = Some s -> phase s = Binding -> trunk_ok (newSessionListen ok p s t).
Proof.
  intros Ht Hp Hph. assert (unfinished t p s) as Hu by (split; [done|congruence]).
  pose proof Ht as [H1 H2 H3 H4 H5 H6]. destruct ok; cbn [newSessionListen].
  - set (t' := t <| heap ::= _ |> <| registry ::= _ |>).
    assert (forall q s', unfinished t' q s' ->
              exists s1, unfinished t q s1 /\ virtualIP s1 = virtualIP s') as Hun.
    { intros q s' [Hq Hne]. cbn in Hq. apply lookup_insert_Some in Hq as [[<- <-]|[_ Hq]].
      - by exists s.
      - by exists s'. }
    constructor.
    + intros q s1. cbn. rewrite lookup_insert_Some. intros [[_ <-]|[_ ?]]; [|eauto].
      by destruct (H1 _ _ Hp).
    + intros q s1 (s2 & Hs2 & <-)%Hun. cbn. eauto.
    + intros q s1. cbn. rewrite lookup_insert_Some. intros [[_ <-]|[_ ?]]; [done|eauto].
    + intros q1 q2 s1 s2 (s3 & Hs3 & <-)%Hun (s4 & Hs4 & <-)%Hun. eauto.
    + intros k. cbn. rewrite H5. split; intros (q & s1 & Hq & ->).
      * destruct (decide (q = p)) as [->|Hqp].
        -- eexists p, _. unfold unfinished. cbn. rewrite lookup_insert_eq.
           destruct Hq, Hu; simplify_eq. split; [split; [done|discriminate]|done].
        -- exists q, s1. unfold unfinished. cbn. by rewrite lookup_insert_ne by done.
      * apply Hun in Hq as (s2 & Hs2 & He). exists q, s2. by rewrite He.
    + intros q. cbn. rewrite elem_of_union, elem_of_singleton, H6.
      destruct (decide (q = p)) as [->|Hqp].
      * rewrite lookup_insert_eq. split; [intros _; by eexists|by left].
      * rewrite lookup_insert_ne by done. split; [intros [?|?]; done|by right].
  - assert (forall q s', unfinished (t <| allocator ::= release (virtualIP s) |>
              <| heap ::= delete p |>) q s' <-> unfinished t q s' /\ q <> p) as Hun.
    { intros q s'. unfold unfinished. cbn. rewrite lookup_delete_Some. naive_solver. }
    constructor.
    + intros q s1. cbn. rewrite lookup_delete_Some. intros [_ ?]. eauto.
    + intros q s1 [Hq _]%Hun. cbn. rewrite release_serverIP. eauto.
    + intros q s1. cbn. rewrite lookup_delete_Some. intros [_ ?]. eauto.
    + intros q1 q2 s1 s2 [? _]%Hun [? _]%Hun. eauto.
    + intros k. cbn [allocator field_update]. cbn. rewrite release_used by done.
      setoid_rewrite Hun. split; intros (q & s1 & Hq); exists q, s1; tauto.
    + intros q. cbn. rewrite H6. setoid_rewrite lookup_delete_Some. split; [|naive_solver].
      intros (s1 & Hs1 & Hl). exists s1. split_and!; try done. intros ->. congruence.
Qed.

Lemma sessionEndBegin_ok p s t :
  trunk_ok t -> heap t !! p = Some s -> phase s = Live -> trunk_ok (sessionEndBegin p s t).
Proof.
  intros [H1 H2 H3 H4 H5 H6] Hp Hph. unfold sessionEndBegin.
  assert (forall q s', unfinished (setSession p (EndBegin s) (t <| registry ::= fun r => r ∖ {[p]} |>))
            q s' -> exists s1, unfinished t q s1 /\ virtualIP s1 = virtualIP s') as Hun.
  { intros q s' [Hq Hne]. cbn in Hq. apply lookup_insert_Some in Hq as [[<- <-]|[_ Hq]].
    - exists s. split; [split; [done|congruence]|done].
    - by exists s'. }
  constructor.
  - intros q s1. cbn. rewrite lookup_insert_Some. intros [[_ <-]|[_ ?]]; [|eauto].
    by destruct (H1 _ _ Hp).
  - intros q s1 (s2 & Hs2 & <-)%Hun. cbn. eauto.
  - intros q s1. cbn. rewrite lookup_insert_Some. intros [[_ <-]|[_ ?]]; [done|eauto].
  - intros q1 q2 s1 s2 (s3 & Hs3 & <-)%Hun (s4 & Hs4 & <-)%Hun. eauto.
  - intros k. cbn. rewrite H5. split; intros (q & s1 & Hq & ->).
    + destruct (decide (q = p)) as [->|Hqp].
      * exists p, (EndBegin s). unfold unfinished. cbn. rewrite lookup_insert_eq.
        destruct Hq; simplify_eq. done.
      * exists q, s1. unfold unfinished. cbn. by rewrite lookup_insert_ne by done.
    + apply Hun in Hq as (s2 & Hs2 & He). exists q, s2. by rewrite He.
  - intros q. cbn. rewrite elem_of_difference, elem_of_singleton, H6.
    destruct (decide (q = p)) as [->|Hqp].
    + rewrite lookup_insert_eq. split; [by intros [_ ?]|]. by intros (s1 & [= <-] & ?).
    + rewrite lookup_insert_ne by done. tauto.
Qed.

Lemma sessionEndFinish_ok p s t :
  trunk_ok t -> heap t !! p = Some s -> phase s = Ending -> trunk_ok (sessionEndFinish p s t).
Proof.
  intros Ht Hp Hph. assert (unfinished t p s) as Hu by (split; [done|congruence]).
  pose proof Ht as [H1 H2 H3 H4 H5 H6]. unfold sessionEndFinish.
  assert (forall q s', unfinished (setSession p (EndFinish s)
            (t <| allocator ::= release (virtualIP s) |>)) q s' <-> unfinished t q s' /\ q <> p) as Hun.
  { intros q s'. unfold unfinished. cbn. rewrite lookup_insert_Some. split.
    - intros [[[<- <-]|[Hne ?]] ?]; [done|]. auto.
    - intros [[? ?] ?]. auto. }
  constructor.
  - intros q s1. cbn. rewrite lookup_insert_Some. intros [[_ <-]|[_ ?]]; [|eauto].
    by destruct (H1 _ _ Hp).
  - intros q s1 [Hq _]%Hun. cbn. rewrite release_serverIP. eauto.
  - intros q s1. cbn. rewrite lookup_insert_Some. intros [[_ <-]|[_ ?]]; [done|eauto].
  - intros q1 q2 s1 s2 [? _]%Hun [? _]%Hun. eauto.
  - intros k. cbn. rewrite release_used by done. setoid_rewrite Hun.
    split; intros (q & s1 & Hq); exists q, s1; tauto.
  - intros q. cbn. rewrite H6. destruct (decide (q = p)) as [->|Hqp].
    + rewrite lookup_insert_eq. split; intros (s1 & Hs1 & ?); simplify_eq; congruence.
    + by rewrite lookup_insert_ne by done.
Qed.

Lemma tstep_ok t t' : tstep t t' -> trunk_ok t -> trunk_ok t'.
Proof.
  intros Hstep Ht. destruct Hstep.
  - by eapply newSessionAlloc_ok.
  - by apply newSessionListen_ok.
  - eapply setSession_ok; [done..|]. apply RunBegin_step; [by eapply to_session|done].
  - eapply setSession_ok; [done..|]. apply handleFrame_step. by eapply to_session.
  - eapply setSession_ok; [done..|]. eapply sendFrameSelect_step; [|done..]. by eapply to_session.
  - eapply setSession_ok; [done..|]. eapply SendControlSelect_step; [|done..]. by eapply to_session.
  - eapply setSession_ok; [done..|]. apply TrySendControlSelect_step. by eapply to_session.
  - eapply setSession_ok; [done..|]. eapply writeLoopStep_step; [|done..]. by eapply to_session.
  - by apply sessionEndBegin_ok.
  - by apply sessionEndFinish_ok.
Qed.

Lemma tsteps_ok t t' : rtc tstep t t' -> trunk_ok t -> trunk_ok t'.
Proof. induction 1; eauto using tstep_ok. Qed.

Lemma treachable_ok t : treachable t -> trunk_ok t.
Proof. intros (ip & allow & Hsteps). by apply (tsteps_ok _ _ Hsteps), New_ok. Qed.

Lemma sessionByVirtualIP_iff t target p :
  trunk_ok t ->
  sessionByVirtualIP target t = Some p
  <-> exists s, heap t !! p = Some s /\ phase s = Live /\ virtualIP s = target.
Proof.
  intros Ht. pose proof Ht as [H1 H2 H3 H4 H5 H6].
  assert (forall q, List.In q (List.filter (hasVirtualIP t target) (elements (registry t)))
    <-> exists s, heap t !! q = Some s /\ phase s = Live /\ virtualIP s = target) as Hin.
  { intros q. rewrite List.filter_In, <- list_elem_of_In, elem_of_elements, H6.
    unfold hasVirtualIP. split.
    - intros [(s & Hq & Hl) Hv]. rewrite Hq in Hv. exists s. by apply bool_decide_eq_true in Hv.
    - intros (s & Hq & Hl & Hv). split; [eauto|]. rewrite Hq. by apply bool_decide_eq_true. }
  unfold sessionByVirtualIP. destruct (Z.eqb_spec (firstByte target) 0) as [H0|H0].
  - split; [done|]. intros (s & Hp & Hl & <-).
    destruct (H2 p s) as [H127 _]; [split; [done|congruence]|]. lia.
  - destruct (List.filter _ _) as [|q l] eqn:Hf; cbn.
    + split; [done|]. intros Hs. by apply Hin in Hs.
    + split; [intros [= <-]; apply Hin; by left|]. intros (s & Hp & Hl & Hv).
      destruct (proj1 (Hin q)) as (s' & Hq & Hl' & Hv'); [by left|]. f_equal.
      apply (H4 q p s' s); [split; [done|congruence]..|congruence].
Qed.

(** C30.  Every session has an address of its own: whatever the clients, the network and the
    goroutines do, the addresses in use are exactly those of the sessions that have not been
    torn down, each in 127/8, none the server's and no two alike; the registry is exactly the
    live sessions, so an eviction finds the one session that has the address or none; and no
    queue grows over its capacity. *)
Theorem treachable_addresses t :
  treachable t ->
  (forall p s, unfinished t p s ->
     firstByte (virtualIP s) = 127 /\ serverIP (allocator t) <> Some (virtualIP s) /\
     forall q s', unfinished t q s' -> virtualIP s' = virtualIP s -> q = p) /\
  (forall k, k ∈ used (allocator t) <-> exists p s, unfinished t p s /\ k = ipKey (virtualIP s)) /\
  (forall target p, sessionByVirtualIP target t = Some p
     <-> exists s, heap t !! p = Some s /\ phase s = Live /\ virtualIP s = target) /\
  (forall p s, heap t !! p = Some s -> (length (tx s) <= 1024)%nat).
Proof.
  intros Ht%treachable_ok. split_and!.
  - intros p s Hu. destruct (to_vip _ Ht _ _ Hu) as [? ?]. split_and!; [done..|].
    intros q s' Hu' Hv. by apply (to_inj _ Ht q p s' s).
  - apply (to_used _ Ht).
  - intros target p. by apply sessionByVirtualIP_iff.
  - intros p s Hp. apply (so_cap _ (to_session _ Ht _ _ Hp)).
Qed.

(** ** Delivery *)

(** How a session's traffic grows. *)
Definition grows (s s' : Session) : Prop :=
  queued s `prefix_of` queued s' /\ sent s `prefix_of` sent s' /\
  (writeLoop s = exited drained -> writeLoop s' = exited drained) /\
  (writeLoop s <> exited drained -> writeLoop s' = exited drained ->
   queued s `prefix_of` sent s').

Lemma grows_refl s : grows s s.
Proof. by repeat split. Qed.

Lemma grows_trans s1 s2 s3 : grows s1 s2 -> grows s2 s3 -> grows s1 s3.
Proof.
  intros (Q1 & S1 & D1 & E1) (Q2 & S2 & D2 & E2). split_and!; [by etrans|by etrans|auto|].
  intros Hn Hd. destruct (decide (writeLoop s2 = exited drained)) as [Hd2|Hn2].
  - etrans; [by apply E1|done].
  - etrans; [done|by apply E2].
Qed.

Lemma session_step_grows s s' : session_step s s' -> grows s s'.
Proof.
  intros (_ & _ & _ & Hq & Hs & Hd & Hst). split_and!; try done.
  intros Hn Hd'. destruct Hd as [|[|Heq]]; [done..|]. by rewrite Heq.
Qed.

Lemma newSessionAlloc_heap p xport key now t t' :
  newSessionAlloc p xport key now t = Some t' -> exists s, heap t' = <[p := s]> (heap t).
Proof.
  unfold newSessionAlloc. generalize (alloc key (allocator t)) as o.
  intros [[ip a]|]; [|done]. intros [= <-]. by eexists.
Qed.

(** A session that is bound stays, and its traffic grows. *)
Lemma tstep_grows t t' p s :
  tstep t t' -> trunk_ok t -> heap t !! p = Some s -> phase s <> Binding ->
  exists s', heap t' !! p = Some s' /\ phase s' <> Binding /\ grows s s'.
Proof.
  intros Hstep Ht Hp Hph.
  assert (forall q s1 s2 t0, heap t0 = heap t -> heap t !! q = Some s1 ->
            (phase s1 <> Binding -> phase s2 <> Binding) -> (phase s1 <> Binding -> grows s1 s2) ->
            exists s', heap (setSession q s2 t0) !! p = Some s' /\ phase s' <> Binding
                       /\ grows s s') as Hset.
  { intros q s1 s2 t0 Heq Hq Hph2 Hg. cbn. rewrite Heq. destruct (decide (p = q)) as [<-|Hne].
    - rewrite lookup_insert_eq. exists s2. simplify_eq. auto.
    - rewrite lookup_insert_ne by done. exists s. auto using grows_refl. }
  assert (forall q s1 s2, heap t !! q = Some s1 -> session_step s1 s2 ->
            exists s', heap (setSession q s2 t) !! p = Some s' /\ phase s' <> Binding
                       /\ grows s s') as Hsess.
  { intros q s1 s2 Hq Hs. apply (Hset q s1); [done|done| |].
    - destruct Hs as (_ & _ & -> & _). done.
    - intros _. by apply session_step_grows. }
  destruct Hstep.
  - destruct (newSessionAlloc_heap _ _ _ _ _ _ ltac:(eassumption)) as [s0 ->].
    exists s. rewrite lookup_insert_ne by (intros ->; congruence). auto using grows_refl.
  - destruct ok; cbn.
    + destruct (decide (p = p0)) as [<-|Hne]; [congruence|].
      rewrite lookup_insert_ne by done. eauto using grows_refl.
    + rewrite lookup_delete_ne by (intros ->; congruence). eauto using grows_refl.
  - eapply Hsess; [done|]. apply RunBegin_step; [by eapply to_session|done].
  - eapply Hsess; [done|]. apply handleFrame_step. by eapply to_session.
  - eapply Hsess; [done|]. eapply sendFrameSelect_step; [|done..]. by eapply to_session.
  - eapply Hsess; [done|]. eapply SendControlSelect_step; [|done..]. by eapply to_session.
  - eapply Hsess; [done|]. apply TrySendControlSelect_step. by eapply to_session.
  - eapply Hsess; [done|]. eapply writeLoopStep_step; [|done..]. by eapply to_session.
  - eapply Hset; [done|done|done|]. intros _. by repeat split.
  - eapply Hset; [done|done|done|]. intros _. by repeat split.
Qed.

Lemma tsteps_grow t t' p s :
  rtc tstep t t' -> trunk_ok t -> heap t !! p = Some s -> phase s <> Binding ->
  exists s', heap t' !! p = Some s' /\ phase s' <> Binding /\ grows s s'.
Proof.
  intros Hsteps. revert s. induction Hsteps as [t|t1 t2 t3 Hstep _ IH]; intros s Ht Hp Hph.
  - exists s. auto using grows_refl.
  - destruct (tstep_grows _ _ _ _ Hstep Ht Hp Hph) as (s2 & Hp2 & Hph2 & Hg).
    destruct (IH s2) as (s3 & ? & ? & Hg2); [by eapply tstep_ok|done|done|].
    exists s3. eauto using grows_trans.
Qed.

(** The write loop over a sequence of events. *)
Fixpoint writeLoopSteps (es : list writeLoopEvent) (s : Session) : option Session :=
  match es with
  | [] => Some s
  | e :: es => match writeLoopStep e s with Some s => writeLoopSteps es s | None => None end
  end.

Lemma drainTx_all s :
  session_ok s -> writeLoop s = draining ->
  exists s', writeLoopSteps (repeat (tookPacket false) (length (tx s)) ++ [queueEmpty]) s = Some s'
             /\ sent s' = queued s /\ writeLoop s' = exited drained.
Proof.
  remember (tx s) as q eqn:Hq. revert s Hq. induction q as [|packet q IH]; intros s Hq Hs Hw.
  - exists (s <| writeLoop := exited drained |>). cbn. unfold writeLoopStep. rewrite Hw, <- Hq.
    split_and!; try done. destruct Hs as [_ Hf [_ [Hl|Hl]] _ _]; [|congruence].
    cbn. by rewrite Hf, Hl, <- Hq, app_nil_r.
  - assert (packet <> []) as Hne.
    { destruct Hs as [_ Hf _ Hn _]. rewrite Hf, <- Hq, !Forall_app in Hn.
      destruct Hn as (_ & _ & Hn). by apply Forall_cons in Hn as []. }
    set (s1 := s <| tx := q |> <| sent ::= fun l => l ++ [packet] |>).
    assert (writeLoopStep (tookPacket false) s = Some s1) as Hstep.
    { unfold writeLoopStep. rewrite Hw, <- Hq. by rewrite bool_decide_eq_false_2. }
    destruct (IH s1) as (s' & Hrun & Hsent & Hw'); [done|by eapply writeLoopStep_step|done|].
    exists s'. cbn [length repeat app writeLoopSteps]. by rewrite Hstep.
Qed.

(** C10.  Nothing is reordered, doubled or silently lost: at any moment what a session ever
    queued is what it sent, then at most one frame that a failing transport took down, then what
    waits in the queue; a write loop that ends by draining has sent every frame that was queued
    at any time before, so a frame pushed just before an eviction still goes out; and from the
    cancellation on, a transport that works gets the loop there in as many writes as frames
    wait. *)
Theorem treachable_delivery t0 t1 p s0 :
  treachable t0 -> heap t0 !! p = Some s0 -> phase s0 <> Binding -> rtc tstep t0 t1 ->
  (exists s1, heap t1 !! p = Some s1 /\
     queued s1 = sent s1 ++ lost s1 ++ tx s1 /\ (length (lost s1) <= 1)%nat /\
     (lost s1 = [] \/ writeLoop s1 = exited failed) /\
     queued s0 `prefix_of` queued s1 /\ sent s0 `prefix_of` sent s1 /\
     (writeLoop s0 <> exited drained -> writeLoop s1 = exited drained ->
      queued s0 `prefix_of` sent s1)) /\
  (writeLoop s0 = selecting -> ctxDone s0 = true -> exists s',
     writeLoopSteps (sawDone :: repeat (tookPacket false) (length (tx s0)) ++ [queueEmpty]) s0
     = Some s' /\ sent s' = queued s0 /\ EndReady false s' = true).
Proof.
  intros Ht%treachable_ok Hp Hph Hsteps. split.
  - destruct (tsteps_grow _ _ _ _ Hsteps Ht Hp Hph) as (s1 & Hp1 & _ & Hq & Hs & _ & Hd).
    pose proof (to_session _ (tsteps_ok _ _ Hsteps Ht) _ _ Hp1) as [_ Hf [Hl Hl'] _ _].
    exists s1. split_and!; done.
  - intros Hw Hc. pose proof (to_session _ Ht _ _ Hp) as Hs.
    assert (writeLoopStep sawDone s0 = Some (s0 <| writeLoop := draining |>)) as Hstep
      by (unfold writeLoopStep; by rewrite Hw, Hc).
    destruct (drainTx_all (s0 <| writeLoop := draining |>)) as (s' & Hrun & Hsent & Hw').
    + by eapply writeLoopStep_step.
    + done.
    + exists s'. cbn [writeLoopSteps]. rewrite Hstep. split_and!; [done|done|].
      unfold EndReady. rewrite Hw'. by rewrite orb_true_r.
Qed.

(** * Witnesses *)

(** A session's life: made, run, sent a control frame, evicted, drained, torn down. *)
Definition server1 : ip4 := (byte_of 127, byte_of 0, byte_of 0, byte_of 1).
Definition onSession (f : Session -> Trunk -> Trunk) (t : Trunk) : Trunk :=
  match heap t !! 1 with Some s => f s t | None => t end.
Definition life0 : Trunk := New (Some server1) None.
Definition life1 : Trunk := default life0 (newSessionAlloc 1 "WebSocket" "10.0.0.7" 0 life0).
Definition life2 : Trunk := onSession (newSessionListen true 1) life1.
Definition life3 : Trunk := onSession (fun s => setSession 1 (RunBegin s)) life2.
Definition banNotice : bytes := blist "banned".
Definition life4 : Trunk :=
  onSession (fun s => setSession 1 (snd (TrySendControlSelect banNotice s))) life3.
Definition life5 : Trunk := onSession (sessionEndBegin 1) life4.
Definition loopEvent (e : writeLoopEvent) (t : Trunk) : Trunk :=
  onSession (fun s => setSession 1 (default s (writeLoopStep e s))) t.
Definition life6 : Trunk := loopEvent sawDone life5.
Definition life7 : Trunk := loopEvent (tookPacket false) life6.
Definition life8 : Trunk := loopEvent queueEmpty life7.

(** Each is a step: the session is there, and what the step asks of it can be computed. *)
Lemma life_at t : is_Some (heap t !! 1) ->
  exists s, heap t !! 1 = Some s /\ forall f, onSession f t = f s t.
Proof. intros [s Hs]. exists s. split; [done|]. intros f. unfold onSession. by rewrite Hs. Qed.

Lemma life_live : rtc tstep life0 life2.
Proof.
  eapply rtc_l.
  { apply (step_alloc 1 "WebSocket" "10.0.0.7" 0 life0 life1); vm_compute; reflexivity. }
  apply rtc_once. unfold life2. destruct (life_at life1) as (s & Hs & ->); [vm_compute; by eexists|].
  apply step_listen; [done|]. vm_compute in Hs. by injection Hs as <-.
Qed.

Lemma life_evicted : rtc tstep life2 life5.
Proof.
  eapply rtc_l; [|eapply rtc_l; [|apply rtc_once]].
  - instantiate (1 := life3). unfold life3.
    destruct (life_at life2) as (s & Hs & ->); [vm_compute; by eexists|].
    apply step_run; [done|..]; vm_compute in Hs; by injection Hs as <-.
  - instantiate (1 := life4). unfold life4.
    destruct (life_at life3) as (s & Hs & ->); [vm_compute; by eexists|].
    apply step_try_control; [done|]. vm_compute in Hs; by injection Hs as <-.
  - unfold life5. destruct (life_at life4) as (s & Hs & ->); [vm_compute; by eexists|].
    apply step_end_begin; [done|]. vm_compute in Hs; by injection Hs as <-.
Qed.

Definition canLoop (e : writeLoopEvent) (t : Trunk) : bool :=
  match heap t !! 1 with
  | Some s => bool_decide (phase s <> Binding) && bool_decide (is_Some (writeLoopStep e s))
  | None => false
  end.
Lemma life_loop e t : canLoop e t = true -> tstep t (loopEvent e t).
Proof.
  unfold canLoop, loopEvent, onSession. destruct (heap t !! 1) as [s|] eqn:Hs; [|done].
  intros [Hp Hl]%andb_true_iff. apply bool_decide_eq_true in Hp, Hl. destruct Hl as [s' Hl].
  rewrite Hl. by eapply step_write_loop.
Qed.

Lemma life_drained : rtc tstep life5 life8.
Proof.
  eapply rtc_l; [apply (life_loop sawDone); vm_compute; reflexivity|].
  eapply rtc_l; [apply (life_loop (tookPacket false)); vm_compute; reflexivity|].
  apply rtc_once, (life_loop queueEmpty). vm_compute. reflexivity.
Qed.

Lemma treachable_addresses_witness :
  sessionByVirtualIP (candidate "10.0.0.7" 0) life2 = Some 1 /\
  sessionByVirtualIP server1 life2 = None.
Proof.
  assert (treachable life2) as Hr by (exists (Some server1), None; exact life_live).
  split; [|vm_compute; reflexivity].
  apply (proj2 (proj1 (proj2 (proj2 (treachable_addresses life2 Hr))) (candidate "10.0.0.7" 0) 1)).
  eexists. split; [vm_compute; reflexivity|split; vm_compute; reflexivity].
Defined.

Lemma treachable_delivery_witness :
  exists s, heap life8 !! 1 = Some s /\ [buildFrame controlPort banNotice] `prefix_of` sent s.
Proof.
  assert (treachable life5) as Hr.
  { exists (Some server1), None. etrans; [exact life_live|exact life_evicted]. }
  destruct (life_at life5) as (s5 & Hs5 & _); [vm_compute; by eexists|].
  assert (phase s5 = Ending /\ writeLoop s5 = selecting
          /\ queued s5 = [buildFrame controlPort banNotice]) as (Hp & Hw & Hq)
    by (vm_compute in Hs5; injection Hs5 as <-; split_and!; vm_compute; reflexivity).
  destruct (treachable_delivery life5 life8 1 s5 Hr Hs5) as [(s8 & Hs8 & _ & _ & _ & _ & _ & Hd) _];
    [by rewrite Hp|exact life_drained|].
  exists s8. split; [done|]. rewrite <- Hq. apply Hd; [by rewrite Hw|].
  vm_compute in Hs8. by injection Hs8 as <-.
Defined.
