(* ===== verification/Relay.v ===== *)
(** What a tunnel carries: the loops of trunk/relay.go over one session, as sequences of what they
    meet, against a specification that knows only ports and payloads.

    Trunk.v has the session and the steps of its goroutines; here the packets of the client, the
    datagrams of the servers and the rounds of the write loop come in any order. *)
From S2P Require Import Prelude GoStrings Netip Trunk.

(** relay.go: a round of [readLoop] with what the client sent, of [udpReadLoop] with a datagram
    ([pickTx] is the choice of [sendFrame]'s select), of [writeLoop]. *)
Inductive relayEvent :=
  | fromClient (packet : bytes) | fromServer (addr : netAddr) (packet : bytes) (pickTx : bool)
  | wrote (e : writeLoopEvent).
Definition relayStep (allow : option (Z -> bool)) (s : Session) (ev : relayEvent) : Session :=
  match ev with
  | fromClient packet => handleFrame allow packet s
  | fromServer addr packet pickTx =>
      if ctxDone s then s else
      match udpReadFrame addr packet with Some frame => default s (sendFrame true pickTx frame s) | None => s end
  | wrote e => default s (writeLoopStep e s)
  end.
Definition relay (allow : option (Z -> bool)) (evs : list relayEvent) (s : Session) : Session :=
  foldl (relayStep allow) s evs.

(** The specification: what of a client's packet goes to a server, and what of a server's
    datagram goes to the client, by port and payload. *)
Definition forwarded (allow : option (Z -> bool)) (packet : bytes) : option (Z * bytes) :=
  let? (port, payload) := decodeFrame packet in
  if (port =? controlPort) || negb (portAllowed allow port) || bool_decide (payload = []) then None else Some (port, payload).
Definition received (addr : netAddr) (packet : bytes) : option (Z * bytes) :=
  (fun port => (port, packet)) <$> serverSourcePortFromAddr addr.
Definition toServers (allow : option (Z -> bool)) (evs : list relayEvent) : list (Z * bytes) :=
  omap (fun ev => match ev with fromClient packet => forwarded allow packet | _ => None end) evs.
Definition toClient (evs : list relayEvent) : list (Z * bytes) :=
  omap (fun ev => match ev with fromServer addr packet _ => received addr packet | _ => None end) evs.
Definition frameOf (pp : Z * bytes) : bytes := buildFrame (fst pp) (snd pp).

Lemma forwarded_iff allow packet port payload :
  forwarded allow packet = Some (port, payload)
  <-> packet = buildFrame port payload /\ 1 <= port <= 65535 /\ portAllowed allow port = true /\ payload <> [].
Proof.
  unfold forwarded. destruct (decodeFrame packet) as [[p d]|] eqn:Hd.
  - pose proof (proj1 (decodeFrame_iff _ _ _) Hd) as [Hp ->]. unfold controlPort. split.
    + destruct (Z.eqb_spec p 0); [done|]. destruct (portAllowed allow p) eqn:Ha; [|done]. cbn [orb negb].
      case_bool_decide; [done|]. intros [= <- <-]. split_and!; [done|lia|lia|done|done].
    + intros (He & Hr & Ha & Hne). assert (decodeFrame (buildFrame p d) = Some (port, payload)) as Hd2.
      { apply decodeFrame_iff. split; [lia|done]. }
      assert (p = port /\ d = payload) as [-> ->] by (split; congruence).
      rewrite Ha, bool_decide_eq_false_2, (proj2 (Z.eqb_neq port 0)) by (done || lia). done.
  - split; [done|]. intros (-> & Hr & _). by rewrite (proj2 (decodeFrame_iff _ port payload)) in Hd by (split; [lia|done]).
Qed.

(** What a relay did with [offered]: [kept] of it is queued or sent, in order, the rest is counted. *)
Record carries (s s' : Session) (offered kept : list (Z * bytes)) : Prop := {
  ca_flow : sent s' ++ tx s' = (sent s ++ tx s) ++ map frameOf kept;
  ca_kept : kept `sublist_of` offered;
  ca_count : Z.of_nat (length offered) = Z.of_nat (length kept) + (txDropped s' - txDropped s);
  ca_room : (length (tx s') <= length (tx s) + length offered)%nat;
  ca_all : (length (tx s) + length offered <= txCap)%nat -> kept = offered;
}.

Lemma carries_refl s s' :
  sent s' ++ tx s' = sent s ++ tx s -> txDropped s' = txDropped s -> (length (tx s') <= length (tx s))%nat ->
  carries s s' [] [].
Proof. intros Hf Hd Hl. constructor; cbn; [by rewrite app_nil_r|done|lia|lia|done]. Qed.

Lemma carries_trans s0 s1 s2 o1 o2 k1 k2 :
  carries s0 s1 o1 k1 -> carries s1 s2 o2 k2 -> carries s0 s2 (o1 ++ o2) (k1 ++ k2).
Proof.
  intros [F1 K1 C1 R1 A1] [F2 K2 C2 R2 A2]. constructor.
  - by rewrite F2, F1, map_app, <- app_assoc.
  - by apply sublist_app.
  - rewrite !length_app. lia.
  - rewrite length_app. lia.
  - rewrite length_app. intros Hle. rewrite A1, A2 by lia. done.
Qed.

Lemma handleFrame_alive allow packet s : ctxDone (handleFrame allow packet s) = ctxDone s.
Proof. unfold handleFrame, udpWrite, noteServerRoutePort. by repeat split_match. Qed.

Lemma handleFrame_forwarded allow packet s :
  ctxDone s = false ->
  udpOut (handleFrame allow packet s) = udpOut s ++ option_list (forwarded allow packet)
  /\ sent (handleFrame allow packet s) = sent s /\ tx (handleFrame allow packet s) = tx s
  /\ txDropped (handleFrame allow packet s) = txDropped s.
Proof.
  intros Hc. unfold handleFrame, forwarded. destruct (decodeFrame packet) as [[port payload]|]; [|by rewrite app_nil_r].
  destruct (port =? controlPort); cbn [orb]; [by rewrite app_nil_r|].
  assert (match allow with Some f => negb (f port) | None => false end = negb (portAllowed allow port)) as -> by (by destruct allow).
  destruct (negb _); cbn [orb]; [by rewrite app_nil_r|].
  unfold noteServerRoutePort, udpWrite. destruct (isValidServerPort port); cbn; rewrite Hc; cbn; case_bool_decide; cbn;
    by rewrite ?app_nil_r.
Qed.

(** A datagram is queued as a frame that decodes to its port and bytes, or counted. *)
Lemma fromServer_carries addr packet pickTx s :
  ctxDone s = false ->
  let s' := relayStep None s (fromServer addr packet pickTx) in
  ctxDone s' = false /\ udpOut s' = udpOut s /\
  exists kept, carries s s' (option_list (received addr packet)) kept.
Proof.
  intros Hc. cbn [relayStep]. rewrite Hc. unfold udpReadFrame, received.
  destruct (serverSourcePortFromAddr addr) as [port|] eqn:Hport; cbn [fmap option_fmap option_map option_list];
    [|split_and!; [done|done|]; exists []; by apply carries_refl].
  assert (buildFrame port packet <> []) as Hne.
  { rewrite buildFrame_nil. unfold serverSourcePortFromAddr, isValidServerPort in Hport. destruct addr as [q|]; [|done].
    destruct ((1 <=? q) && (q <=? 65535)) eqn:Hq; [|done]. injection Hport as ->. lia. }
  unfold sendFrame, sendFrameCheck. rewrite bool_decide_eq_false_2, Hc by done. cbn [negb andb].
  unfold sendFrameSelect, enqueue. destruct (Nat.ltb_spec (length (tx s)) txCap) as [Hlt|Hge].
  - rewrite Hc. cbn. split_and!; [done|done|]. exists [(port, packet)]. constructor; cbn.
    + by rewrite app_assoc.
    + done.
    + lia.
    + rewrite length_app. cbn. lia.
    + done.
  - rewrite Hc. cbn. split_and!; [done|done|]. exists []. constructor; cbn; [by rewrite app_nil_r|apply sublist_nil_l|lia|lia|lia].
Qed.

Lemma fromServer_step allow addr packet pickTx s :
  session_ok s -> let s' := relayStep allow s (fromServer addr packet pickTx) in
  session_ok s' /\ writeLoop s' = writeLoop s.
Proof.
  intros Hs. cbn [relayStep]. destruct (ctxDone s); [done|]. destruct (udpReadFrame addr packet) as [frame|]; [|done].
  unfold sendFrame, sendFrameCheck. destruct (bool_decide (frame = [])) eqn:Hne; [done|].
  apply bool_decide_eq_false in Hne. destruct (ctxDone s); [done|]. cbn [negb andb].
  destruct (sendFrameSelect true pickTx frame s) as [s1|] eqn:Hsel; [|done].
  split; [by apply (sendFrameSelect_step true pickTx frame s s1)|]. revert Hsel.
  unfold sendFrameSelect, enqueue. by repeat split_match; intros [= <-].
Qed.

(** A round of the write loop that leaves the session alive only moves frames from the queue. *)
Lemma wrote_carries e s :
  session_ok s -> writeLoop s = selecting -> ctxDone (default s (writeLoopStep e s)) = false ->
  ctxDone s = false /\ writeLoop (default s (writeLoopStep e s)) = selecting
  /\ udpOut (default s (writeLoopStep e s)) = udpOut s /\ carries s (default s (writeLoopStep e s)) [] [].
Proof.
  intros Hs Hw. pose proof (so_frames s Hs) as Hf. rewrite (so_flow s Hs), !Forall_app in Hf. destruct Hf as (_ & _ & Hf).
  assert (ctxDone s = false -> ctxDone s = false /\ writeLoop s = selecting /\ udpOut s = udpOut s /\ carries s s [] []) as Hrefl.
  { intros Hc. split_and!; [done|done|done|]. by apply carries_refl. }
  unfold writeLoopStep. rewrite Hw. destruct e as [err|err| | |]; cbn [default]; try done.
  - by destruct err.
  - destruct (tx s) as [|packet rest] eqn:Htx; [done|]. apply Forall_cons in Hf as [Hne _].
    rewrite bool_decide_eq_false_2 by done. destruct err; [done|]. cbn. intros Hc. split_and!; [done|done|done|].
    apply carries_refl; cbn; rewrite ?Htx; [by rewrite <- app_assoc|done|cbn; lia].
  - destruct (ctxDone s) eqn:Hc; cbn; [intros Hc'; congruence|intros _; exact (Hrefl eq_refl)].
Qed.

(** A session that has ended stays ended. *)
Lemma relayStep_ended allow ev s : ctxDone s = true -> ctxDone (relayStep allow s ev) = true.
Proof.
  intros Hc. destruct ev as [packet|addr packet pickTx|e]; cbn [relayStep].
  - by rewrite handleFrame_alive.
  - by rewrite Hc.
  - unfold writeLoopStep, writeLoopFails. by repeat split_match.
Qed.
Lemma relay_alive allow evs s : ctxDone (relay allow evs s) = false -> ctxDone s = false.
Proof.
  unfold relay. revert s. induction evs as [|ev evs IH]; intros s; [done|]. cbn. intros Hc%IH.
  destruct (ctxDone s) eqn:Hd; [|done]. by rewrite (relayStep_ended allow ev s Hd) in Hc.
Qed.

(** What comes from a server comes from a port that a frame can name. *)
Lemma toClient_port evs pp : In pp (toClient evs) -> decodeFrame (frameOf pp) = Some pp.
Proof.
  destruct pp as [port payload]. unfold toClient. rewrite <- list_elem_of_In, list_elem_of_omap.
  intros ([|addr packet pickTx|] & _ & Hev); try done. revert Hev. unfold received, serverSourcePortFromAddr.
  destruct addr as [q|]; [|done]. destruct (isValidServerPort q) eqn:Hq; [|done]. cbn. intros [= <- <-].
  apply decodeFrame_iff. unfold isValidServerPort in Hq. split; [lia|done].
Qed.

(** A step that leaves the session alive. *)
Lemma relayStep_carries allow ev s :
  session_ok s -> writeLoop s = selecting -> ctxDone (relayStep allow s ev) = false ->
  let s' := relayStep allow s ev in
  ctxDone s = false /\ session_ok s' /\ writeLoop s' = selecting /\
  udpOut s' = udpOut s ++ toServers allow [ev] /\ exists kept, carries s s' (toClient [ev]) kept.
Proof.
  intros Hs Hw Hc s'. destruct ev as [packet|addr packet pickTx|e].
  - assert (ctxDone s = false) as Hc0 by (by rewrite <- (handleFrame_alive allow packet)).
    destruct (handleFrame_forwarded allow packet s Hc0) as (Hu & Hse & Htx & Hd).
    destruct (handleFrame_step allow packet s Hs) as (Hok & _).
    split_and!; [done|done| | |].
    + unfold s', relayStep, handleFrame, udpWrite, noteServerRoutePort. by repeat split_match.
    + unfold s'. cbn [relayStep toServers omap list_omap]. rewrite Hu. by destruct (forwarded allow packet).
    + exists []. apply carries_refl; unfold s'; cbn [relayStep]; rewrite ?Hse, ?Htx, ?Hd; done || lia.
  - pose proof (relay_alive allow [fromServer addr packet pickTx] s Hc) as Hc0.
    destruct (fromServer_carries addr packet pickTx s Hc0) as (_ & Hu & kept & Hk).
    destruct (fromServer_step allow addr packet pickTx s Hs) as [Hok Hw']. split_and!; [done|done|exact (eq_trans Hw' Hw)| |].
    + unfold s'. cbn [toServers omap list_omap]. by rewrite app_nil_r.
    + exists kept. unfold s'. cbn [toClient omap list_omap]. by destruct (received addr packet).
  - destruct (wrote_carries e s Hs Hw Hc) as (Hc0 & Hw' & Hu & Hk). split_and!; [done| |done| |by exists []].
    + unfold s'. cbn [relayStep]. destruct (writeLoopStep e s) as [s1|] eqn:Hst; [|done]. by apply (writeLoopStep_step e s s1).
    + unfold s'. cbn [relayStep toServers omap list_omap]. by rewrite app_nil_r.
Qed.

(** C13.  The relay loses nothing without counting it.  Through any sequence of client packets, server
    datagrams and rounds of the write loop that leaves the session alive, the servers are given
    exactly the payloads that the client addressed to a port it may reach, in order; and of the
    servers' datagrams those that were kept are, after what was there before, exactly what is sent
    or waits to be, in order, each as a frame that decodes to its port and bytes, and the others are
    as many as the drop counter says; none is dropped when all of them fit the queue of 1024. *)
Theorem relay_carries allow evs s :
  session_ok s -> writeLoop s = selecting -> let s' := relay allow evs s in ctxDone s' = false ->
  udpOut s' = udpOut s ++ toServers allow evs /\
  exists kept,
    sent s' ++ tx s' = (sent s ++ tx s) ++ map frameOf kept /\
    map decodeFrame (map frameOf kept) = map Some kept /\
    kept `sublist_of` toClient evs /\
    Z.of_nat (length (toClient evs)) = Z.of_nat (length kept) + (txDropped s' - txDropped s) /\
    ((length (tx s) + length (toClient evs) <= 1024)%nat -> kept = toClient evs).
Proof.
  intros Hs Hw s' Hc.
  assert (udpOut s' = udpOut s ++ toServers allow evs /\ exists kept, carries s s' (toClient evs) kept) as (Hu & kept & [F K C R A]).
  { unfold s' in *. clear s'. revert s Hs Hw Hc. induction evs as [|ev evs IH]; intros s Hs Hw Hc; cbn [relay foldl] in *.
    - split; [by rewrite app_nil_r|]. exists []. by apply carries_refl.
    - assert (ctxDone (relayStep allow s ev) = false) as Hc1 by (by apply (relay_alive allow evs)).
      destruct (relayStep_carries allow ev s Hs Hw Hc1) as (_ & Hs1 & Hw1 & Hu1 & k1 & Hk1).
      destruct (IH _ Hs1 Hw1 Hc) as (Hu2 & k2 & Hk2). split.
      + unfold relay in Hu2. rewrite Hu2, Hu1, <- app_assoc. f_equal. unfold toServers. by rewrite <- omap_app.
      + exists (k1 ++ k2). replace (toClient (ev :: evs)) with (toClient [ev] ++ toClient evs); [by eapply carries_trans|].
        unfold toClient. by rewrite <- omap_app. }
  split; [done|]. exists kept. split_and!; [done| |done|done|exact A].
  rewrite map_map. apply map_ext_in. intros pp Hin. apply (toClient_port evs).
  rewrite <- list_elem_of_In in *. by eapply elem_of_sublist.
Qed.

(** A session with room for one more frame, to which two datagrams come: one is dropped, and said so. *)
Definition nearlyFull : Session :=
  let waiting := replicate 1023 (buildFrame controlPort (blist "NQIP")) in
  mkSession "websocket" (byte_of 127, byte_of 0, byte_of 0, byte_of 2) "10.0.0.7" 0 0 0 waiting false false false Live true selecting waiting [] [] [].
Definition nearlyFullEvents : list relayEvent :=
  [fromClient (buildFrame 26000 (blist "connect")); fromServer (udpAddr 26000) (blist "accept") true;
   fromClient (buildFrame 22 (blist "ssh")); fromServer (udpAddr 26000) (blist "signon") true;
   fromServer otherAddr (blist "noise") true].
Lemma relay_carries_witness :
  exists kept, length kept = 1%nat /\ kept `sublist_of` [(26000, blist "accept"); (26000, blist "signon")].
Proof.
  destruct (relay_carries (Some (fun port => port =? 26000)) nearlyFullEvents nearlyFull) as (_ & kept & _ & _ & Hk & Hc & _).
  - constructor; [vm_compute; lia|vm_compute; reflexivity|split; [cbn; lia|by left]| |split; discriminate].
    apply Forall_replicate. discriminate.
  - reflexivity.
  - vm_compute. reflexivity.
  - exists kept. split; [|exact Hk].
    assert (txDropped (relay (Some (fun port => port =? 26000)) nearlyFullEvents nearlyFull) = 1) as Hd by (vm_compute; reflexivity).
    rewrite Hd in Hc. cbn in Hc. lia.
Defined.
