(* ===== verification/SessionRun.v ===== *)
(** The goroutines of a session: session.go [Run], which starts the loops of trunk/relay.go, and the
    calls of [End] that any of them may make, with the [Once] that lets one of them in.

    Trunk.v has what each section does to the session; here is where each goroutine stands, what may
    happen next, and that all of them return once the session's context is done. *)
From S2P Require Import Prelude GoStrings Netip Trunk.

(** A call of session.go [End]: before its [Once], or inside, waiting for the write loop. *)
Inductive ending := calls | waits.
(** Where the goroutine of session.go [Run] is: in relay.go [readLoop], in the [End] that this calls
    when a read fails, in the [End] of [Run] after it, or returned; *)
Inductive readerAt := reading | readEnds (e : ending) | runEnds (e : ending) | runReturned.
(** and relay.go [udpReadLoop]: before its check of the context, in [ReadFrom], in the select of
    [sendFrame], in [End], or returned. *)
Inductive udpAt := checking | receiving | sendingFrame (frame : bytes) | udpEnds (e : ending) | udpReturned.
#[export] Instance ending_eq : EqDecision ending.
Proof. solve_decision. Defined.

(** A session that runs: [outside] is a call of [End] through trunk.go [EndSession]. *)
Record Run := mkRun { ses : Session; atReader : readerAt; atUdp : udpAt; outside : option ending }.
#[export] Instance eta_run : EtaRecord Run := fun r => mkRun (ses r) (atReader r) (atUdp r) (outside r).

(** What a goroutine of the session meets: the result of [ReadFrame] or of [ReadFrom], a choice of a
    select, the write loop, the selects of session.go [SendControl] and [TrySendControl] that the
    application calls, the arrival of an outside call of [End], and a move of the [End] that one of
    the three is in ([timedOut] is the timer of its wait). *)
Inductive udpResult := refused | failedRead | datagram (addr : netAddr) (packet : bytes).
Inductive caller := byReader | byUdp | byOutside.
Inductive runEvent :=
  | readFrame (data : option bytes) | checkContext | readFrom (res : udpResult) | sendSelect (pickTx : bool)
  | wrote (e : writeLoopEvent) | sendControl (pickTx : bool) (payload : bytes) | trySendControl (payload : bytes)
  | endCalled | endMoves (who : caller) (timedOut : bool).

(** session.go [End]: one enters the [Once], waits, and finishes; the others wait for it at the
    [Once] and return. *)
Definition endStep (e : ending) (timedOut : bool) (s : Session) : option (option ending * Session) :=
  match e, phase s with
  | calls, Live => Some (Some waits, EndBegin s)
  | calls, Ended => Some (None, s)
  | waits, _ => if EndReady timedOut s then Some (None, EndFinish s) else None
  | calls, _ => None
  end.

(** One section of one goroutine.  A closed transport gives its reader an error, as a closed socket
    gives its own (the contract of session.go [Transport], and of net). *)
Definition runStep (allow : option (Z -> bool)) (ev : runEvent) (r : Run) : option Run :=
  let s := ses r in
  match ev with
  | readFrame data =>
      match atReader r, data with
      | reading, Some packet => if xportClosed s then None else Some (r <| ses := handleFrame allow packet s |>)
      | reading, None => Some (r <| atReader := readEnds calls |>)
      | _, _ => None
      end
  | checkContext =>
      match atUdp r with
      | checking => Some (r <| atUdp := if ctxDone s then udpReturned else receiving |>)
      | _ => None
      end
  | readFrom res =>
      match atUdp r, res with
      | receiving, failedRead => Some (r <| atUdp := udpEnds calls |>)
      | receiving, refused => if udpClosed s then None else Some (r <| atUdp := checking |>)
      | receiving, datagram addr packet =>
          if udpClosed s then None else
          Some (r <| atUdp := match udpReadFrame addr packet with
                              | Some frame => if sendFrameCheck frame s then sendingFrame frame else checking
                              | None => checking
                              end |>)
      | _, _ => None
      end
  | sendSelect pickTx =>
      match atUdp r with
      | sendingFrame frame =>
          let? s' := sendFrameSelect true pickTx frame s in Some (r <| ses := s' |> <| atUdp := checking |>)
      | _ => None
      end
  | wrote e => let? s' := writeLoopStep e s in Some (r <| ses := s' |>)
  | sendControl pickTx payload => let? (_, s') := SendControlSelect pickTx payload s in Some (r <| ses := s' |>)
  | trySendControl payload => Some (r <| ses := snd (TrySendControlSelect payload s) |>)
  | endCalled =>
      match outside r, phase s with None, Live => Some (r <| outside := Some calls |>) | _, _ => None end
  | endMoves byReader timedOut =>
      match atReader r with
      | readEnds e =>
          let? (e', s') := endStep e timedOut s in
          Some (r <| ses := s' |> <| atReader := match e' with Some e' => readEnds e' | None => runEnds calls end |>)
      | runEnds e =>
          let? (e', s') := endStep e timedOut s in
          Some (r <| ses := s' |> <| atReader := match e' with Some e' => runEnds e' | None => runReturned end |>)
      | _ => None
      end
  | endMoves byUdp timedOut =>
      match atUdp r with
      | udpEnds e =>
          let? (e', s') := endStep e timedOut s in
          Some (r <| ses := s' |> <| atUdp := match e' with Some e' => udpEnds e' | None => udpReturned end |>)
      | _ => None
      end
  | endMoves byOutside timedOut =>
      match outside r with
      | Some e => let? (e', s') := endStep e timedOut s in Some (r <| ses := s' |> <| outside := e' |>)
      | None => None
      end
  end.

(** session.go [Run] up to the loops, an outside [End] being perhaps on its way; and what follows. *)
Definition runStart (s : Session) : Run :=
  mkRun (RunBegin s) reading checking (match phase s with Ending => Some waits | _ => None end).
Definition runSteps (allow : option (Z -> bool)) (evs : list runEvent) (r : Run) : option Run :=
  foldl (fun r ev => r ≫= runStep allow ev) (Some r) evs.

(** All goroutines have returned. *)
Definition returned (r : Run) : Prop :=
  atReader r = runReturned /\ atUdp r = udpReturned /\ outside r = None /\ exists why, writeLoop (ses r) = exited why.

(** Every goroutine is in its loop, and nobody calls [End]. *)
Definition looping (r : Run) : bool :=
  match atReader r, atUdp r, outside r, writeLoop (ses r) with
  | reading, (checking | receiving | sendingFrame _), None, selecting => true
  | _, _, _, _ => false
  end.

(** Events that only repeat a loop: a frame or a ping that got through, and what the application
    queues.  Every other is a goroutine moving [on]. *)
Definition on (ev : runEvent) : bool :=
  match ev with
  | readFrame (Some _) | wrote (pinged false) | wrote (tookPacket false) | sendControl _ _ | trySendControl _ => false
  | _ => true
  end.
(** Events that come whatever the client, the servers and the network do: no read has to give
    something, unless its connection is closed and it fails, and no write. *)
Definition own (ev : runEvent) (r : Run) : Prop :=
  match ev with
  | readFrame data => data = None /\ xportClosed (ses r) = true
  | readFrom res => res = failedRead /\ udpClosed (ses r) = true
  | wrote e => e = sawDone \/ e = deadlinePassed
  | sendControl _ _ | trySendControl _ | endCalled => False
  | checkContext | sendSelect _ | endMoves _ _ => True
  end.

(** * Facts: where the goroutines are *)

Definition waiting (e : option ending) : nat := match e with Some waits => 1 | _ => 0 end.
Definition readerEnding (a : readerAt) : option ending := match a with readEnds e | runEnds e => Some e | _ => None end.
Definition udpEnding (a : udpAt) : option ending := match a with udpEnds e => Some e | _ => None end.
(** How many are inside the [Once] of [End]. *)
Definition inside (r : Run) : nat :=
  (waiting (readerEnding (atReader r)) + waiting (udpEnding (atUdp r)) + waiting (outside r))%nat.

(** The reader is in [Run]'s own [End], or has returned. *)
Definition pastLoop (a : readerAt) : Prop := match a with runEnds _ | runReturned => True | _ => False end.

(** What holds of a session by how far its life is. *)
Record life_ok (s : Session) : Prop := {
  lo_cancelled : phase s = Ending \/ phase s = Ended -> ctxDone s = true;
  lo_failed : phase s = Binding \/ phase s = Live -> ctxDone s = true -> xportClosed s = true;
  lo_closed : phase s = Ended -> xportClosed s = true /\ udpClosed s = true /\ virtualIP s = zeroIP;
  lo_writer : ctxDone s = false -> writeLoop s = notStarted \/ writeLoop s = selecting;
}.

Record run_ok (r : Run) : Prop := {
  ro_session : session_ok (ses r);
  ro_life : life_ok (ses r);
  ro_started : runStarted (ses r) = true;
  ro_inside : inside r = match phase (ses r) with Ending => 1%nat | _ => 0%nat end;
  ro_bound : phase (ses r) <> Binding;
  ro_reader : pastLoop (atReader r) -> phase (ses r) = Ended;
  ro_udp : atUdp r = udpReturned -> ctxDone (ses r) = true;
  ro_frame : forall frame, atUdp r = sendingFrame frame -> frame <> [];
}.

(** What leaves the session's place in its life as it is: every section but those of [End] and a
    failing transport. *)
Definition keeps (s s' : Session) : Prop :=
  runStarted s' = runStarted s /\ phase s' = phase s /\ ctxDone s' = ctxDone s /\ xportClosed s' = xportClosed s /\
  udpClosed s' = udpClosed s /\ virtualIP s' = virtualIP s /\ writeLoop s' = writeLoop s.

Lemma handleFrame_keeps allow packet s : keeps s (handleFrame allow packet s).
Proof. unfold keeps, handleFrame, udpWrite, noteServerRoutePort. by repeat split_match. Qed.
Lemma enqueue_keeps frame s s' : enqueue frame s = Some s' -> keeps s s'.
Proof. unfold enqueue. intros H. by case_match; simplify_eq. Qed.
Lemma sendFrameSelect_keeps drop pickTx frame s s' : sendFrameSelect drop pickTx frame s = Some s' -> keeps s s'.
Proof.
  unfold sendFrameSelect. intros H. destruct (enqueue frame s) eqn:He; [apply enqueue_keeps in He|];
    repeat case_match; by simplify_eq.
Qed.
Lemma SendControlSelect_keeps pickTx payload s ok s' : SendControlSelect pickTx payload s = Some (ok, s') -> keeps s s'.
Proof.
  unfold SendControlSelect. intros H. destruct (enqueue _ s) eqn:He; [apply enqueue_keeps in He|];
    repeat case_match; by simplify_eq.
Qed.
Lemma TrySendControlSelect_keeps payload s : keeps s (snd (TrySendControlSelect payload s)).
Proof. unfold TrySendControlSelect. destruct (enqueue _ s) eqn:He; [by apply enqueue_keeps in He|done]. Qed.

(** A round of the write loop keeps the session, or closes its transport. *)
Definition keepsOrFails (s s' : Session) : Prop :=
  runStarted s' = runStarted s /\ phase s' = phase s /\ udpClosed s' = udpClosed s /\ virtualIP s' = virtualIP s /\
  (ctxDone s' = ctxDone s /\ xportClosed s' = xportClosed s \/ ctxDone s' = true /\ xportClosed s' = true) /\
  (ctxDone s' = false -> writeLoop s' = writeLoop s).
Lemma keeps_or_fails s s' : keeps s s' -> keepsOrFails s s'.
Proof. unfold keeps, keepsOrFails. naive_solver. Qed.
Lemma writeLoopStep_keeps e s s' : life_ok s -> writeLoopStep e s = Some s' -> keepsOrFails s s'.
Proof.
  intros Hl H. assert (writeLoop s = draining -> ctxDone s = true) as Hd.
  { intros Hd. destruct (ctxDone s) eqn:Hc; [done|]. destruct (lo_writer s Hl Hc); congruence. }
  unfold writeLoopStep, writeLoopFails, keepsOrFails in *.
  repeat case_match; simplify_eq/=; split_and!; auto; intros Hc; try specialize (Hd eq_refl); congruence.
Qed.

Lemma life_keeps s s' : life_ok s -> keepsOrFails s s' -> life_ok s'.
Proof.
  intros [H1 H2 H3 H4] (_ & E2 & E3 & E4 & E5 & E6). constructor; rewrite ?E2, ?E3, ?E4.
  - intros Hp. specialize (H1 Hp). destruct E5 as [[-> _]|[-> _]]; done.
  - intros Hp. destruct E5 as [[-> ->]|[_ ->]]; auto.
  - intros Hp. destruct (H3 Hp) as (Hx & Hu & Hv). destruct E5 as [[_ ->]|[_ ->]]; done.
  - intros Hc. rewrite (E6 Hc). apply H4. destruct E5 as [[<- _]|[Hc' _]]; congruence.
Qed.
Lemma life_EndBegin s : life_ok (EndBegin s).
Proof. constructor; cbn; try done. by intros []. Qed.
Lemma life_EndFinish s : ctxDone s = true -> life_ok (EndFinish s).
Proof. intros Hc. constructor; cbn; try done. congruence. Qed.
Lemma life_RunBegin s : life_ok s -> life_ok (RunBegin s).
Proof. intros [H1 H2 H3 H4]. constructor; cbn; auto. Qed.

(** The invariant, through a change of the session, of where a goroutine is, and through [End]. *)
Lemma run_ok_ses r s' : run_ok r -> session_ok s' -> keepsOrFails (ses r) s' -> run_ok (r <| ses := s' |>).
Proof.
  intros [H1 H2 H3 H4 H5 H6 H7 H8] Hs Hk. pose proof Hk as (E1 & E2 & _ & _ & E5 & _). constructor; cbn; rewrite ?E1, ?E2; try done.
  - by eapply life_keeps.
  - intros Hu. specialize (H7 Hu). destruct E5 as [[-> _]|[-> _]]; done.
Qed.

Lemma run_ok_at r a u o :
  run_ok r -> inside (mkRun (ses r) a u o) = inside r -> (pastLoop a -> a = atReader r) ->
  (u = udpReturned -> u = atUdp r \/ ctxDone (ses r) = true) -> (forall frame, u = sendingFrame frame -> frame <> []) ->
  run_ok (mkRun (ses r) a u o).
Proof.
  intros [H1 H2 H3 H4 H5 H6 H7 H8] Hi Ha Hu Hf. constructor; cbn; try done.
  - by rewrite Hi.
  - intros H. apply H6. by rewrite <- (Ha H).
  - intros H. destruct (Hu H) as [Heq|]; [|done]. apply H7. congruence.
Qed.

Lemma EndBegin_ok s : session_ok s -> session_ok (EndBegin s).
Proof. by intros []. Qed.
Lemma EndFinish_ok s : session_ok s -> session_ok (EndFinish s).
Proof. by intros []. Qed.

Lemma run_ok_end r e timedOut e' s' a u o :
  run_ok r -> endStep e timedOut (ses r) = Some (e', s') ->
  (inside (mkRun s' a u o) + waiting (Some e) = inside r + waiting e')%nat -> (waiting (Some e) <= inside r)%nat ->
  (pastLoop a -> pastLoop (atReader r) \/ e' = None) ->
  (u = udpReturned -> u = atUdp r \/ e' = None) -> (forall frame, u = sendingFrame frame -> u = atUdp r) ->
  run_ok (mkRun s' a u o).
Proof.
  intros [H1 H2 H3 H4 H5 H6 H7 H8] He Hi Hle Ha Hu Hf.
  assert (forall frame, u = sendingFrame frame -> frame <> []) as Hf'.
  { intros frame Hframe. apply H8. by rewrite <- (Hf frame Hframe). }
  unfold endStep in He. destruct e; [destruct (phase (ses r)) eqn:Hp; simplify_eq|destruct (EndReady timedOut (ses r)) eqn:Hr; simplify_eq].
  - cbn in Hi. constructor; cbn; try done; [by apply EndBegin_ok|apply life_EndBegin|cbn in *; lia|].
    intros H. destruct (Ha H) as [Heq|]; [|done]. specialize (H6 Heq). congruence.
  - assert (ctxDone (ses r) = true) as Hc by (apply (lo_cancelled _ H2); auto).
    constructor; cbn; rewrite ?Hp; try done; cbn in *; lia.
  - assert (phase (ses r) = Ending) as Hp by (cbn in Hle; destruct (phase (ses r)); done || lia).
    rewrite Hp in H4. assert (ctxDone (ses r) = true) as Hc by (apply (lo_cancelled _ H2); auto).
    constructor; cbn; try done; [by apply EndFinish_ok|by apply life_EndFinish|]. cbn in *. lia.
Qed.

Ltac at_goals := cbn; try done; try lia; try naive_solver.

Lemma runStep_ok allow ev r r' : run_ok r -> runStep allow ev r = Some r' -> run_ok r'.
Proof.
  intros Hok Hst. pose proof Hok as [Hs _ _ Hin _ Hrd Hud Hfr]. destruct r as [s a u o]. cbn in Hs, Hrd, Hud, Hfr.
  unfold runStep in Hst. cbn [ses atReader atUdp outside] in Hst.
  destruct ev as [[packet|]| |res|pickTx|e|pickTx payload|payload| |who timedOut].
  - destruct a; try done. destruct (xportClosed s); [done|]. injection Hst as <-.
    apply (run_ok_ses _ _ Hok); [by apply handleFrame_step|apply keeps_or_fails, handleFrame_keeps].
  - destruct a; try done. injection Hst as <-. apply (run_ok_at _ (readEnds calls) u o Hok); at_goals.
  - destruct u; try done. injection Hst as <-. apply (run_ok_at _ a _ o Hok); cbn; destruct (ctxDone s) eqn:Hc; at_goals.
  - destruct u; try done. destruct res as [| |addr packet]; [destruct (udpClosed s); [done|]| |destruct (udpClosed s); [done|]];
      injection Hst as <-; apply (run_ok_at _ a _ o Hok); at_goals.
    all: destruct (udpReadFrame addr packet) as [frame|]; [|at_goals].
    all: destruct (sendFrameCheck frame s) eqn:Hck; at_goals.
  - destruct u as [| |frame| |]; try done. destruct (sendFrameSelect true pickTx frame s) as [s1|] eqn:Hsel; [|done]. injection Hst as <-.
    assert (run_ok (mkRun s1 a (sendingFrame frame) o)) as Hok1.
    { apply (run_ok_ses _ s1 Hok); [eapply sendFrameSelect_step; [|by apply Hfr|]; done|eapply keeps_or_fails, sendFrameSelect_keeps, Hsel]. }
    apply (run_ok_at _ a checking o Hok1); at_goals.
  - destruct (writeLoopStep e s) as [s1|] eqn:Hw; [|done]. injection Hst as <-.
    apply (run_ok_ses _ s1 Hok); [by eapply writeLoopStep_step|eapply writeLoopStep_keeps, Hw; apply Hok].
  - destruct (SendControlSelect pickTx payload s) as [[ok s1]|] eqn:Hc; [|done]. injection Hst as <-.
    apply (run_ok_ses _ s1 Hok); [by eapply SendControlSelect_step|eapply keeps_or_fails, SendControlSelect_keeps, Hc].
  - injection Hst as <-. apply (run_ok_ses _ _ Hok); [by apply TrySendControlSelect_step|apply keeps_or_fails, TrySendControlSelect_keeps].
  - destruct o; [done|]. destruct (phase s) eqn:Hp; try done. injection Hst as <-. apply (run_ok_at _ a u (Some calls) Hok); at_goals.
  - destruct who; [destruct a as [|e|e|]|destruct u as [| | |e|]|destruct o as [e|]]; try done.
    all: destruct (endStep e timedOut s) as [[e' s1]|] eqn:He; [|done]; injection Hst as <-.
    all: apply (run_ok_end _ _ _ _ _ _ _ _ Hok He); unfold inside; cbn; try done; try lia.
    all: destruct e' as [e'|]; at_goals.
Qed.

(** * Facts: the session in the trunk *)

Lemma life_keep s s' : life_ok s -> keeps s s' -> life_ok s'.
Proof. intros Hl Hk. eapply life_keeps, keeps_or_fails; done. Qed.

Lemma tstep_life t t' :
  tstep t t' -> (forall p s, heap t !! p = Some s -> life_ok s) -> forall p s, heap t' !! p = Some s -> life_ok s.
Proof.
  intros Hst Hl.
  assert (forall q s' t0, heap t0 = heap t -> life_ok s' -> forall p s, heap (setSession q s' t0) !! p = Some s -> life_ok s) as Hset.
  { intros q s' t0 Heq Hs' p s. cbn. rewrite Heq, lookup_insert. case_decide; [by intros [= <-]|apply Hl]. }
  destruct Hst as [q xport key now t t' _ Ha|ok q s1 t Hq Hb|q s1 t Hq|q s1 packet t Hq|q s1 s2 drop pickTx frame t Hq _ _ Hs
                  |q s1 ok s2 pickTx payload t Hq _ Hs|q s1 payload t Hq|q s1 s2 e t Hq _ Hs|q s1 t Hq|timedOut q s1 t Hq Hp _].
  - revert Ha. unfold newSessionAlloc. generalize (alloc key (allocator t)) as res. intros [[ip a]|]; [|done]. intros [= <-] p s.
    cbn. rewrite lookup_insert. case_decide; [|apply Hl]. intros [= <-]. constructor; cbn; try done; [by intros []|auto].
  - destruct ok; intros p s; cbn; [rewrite lookup_insert; case_decide; [|apply Hl]|rewrite lookup_delete; case_decide; [done|apply Hl]].
    intros [= <-]. destruct (Hl q s1 Hq) as [_ H2 _ H4]. constructor; cbn; try done; [by intros []|auto].
  - apply Hset; [done|]. by eapply life_RunBegin, Hl.
  - apply Hset; [done|]. eapply life_keep, handleFrame_keeps. by eapply Hl.
  - apply Hset; [done|]. eapply life_keep, sendFrameSelect_keeps, Hs. by eapply Hl.
  - apply Hset; [done|]. eapply life_keep, SendControlSelect_keeps, Hs. by eapply Hl.
  - apply Hset; [done|]. eapply life_keep, TrySendControlSelect_keeps. by eapply Hl.
  - apply Hset; [done|]. eapply life_keeps, writeLoopStep_keeps, Hs; by eapply Hl.
  - by apply Hset, life_EndBegin.
  - apply Hset; [done|]. apply life_EndFinish, (lo_cancelled _ (Hl q s1 Hq)). auto.
Qed.

Lemma treachable_life t p s : treachable t -> heap t !! p = Some s -> life_ok s.
Proof.
  intros (serverIP & allowPort & Hst). revert p s.
  assert (forall p s, heap (New serverIP allowPort) !! p = Some s -> life_ok s) as H0 by done. revert H0.
  induction Hst as [t|t t1 t2 Hst _ IH]; [done|]. intros H0. by apply IH, (tstep_life _ _ Hst).
Qed.

(** A session that is bound and starts to run, whatever else has happened to it. *)
Lemma runStart_ok t p s :
  treachable t -> heap t !! p = Some s -> phase s <> Binding -> runStarted s = false -> run_ok (runStart s).
Proof.
  intros Ht Hp Hb Hr. pose proof (to_session _ (treachable_ok _ Ht) _ _ Hp) as Hs.
  constructor; cbn; try done.
  - by apply RunBegin_step.
  - eapply life_RunBegin, treachable_life; done.
  - by destruct (phase s).
Qed.

Lemma runSteps_ok allow evs r r' : run_ok r -> runSteps allow evs r = Some r' -> run_ok r'.
Proof.
  unfold runSteps. revert r. induction evs as [|ev evs IH]; intros r Hok; cbn; [by intros [= <-]|].
  destruct (runStep allow ev r) as [r1|] eqn:Hst.
  - apply IH. by eapply runStep_ok.
  - clear. intros H. exfalso. induction evs; done.
Qed.

(** Each section of a goroutine is a section of the trunk, so that what holds of every reachable
    trunk holds of a session that runs in it. *)
Lemma runStep_in_trunk ev r r' p t :
  run_ok r -> heap t !! p = Some (ses r) -> runStep (allowPort t) ev r = Some r' ->
  exists t', rtc tstep t t' /\ heap t' !! p = Some (ses r') /\ allowPort t' = allowPort t.
Proof.
  intros Hok Hp Hst. pose proof (ro_bound r Hok) as Hb. pose proof (ro_frame r Hok) as Hfr.
  assert (ses r' = ses r -> exists t', rtc tstep t t' /\ heap t' !! p = Some (ses r') /\ allowPort t' = allowPort t) as Hrefl.
  { intros ->. by exists t. }
  assert (forall s' t0, heap t0 = heap t -> allowPort t0 = allowPort t -> tstep t (setSession p s' t0) ->
    ses r' = s' -> exists t', rtc tstep t t' /\ heap t' !! p = Some (ses r') /\ allowPort t' = allowPort t) as Hone.
  { intros s' t0 Heq Hal Hs <-. exists (setSession p (ses r') t0). split_and!; [by apply rtc_once| |done].
    cbn. by rewrite lookup_insert_eq. }
  assert (forall e timedOut e' s', endStep e timedOut (ses r) = Some (e', s') -> (waiting (Some e) <= inside r)%nat -> ses r' = s' ->
    exists t', rtc tstep t t' /\ heap t' !! p = Some (ses r') /\ allowPort t' = allowPort t) as Hend.
  { intros e timedOut e' s' He Hle Hr. unfold endStep in He. destruct e.
    - destruct (phase (ses r)) eqn:Hph; try done; injection He as <- <-; [|by apply Hrefl].
      by apply (Hone (EndBegin (ses r)) (t <| registry ::= fun g => g ∖ {[p]} |>)); [| |apply step_end_begin|].
    - pose proof (ro_inside r Hok) as Hi. destruct (EndReady timedOut (ses r)) eqn:Hrd; [|done]. injection He as <- <-.
      apply (Hone (EndFinish (ses r)) (t <| allocator ::= release (virtualIP (ses r)) |>)); [done|done| |done].
      apply (step_end_finish timedOut); [done| |done]. cbn in Hle. destruct (phase (ses r)); done || lia. }
  unfold runStep in Hst. destruct ev as [[packet|]| |res|pickTx|e|pickTx payload|payload| |who timedOut].
  - destruct (atReader r); try done. destruct (xportClosed _); [done|]. injection Hst as <-. eapply (Hone _ t); [done..| |done].
    by apply step_frame.
  - destruct (atReader r); try done. injection Hst as <-. by apply Hrefl.
  - destruct (atUdp r); try done. injection Hst as <-. by apply Hrefl.
  - destruct (atUdp r), res, (udpClosed (ses r)); try done; injection Hst as <-; by apply Hrefl.
  - destruct (atUdp r) as [| |frame| |] eqn:Hu; try done. destruct (sendFrameSelect _ _ _ _) eqn:Hs; [|done]. injection Hst as <-.
    eapply (Hone _ t); [done..| |done]. eapply step_send; [done|done|by apply Hfr|done].
  - destruct (writeLoopStep e _) eqn:Hs; [|done]. injection Hst as <-. eapply (Hone _ t); [done..| |done]. by eapply step_write_loop.
  - destruct (SendControlSelect _ _ _) as [[ok s1]|] eqn:Hs; [|done]. injection Hst as <-.
    eapply (Hone _ t); [done..| |done]. by eapply step_control.
  - injection Hst as <-. eapply (Hone _ t); [done..| |done]. by apply step_try_control.
  - destruct (outside r), (phase (ses r)); try done. injection Hst as <-. by apply Hrefl.
  - revert Hend. unfold inside. intros Hend.
    destruct who; [destruct (atReader r) as [|e|e|]|destruct (atUdp r) as [| | |e|]|destruct (outside r) as [e|]]; try done.
    all: destruct (endStep e timedOut (ses r)) as [[e' s1]|] eqn:He; [|done]; injection Hst as <-.
    all: eapply Hend; [exact He|cbn; lia|done].
Qed.

(** * Facts: the end of the goroutines *)

Definition endRank (e : ending) : nat := match e with calls => 2 | waits => 1 end.
Definition readerRank (a : readerAt) : nat :=
  match a with reading => 5 | readEnds e => 2 + endRank e | runEnds e => endRank e | runReturned => 0 end.
Definition udpRank (u : udpAt) : nat :=
  match u with receiving => 3 | sendingFrame _ => 2 | checking => 1 | udpEnds e => endRank e | udpReturned => 0 end.
Definition outsideRank (r : Run) : nat :=
  match outside r, phase (ses r) with Some e, _ => endRank e | None, Live => 3 | None, _ => 0 end.
Definition writerRank (w : writeLoopState) : nat :=
  match w with notStarted => 0 | selecting => 2 | draining => 1 | exited _ => 0 end.
(** How many moves the goroutines of a session whose context is done have left. *)
Definition rank (r : Run) : nat :=
  (readerRank (atReader r) + udpRank (atUdp r) + outsideRank r + writerRank (writeLoop (ses r)))%nat.

(** Once the context is done it stays so, and a goroutine that moves on comes closer to its end. *)
Lemma endStep_rank e timedOut s e' s' :
  endStep e timedOut s = Some (e', s') ->
  match e' with Some e' => (endRank e' < endRank e)%nat | None => True end /\
  (ctxDone s = true -> ctxDone s' = true) /\ writeLoop s' = writeLoop s /\ phase s' <> Live.
Proof.
  unfold endStep. intros He. repeat case_match; simplify_eq/=; split_and!; try done; try lia; congruence.
Qed.

Lemma writeLoopStep_rank e s s' :
  session_ok s -> writeLoopStep e s = Some s' -> ctxDone s = true ->
  ctxDone s' = true /\ phase s' = phase s /\ (writerRank (writeLoop s') <= writerRank (writeLoop s))%nat /\
  (on (wrote e) = true -> (writerRank (writeLoop s') < writerRank (writeLoop s))%nat).
Proof.
  intros Hs Hst Hc. pose proof (so_frames s Hs) as Hf. rewrite (so_flow s Hs), !Forall_app in Hf. destruct Hf as (_ & _ & Hf).
  unfold writeLoopStep, writeLoopFails in Hst. rewrite Hc in Hst.
  assert (forall packet rest, tx s = packet :: rest -> bool_decide (packet = []) = false) as Hne.
  { intros packet rest Htx. rewrite Htx in Hf. apply bool_decide_eq_false. by apply Forall_cons in Hf as []. }
  destruct (writeLoop s) eqn:Hw, e as [err|err| | |]; try done; try (destruct (tx s) as [|packet rest] eqn:Htx; [done|]).
  all: rewrite ?(Hne _ _ eq_refl) in Hst.
  all: repeat case_match; simplify_eq/=; rewrite ?Hw; split_and!; (done || lia).
Qed.

Lemma runStep_rank allow ev r r' :
  run_ok r -> runStep allow ev r = Some r' -> ctxDone (ses r) = true ->
  ctxDone (ses r') = true /\ (rank r' + (if on ev then 1 else 0) <= rank r)%nat.
Proof.
  intros Hok Hst Hc.
  assert (forall s', keeps (ses r) s' -> ctxDone s' = true /\ rank (r <| ses := s' |>) = rank r) as Hk.
  { intros s' (_ & Hp & Hc' & _ & _ & _ & Hw). unfold rank, outsideRank. cbn. rewrite Hp, Hc', Hw. done. }
  unfold runStep in Hst. destruct ev as [[packet|]| |res|pickTx|e|pickTx payload|payload| |who timedOut].
  - destruct (atReader r); try done. destruct (xportClosed _); [done|]. injection Hst as <-. cbn.
    destruct (Hk _ (handleFrame_keeps allow packet (ses r))) as [? Hr]. split; [done|]. cbn in Hr. lia.
  - destruct (atReader r) eqn:Ha; try done. injection Hst as <-. split; [done|]. unfold rank, outsideRank. rewrite Ha. cbn. lia.
  - destruct (atUdp r) eqn:Ha; try done. injection Hst as <-. split; [done|]. unfold rank, outsideRank. rewrite Ha. cbn. rewrite Hc. cbn. lia.
  - destruct (atUdp r) eqn:Ha; try done.
    assert (forall frame, sendFrameCheck frame (ses r) = false) as Hck by (intros frame; unfold sendFrameCheck; by rewrite Hc, andb_false_r).
    destruct res as [| |addr packet]; [destruct (udpClosed _)| |destruct (udpClosed _), (udpReadFrame addr packet)];
      try rewrite Hck in Hst; simplify_eq; (split; [done|]); unfold rank, outsideRank; rewrite Ha; cbn; lia.
  - destruct (atUdp r) as [| |frame| |] eqn:Ha; try done. destruct (sendFrameSelect _ _ _ _) as [s1|] eqn:Hs; [|done]. injection Hst as <-.
    destruct (Hk _ (sendFrameSelect_keeps _ _ _ _ _ Hs)) as [? Hr]. split; [done|]. revert Hr. unfold rank, outsideRank. cbn. rewrite Ha. cbn. lia.
  - destruct (writeLoopStep e _) as [s1|] eqn:Hs; [|done]. injection Hst as <-.
    destruct (writeLoopStep_rank _ _ _ (ro_session r Hok) Hs Hc) as (Hc1 & Hp & Hle & Hlt). split; [done|].
    unfold rank, outsideRank. cbn -[on]. rewrite Hp. destruct (on (wrote e)); [specialize (Hlt eq_refl)|]; lia.
  - destruct (SendControlSelect _ _ _) as [[ok s1]|] eqn:Hs; [|done]. injection Hst as <-.
    destruct (Hk _ (SendControlSelect_keeps _ _ _ _ _ Hs)) as [? Hr]. split; [done|]. cbn. lia.
  - injection Hst as <-. destruct (Hk _ (TrySendControlSelect_keeps payload (ses r))) as [? Hr]. split; [done|]. cbn in *. lia.
  - destruct (outside r) eqn:Ho, (phase (ses r)) eqn:Hp; try done. injection Hst as <-. split; [done|].
    unfold rank, outsideRank. rewrite Ho, Hp. cbn. lia.
  - assert (forall s', phase s' <> Live -> (match phase s' with Live => 3 | _ => 0 end <= match phase (ses r) with Live => 3 | _ => 0 end)%nat) as Hout
      by (intros s' Hp; destruct (phase s'); done || lia).
    destruct who; [destruct (atReader r) as [|e|e|] eqn:Ha|destruct (atUdp r) as [| | |e|] eqn:Ha|destruct (outside r) as [e|] eqn:Ha]; try done.
    all: destruct (endStep e timedOut (ses r)) as [[e' s1]|] eqn:He; [|done]; injection Hst as <-.
    all: destruct (endStep_rank _ _ _ _ _ He) as (Hlt & Hc1 & Hw & Hp); (split; [by apply Hc1|]).
    all: specialize (Hout s1 Hp); unfold rank, outsideRank; rewrite Ha; cbn; rewrite Hw.
    all: destruct e' as [e'|]; cbn; destruct (outside r); destruct (phase s1); try done; destruct e; cbn in *; lia.
Qed.

Lemma runSteps_rank allow evs r r' :
  run_ok r -> ctxDone (ses r) = true -> runSteps allow evs r = Some r' ->
  ctxDone (ses r') = true /\ (length (List.filter on evs) + rank r' <= rank r)%nat.
Proof.
  unfold runSteps. revert r. induction evs as [|ev evs IH]; intros r Hok Hc; cbn; [intros [= <-]; split; [done|lia]|].
  destruct (runStep allow ev r) as [r1|] eqn:Hst; [|clear; intros H; exfalso; induction evs; done].
  destruct (runStep_rank _ _ _ _ Hok Hst Hc) as [Hc1 Hr1]. intros Hsteps.
  destruct (IH r1 (runStep_ok _ _ _ _ Hok Hst) Hc1 Hsteps) as [Hc2 Hr2]. split; [done|].
  destruct (on ev); cbn; lia.
Qed.

Lemma rank_bound r : (rank r <= 13)%nat.
Proof.
  assert (forall e, endRank e <= 2)%nat as He by (intros []; cbn; lia).
  unfold rank, outsideRank. destruct (atReader r) as [|e|e|], (atUdp r) as [| | |e'|], (outside r) as [e''|], (phase (ses r)), (writeLoop (ses r));
    cbn; try pose proof (He e); try pose proof (He e'); try pose proof (He e''); lia.
Qed.

(** One of the goroutines can move, by itself: the one inside [End], whose wait has a timer; while
    [End] has not begun, the reader of the closed transport; and after it, each one. *)
Lemma run_moves allow r :
  run_ok r -> ctxDone (ses r) = true ->
  returned r \/ exists ev r', own ev r /\ on ev = true /\ runStep allow ev r = Some r'.
Proof.
  intros [Hs Hl Hrun Hin Hb Hrd _ _] Hc. destruct r as [s a u o]. unfold inside in Hin.
  cbn [ses atReader atUdp outside] in *.
  assert (forall ev r', own ev (mkRun s a u o) -> on ev = true -> runStep allow ev (mkRun s a u o) = Some r' ->
    returned (mkRun s a u o) \/ exists ev r', own ev (mkRun s a u o) /\ on ev = true /\ runStep allow ev (mkRun s a u o) = Some r') as Hmove
    by (intros ev r' H1 H2 H3; right; by exists ev, r').
  destruct (phase s) eqn:Hp; [done| | |].
  - assert (xportClosed s = true) as Hx by (apply (lo_failed s Hl); auto).
    destruct a as [|[|]|e|]; [| |cbn in Hin; lia|discriminate (Hrd I)|discriminate (Hrd I)].
    + eapply (Hmove (readFrame None)); done.
    + eapply (Hmove (endMoves byReader false)); [done|done|]. cbn. rewrite Hp. done.
  - assert (forall who, runStep allow (endMoves who true) (mkRun s a u o) <> None ->
      returned (mkRun s a u o) \/ exists ev r', own ev (mkRun s a u o) /\ on ev = true /\ runStep allow ev (mkRun s a u o) = Some r') as Hend.
    { intros who Hne. destruct (runStep allow (endMoves who true) _) eqn:Hst; [|done]. by eapply Hmove; [| |exact Hst]. }
    assert (EndReady true s = true) as Hready by (unfold EndReady; apply orb_true_r).
    destruct (waiting (readerEnding a)) eqn:Ha; [destruct (waiting (udpEnding u)) eqn:Hu|].
    + apply (Hend byOutside). destruct o as [[|]|]; cbn in Hin; try lia. cbn -[EndReady]. by rewrite Hready.
    + apply (Hend byUdp). destruct u as [| | |[|]|]; try done. cbn -[EndReady]. by rewrite Hready.
    + apply (Hend byReader). destruct a as [|[|]|[|]|]; try done; cbn -[EndReady]; by rewrite Hready.
  - destruct (lo_closed s Hl Hp) as (Hx & Hu & _).
    destruct a as [|[|]|[|]|]; try (cbn in Hin; lia).
    { by eapply (Hmove (readFrame None)). }
    { eapply (Hmove (endMoves byReader false)); [done|done|]. cbn. rewrite Hp. done. }
    { eapply (Hmove (endMoves byReader false)); [done|done|]. cbn. rewrite Hp. done. }
    destruct u as [| |frame|[|]|]; try (cbn in Hin; lia).
    { by eapply (Hmove checkContext). }
    { by eapply (Hmove (readFrom failedRead)). }
    { eapply (Hmove (sendSelect false)); [done|done|]. cbn. unfold sendFrameSelect. rewrite Hc. by destruct (enqueue frame s). }
    { eapply (Hmove (endMoves byUdp false)); [done|done|]. cbn. rewrite Hp. done. }
    destruct o as [[|]|]; try (cbn in Hin; lia).
    { eapply (Hmove (endMoves byOutside false)); [done|done|]. cbn. rewrite Hp. done. }
    destruct (writeLoop s) eqn:Hw.
    + apply (so_run s Hs) in Hw. congruence.
    + eapply (Hmove (wrote sawDone)); [by left|done|]. cbn. unfold writeLoopStep. rewrite Hw, Hc. done.
    + eapply (Hmove (wrote deadlinePassed)); [by right|done|]. cbn. unfold writeLoopStep. rewrite Hw. done.
    + left. by split_and!; try by eexists.
Qed.

(** A goroutine that has left its loop cancels the context, if it is not yet, by its next move. *)
Lemma leaves_cancels allow r :
  run_ok r -> looping r = false -> ctxDone (ses r) = false ->
  exists who r', runStep allow (endMoves who false) r = Some r' /\ ctxDone (ses r') = true.
Proof.
  intros [Hs Hl Hrun Hin Hb Hrd Hud _] Hlo Hc. destruct r as [s a u o]. unfold inside in Hin. cbn [ses atReader atUdp outside] in *.
  assert (phase s = Live) as Hp.
  { destruct (phase s) eqn:Hp; try done; rewrite (lo_cancelled s Hl) in Hc by auto; done. }
  rewrite Hp in *. assert (writeLoop s = selecting) as Hw.
  { destruct (lo_writer s Hl Hc) as [Hw|]; [|done]. apply (so_run s Hs) in Hw. congruence. }
  destruct a as [|[|]|e|]; [|exists byReader; cbn; rewrite Hp; by eexists|cbn in Hin; lia|discriminate (Hrd I)|discriminate (Hrd I)].
  unfold looping in Hlo. cbn in Hlo. rewrite Hw in Hlo.
  destruct o as [[|]|]; [exists byOutside; cbn; rewrite Hp; by eexists|cbn in Hin; lia|].
  destruct u as [| | |[|]|]; try done; [exists byUdp; cbn; rewrite Hp; by eexists|].
  rewrite Hud in Hc; done.
Qed.

(** C12.  A session that ends, ends all of it.  Take a session of any reachable trunk that starts to
    run, and any interleaving of its goroutines with one another, with [End] called from outside and
    with frames that the application sends.  A goroutine that leaves its loop, for whatever reason,
    has cancelled the context or does so by its next move.  From then on, whatever happens, at most
    13 moves remain, besides frames and pings that still get through; until all three goroutines and
    every call of [End] have returned, one more of those moves can be made without the client, the
    servers or the network doing anything; and when they have returned the session has ended, once:
    its transport and its socket are closed and its address is given back. *)
Theorem run_returns t p s allow evs0 r :
  treachable t -> heap t !! p = Some s -> phase s <> Binding -> runStarted s = false ->
  runSteps allow evs0 (runStart s) = Some r ->
  (looping r = false -> ctxDone (ses r) = false ->
   exists who r', runStep allow (endMoves who false) r = Some r' /\ ctxDone (ses r') = true) /\
  (ctxDone (ses r) = true -> forall evs r', runSteps allow evs r = Some r' ->
   (length (List.filter on evs) <= 13)%nat /\
   (returned r' \/ exists ev r'', own ev r' /\ on ev = true /\ runStep allow ev r' = Some r'') /\
   (returned r' -> phase (ses r') = Ended /\ xportClosed (ses r') = true /\ udpClosed (ses r') = true
                   /\ virtualIP (ses r') = zeroIP)).
Proof.
  intros Ht Hp Hb Hr Hr0. pose proof (runSteps_ok _ _ _ _ (runStart_ok t p s Ht Hp Hb Hr) Hr0) as Hok.
  split; [intros Hl Hc; by apply leaves_cancels|]. intros Hc evs r' Hsteps.
  destruct (runSteps_rank _ _ _ _ Hok Hc Hsteps) as [Hc' Hrank]. pose proof (rank_bound r).
  pose proof (runSteps_ok _ _ _ _ Hok Hsteps) as Hok'. split_and!; [lia|by apply run_moves|].
  intros (Ha & _). assert (phase (ses r') = Ended) as He by (apply (ro_reader r' Hok'); by rewrite Ha).
  split; [done|]. by apply (lo_closed _ (ro_life r' Hok')).
Qed.

(** The session of Trunk.v's example runs: a datagram goes to the client, then the client is gone. *)
Definition life2Session : Session := Eval vm_compute in
  match heap life2 !! 1 with Some s => s | None => mkSession "" zeroIP "" 0 0 0 [] false false false Binding false notStarted [] [] [] [] end.
Definition clientLeaves : list runEvent :=
  [checkContext; readFrom (datagram (udpAddr 26000) (blist "hello")); sendSelect true; wrote (tookPacket false);
   checkContext; readFrame None; endMoves byReader false].
Definition allReturn : list runEvent :=
  [wrote sawDone; wrote queueEmpty; endMoves byReader false; readFrom failedRead; endMoves byReader false; endMoves byUdp false].
Lemma run_returns_witness :
  exists r r', runSteps None clientLeaves (runStart life2Session) = Some r /\
    runSteps None allReturn r = Some r' /\ sent (ses r') = [buildFrame 26000 (blist "hello")] /\ phase (ses r') = Ended.
Proof.
  destruct (runSteps None clientLeaves (runStart life2Session)) as [r|] eqn:Hr; [|vm_compute in Hr; discriminate].
  destruct (runSteps None allReturn r) as [r'|] eqn:Hr'; [|vm_compute in Hr; injection Hr as <-; vm_compute in Hr'; discriminate].
  exists r, r'. split; [reflexivity|]. split; [exact Hr'|].
  assert (treachable life2) as Ht by (exists (Some server1), None; exact life_live).
  destruct (run_returns life2 1 life2Session None clientLeaves r Ht) as [_ H]; [vm_compute; reflexivity|discriminate|reflexivity|exact Hr|].
  destruct (H ltac:(vm_compute in Hr; injection Hr as <-; reflexivity) allReturn r' Hr') as (_ & _ & Hend).
  vm_compute in Hr. injection Hr as <-. vm_compute in Hr'. injection Hr' as <-. split; [reflexivity|].
  apply Hend. split; [reflexivity|split; [reflexivity|split; [reflexivity|by exists drained]]].
Defined.
