(* ===== verification/Transport.v ===== *)
(** The transports of the tunnel: trunk/websocket/websocket.go and
    trunk/webtransport/webtransport.go, behind the interface of trunk/session.go, and the read and
    write loops of trunk/relay.go over it.

    The connections belong to third-party packages (gorilla's websocket, quic-go's webtransport):
    their operations are variables, each giving what it returns and the connection after. *)
From S2P Require Import Prelude GoStrings Trunk.

(** * Errors

    A Go error is one of its own kind, or wraps others; [errors.As] looks through them all. *)
Inductive goError :=
  | plainError (text : string)
  | datagramTooLarge
  | wrapping (text : string) (inner : list goError).

(** errors.As, for *quic.DatagramTooLargeError *)
Fixpoint asTooLarge (e : goError) : bool :=
  match e with
  | plainError _ => false
  | datagramTooLarge => true
  | wrapping _ inner => existsb asTooLarge inner
  end.

(** * The interface (session.go [Transport])

    A read that has not returned is [None]. *)
Class Transport (X : Type) := {
  Name : X -> string;
  ReadFrame : X -> option (result goError bytes * X);
  WriteFrame : bytes -> X -> option goError * X;
  Ping : X -> option goError * X;
  Close : X -> X;
}.

Definition TransportWebSocket : string := "WebSocket".
Definition TransportWebTransport : string := "WebTransport".

(** * The loops over a transport (relay.go)

    The frames that [readLoop] handles before the read that fails, with its error; *)
Fixpoint readFrames `{Transport X} (fuel : nat) (x : X) : option (list bytes * goError * X) :=
  match fuel with
  | O => None
  | S fuel =>
      match ReadFrame x with
      | None => None
      | Some (Err err, x) => Some ([], err, x)
      | Some (Ok data, x) =>
          let? (datas, err, x) := readFrames fuel x in Some (data :: datas, err, x)
      end
  end.
(** and the session when nothing else happens to it in between. *)
Definition readLoop (allow : option (Z -> bool)) (datas : list bytes) (s : Session) : Session :=
  foldl (fun s data => handleFrame allow data s) s datas.

(** One packet through [writeLoop] or [drainTx]: an empty one is not written. *)
Definition writePacket `{Transport X} (xs : X * Session) : option (X * Session) :=
  match tx (snd xs) with
  | [] => None
  | packet :: _ =>
      let '(err, x) := if bool_decide (packet = []) then (None, fst xs) else WriteFrame packet (fst xs) in
      pair x <$> writeLoopStep (tookPacket (match err with Some _ => true | None => false end)) (snd xs)
  end.
(** As many packets as [n], unless it returns before. *)
Fixpoint writePackets `{Transport X} (n : nat) (xs : X * Session) : option (X * Session) :=
  match n with
  | O => Some xs
  | S n => let? xs := writePacket xs in
           match writeLoop (snd xs) with exited _ => Some xs | _ => writePackets n xs end
  end.

(** * WebSocket *)

Inductive messageType := TextMessage | BinaryMessage.

Definition wsWriteTimeout : Z := 5000000000.
Definition wsReadLimit : Z := 65536.

(** gorilla's Conn: [ReadMessage] may be waiting; a deadline of [None] is the zero time. *)
Class wsConn (Conn : Type) := {
  SetReadLimit : Z -> Conn -> Conn;
  ReadMessage : Conn -> option (result goError (messageType * bytes) * Conn);
  SetWriteDeadline : option Z -> Conn -> Conn;
  WriteMessage : messageType -> bytes -> Conn -> option goError * Conn;
  WritePing : Z -> Conn -> option goError * Conn;
  CloseConn : Conn -> Conn;
}.

Section WebSocket.
Context {Conn : Type} `{wsConn Conn}.
(** The clock, as the connection sees it. *)
Variable now : Conn -> Z.

(** websocket.go [New] *)
Definition wsNew (c : Conn) : Conn := SetReadLimit wsReadLimit c.

(** websocket.go [ReadFrame]: the messages skipped before the one it returns are at most [fuel]. *)
Fixpoint wsReadFrame (fuel : nat) (c : Conn) : option (result goError bytes * Conn) :=
  match fuel with
  | O => None
  | S fuel =>
      match ReadMessage c with
      | None => None
      | Some (Err err, c) => Some (Err err, c)
      | Some (Ok (BinaryMessage, data), c) => Some (Ok data, c)
      | Some (Ok (TextMessage, _), c) => wsReadFrame fuel c
      end
  end.

(** websocket.go [WriteFrame] *)
Definition wsWriteFrame (data : bytes) (c : Conn) : option goError * Conn :=
  let c := SetWriteDeadline (Some (now c + wsWriteTimeout)) c in
  let '(err, c) := WriteMessage BinaryMessage data c in
  (err, SetWriteDeadline None c).

(** websocket.go [Ping] *)
Definition wsPing (c : Conn) : option goError * Conn := WritePing (now c + wsWriteTimeout) c.

Variable fuel : nat.
Definition wsAdapter : Transport Conn := {|
  Name := fun _ => TransportWebSocket;
  ReadFrame := wsReadFrame fuel;
  WriteFrame := wsWriteFrame;
  Ping := wsPing;
  Close := CloseConn;
|}.
End WebSocket.
#[export] Existing Instance wsAdapter.

(** * WebTransport *)

(** quic-go's Session *)
Class wtSession (Sess : Type) := {
  ReceiveDatagram : Sess -> option (result goError bytes * Sess);
  SendDatagram : bytes -> Sess -> option goError * Sess;
  CloseWithError : Sess -> Sess;
}.

(** webtransport.go [adapter], with the lines it logged at debug *)
Record adapterState (Sess : Type) := mkAdapter { session : Sess; tooLarge : Z; debugLog : list string }.
#[global] Arguments mkAdapter {Sess}.
#[global] Arguments session {Sess}.
#[global] Arguments tooLarge {Sess}.
#[global] Arguments debugLog {Sess}.

(** webtransport.go [classifyWriteError]; [tooLarge] is a uint64. *)
Definition dropMessage (size tooLarge : Z) : string :=
  ("webtransport: dropped " ++ Itoa size ++ "B datagram exceeding QUIC limit (" ++ Itoa tooLarge ++ " dropped total)")%string.
Definition classifyWriteError (err : option goError) (size tooLarge : Z) : option goError * Z * list string :=
  match err with
  | None => (None, tooLarge, [])
  | Some e =>
      if negb (asTooLarge e) then (Some e, tooLarge, []) else
      let tooLarge := (tooLarge + 1) mod 2 ^ 64 in
      (None, tooLarge, if (tooLarge =? 1) || (tooLarge mod 256 =? 0) then [dropMessage size tooLarge] else [])
  end.

Section WebTransport.
Context {Sess : Type} `{wtSession Sess}.

(** webtransport.go [New] *)
Definition wtNew (s : Sess) : adapterState Sess := mkAdapter s 0 [].

(** webtransport.go [ReadFrame], [WriteFrame], [Ping], [Close] *)
Definition wtReadFrame (a : adapterState Sess) : option (result goError bytes * adapterState Sess) :=
  let? (res, s) := ReceiveDatagram (session a) in Some (res, mkAdapter s (tooLarge a) (debugLog a)).
Definition wtWriteFrame (data : bytes) (a : adapterState Sess) : option goError * adapterState Sess :=
  let '(err, s) := SendDatagram data (session a) in
  let '(err, n, lines) := classifyWriteError err (Z.of_nat (length data)) (tooLarge a) in
  (err, mkAdapter s n (debugLog a ++ lines)).

Definition wtAdapter : Transport (adapterState Sess) := {|
  Name := fun _ => TransportWebTransport;
  ReadFrame := wtReadFrame;
  WriteFrame := wtWriteFrame;
  Ping := fun a => (None, a);
  Close := fun a => mkAdapter (CloseWithError (session a)) (tooLarge a) (debugLog a);
|}.

(** Sending a list of datagrams: the errors that remain. *)
Fixpoint sendAll (datas : list bytes) (a : adapterState Sess) : list goError * adapterState Sess :=
  match datas with
  | [] => ([], a)
  | data :: datas =>
      let '(err, a) := wtWriteFrame data a in
      let '(errs, a) := sendAll datas a in
      (match err with Some e => e :: errs | None => errs end, a)
  end.
End WebTransport.
#[export] Existing Instance wtAdapter.

(** * Facts: the loops *)

Definition nonempty (l : list bytes) : list bytes := List.filter (fun p => negb (bool_decide (p = []))) l.

(** While the transport takes what it is given, the loop sends all that is queued, in order, and
    goes on. *)
Lemma writePackets_delivers `{Transport X} (I : X -> Prop) x s :
  (forall data x, I x -> fst (WriteFrame data x) = None /\ I (snd (WriteFrame data x))) ->
  I x -> writeLoop s = selecting \/ writeLoop s = draining ->
  exists x', I x' /\ writePackets (length (tx s)) (x, s)
                     = Some (x', s <| tx := [] |> <| sent ::= fun l => l ++ nonempty (tx s) |>).
Proof.
  intros Hw. remember (tx s) as q eqn:Hq. revert x s Hq. induction q as [|p q IH]; intros x s Hq Hx Hs; cbn [length writePackets].
  - exists x. split; [done|]. destruct s. cbn in *. subst. unfold field_update. cbn. by rewrite app_nil_r.
  - unfold writePacket, writeLoopStep. cbn [fst snd]. rewrite <- Hq. destruct (bool_decide_reflect (p = [])) as [->|Hp].
    + edestruct (IH x (s <| tx := q |>)) as (x' & Hx' & He); [reflexivity|done|done|]. exists x'. split; [done|].
      destruct Hs as [Hs|Hs]; rewrite Hs; cbn in *; rewrite Hs, He; reflexivity.
    + destruct (Hw p x Hx) as [Hn Hi]. destruct (WriteFrame p x) as [err x1]. cbn in Hn, Hi. subst err.
      edestruct (IH x1 (s <| tx := q |> <| sent ::= fun l => l ++ [p] |>)) as (x' & Hx' & He); [reflexivity|done|done|].
      exists x'. split; [done|].
      destruct Hs as [Hs|Hs]; rewrite Hs; cbn in *; rewrite Hs, He, (bool_decide_eq_false_2 _ Hp); cbn;
        unfold field_update; cbn; rewrite <- app_assoc; reflexivity.
Qed.

(** * Facts: WebSocket *)

Section WebSocketFacts.
Context {Conn : Type} `{wsConn Conn}.
Variable now : Conn -> Z.

(** The connection gives these messages and then fails. *)
Fixpoint gives (msgs : list (messageType * bytes)) (err : goError) (c : Conn) : Prop :=
  match msgs with
  | [] => exists c', ReadMessage c = Some (Err err, c')
  | m :: msgs => exists c', ReadMessage c = Some (Ok m, c') /\ gives msgs err c'
  end.
Definition isBinary (m : messageType * bytes) : bool := match fst m with BinaryMessage => true | TextMessage => false end.

Lemma wsReadFrame_gives fuel msgs err c :
  gives msgs err c -> (length msgs < fuel)%nat ->
  (List.filter isBinary msgs = [] /\ exists c', wsReadFrame fuel c = Some (Err err, c'))
  \/ exists data rest c', wsReadFrame fuel c = Some (Ok data, c') /\ gives rest err c'
       /\ map snd (List.filter isBinary msgs) = data :: map snd (List.filter isBinary rest)
       /\ (length rest < length msgs)%nat.
Proof.
  revert msgs c. induction fuel as [|fuel IH]; intros msgs c Hg Hl; [lia|]. destruct msgs as [|[[] data] msgs].
  - destruct Hg as [c' Hr]. left. split; [done|]. cbn. rewrite Hr. eauto.
  - destruct Hg as (c' & Hr & Hg). cbn [wsReadFrame]. rewrite Hr. cbn in Hl.
    destruct (IH msgs c' Hg) as [?|(d & rest & c2 & ? & ? & ? & ?)]; [lia|by left|].
    right. exists d, rest, c2. cbn. split_and!; try done. lia.
  - destruct Hg as (c' & Hr & Hg). right. exists data, msgs, c'. cbn. rewrite Hr. split_and!; try done. lia.
Qed.

(** The session's read loop gets exactly the binary messages, in order, and ends with the error
    of the connection: other messages are neither frames nor the end. *)
Theorem websocket_reads msgs err c fuel :
  gives msgs err c -> (length msgs < fuel)%nat ->
  exists c', readFrames (H := wsAdapter now fuel) fuel c = Some (map snd (List.filter isBinary msgs), err, c').
Proof.
  intros Hg Hl. assert (forall n msgs c, gives msgs err c -> (length msgs < fuel)%nat -> (length msgs < n)%nat ->
    exists c', readFrames (H := wsAdapter now fuel) n c = Some (map snd (List.filter isBinary msgs), err, c')) as Hn;
    [|by apply Hn].
  clear. intros n. induction n as [|n IH]; intros msgs c Hg Hf Hl; [lia|]. cbn [readFrames ReadFrame wsAdapter].
  destruct (wsReadFrame_gives fuel msgs err c Hg Hf) as [[-> [c' ->]]|(d & rest & c2 & -> & Hr & -> & Hs)]; [by exists c'|].
  destruct (IH rest c2 Hr) as [c' ->]; [lia..|]. by exists c'.
Qed.
End WebSocketFacts.

(** * Facts: WebTransport *)

Section WebTransportFacts.
Context {Sess : Type} `{wtSession Sess}.

(** What the session answers to these datagrams, in order. *)
Fixpoint sendAnswers (datas : list bytes) (s : Sess) : list (option goError) :=
  match datas with
  | [] => []
  | data :: datas => let '(err, s) := SendDatagram data s in err :: sendAnswers datas s
  end.
Definition isTooLarge (err : option goError) : bool := match err with Some e => asTooLarge e | None => false end.
Definition isFatal (err : option goError) : bool := match err with Some e => negb (asTooLarge e) | None => false end.
(** The lines logged for the first [n] drops. *)
Definition loggedDrops (n : Z) : Z := (if n =? 0 then 0 else 1) + n / 256.

Lemma loggedDrops_next n :
  0 <= n -> loggedDrops (n + 1) = loggedDrops n + (if (n + 1 =? 1) || ((n + 1) mod 256 =? 0) then 1 else 0).
Proof.
  intros Hn. unfold loggedDrops. pose proof (Z.div_mod (n + 1) 256). pose proof (Z.div_mod n 256).
  pose proof (Z.mod_pos_bound (n + 1) 256). pose proof (Z.mod_pos_bound n 256).
  destruct (Z.eqb_spec (n + 1) 0), (Z.eqb_spec n 0), (Z.eqb_spec (n + 1) 1), (Z.eqb_spec ((n + 1) mod 256) 0); cbn; nia.
Qed.

Lemma sendAll_counts datas a :
  0 <= tooLarge a -> tooLarge a + Z.of_nat (length datas) < 2 ^ 64 ->
  let answers := sendAnswers datas (session a) in
  let '(errs, a') := sendAll datas a in
  map Some errs = List.filter isFatal answers
  /\ tooLarge a' = tooLarge a + Z.of_nat (length (List.filter isTooLarge answers))
  /\ Z.of_nat (length (debugLog a')) = Z.of_nat (length (debugLog a)) + loggedDrops (tooLarge a') - loggedDrops (tooLarge a).
Proof.
  cbv zeta. revert a. induction datas as [|data datas IH]; intros a Ha Hl; [cbn; split_and!; [done|lia|lia]|].
  cbn [sendAll sendAnswers length] in *. unfold wtWriteFrame. destruct (SendDatagram data (session a)) as [err s] eqn:Hs.
  destruct err as [e|]; cbn [classifyWriteError isTooLarge isFatal List.filter].
  2: { specialize (IH (mkAdapter s (tooLarge a) (debugLog a ++ []))). cbn [tooLarge session debugLog] in IH.
       destruct (sendAll datas _) as [errs a']. destruct IH as (-> & -> & Hd); [lia..|].
       rewrite app_nil_r in Hd. split_and!; [done|done|lia]. }
  destruct (asTooLarge e) eqn:He; cbn [negb List.filter isTooLarge isFatal].
  - rewrite Z.mod_small by lia.
    set (lines := if _ || _ then _ else _).
    assert (Z.of_nat (length lines) = loggedDrops (tooLarge a + 1) - loggedDrops (tooLarge a)) as Hlines.
    { rewrite (loggedDrops_next (tooLarge a) Ha). unfold lines. destruct (_ || _); cbn; lia. }
    specialize (IH (mkAdapter s (tooLarge a + 1) (debugLog a ++ lines))). cbn [tooLarge session debugLog] in IH.
    destruct (sendAll datas _) as [errs a']. destruct IH as (-> & Hn & Hd); [lia..|].
    rewrite length_app in Hd. split_and!; [done|cbn [length]; lia|lia].
  - specialize (IH (mkAdapter s (tooLarge a) (debugLog a ++ []))). cbn [tooLarge session debugLog] in IH.
    destruct (sendAll datas _) as [errs a']. destruct IH as (Hm & -> & Hd); [lia..|].
    rewrite app_nil_r in Hd. cbn [map]. rewrite Hm. split_and!; [done|done|lia].
Qed.

(** Over any datagrams, fewer than 2^64 of them: the errors that reach the session are exactly
    those that are not about the size, in order; the others are counted; and of k drops the log
    has the first and every 256th, 1 + k/256 lines. *)
Theorem sendAll_reports datas s :
  Z.of_nat (length datas) < 2 ^ 64 ->
  let answers := sendAnswers datas s in
  let k := Z.of_nat (length (List.filter isTooLarge answers)) in
  let '(errs, a) := sendAll datas (wtNew s) in
  map Some errs = List.filter isFatal answers /\ tooLarge a = k
  /\ Z.of_nat (length (debugLog a)) = (if k =? 0 then 0 else 1 + k / 256).
Proof.
  intros Hl. cbv zeta. pose proof (sendAll_counts datas (wtNew s)) as Hc. destruct (sendAll datas (wtNew s)) as [errs a].
  destruct Hc as (He & Hn & Hd); [done|done|]. change (tooLarge (wtNew s)) with 0 in *. split_and!; [done|done|].
  rewrite Hd, Hn. change (loggedDrops 0) with 0. change (length (debugLog (wtNew s))) with 0%nat. unfold loggedDrops.
  change (session (wtNew s)) with s. rewrite !Z.add_0_l.
  destruct (Z.eqb_spec (Z.of_nat (length (List.filter isTooLarge (sendAnswers datas s)))) 0) as [->|]; [done|lia].
Qed.

(** C11.  An oversized datagram never costs the session: while a connection refuses datagrams for
    their size only, the write loop, before or after the session's end has begun, goes through
    all that is queued; nothing counts as lost, the session is not cancelled and the transport
    not closed. *)
Theorem webtransport_writes a s :
  (forall data c e, fst (SendDatagram data c) = Some e -> asTooLarge e = true) ->
  writeLoop s = selecting \/ writeLoop s = draining ->
  exists a' s', writePackets (length (tx s)) (a, s) = Some (a', s')
    /\ tx s' = [] /\ sent s' = sent s ++ nonempty (tx s) /\ lost s' = lost s
    /\ ctxDone s' = ctxDone s /\ xportClosed s' = xportClosed s /\ writeLoop s' = writeLoop s.
Proof.
  intros Hsz Hs. destruct (writePackets_delivers (fun _ => True) a s) as (a' & _ & He); [|done|done|].
  - intros data x _. split; [|done]. cbn [WriteFrame wtAdapter]. unfold wtWriteFrame.
    pose proof (Hsz data (session x)) as Hd. destruct (SendDatagram data (session x)) as [[e|] c]; cbn; [|done].
    by rewrite (Hd e eq_refl).
  - exists a'. eexists. split; [exact He|]. by destruct s.
Qed.
End WebTransportFacts.

(** * Examples *)

(** A connection that gives the messages of a list and then fails, and takes every write. *)
#[local] Instance listConn : wsConn (list (messageType * bytes)) := {
  SetReadLimit := fun _ c => c;
  ReadMessage := fun c => match c with
                          | [] => Some (Err (plainError "closed"), [])
                          | m :: c => Some (Ok m, c)
                          end;
  SetWriteDeadline := fun _ c => c;
  WriteMessage := fun _ _ c => (None, c);
  WritePing := fun _ c => (None, c);
  CloseConn := fun c => c;
}.
(** A session that refuses what is longer than its limit, the error wrapped. *)
#[local] Instance limitSession : wtSession nat := {
  ReceiveDatagram := fun _ => None;
  SendDatagram := fun data limit =>
    (if (limit <? length data)%nat then Some (wrapping "send" [plainError "x"; datagramTooLarge]) else None, limit);
  CloseWithError := fun s => s;
}.
Definition oneQueue : Session :=
  mkSession "WebTransport" (byte_of 127, byte_of 0, byte_of 0, byte_of 2) "" 0 0 0 [repeat "a"%char 3; repeat "b"%char 9; []; repeat "c"%char 2] false false false
    Live true selecting [] [] [] [].

Lemma websocket_reads_witness :
  exists c', readFrames (H := wsAdapter (fun _ => 0) 5) 5
    [(TextMessage, ["x"%char]); (BinaryMessage, ["y"%char]); (TextMessage, []); (BinaryMessage, [])]
    = Some ([["y"%char]; []], plainError "closed", c').
Proof.
  apply (websocket_reads (fun _ => 0) [(TextMessage, ["x"%char]); (BinaryMessage, ["y"%char]); (TextMessage, []); (BinaryMessage, [])]
           (plainError "closed")); [|cbn; lia]. cbn. repeat (eexists; split; [reflexivity|]). eexists. reflexivity.
Defined.

Lemma sendAll_reports_witness :
  let '(errs, a) := sendAll (repeat (repeat "b"%char 9) 300) (wtNew 4%nat) in tooLarge a = 300 /\ length (debugLog a) = 2%nat.
Proof.
  pose proof (sendAll_reports (repeat (repeat "b"%char 9) 300) 4%nat ltac:(vm_compute; reflexivity)) as Hr. cbv zeta in Hr.
  replace (length (List.filter isTooLarge (sendAnswers (repeat (repeat "b"%char 9) 300) 4%nat))) with 300%nat in Hr by reflexivity.
  destruct (sendAll _ _) as [errs a]. destruct Hr as (_ & Hk & Hd). split; [exact Hk|].
  change (if Z.of_nat 300 =? 0 then 0 else 1 + Z.of_nat 300 / 256) with 2 in Hd. lia.
Defined.

Lemma webtransport_writes_witness :
  exists a' s', writePackets 4 (wtNew 4%nat, oneQueue) = Some (a', s')
    /\ sent s' = [repeat "a"%char 3; repeat "b"%char 9; repeat "c"%char 2] /\ lost s' = [] /\ ctxDone s' = false.
Proof.
  destruct (webtransport_writes (wtNew 4%nat) oneQueue) as (a' & s' & He & _ & Hs & Hl & Hc & _).
  - intros data c e. unfold SendDatagram, limitSession. destruct (c <? length data)%nat; cbn; [intros [= <-]; reflexivity|discriminate].
  - by left.
  - exists a', s'. split; [exact He|]. split; [exact Hs|]. split; [exact Hl|exact Hc].
Defined.

(** Over WebSocket one failed write ends the session: the frame is lost and the transport closed. *)
Example websocket_write_fails :
  let broken : wsConn unit := {| SetReadLimit := fun _ c => c; ReadMessage := fun _ => None; SetWriteDeadline := fun _ c => c;
      WriteMessage := fun _ _ c => (Some datagramTooLarge, c); WritePing := fun _ c => (None, c); CloseConn := fun c => c |} in
  let '(lost', done, closed) :=
    match writePackets (H := wsAdapter (H := broken) (fun _ => 0) 1) 4 (tt, oneQueue) with
    | Some (_, s) => (lost s, ctxDone s, xportClosed s)
    | None => ([], false, false)
    end in
  lost' = [repeat "a"%char 3] /\ done = true /\ closed = true.
Proof. by vm_compute. Qed.
