(* ===== verification/Access.v ===== *)
(** Who may come in and who is an administrator: internal/access (auth.go, gate.go, identity.go).

    A request is what the code reads of it: its headers, its remote address and its session
    cookie.  The OIDC library is a parameter: [verify] is what it says of a raw token.  The
    environment is a function. *)
From S2P Require Import Prelude GoStrings Netip.

(** * Requests and claims *)

(** A value of a JSON object, as far as the code looks into it. *)
Inductive claim := claimString (s : string) | claimList (items : list claim) | claimOther.
Definition claims : Type := gmap string claim.

Record httpRequest := mkHTTP {
  HeaderGet : string -> string;
  RemoteAddr : string;
  sessionCookie : option string;
}.

Definition comma : byte := ","%char.

(** strings.Trim *)
Definition Trim (s cut : string) : string := TrimRight (TrimLeft s cut) cut.

(** * Identity (identity.go) *)

(** identity.go [Client] *)
Record Client := mkClient { ID : string; SourceIP : string }.
Definition noClient : Client := mkClient "" "".

Section Identity.
Context `{GoUnicode} `{GoNetip}.

(** identity.go [clientID] *)
Definition clientID (identity sourceIP : string) : string :=
  let trimmed := TrimSpace identity in
  if negb (trimmed =? "")%string && negb (EqualFold trimmed "anonymous") then trimmed else
  let ip := TrimSpace sourceIP in
  if negb (ip =? "")%string then ip else "anonymous".

(** identity.go [identityFromClaims]; a nil map is [None]. *)
Definition identityFromClaims (c : option claims) : string :=
  match c with
  | None => ""
  | Some c =>
      let named := omap (fun key =>
        match c !! key with
        | Some (claimString val) => if (val =? "")%string then None else Some val
        | _ => None
        end) ["email"; "preferred_username"; "name"; "sub"]%string in
      List.hd "oidc-user"%string named
  end.

(** identity.go [parseClientIP] *)
Definition parseClientIP (raw : string) : option Addr :=
  let value := TrimSpace raw in
  if (value =? "")%string then None else
  let value := match cut_byte comma (blist value) with
               | Some (first, _) => TrimSpace (btext first)
               | None => value
               end in
  let value := match Cut value "="%char with
               | (k, v, true) => if EqualFold (TrimSpace k) "for" then TrimSpace v else value
               | _ => value
               end in
  let value := Trim (TrimSpace value) (btext [byte_of 34]) in
  let value := match SplitHostPort value with Some (host, _) => host | None => value end in
  ParseAddr (Trim value "[]").

(** identity.go [Identity], [NewIdentity] *)
Record Identity := mkIdentity { clientIPHeader : string }.
Definition NewIdentity (getenv : string -> string) : Identity :=
  mkIdentity (TrimSpace (getenv "AUTH_CLIENT_IP_HEADER"%string)).

(** identity.go [ClientSourceIP] *)
Definition ClientSourceIP (i : option Identity) (r : httpRequest) : string :=
  let fromHeader := match i with
                    | Some i => if negb (clientIPHeader i =? "")%string
                                then parseClientIP (HeaderGet r (clientIPHeader i)) else None
                    | None => None
                    end in
  match fromHeader with
  | Some ip => addrString ip
  | None => match parseClientIP (RemoteAddr r) with
            | Some ip => addrString ip
            | None => ""
            end
  end.

(** identity.go [ResolveClient] *)
Definition ResolveClient (i : option Identity) (r : httpRequest) (c : option claims) : Client :=
  let sourceIP := ClientSourceIP i r in
  mkClient (clientID (identityFromClaims c) sourceIP) sourceIP.
End Identity.

(** * Tokens and the admin policy (auth.go) *)

(** auth.go [SessionCookieName], [SessionCookieMaxLen] *)
Definition SessionCookieMaxLen : Z := 3800.

(** auth.go [JWTVerifier], without its library handles *)
Record JWTVerifier := mkJWT {
  headerName : string;
  issuer : string;
  jwtClientID : string;
  tokenURL : string;
  directExposure : bool;
}.

(** auth.go [adminMode], [Auth] *)
Inductive adminMode := adminDeny | adminAny | adminMatch.
#[export] Instance adminMode_eq : EqDecision adminMode.
Proof. solve_decision. Defined.
Record Auth := mkAuth {
  rconPassword : string;
  authMode : adminMode;
  adminRules : gmap string (list string);
}.

Section Auth.
Context `{GoUnicode}.
Variable verify : string -> option claims.

(** auth.go [InitJWT]; [provider] is what discovery at the issuer answers: the token endpoint. *)
Definition InitJWT (getenv : string -> string) (provider : string -> result string string)
    : result string (option JWTVerifier) :=
  let issuer := TrimSpace (getenv "AUTH_ISSUER"%string) in
  let audience := TrimSpace (getenv "AUTH_AUDIENCE"%string) in
  if (issuer =? "")%string || (audience =? "")%string then Ok None else
  let headerName := TrimSpace (getenv "AUTH_JWT_HEADER"%string) in
  let headerName := if (headerName =? "")%string then "Authorization"%string else headerName in
  let clientID := TrimSpace (getenv "AUTH_CLIENT_ID"%string) in
  let clientID := if (clientID =? "")%string then audience else clientID in
  let directExposure := negb (TrimSpace (getenv "EXTERNAL_URL"%string) =? "")%string in
  let* tokenURL := provider issuer in
  Ok (Some (mkJWT headerName issuer clientID tokenURL directExposure)).

(** auth.go [pkceEnabled], [BrowserConfig] *)
Definition pkceEnabled (j : option JWTVerifier) : bool :=
  match j with
  | Some j => directExposure j && EqualFold (headerName j) "Authorization"
  | None => false
  end.
Definition BrowserConfig (j : option JWTVerifier) (scopes : string)
    : option (list (string * string)) :=
  match j with
  | Some v => if pkceEnabled j
              then Some [("issuer", issuer v); ("clientId", jwtClientID v); ("scopes", scopes)]%string
              else None
  | None => None
  end.

(** auth.go [AuthorizationToken] *)
Definition AuthorizationToken (r : httpRequest) (scheme : string) : string :=
  let raw := TrimSpace (HeaderGet r "Authorization") in
  let prefix := (scheme ++ " ")%string in
  let n := length (blist prefix) in
  if (len raw <=? len prefix) || negb (EqualFold (btext (take n (blist raw))) prefix) then ""
  else TrimSpace (btext (drop n (blist raw))).

(** auth.go [Parse] *)
Definition Parse (j : option JWTVerifier) (r : httpRequest) : option claims :=
  match j with
  | None => None
  | Some j =>
      let raw := HeaderGet r (headerName j) in
      let raw :=
        if EqualFold (headerName j) "Authorization" then
          let token := AuthorizationToken r "Bearer" in
          if negb (token =? "")%string then token else
          match sessionCookie r with
          | Some value => if negb (value =? "")%string then value else raw
          | None => raw
          end
        else raw in
      if (raw =? "")%string then None else verify raw
  end.

(** auth.go [ExchangeCode]: the request that it posts, a public client's, *)
Record tokenRequest := mkTokenRequest { tqURL : string; tqForm : list (string * string); tqHeaders : list (string * string) }.
Definition tokenRequestOf (j : JWTVerifier) (code verifier redirectURI : string) : tokenRequest :=
  mkTokenRequest (tokenURL j)
    [("grant_type", "authorization_code"); ("code", code); ("code_verifier", verifier);
     ("client_id", jwtClientID j); ("redirect_uri", redirectURI)]%string
    [("Content-Type", "application/x-www-form-urlencoded"); ("Accept", "application/json")]%string.
(** what a token endpoint answers to one: an error, or a status and, when the body is JSON, its
    id_token, its error and the description of that, *)
Definition tokenEndpoint : Type := tokenRequest -> result string (Z * option (string * string * string)).
(** and the whole; what the OIDC library says of a token that it refuses is left out of the error. *)
Definition ExchangeCode (j : option JWTVerifier) (post : tokenEndpoint) (code verifier redirectURI : string)
    : result string (string * claims) :=
  match j with
  | None => Err "OIDC token endpoint not configured"%string
  | Some j =>
      if (tokenURL j =? "")%string then Err "OIDC token endpoint not configured"%string else
      let* (status, body) := post (tokenRequestOf j code verifier redirectURI) in
      if negb (status =? 200)
      then Err ("token endpoint returned HTTP " ++ Itoa status)%string else
      match body with
      | None => Err "token response was not JSON"%string
      | Some (idToken, error, _) =>
          if negb (error =? "")%string then Err ("token endpoint error: " ++ error)%string else
          if (idToken =? "")%string then Err "token response carried no id_token"%string else
          match verify idToken with
          | Some c => Ok (idToken, c)
          | None => Err "id_token verification failed"%string
          end
      end
  end.

(** auth.go [containsClaimValue] *)
Definition claimIs (target : string) (v : claim) : bool :=
  match v with claimString s => EqualFold s target | _ => false end.
Definition containsClaimValue (val : option claim) (target : string) : bool :=
  if (target =? "")%string then false else
  match val with
  | Some (claimList items) => existsb (claimIs target) items
  | Some (claimString s) => EqualFold s target
  | _ => false
  end.

(** auth.go [matchesAdminRules]; the answer does not depend on the order of the map. *)
Definition matchesAdminRules (c : claims) (rules : gmap string (list string)) : bool :=
  existsb (fun kv => existsb (containsClaimValue (c !! fst kv)) (snd kv)) (map_to_list rules).

(** auth.go [Authorize]; a nil [Auth] is [None]. *)
Definition Authorize (a : option Auth) (c : option claims) (rconToken : string) : bool :=
  match a with
  | None => false
  | Some a =>
      if negb (rconPassword a =? "")%string && negb (rconToken =? "")%string
         && (rconToken =? rconPassword a)%string then true else
      match c with
      | None => false
      | Some c =>
          match authMode a with
          | adminAny => true
          | adminMatch => matchesAdminRules c (adminRules a)
          | adminDeny => false
          end
      end
  end.

(** auth.go [AllowsJWTAdmin], [HasRconPassword] *)
Definition AllowsJWTAdmin (a : option Auth) : bool :=
  match a with Some a => negb (bool_decide (authMode a = adminDeny)) | None => false end.
Definition HasRconPassword (a : option Auth) : bool :=
  match a with Some a => negb (rconPassword a =? "")%string | None => false end.

(** auth.go [parseAdminPolicy]: the tokens, *)
Definition policyTokens (raw : string) : list string :=
  List.filter (fun t => negb (t =? "")%string) (map TrimSpace (Split raw comma)).
(** the special token, a rule, *)
Definition isAny (token : string) : bool := EqualFold token "any".
Definition policyRule (token : string) : option (string * string) :=
  let '(key, value, ok) := Cut token ":"%char in
  let key := ToLower (TrimSpace key) in
  let value := ToLower (TrimSpace value) in
  if negb ok || (key =? "")%string || (value =? "")%string then None else Some (key, value).
(** the loop, *)
Definition errAnyAlone : string :=
  ("AUTH_ADMIN_ID: " ++ btext [byte_of 34] ++ "any" ++ btext [byte_of 34]
   ++ " must be the only value (cannot combine with claim rules)")%string.
Definition errNotRule (token : string) : string :=
  ("AUTH_ADMIN_ID: rule " ++ Quote token ++ " is not in key:value form (e.g. email:you@example.com or groups:admins); use "
   ++ btext [byte_of 34] ++ "any" ++ btext [byte_of 34] ++ " to admit any verified login")%string.
Fixpoint policyLoop (n : nat) (tokens : list string) (rules : gmap string (list string))
    : result string (adminMode * gmap string (list string)) :=
  match tokens with
  | [] => Ok (adminMatch, rules)
  | token :: rest =>
      if isAny token then
        if (n =? 1)%nat then Ok (adminAny, ∅) else Err errAnyAlone
      else match policyRule token with
           | None => Err (errNotRule token)
           | Some (key, value) =>
               policyLoop n rest (<[key := default [] (rules !! key) ++ [value]]> rules)
           end
  end.
(** and the whole. *)
Definition parseAdminPolicy (raw : string) : result string (adminMode * gmap string (list string)) :=
  match policyTokens raw with
  | [] => Ok (adminDeny, ∅)
  | tokens => policyLoop (length tokens) tokens ∅
  end.

(** auth.go [InitAuth] *)
Definition InitAuth (getenv : string -> string) : result string Auth :=
  let* (mode, rules) := parseAdminPolicy (getenv "AUTH_ADMIN_ID"%string) in
  Ok (mkAuth (TrimSpace (getenv "AUTH_RCON_PASSWORD"%string)) mode rules).

(** auth.go [LoginScopes] *)
Definition LoginScopes (a : option Auth) : string :=
  let groups := match a with
                | Some a => if bool_decide (is_Some (adminRules a !! "groups"%string))
                            then ["groups"%string] else []
                | None => []
                end in
  Join (["openid"; "profile"; "email"]%string ++ groups) " ".

(** * The gate (gate.go) *)

(** gate.go [buildUnauthorizedHint] *)
Definition buildUnauthorizedHint (auth : option Auth) (jwt : option JWTVerifier) : string :=
  let password := HasRconPassword auth in
  let jwtAdmin := bool_decide (is_Some jwt) && AllowsJWTAdmin auth in
  if password && jwtAdmin then "set rcon_password <secret> or run rcon login"
  else if password then "set rcon_password <secret>"
  else if jwtAdmin then "run rcon login"
  else "admin auth not configured (set AUTH_RCON_PASSWORD, or AUTH_ISSUER/AUTH_AUDIENCE with AUTH_ADMIN_ID)".

(** gate.go [Blocklist] *)
Definition Blocklist : Type := gset string.
Definition NewBlocklist : Blocklist := ∅.
Definition Block (sourceIP : string) (b : Blocklist) : Blocklist :=
  if (sourceIP =? "")%string then b else b ∪ {[sourceIP]}.
Definition blocklistIsBlocked (b : option Blocklist) (sourceIP : string) : bool :=
  match b with
  | Some b => negb (sourceIP =? "")%string && bool_decide (sourceIP ∈ b)
  | None => false
  end.

(** gate.go [Gate], [NewGate]; a nil gate is [None] below. *)
Record Gate := mkGate {
  jwt : option JWTVerifier;
  identity : option Identity;
  auth : option Auth;
  blocklist : option Blocklist;
  unauthorizedHint : string;
}.
#[export] Instance eta_gate : EtaRecord Gate := fun g =>
  mkGate (jwt g) (identity g) (auth g) (blocklist g) (unauthorizedHint g).
Definition NewGate (j : option JWTVerifier) (i : option Identity) (a : option Auth)
    (b : option Blocklist) : Gate := mkGate j i a b (buildUnauthorizedHint a j).

(** gate.go [Request], [Resolve] *)
Record Request := mkRequest { reqClient : Client; Claims : option claims }.
Context `{GoNetip}.
Definition Resolve (g : option Gate) (r : httpRequest) : Request :=
  let c := match g with Some g => Parse (jwt g) r | None => None end in
  let i := match g with Some g => identity g | None => None end in
  mkRequest (ResolveClient i r c) c.

(** gate.go [IsBlocked], [AuthorizeAdmin], [ExchangeCode], [AuthorizeClaims], [PKCEEnabled],
    [OIDCBrowserConfig], [UnauthorizedHint], [Block] *)
Definition IsBlocked (g : option Gate) (req : Request) : bool :=
  match g with Some g => blocklistIsBlocked (blocklist g) (SourceIP (reqClient req)) | None => false end.
Definition AuthorizeAdmin (g : option Gate) (req : Request) (r : httpRequest) : bool :=
  match g with Some g => Authorize (auth g) (Claims req) (AuthorizationToken r "Rcon") | None => false end.
Definition gateExchangeCode (g : option Gate) (post : tokenEndpoint) (code verifier redirectURI : string)
    : result string (string * claims) :=
  match g with
  | None => Err "OIDC not configured"%string
  | Some g => ExchangeCode (jwt g) post code verifier redirectURI
  end.
Definition AuthorizeClaims (g : option Gate) (c : option claims) : bool :=
  match g with Some g => Authorize (auth g) c "" | None => false end.
Definition PKCEEnabled (g : option Gate) : bool :=
  match g with Some g => pkceEnabled (jwt g) | None => false end.
Definition OIDCBrowserConfig (g : option Gate) : option (list (string * string)) :=
  match g with Some g => BrowserConfig (jwt g) (LoginScopes (auth g)) | None => None end.
Definition UnauthorizedHint (g : option Gate) : string :=
  match g with Some g => unauthorizedHint g | None => "" end.
Definition gateBlock (sourceIP : string) (g : Gate) : Gate :=
  g <| blocklist ::= fmap (Block sourceIP) |>.

(** gate.go [HTTPGate]: refused, or given to the next handler with the resolved request. *)
Inductive gateAnswer := forbidden | served (req : Request).
Definition HTTPGate (g : option Gate) (r : httpRequest) : gateAnswer :=
  let req := Resolve g r in
  if IsBlocked g req then forbidden else served req.
End Auth.

(** * Facts *)

(** A token that came back from an exchange is verified: the only place asked is the configured
    endpoint, and the answer counts only with status 200, without an error, and with a token. *)
Lemma ExchangeCode_Ok verify j post code verifier redirectURI idToken c :
  ExchangeCode verify j post code verifier redirectURI = Ok (idToken, c) <->
  exists v desc, j = Some v /\ tokenURL v <> ""%string /\
    post (tokenRequestOf v code verifier redirectURI) = Ok (200, Some (idToken, ""%string, desc)) /\
    idToken <> ""%string /\ verify idToken = Some c.
Proof.
  unfold ExchangeCode. split.
  - destruct j as [v|]; [|done]. destruct (String.eqb_spec (tokenURL v) ""); [done|].
    destruct (post _) as [[st body]|] eqn:Hp; [|done]. destruct (Z.eqb_spec st 200) as [->|]; [|done]. cbn [negb].
    destruct body as [[[tok er] desc]|]; [|done]. destruct (String.eqb_spec er "") as [->|]; [|done]. cbn [negb].
    destruct (String.eqb_spec tok ""); [done|]. destruct (verify tok) as [c'|] eqn:Hv; [|done]. intros [= -> ->].
    by exists v, desc.
  - intros (v & desc & -> & Hu & Hp & Hne & Hv). destruct (String.eqb_spec (tokenURL v) ""); [done|]. rewrite Hp. cbn.
    destruct (String.eqb_spec idToken ""); [done|]. by rewrite Hv.
Qed.

Section PolicyFacts.
Context `{GoUnicode}.

(** The values a list of rules gives a key, in order. *)
Definition valuesOf (k : string) (rules : list (string * string)) : list string :=
  map snd (List.filter (fun r => (fst r =? k)%string) rules).

Lemma policyLoop_spec n tokens : forall rules,
  match policyLoop n tokens rules with
  | Ok (adminAny, rs) => n = 1%nat /\ rs = ∅ /\ exists t, t ∈ tokens /\ isAny t = true
  | Ok (mode, rs) =>
      mode = adminMatch /\ Forall (fun t => isAny t = false) tokens /\
      exists kvs, map policyRule tokens = map Some kvs /\
        forall k, rs !! k = match valuesOf k kvs with
                            | [] => rules !! k
                            | vs => Some (default [] (rules !! k) ++ vs)
                            end
  | Err _ => (exists t, t ∈ tokens /\ isAny t = true) /\ n <> 1%nat
             \/ exists t, t ∈ tokens /\ isAny t = false /\ policyRule t = None
  end.
Proof.
  induction tokens as [|t tokens IH]; intros rules; cbn [policyLoop].
  { split; [done|]. split; [constructor|]. by exists []. }
  destruct (isAny t) eqn:Ht.
  { destruct (Nat.eqb_spec n 1); [split_and!; [done|done|]|left; split; [|done]];
      exists t; split; [left|done|left|done]. }
  destruct (policyRule t) as [[k v]|] eqn:Hr; [|right; exists t; split_and!; [left|done|done]].
  set (rules' := <[k := default [] (rules !! k) ++ [v]]> rules). specialize (IH rules').
  destruct (policyLoop n tokens rules') as [[[] rs]|].
  - destruct IH as [? _]. done.
  - destruct IH as (Hn & Hrs & u & Hu & Ha). split_and!; [done|done|].
    exists u. split; [by right|done].
  - destruct IH as (_ & Hany & kvs & Hkvs & Hrs). split; [done|]. split; [by constructor|].
    exists ((k, v) :: kvs). split; [cbn; by rewrite Hr, Hkvs|].
    intros q. rewrite Hrs. unfold valuesOf, rules'. cbn [List.filter fst].
    destruct (String.eqb_spec k q) as [->|Hne].
    + rewrite lookup_insert_eq. cbn [map snd].
      destruct (map snd (List.filter _ kvs)) as [|v' vs]; [done|]. cbn. by rewrite <- app_assoc.
    + by rewrite lookup_insert_ne by done.
  - destruct IH as [[(u & Hu & Ha) Hn]|(u & Hu & Ha)]; [left; split; [|done]|right];
      exists u; (split; [by right|done]).
Qed.

(** The admin policy means what it says or Nexus does not start: blank grants nobody, [any]
    alone grants every verified login, a list of key:value rules grants by exactly those rules,
    each key with its values in order, and every other text, [any] beside a rule in particular,
    is an error. *)
Theorem parseAdminPolicy_spec raw :
  let tokens := policyTokens raw in
  match parseAdminPolicy raw with
  | Ok (adminDeny, rules) => tokens = [] /\ rules = ∅
  | Ok (adminAny, rules) => rules = ∅ /\ exists t, tokens = [t] /\ isAny t = true
  | Ok (adminMatch, rules) =>
      tokens <> [] /\ Forall (fun t => isAny t = false) tokens /\
      exists kvs, map policyRule tokens = map Some kvs /\
        forall k, rules !! k = match valuesOf k kvs with [] => None | vs => Some vs end
  | Err _ =>
      (exists t, t ∈ tokens /\ isAny t = true) /\ length tokens <> 1%nat
      \/ exists t, t ∈ tokens /\ isAny t = false /\ policyRule t = None
  end.
Proof.
  cbn zeta. unfold parseAdminPolicy. destruct (policyTokens raw) as [|t tokens]; [done|].
  pose proof (policyLoop_spec (length (t :: tokens)) (t :: tokens) ∅) as Hs.
  destruct (policyLoop _ _ _) as [[[] rules]|]; [by destruct Hs| | |done].
  - destruct Hs as (Hn & -> & u & Hu & Ha). split; [done|]. destruct tokens; [|done].
    exists t. split; [done|]. by apply list_elem_of_singleton in Hu as ->.
  - destruct Hs as (_ & Hany & kvs & Hkvs & Hrs). split_and!; [done|done|].
    exists kvs. split; [done|]. intros k. rewrite Hrs. by destruct (valuesOf k kvs).
Qed.

(** A claim has a value: it is the value, or a list with it, case aside. *)
Definition claimHas (v : claim) (target : string) : Prop :=
  match v with
  | claimString s => EqualFold s target = true
  | claimList items => exists s, claimString s ∈ items /\ EqualFold s target = true
  | claimOther => False
  end.

Lemma containsClaimValue_iff val target :
  target <> ""%string ->
  containsClaimValue val target = true <-> exists v, val = Some v /\ claimHas v target.
Proof.
  intros Ht. unfold containsClaimValue. apply String.eqb_neq in Ht. rewrite Ht.
  destruct val as [[s|items|]|]; cbn.
  - split; [by eauto|]. by intros (? & [= <-] & ?).
  - rewrite existsb_exists. split.
    + intros (x & Hx & Hs). destruct x; try done. exists (claimList items). split; [done|].
      exists s. by rewrite list_elem_of_In.
    + intros (? & [= <-] & s & Hs & He). exists (claimString s). by rewrite <- list_elem_of_In.
  - split; [done|]. by intros (? & [= <-] & ?).
  - split; [done|]. by intros (? & ? & _).
Qed.

Lemma matchesAdminRules_iff c rules :
  matchesAdminRules c rules = true
  <-> exists k vs v, rules !! k = Some vs /\ v ∈ vs /\ containsClaimValue (c !! k) v = true.
Proof.
  unfold matchesAdminRules. rewrite existsb_exists. setoid_rewrite <- list_elem_of_In. split.
  - intros ([k vs] & Hk%elem_of_map_to_list & Hv). apply existsb_exists in Hv as (v & Hv & Hc).
    exists k, vs, v. by rewrite list_elem_of_In.
  - intros (k & vs & v & Hk & Hv & Hc). exists (k, vs). rewrite elem_of_map_to_list. split; [done|].
    apply existsb_exists. exists v. by rewrite <- list_elem_of_In.
Qed.

Lemma policyRule_nonempty t k v : policyRule t = Some (k, v) -> v <> ""%string.
Proof.
  unfold policyRule. destruct (Cut t ":") as [[key value] ok].
  destruct (ToLower (TrimSpace value) =? "")%string eqn:Hv; [by rewrite orb_true_r|].
  apply String.eqb_neq in Hv. destruct (_ || _); [done|]. by intros [= _ <-].
Qed.

Lemma elem_of_valuesOf k v kvs : v ∈ valuesOf k kvs <-> (k, v) ∈ kvs.
Proof.
  unfold valuesOf. rewrite list_elem_of_In, in_map_iff. split.
  - intros ([k' v'] & <- & [Hin Hk%String.eqb_eq]%List.filter_In). cbn in Hk. subst k'.
    by apply list_elem_of_In.
  - intros Hin. exists (k, v). split; [done|]. apply List.filter_In.
    split; [by apply list_elem_of_In|]. apply String.eqb_refl.
Qed.

(** C23.  Who is an administrator: with the policy and the password of the environment, a caller
    is authorized exactly when he sends the configured password, which must not be blank, or has
    a verified login and the policy is [any] or names a claim of his with one of its values.  In
    particular nothing configured admits nobody. *)
Theorem Authorize_iff getenv auth c token :
  InitAuth getenv = Ok auth ->
  let tokens := policyTokens (getenv "AUTH_ADMIN_ID"%string) in
  let password := TrimSpace (getenv "AUTH_RCON_PASSWORD"%string) in
  Authorize (Some auth) c token = true <->
  (password <> ""%string /\ token = password) \/
  exists m, c = Some m /\
    ((exists t, tokens = [t] /\ isAny t = true) \/
     Forall (fun t => isAny t = false) tokens /\
     exists t k v cv, t ∈ tokens /\ policyRule t = Some (k, v) /\ m !! k = Some cv /\ claimHas cv v).
Proof.
  unfold InitAuth. pose proof (parseAdminPolicy_spec (getenv "AUTH_ADMIN_ID"%string)) as Hp.
  destruct (parseAdminPolicy _) as [[mode rules]|]; [|done]. intros [= <-]. cbn zeta.
  set (password := TrimSpace _) in *. unfold Authorize. cbn [rconPassword authMode adminRules].
  assert (negb (password =? "")%string && negb (token =? "")%string && (token =? password)%string = true
          <-> password <> ""%string /\ token = password) as Hpw.
  { rewrite !andb_true_iff, !negb_true_iff, !String.eqb_neq, String.eqb_eq. naive_solver. }
  destruct (_ && _ && _) eqn:Hb; [split; [by left; apply Hpw|done]|].
  assert (~ (password <> ""%string /\ token = password)) as Hnpw by (rewrite <- Hpw; done).
  destruct c as [m|]; [|split; [done|intros [?|(? & ? & _)]; done]].
  split.
  - intros Hauth. right. exists m. split; [done|]. destruct mode; [done| |].
    + left. by destruct Hp as [_ ?].
    + right. destruct Hp as (_ & Hany & kvs & Hkvs & Hrs). split; [done|].
      apply matchesAdminRules_iff in Hauth as (k & vs & v & Hk & Hv & Hc).
      rewrite Hrs in Hk. assert (v ∈ valuesOf k kvs) as Hin by (destruct (valuesOf k kvs); congruence).
      apply elem_of_valuesOf, list_elem_of_In, (in_map Some) in Hin. rewrite <- Hkvs in Hin.
      apply in_map_iff in Hin as (t & Ht & Hin).
      apply containsClaimValue_iff in Hc as (cv & Hcv & Hhas); [|by eapply policyRule_nonempty].
      exists t, k, v, cv. by rewrite list_elem_of_In.
  - intros [?|(m' & [= <-] & Hc)]; [done|]. destruct mode; [| done |].
    + destruct Hp as [Hnone _]. rewrite Hnone in Hc. destruct Hc as [(t & ? & _)|(_ & t & k & v & cv & Ht & _)]; [done|].
      by apply elem_of_nil in Ht.
    + destruct Hp as (_ & Hany & kvs & Hkvs & Hrs). apply matchesAdminRules_iff.
      destruct Hc as [(t & Ht & Ha)|(_ & t & k & v & cv & Ht & Hrule & Hcv & Hhas)].
      { rewrite Ht, Forall_singleton in Hany. congruence. }
      assert ((k, v) ∈ kvs) as Hin.
      { apply list_elem_of_In. apply list_elem_of_In, (in_map policyRule) in Ht.
        rewrite Hkvs, Hrule in Ht. apply in_map_iff in Ht as (? & [= ->] & ?). done. }
      apply elem_of_valuesOf in Hin. pose proof (Hrs k) as Hk.
      destruct (valuesOf k kvs) as [|v0 vs] eqn:Hvs; [by apply elem_of_nil in Hin|].
      exists k, (v0 :: vs), v. split_and!; [done|done|].
      apply containsClaimValue_iff; [by eapply policyRule_nonempty|eauto].
Qed.
End PolicyFacts.

(** ** The gate *)

Section GateFacts.
Context `{GoUnicode} `{GoNetip}.
Variable verify : string -> option claims.

Lemma blocklistIsBlocked_Block src b ip :
  blocklistIsBlocked (Some (Block src b)) ip
  = negb (src =? "")%string && (ip =? src)%string || blocklistIsBlocked (Some b) ip.
Proof.
  unfold blocklistIsBlocked, Block. destruct (String.eqb_spec src "") as [->|Hs]; [done|].
  destruct (String.eqb_spec ip src) as [->|Hne]; cbn [negb andb orb].
  - apply String.eqb_neq in Hs. rewrite Hs. cbn. apply bool_decide_eq_true. set_solver.
  - f_equal. apply bool_decide_ext. set_solver.
Qed.

(** Blocking a source bars its requests and no others. *)
Lemma HTTPGate_gateBlock src g r :
  is_Some (blocklist g) ->
  HTTPGate verify (Some (gateBlock src g)) r
  = if negb (src =? "")%string
       && (SourceIP (reqClient (Resolve verify (Some g) r)) =? src)%string
    then forbidden else HTTPGate verify (Some g) r.
Proof.
  intros [b Hb]. unfold HTTPGate. change (Resolve verify (Some (gateBlock src g)) r)
    with (Resolve verify (Some g) r). generalize (Resolve verify (Some g) r) as req. intros req.
  change (IsBlocked (Some (gateBlock src g)) req)
    with (blocklistIsBlocked (Block src <$> blocklist g) (SourceIP (reqClient req))).
  unfold IsBlocked. rewrite Hb. cbn [fmap option_fmap option_map].
  rewrite blocklistIsBlocked_Block. by destruct (negb (src =? "")%string && _).
Qed.
End GateFacts.

(** * Witnesses and examples *)

Definition sampleEnv (key : string) : string :=
  if (key =? "AUTH_ADMIN_ID")%string then "email:Ann@Example.com, groups:admins"
  else if (key =? "AUTH_RCON_PASSWORD")%string then " secret "
  else "".

Definition annClaims : claims := {["email"%string := claimString "ann@example.COM"]}.

Lemma Authorize_iff_witness :
  exists auth, InitAuth (H := plain_unicode) sampleEnv = Ok auth /\
    Authorize (H := plain_unicode) (Some auth) (Some annClaims) "" = true /\
    Authorize (H := plain_unicode) (Some auth) None "secret" = true.
Proof.
  eexists. split; [vm_compute; reflexivity|]. split.
  - apply (proj2 (Authorize_iff (H := plain_unicode) sampleEnv _ (Some annClaims) "" eq_refl)).
    right. exists annClaims. split; [reflexivity|]. right. split.
    + vm_compute. repeat (apply List.Forall_cons; [reflexivity|]). apply List.Forall_nil.
    + exists "email:Ann@Example.com"%string, "email"%string, "ann@example.com"%string,
        (claimString "ann@example.COM").
      split; [vm_compute; left|]. split; [vm_compute; reflexivity|].
      split; [vm_compute; reflexivity|vm_compute; reflexivity].
  - apply (proj2 (Authorize_iff (H := plain_unicode) sampleEnv _ None "secret" eq_refl)).
    left. split; [vm_compute; discriminate|vm_compute; reflexivity].
Defined.

(** A claim whose name has a colon or an upper-case letter, as the namespaced claims some
    identity providers issue, cannot be named by a rule. *)
Definition namespacedEnv (key : string) : string :=
  if (key =? "AUTH_ADMIN_ID")%string then "https://nexquake.example/groups:admins,Roles:admins" else "".
Definition namespacedClaims : claims :=
  {["https://nexquake.example/groups"%string := claimList [claimString "admins"];
    "Roles"%string := claimString "admins"]}.
Example namespaced_claims_never_match :
  exists auth, InitAuth (H := plain_unicode) namespacedEnv = Ok auth /\
    Authorize (H := plain_unicode) (Some auth) (Some namespacedClaims) "" = false.
Proof. eexists. split; vm_compute; reflexivity. Qed.

Example parseClientIP_examples :
  parseClientIP (H := plain_unicode) (H0 := no_ipv6) "10.0.0.1:5432"
  = Some (Addr4 (byte_of 10, byte_of 0, byte_of 0, byte_of 1)) /\
  parseClientIP (H := plain_unicode) (H0 := no_ipv6) " For=10.0.0.2, 10.0.0.3 "
  = Some (Addr4 (byte_of 10, byte_of 0, byte_of 0, byte_of 2)) /\
  parseClientIP (H := plain_unicode) (H0 := no_ipv6) "10.0.0.256" = None.
Proof. vm_compute. done. Qed.
