(* ===== verification/Clients.v ===== *)
(** The connected clients: internal/clients/clients.go, the tunnel handler of connect.go
    ([trunkSession]) and the client commands of internal/admin/client.go.

    The client registry joins who a caller is (Access.v) with the live sessions of the trunk
    (Trunk.v) by virtual address. *)
From S2P Require Import Prelude GoStrings Netip Trunk Access.

(** * The registry (clients.go) *)

(** clients.go [Registry.clients]: a map from virtual addresses, kept by their four bytes as one
    number. *)
Definition clientMap : Type := gmap Z Client.

(** clients.go [NewRegistry], [Add], [Remove] *)
Definition NewRegistry : clientMap := ∅.
Definition clientsAdd (ip : ip4) (cl : Client) (m : clientMap) : clientMap :=
  if firstByte ip =? 0 then m else <[ipKey ip := cl]> m.
Definition clientsRemove (ip : ip4) (m : clientMap) : clientMap :=
  if firstByte ip =? 0 then m else delete (ipKey ip) m.

(** clients.go [Connection] *)
Record Connection := mkConnection {
  connClient : Client;
  VirtualAddr : string;
  connTransport : string;
  connActiveServerPort : Z;
  connConnectedAt : Z;
}.

(** clients.go [hydrateConnection] *)
Definition hydrateConnection (m : clientMap) (s : SessionInfo) : Connection :=
  let cl := default noClient (m !! ipKey (infoVirtualIP s)) in
  let cl := if (SourceIP cl =? "")%string then mkClient (ID cl) (infoSourceKey s) else cl in
  mkConnection cl (ip4String (infoVirtualIP s)) (infoTransport s) (infoActiveServerPort s)
    (infoConnectedAt s).

(** The order of slices.Compare on the four bytes is that of the number they make. *)
Definition infoLe (a b : SessionInfo) : Prop := ipKey (infoVirtualIP a) <= ipKey (infoVirtualIP b).
#[export] Instance infoLe_dec a b : Decision (infoLe a b).
Proof. unfold infoLe. apply _. Defined.

(** clients.go [List] *)
Definition clientsList (m : clientMap) (t : Trunk) : list Connection :=
  map (hydrateConnection m) (merge_sort infoLe (Sessions t)).

Section Lookup.
Context `{GoNetip}.

(** clients.go [parseVirtualAddr] *)
Definition parseVirtualAddr (virtualAddr : string) : option ip4 :=
  match ParseAddr (TrimSpace virtualAddr) with
  | Some (Addr4 ip) => Some ip
  | _ => None
  end.

(** clients.go [ByVirtualAddr] *)
Definition ByVirtualAddr (virtualAddr : string) (m : clientMap) (t : Trunk) : option Connection :=
  let? ip := parseVirtualAddr virtualAddr in
  hydrateConnection m
    <$> head (List.filter (fun s => bool_decide (infoVirtualIP s = ip)) (Sessions t)).

(** clients.go [liveSession] *)
Definition liveSession (c : Connection) (t : Trunk) : option Z :=
  let? ip := parseVirtualAddr (VirtualAddr c) in sessionByVirtualIP ip t.

(** clients.go [PushControl] *)
Definition pushTo (p : Z) (payload : bytes) (t : Trunk) : bool * Trunk :=
  match heap t !! p with
  | Some s => let '(ok, s') := TrySendControl payload s in (ok, setSession p s' t)
  | None => (false, t)
  end.
Definition PushControl (c : Connection) (payload : bytes) (t : Trunk) : bool * Trunk :=
  match liveSession c t with
  | None => (false, t)
  | Some p => pushTo p payload t
  end.

(** clients.go [Disconnect], until the session's [End] waits for its drain *)
Definition endOne (p : Z) (t : Trunk) : Trunk :=
  match heap t !! p with Some s => sessionEndBegin p s t | None => t end.
Definition Disconnect (c : Connection) (payload : bytes) (t : Trunk) : bool * Trunk :=
  match liveSession c t with
  | None => (false, t)
  | Some p =>
      let t := if bool_decide (payload = []) then t else snd (pushTo p payload t) in
      (true, endOne p t)
  end.

(** * The client commands (admin/client.go) *)

(** cmds.go [ClientCommandPayload] *)
Definition ClientCommandPayload (cmd : string) : bytes := blist "RCON" ++ blist cmd ++ [byte_of 0].

(** client.go [ClientBanResult] and the error of an unknown address *)
Record ClientBanResult := mkBan {
  banVirtualAddr : string; banSourceIPs : list string; banDisconnected : Z;
}.
Definition errNoClient (addr : string) `{GoUnicode} : string :=
  ("no active client with nqip " ++ Quote addr)%string.

(** client.go [parseClientLookup] on the decoded parameters *)
Definition parseClientLookup (nqip : string) : result string string :=
  if (TrimSpace nqip =? "")%string then Err "nqip is required"%string else Ok nqip.

(** client.go [clientInfoHandler], [clientListHandler] *)
Definition clientInfoHandler (nqip : string) (m : clientMap) (t : Trunk) : option Connection :=
  ByVirtualAddr nqip m t.
Definition clientListHandler (m : clientMap) (t : Trunk) : list Connection := clientsList m t.

(** client.go [clientBanHandler]: the result, and the gate and the trunk after. *)
Definition clientBanHandler `{GoUnicode} (nqip : string) (g : Gate) (m : clientMap) (t : Trunk)
    : result string ClientBanResult * Gate * Trunk :=
  match ByVirtualAddr nqip m t with
  | None => (Err (errNoClient nqip), g, t)
  | Some c =>
      let src := SourceIP (connClient c) in
      let g := gateBlock src g in
      let '(disconnected, t) := Disconnect c (ClientCommandPayload "quit") t in
      let sourceIPs := if (TrimSpace src =? "")%string then [] else [src] in
      (Ok (mkBan (VirtualAddr c) sourceIPs (if disconnected then 1 else 0)), g, t)
  end.
End Lookup.

(** * A client's connection (connect.go [trunkSession]) *)

(** connect.go [trunkSession]: the address announcement. *)
Definition nqipPayload (ip : ip4) : bytes :=
  let '(a, b, c, d) := ip in blist "NQIP" ++ [a; b; c; d].

(** The trunk, the registry, and for each handler past [Attach] the address it will detach. *)
Record connections := mkConnections {
  cTrunk : Trunk;
  cClients : clientMap;
  cAttached : gmap Z ip4;
}.
#[export] Instance eta_connections : EtaRecord connections := fun c =>
  mkConnections (cTrunk c) (cClients c) (cAttached c).

(** The sections of the handlers: the trunk's own; [Attach]; and, once [Run] returned, which is
    after [End] is through, the deferred detachment. *)
Inductive cstep : connections -> connections -> Prop :=
  | cstep_trunk t' c : tstep (cTrunk c) t' -> cstep c (c <| cTrunk := t' |>)
  | cstep_attach p s cl c :
      heap (cTrunk c) !! p = Some s -> phase s <> Binding -> cAttached c !! p = None ->
      cstep c (c <| cClients ::= clientsAdd (virtualIP s) cl |>
                 <| cAttached ::= <[p := virtualIP s]> |>)
  | cstep_detach p s ip c :
      heap (cTrunk c) !! p = Some s -> phase s = Ended -> cAttached c !! p = Some ip ->
      cstep c (c <| cClients ::= clientsRemove ip |> <| cAttached ::= delete p |>).
Definition freshConnections (serverIP : option ip4) (allow : option (Z -> bool)) : connections :=
  mkConnections (New serverIP allow) NewRegistry ∅.

(** * Facts *)

Lemma elem_of_Sessions t i :
  trunk_ok t ->
  i ∈ Sessions t <-> exists p s, heap t !! p = Some s /\ phase s = Live /\ i = sessionInfoOf s.
Proof.
  intros Ht. unfold Sessions. rewrite list_elem_of_omap. split.
  - intros (p & Hp%elem_of_elements & Hi). apply (to_reg _ Ht) in Hp as (s & Hs & Hl).
    rewrite Hs in Hi. injection Hi as <-. eauto.
  - intros (p & s & Hs & Hl & ->). exists p. rewrite Hs. split; [|done].
    apply elem_of_elements, (to_reg _ Ht). eauto.
Qed.

(** The addresses of the live sessions are distinct. *)
Lemma Sessions_distinct t : trunk_ok t -> NoDup (map infoVirtualIP (Sessions t)).
Proof.
  intros Ht. unfold Sessions.
  assert (forall l, NoDup l -> (forall p, p ∈ l -> exists s, heap t !! p = Some s /\ phase s = Live) ->
    NoDup (map infoVirtualIP (omap (fun p => sessionInfoOf <$> heap t !! p) l))) as Hl.
  { induction 1 as [|p l Hp Hnd IH]; intros Hlive; [constructor|]. cbn.
    destruct (Hlive p) as (s & Hs & Hls); [left|]. rewrite Hs. cbn. constructor.
    - intros (i & Hi & Hin)%list_elem_of_fmap. apply list_elem_of_omap in Hin as (q & Hq & Hqi).
      destruct (Hlive q) as (s' & Hs' & Hls'); [by right|]. rewrite Hs' in Hqi.
      injection Hqi as <-. cbn in Hi. apply Hp.
      rewrite (to_inj _ Ht p q s s'); [done|split; [done|congruence]..|done].
    - apply IH. intros q Hq. apply Hlive. by right. }
  apply Hl; [apply NoDup_elements|]. intros p Hp%elem_of_elements. by apply (to_reg _ Ht).
Qed.

#[export] Instance infoLe_trans : Transitive infoLe.
Proof. intros a b c. unfold infoLe. lia. Qed.
#[export] Instance infoLe_total : Total infoLe.
Proof. intros a b. unfold infoLe. lia. Qed.
#[export] Instance ipKey_injective : Inj (=) (=) ipKey.
Proof. intros a b. apply ipKey_inj. Qed.

Lemma StronglySorted_strict_map {A} (f : A -> Z) l :
  StronglySorted (fun a b => f a <= f b) l -> NoDup (map f l) -> StronglySorted Z.lt (map f l).
Proof.
  induction 1 as [|a l Hs IH Hf]; cbn; intros Hnd; [constructor|].
  apply NoDup_cons in Hnd as [Ha Hnd]. constructor; [auto|].
  apply Forall_forall. intros z (b & -> & Hb)%list_elem_of_fmap.
  rewrite Forall_forall in Hf. specialize (Hf _ Hb).
  assert (f a <> f b); [|lia]. intros He. apply Ha. rewrite He. by apply list_elem_of_fmap_2.
Qed.

Section LookupFacts.
Context `{GoNetip}.

Lemma parseVirtualAddr_ip4String ip : parseVirtualAddr (ip4String ip) = Some ip.
Proof.
  unfold parseVirtualAddr. rewrite TrimSpace_visible by apply ip4String_visible.
  by rewrite ParseAddr_ip4String.
Qed.

Lemma liveSession_hydrate t m p s :
  trunk_ok t -> heap t !! p = Some s -> phase s = Live ->
  liveSession (hydrateConnection m (sessionInfoOf s)) t = Some p.
Proof.
  intros Ht Hs Hl. unfold liveSession. cbn [VirtualAddr hydrateConnection].
  rewrite parseVirtualAddr_ip4String. apply sessionByVirtualIP_iff; eauto.
Qed.

Lemma ByVirtualAddr_live t m p s :
  trunk_ok t -> heap t !! p = Some s -> phase s = Live ->
  ByVirtualAddr (ip4String (virtualIP s)) m t = Some (hydrateConnection m (sessionInfoOf s)).
Proof.
  intros Ht Hs Hl. unfold ByVirtualAddr. rewrite parseVirtualAddr_ip4String.
  destruct (List.filter _ (Sessions t)) as [|i l] eqn:Hf; cbn.
  - assert (List.In (sessionInfoOf s) []) as []. rewrite <- Hf. apply List.filter_In.
    split; [|by apply bool_decide_eq_true]. apply list_elem_of_In, elem_of_Sessions; eauto.
  - assert (List.In i (i :: l)) as Hi by by left. rewrite <- Hf in Hi.
    apply List.filter_In in Hi as [Hi Hip%bool_decide_eq_true].
    apply list_elem_of_In, elem_of_Sessions in Hi as (q & s' & Hs' & Hl' & ->); [|done].
    cbn in Hip. assert (q = p) as ->.
    { apply (to_inj _ Ht q p s' s); [split; [done|congruence]..|done]. }
    by simplify_eq.
Qed.

(** The client list is the live clients, and what it shows can be acted on: whatever the
    registry remembers, in every state the trunk can reach the list has one line for each live
    session and no other, in the order of the addresses, each address once; and the address
    printed on a line finds that line again and its session. *)
Theorem clientsList_live t m :
  treachable t ->
  (forall c, c ∈ clientsList m t <-> exists p s, heap t !! p = Some s /\ phase s = Live /\
     c = hydrateConnection m (sessionInfoOf s)) /\
  (exists ips, map VirtualAddr (clientsList m t) = map ip4String ips /\
     StronglySorted Z.lt (map ipKey ips)) /\
  (forall p s, heap t !! p = Some s -> phase s = Live ->
     let c := hydrateConnection m (sessionInfoOf s) in
     liveSession c t = Some p /\ ByVirtualAddr (VirtualAddr c) m t = Some c).
Proof.
  intros Ht%treachable_ok. split_and!.
  - intros c. unfold clientsList. rewrite list_elem_of_fmap.
    setoid_rewrite (merge_sort_Permutation infoLe (Sessions t)). split.
    + intros (i & -> & (p & s & Hs & Hl & ->)%elem_of_Sessions); [|done]. eauto.
    + intros (p & s & Hs & Hl & ->). exists (sessionInfoOf s). split; [done|].
      apply elem_of_Sessions; eauto.
  - set (l := merge_sort infoLe (Sessions t)). exists (map infoVirtualIP l). split.
    + unfold clientsList. by rewrite !map_map.
    + rewrite map_map. apply StronglySorted_strict_map.
      * apply (StronglySorted_merge_sort infoLe).
      * pose proof (Sessions_distinct t Ht) as Hnd. rewrite <- (map_map infoVirtualIP ipKey).
        apply (NoDup_fmap_2 ipKey).
        unfold l. by rewrite (merge_sort_Permutation infoLe (Sessions t)).
  - intros p s Hs Hl. split; [by apply liveSession_hydrate|]. by eapply ByVirtualAddr_live.
Qed.
End LookupFacts.

(** ** Bans *)

Lemma endOne_steps p s t :
  heap t !! p = Some s -> phase s = Live -> tstep t (endOne p t).
Proof. intros Hs Hl. unfold endOne. rewrite Hs. by apply step_end_begin. Qed.

Lemma setSession_id p s t : heap t !! p = Some s -> setSession p s t = t.
Proof.
  destruct t as [a r h f]. cbn. intros Hs.
  change (mkTrunk a r (<[p := s]> h) f = mkTrunk a r h f). by rewrite insert_id.
Qed.

(** The session a push leaves, in place. *)
Lemma TrySendControl_step payload s :
  session_ok s ->
  let s' := snd (TrySendControl payload s) in
  phase s' = phase s /\
  (ctxDone s = false -> (length (tx s) < txCap)%nat ->
   queued s' = queued s ++ [buildFrame controlPort payload]).
Proof.
  intros Hs. unfold TrySendControl. destruct (ctxDone s) eqn:Hc; [done|].
  pose proof (TrySendControlSelect_step payload s Hs) as (_ & _ & Hph & _).
  split; [done|]. intros _ Hroom. unfold TrySendControlSelect, enqueue.
  by rewrite (proj2 (Nat.ltb_lt _ _) Hroom).
Qed.

(** Pushing to a session, and evicting it, are steps of the trunk. *)
Lemma TrySendControl_tstep t p s payload :
  heap t !! p = Some s -> phase s <> Binding -> rtc tstep t (setSession p (snd (TrySendControl payload s)) t).
Proof.
  intros Hs Hb. unfold TrySendControl. destruct (ctxDone s); cbn [snd]; [by rewrite setSession_id|].
  by apply rtc_once, step_try_control.
Qed.
Lemma evict_steps t p s payload :
  trunk_ok t -> heap t !! p = Some s -> phase s = Live -> rtc tstep t (endOne p (snd (pushTo p payload t))).
Proof.
  intros Ht Hs Hl. unfold pushTo. rewrite Hs. pose proof (TrySendControl_tstep t p s payload Hs ltac:(congruence)) as Hr.
  pose proof (TrySendControl_step payload s (to_session _ Ht _ _ Hs)) as [Hph _].
  destruct (TrySendControl payload s) as [ok s1]. cbn [snd] in *.
  assert (heap (setSession p s1 t) !! p = Some s1) as Hs1 by (cbn; by rewrite lookup_insert_eq).
  unfold endOne. rewrite Hs1. eapply rtc_r; [exact Hr|]. apply step_end_begin; [done|congruence].
Qed.

Section Bans.
Context `{GoUnicode} `{GoNetip}.
Variable verify : string -> option claims.

(** A ban steps the trunk, whatever address it is given. *)
Lemma clientBanHandler_steps nqip g m t :
  trunk_ok t -> rtc tstep t (snd (clientBanHandler nqip g m t)).
Proof.
  intros Ht. unfold clientBanHandler. destruct (ByVirtualAddr nqip m t) as [c|]; [|done]. cbv zeta. unfold Disconnect.
  destruct (liveSession c t) as [p|] eqn:Hl; [|done]. cbn [bool_decide snd].
  rewrite bool_decide_eq_false_2 by done. cbn [snd]. unfold liveSession in Hl. destruct (parseVirtualAddr _) as [ip|]; [|done].
  apply sessionByVirtualIP_iff in Hl as (s & Hs & Hlive & _); [|done]. by eapply evict_steps.
Qed.

(** C32.  A ban bars and evicts: on the address of a live client, an administrator's as well as any
    other's (docs/ADMIN.md says that banning an administrator is refused, but nothing checks it), it
    ends that client's session and no other, with a last frame that tells it to quit if there is room for one, and blocks
    where it came from: every later request from that source is refused before any handler, and
    the requests of all others are answered as before. *)
Theorem clientBanHandler_bans g m t p s :
  treachable t -> is_Some (blocklist g) -> heap t !! p = Some s -> phase s = Live ->
  let src := SourceIP (connClient (hydrateConnection m (sessionInfoOf s))) in
  let '(res, g', t') := clientBanHandler (ip4String (virtualIP s)) g m t in
  (exists b, res = Ok b /\ banDisconnected b = 1) /\
  rtc tstep t t' /\
  (exists s', heap t' !! p = Some s' /\ phase s' = Ending /\ ctxDone s' = true /\
     (ctxDone s = false -> (length (tx s) < 1024)%nat ->
      queued s' = queued s ++ [buildFrame controlPort (ClientCommandPayload "quit")])) /\
  (forall q, q <> p -> heap t' !! q = heap t !! q) /\
  (forall r, let from := SourceIP (reqClient (Resolve verify (Some g) r)) in
     HTTPGate verify (Some g') r
     = if bool_decide (src <> ""%string /\ from = src) then forbidden
       else HTTPGate verify (Some g) r).
Proof.
  intros Ht%treachable_ok Hg Hs Hl. cbn zeta. unfold clientBanHandler.
  rewrite (ByVirtualAddr_live t m p s Ht Hs Hl). cbn iota beta.
  set (c := hydrateConnection m (sessionInfoOf s)). unfold Disconnect.
  rewrite (liveSession_hydrate t m p s Ht Hs Hl : liveSession c t = Some p).
  rewrite bool_decide_eq_false_2 by done. unfold pushTo. rewrite Hs.
  pose proof (to_session _ Ht _ _ Hs) as Hok.
  pose proof (TrySendControl_step (ClientCommandPayload "quit") s Hok) as [Hph Hq].
  pose proof (TrySendControl_tstep t p s (ClientCommandPayload "quit") Hs ltac:(congruence)) as Hr.
  destruct (TrySendControl _ s) as [ok s1]. cbn [snd] in *.
  set (t1 := setSession p s1 t) in *.
  assert (heap t1 !! p = Some s1) as Hs1 by (cbn; by rewrite lookup_insert_eq).
  assert (endOne p t1 = sessionEndBegin p s1 t1) as -> by (unfold endOne; by rewrite Hs1).
  split_and!.
  - by eexists.
  - eapply rtc_r; [exact Hr|]. apply step_end_begin; [done|congruence].
  - exists (EndBegin s1). cbn. rewrite lookup_insert_eq. split_and!; [done..|]. exact Hq.
  - intros q Hne. cbn. by rewrite !lookup_insert_ne by done.
  - intros r. rewrite HTTPGate_gateBlock by done.
    set (src := SourceIP (connClient c)). set (from := SourceIP _).
    destruct (String.eqb_spec src "") as [He|Hne]; cbn [negb andb].
    + by rewrite bool_decide_eq_false_2 by tauto.
    + destruct (String.eqb_spec from src).
      * by rewrite bool_decide_eq_true_2.
      * by rewrite bool_decide_eq_false_2 by tauto.
Qed.
End Bans.

(** * Witnesses and examples *)

Definition lifeSession (t : Trunk) : Session :=
  default (mkSession "" zeroIP "" 0 0 0 [] false false false Binding false notStarted [] [] [] [])
    (heap t !! 1).
Definition lifeAddr : ip4 := candidate "10.0.0.7" 0.
Definition ann : Client := mkClient "ann" "10.0.0.7".
Definition lifeClients : clientMap := clientsAdd lifeAddr ann NewRegistry.

Lemma life2_reachable : treachable life2.
Proof. exists (Some server1), None. exact life_live. Qed.

Definition lifeGate : Gate := NewGate None None None (Some NewBlocklist).
Definition fromAnn : httpRequest := mkHTTP (fun _ => ""%string) "10.0.0.7:5000" None.
Definition noVerify (raw : string) : option claims := None.

Lemma clientsList_live_witness :
  exists c, clientsList lifeClients life2 = [c] /\ connClient c = ann /\
    liveSession (H := no_ipv6) c life2 = Some 1.
Proof.
  eexists. split; [vm_compute; reflexivity|]. split; [reflexivity|].
  assert (exists s, heap life2 !! 1 = Some s /\ phase s = Live) as (s & Hs & Hl)
    by (eexists; split; vm_compute; reflexivity).
  destruct (proj2 (proj2 (clientsList_live (H := no_ipv6) life2 lifeClients life2_reachable)) 1 s Hs Hl)
    as [Hlive _].
  vm_compute in Hs. injection Hs as <-. rewrite <- Hlive. vm_compute. reflexivity.
Defined.

Lemma clientBanHandler_bans_witness :
  let '(_, g, _) := clientBanHandler (H := no_ipv6) (H0 := plain_unicode) (ip4String lifeAddr)
                      lifeGate lifeClients life2 in
  HTTPGate (H := plain_unicode) (H0 := no_ipv6) noVerify (Some g) fromAnn = forbidden.
Proof.
  assert (exists s, heap life2 !! 1 = Some s /\ phase s = Live) as (s & Hs & Hl)
    by (eexists; split; vm_compute; reflexivity).
  pose proof (clientBanHandler_bans (H := plain_unicode) (H0 := no_ipv6) noVerify lifeGate lifeClients
    life2 1 s life2_reachable ltac:(by eexists) Hs Hl) as T.
  assert (virtualIP s = lifeAddr /\
          SourceIP (connClient (hydrateConnection lifeClients (sessionInfoOf s))) = "10.0.0.7"%string)
    as [Hip Hsrc] by (vm_compute in Hs; injection Hs as <-; split; vm_compute; reflexivity).
  rewrite Hip in T. cbn zeta in T.
  destruct (clientBanHandler (ip4String lifeAddr) lifeGate lifeClients life2) as [[res g] t'].
  destruct T as (_ & _ & _ & _ & T). rewrite T, Hsrc.
  rewrite bool_decide_eq_true_2; [reflexivity|]. split; [discriminate|vm_compute; reflexivity].
Defined.

(** A client that reconnects at once, from the same source, gets the same address; the handler
    of its old connection then detaches by address, and takes the new connection's entry. *)
Definition oldEnding : Trunk := onSession (sessionEndBegin 1) life2.
Definition oldEnded : Trunk := onSession (sessionEndFinish 1) oldEnding.
Definition newBound : Trunk := default life0 (newSessionAlloc 2 "WebSocket" "10.0.0.7" 9 oldEnded).
Definition newLive : Trunk :=
  match heap newBound !! 2 with Some s => newSessionListen true 2 s newBound | None => newBound end.
Definition connected : connections :=
  mkConnections life2 (clientsAdd lifeAddr ann NewRegistry) {[1 := lifeAddr]}.
Definition reconnected : connections :=
  mkConnections newLive (clientsAdd lifeAddr ann (cClients connected)) {[1 := lifeAddr; 2 := lifeAddr]}.
Definition forgotten : connections :=
  mkConnections newLive (clientsRemove lifeAddr (cClients reconnected)) (delete 1 (cAttached reconnected)).

Lemma ctrunk_steps c t' : rtc tstep (cTrunk c) t' -> rtc cstep c (c <| cTrunk := t' |>).
Proof.
  intros Hs. remember (cTrunk c) as t eqn:Ht. revert c Ht.
  induction Hs as [t|t t2 t3 Hstep _ IH]; intros c ->; [by destruct c|].
  eapply rtc_l; [by apply cstep_trunk|]. change (rtc cstep (c <| cTrunk := t2 |>)
    ((c <| cTrunk := t2 |>) <| cTrunk := t3 |>)). by apply IH.
Qed.

Lemma old_session_ends : rtc tstep life2 newLive.
Proof.
  eapply rtc_l; [|eapply rtc_l; [|eapply rtc_l; [|apply rtc_once]]].
  - instantiate (1 := oldEnding). unfold oldEnding.
    destruct (life_at life2) as (s & Hs & ->); [vm_compute; by eexists|].
    apply step_end_begin; [done|]. vm_compute in Hs. by injection Hs as <-.
  - instantiate (1 := oldEnded). unfold oldEnded.
    destruct (life_at oldEnding) as (s & Hs & ->); [vm_compute; by eexists|].
    apply (step_end_finish false); [done|..]; vm_compute in Hs; by injection Hs as <-.
  - instantiate (1 := newBound).
    apply (step_alloc 2 "WebSocket" "10.0.0.7" 9 oldEnded newBound); vm_compute; reflexivity.
  - unfold newLive. destruct (heap newBound !! 2) as [s|] eqn:Hs; [|vm_compute in Hs; discriminate].
    apply step_listen; [done|]. vm_compute in Hs. by injection Hs as <-.
Qed.

Lemma attach_step p s cl c c' :
  heap (cTrunk c) !! p = Some s -> phase s <> Binding -> cAttached c !! p = None ->
  c' = (c <| cClients ::= clientsAdd (virtualIP s) cl |> <| cAttached ::= <[p := virtualIP s]> |>) ->
  cstep c c'.
Proof. intros ??? ->. by apply cstep_attach. Qed.

Lemma detach_step p s ip c c' :
  heap (cTrunk c) !! p = Some s -> phase s = Ended -> cAttached c !! p = Some ip ->
  c' = (c <| cClients ::= clientsRemove ip |> <| cAttached ::= delete p |>) -> cstep c c'.
Proof. intros ??? ->. by eapply cstep_detach. Qed.

Example reconnected_client_forgotten :
  rtc cstep (freshConnections (Some server1) None) forgotten /\
  exists s, heap (cTrunk forgotten) !! 2 = Some s /\ phase s = Live /\
    cAttached forgotten !! 2 = Some (virtualIP s) /\ cClients forgotten !! ipKey (virtualIP s) = None.
Proof.
  split; [|eexists; split_and!; vm_compute; reflexivity].
  etrans; [apply (ctrunk_steps (freshConnections (Some server1) None) life2), life_live|].
  eapply rtc_l.
  { apply (attach_step 1 (lifeSession life2) ann _ connected); vm_compute; (reflexivity || discriminate). }
  etrans; [apply (ctrunk_steps connected newLive), old_session_ends|].
  eapply rtc_l.
  { apply (attach_step 2 (default (lifeSession life2) (heap newLive !! 2)) ann _ reconnected);
      vm_compute; (reflexivity || discriminate). }
  apply rtc_once.
  apply (detach_step 1 (lifeSession newLive) lifeAddr); vm_compute; reflexivity.
Qed.
