(* ===== verification/Quake106.v ===== *)
(** The decoder of the Quake 1.06 installer: quake106/quake106.go.

    The archive is one LH5 stream: blocks of Huffman-coded literals and matches over a window
    of 8 KiB.  Go panics on an index out of range; [Panic] is that, and [OutOfFuel] is kept
    apart from it so that the theorems can say it does not happen. *)
From S2P Require Import Prelude GoStrings.

(** * Outcomes *)

Inductive outcome (A : Type) := Done (a : A) | Panic | OutOfFuel.
Arguments Done {A} a.
Arguments Panic {A}.
Arguments OutOfFuel {A}.

Notation "'let!' x ':=' c 'in' k" :=
  (match c with Done x => k | Panic => Panic | OutOfFuel => OutOfFuel end)
  (at level 10, x pattern, c at level 100, k at level 200) : nexus_scope.

(** An index into a slice or an array. *)
Definition index {A} (l : list A) (i : Z) : outcome A :=
  if i <? 0 then Panic else match nth_error l (Z.to_nat i) with Some a => Done a | None => Panic end.
(** An assignment to one. *)
Definition setIndex {A} (l : list A) (i : Z) (a : A) : outcome (list A) :=
  if (0 <=? i) && (i <? Z.of_nat (length l)) then Done (<[Z.to_nat i := a]> l) else Panic.

(** Shifts of a uint64; a count that is not below 64 gives zero. *)
Definition shl64 (x s : Z) : Z := if (s <? 0) || (64 <=? s) then 0 else wrap64 (Z.shiftl x s).
Definition shr64 (x s : Z) : Z := if (s <? 0) || (64 <=? s) then 0 else Z.shiftr x s.

(** * The bit reader *)

(** quake106.go [br]: the source, the bytes taken, and the bits buffered at the top of [v]. *)
Record br := mkBR { brB : bytes; brI : nat; brV : Z; brN : Z }.
#[export] Instance eta_br : EtaRecord br := fun r => mkBR (brB r) (brI r) (brV r) (brN r).
Definition newBR (src : bytes) : br := mkBR src 0 0 0.

(** A round of the loop of [bits]: the next byte, or zero past the end. *)
Definition refillByte (r : br) : br :=
  let '(c, i) := match nth_error (brB r) (brI r) with
                 | Some c => (byteZ c, S (brI r))
                 | None => (0, brI r)
                 end in
  r <| brI := i |> <| brV ::= fun v => Z.lor v (shl64 c (56 - brN r)) |> <| brN ::= Z.add 8 |>.
(** The loop; a round adds eight bits, so [k] rounds are enough. *)
Fixpoint refill (fuel : nat) (k : Z) (r : br) : br :=
  match fuel with
  | O => r
  | S fuel => if brN r <? k then refill fuel k (refillByte r) else r
  end.

(** quake106.go [bits] *)
Definition bits (k : Z) (r : br) : Z * br :=
  let r := refill (Z.to_nat k) k r in
  (wrap16 (shr64 (brV r) (64 - k)), r <| brV ::= fun v => shl64 v k |> <| brN ::= fun n => n - k |>).

(** quake106.go [trues]; [i] counts up to [max]. *)
Fixpoint truesLoop (togo : nat) (i : Z) (r : br) : Z * br :=
  match togo with
  | O => (i, r)
  | S togo => let '(b, r) := bits 1 r in if b =? 0 then (i, r) else truesLoop togo (i + 1) r
  end.
Definition trues (max : nat) (r : br) : Z * br := truesLoop max 0 r.

(** * Huffman tables *)

(** quake106.go [huff]; the arrays have 17 entries, and [max] is 16 whenever [one] is not set. *)
Record huff := mkHuff {
  one : bool; val : Z; cnt : list Z; first : list Z; start : list Z; sym : list Z;
}.
#[export] Instance eta_huff : EtaRecord huff := fun h =>
  mkHuff (one h) (val h) (cnt h) (first h) (start h) (sym h).
Definition zeros17 : list Z := repeat 0 17.
(** Go's zero value, and a table with one symbol. *)
Definition zeroHuff : huff := mkHuff false 0 zeros17 zeros17 zeros17 [].
Definition oneHuff (v : Z) : huff := mkHuff true v zeros17 zeros17 zeros17 [].
Definition huffMax : Z := 16.

(** quake106.go [mkH]: how many codes each length has, *)
Fixpoint countLengths (l : list Z) (cnt : list Z) : outcome (list Z) :=
  match l with
  | [] => Done cnt
  | v :: l =>
      if v =? 0 then countLengths l cnt else
      let! c := index cnt v in
      let! cnt := setIndex cnt v (wrap16 (c + 1)) in
      countLengths l cnt
  end.
(** the first code and the first symbol of each length, *)
Fixpoint firstCodes (steps : nat) (i code : Z) (cnt first start : list Z)
    : outcome (list Z * list Z) :=
  match steps with
  | O => Done (first, start)
  | S steps =>
      let! c := index cnt (i - 1) in
      let! s := index start (i - 1) in
      let code := wrap16 (Z.shiftl (wrap16 (code + c)) 1) in
      let! first := setIndex first i code in
      let! start := setIndex start i (wrap16 (s + c)) in
      firstCodes steps (i + 1) code cnt first start
  end.
(** the symbols by length, *)
Fixpoint placeSymbols (l : list Z) (i : Z) (next sym : list Z) : outcome (list Z) :=
  match l with
  | [] => Done sym
  | v :: l =>
      if v =? 0 then placeSymbols l (i + 1) next sym else
      let! at_ := index next v in
      let! sym := setIndex sym at_ (wrap16 i) in
      let! next := setIndex next v (wrap16 (at_ + 1)) in
      placeSymbols l (i + 1) next sym
  end.
(** and the table. *)
Definition mkH (l : list Z) : outcome huff :=
  let! cnt := countLengths l zeros17 in
  let! (first, start) := firstCodes 16 1 0 cnt zeros17 zeros17 in
  let t := foldl (fun t c => wrap16 (t + c)) 0 (drop 1 cnt) in
  let! sym := placeSymbols l 0 start (repeat 0 (Z.to_nat t)) in
  Done (mkHuff false 0 cnt first start sym).

(** quake106.go [dec]: the loop over the code lengths from [l], *)
Fixpoint decLoop (steps : nat) (h : huff) (l code : Z) (r : br) : outcome (Z * br) :=
  match steps with
  | O => Done (0, r)
  | S steps =>
      let '(b, r) := bits 1 r in
      let code := Z.lor (wrap16 (Z.shiftl code 1)) b in
      let! f := index (first h) l in
      if code <? f then decLoop steps h (l + 1) code r else
      let! c := index (cnt h) l in
      let d := wrap16 (code - f) in
      if d <? c then
        let! s := index (start h) l in
        let! v := index (sym h) (wrap16 (s + d)) in
        Done (v, r)
      else decLoop steps h (l + 1) code r
  end.
(** and the whole. *)
Definition dec (h : huff) (r : br) : outcome (Z * br) :=
  if one h then Done (val h, r) else decLoop 16 h 1 0 r.

(** * The code tables of a block *)

(** Zeroes in the table at [i], while [z] and [limit] allow: the inner loops of [pTree] and
    [cTree]. *)
Fixpoint skipZeros (z : nat) (i limit : Z) (l : list Z) : outcome (Z * list Z) :=
  match z with
  | O => Done (i, l)
  | S z => if i <? limit then let! l := setIndex l i 0 in skipZeros z (i + 1) limit l else Done (i, l)
  end.

(** A byte of a table: uint8 of a uint16. *)
Definition uint8 (v : Z) : Z := wrap8 v.

(** quake106.go [pTree]: its loop; a round advances [i]. *)
Fixpoint pLoop (fuel : nat) (special n0 i : Z) (l : list Z) (r : br) : outcome (list Z * br) :=
  match fuel with
  | O => OutOfFuel
  | S fuel =>
      if negb (i <? n0) then Done (l, r) else
      let '(c, r) := bits 3 r in
      let '(c, r) := if c =? 7 then let '(t, r) := trues 13 r in (wrap16 (c + t), r) else (c, r) in
      let! l := setIndex l i (uint8 c) in
      let i := i + 1 in
      if i =? special then
        let '(z, r) := bits 2 r in
        let! (i, l) := skipZeros (Z.to_nat z) i n0 l in
        pLoop fuel special n0 i l r
      else pLoop fuel special n0 i l r
  end.
Definition pTree (nbits special : Z) (n : nat) (r : br) : outcome (huff * br) :=
  let '(n0, r) := bits nbits r in
  if n0 =? 0 then let '(v, r) := bits nbits r in Done (oneHuff v, r) else
  let n0 := Z.min n0 (Z.of_nat n) in
  let! (l, r) := pLoop (S n) special n0 0 (repeat 0 n) r in
  let! h := mkH l in
  Done (h, r).

(** quake106.go [cTree]: its loop; a round advances [i]. *)
Fixpoint cLoop (fuel : nat) (nbits : Z) (tmp : huff) (n n0 i : Z) (l : list Z) (r : br)
    : outcome (list Z * br) :=
  match fuel with
  | O => OutOfFuel
  | S fuel =>
      if negb (i <? n0) then Done (l, r) else
      let! (c, r) := dec tmp r in
      if 2 <? c then
        let! l := setIndex l i (uint8 (c - 2)) in
        cLoop fuel nbits tmp n n0 (i + 1) l r
      else
        let '(z, r) := if c =? 1 then let '(b, r) := bits 4 r in (b + 3, r)
                       else if c =? 2 then let '(b, r) := bits nbits r in (b + 20, r)
                       else (1, r) in
        let! (i, l) := skipZeros (Z.to_nat z) i n l in
        cLoop fuel nbits tmp n n0 i l r
  end.
Definition cTree (nbits : Z) (tmp : huff) (n : nat) (r : br) : outcome (huff * br) :=
  let '(n0, r) := bits nbits r in
  if n0 =? 0 then let '(v, r) := bits nbits r in Done (oneHuff v, r) else
  let n0 := Z.min n0 (Z.of_nat n) in
  let! (l, r) := cLoop (S n) nbits tmp (Z.of_nat n) n0 0 (repeat 0 n) r in
  let! h := mkH l in
  Done (h, r).

(** * The stream *)

(** quake106.go [decodeLH5]: its variables besides the buffer and the position. *)
Record lh5 := mkLH5 { lhR : br; lhBlock : Z; lhC : huff; lhP : huff }.
Definition newLH5 (src : bytes) : lh5 := mkLH5 (newBR src) 0 zeroHuff zeroHuff.

(** What a round of its loop decodes. *)
Inductive token := literal (b : byte) | copyMatch (off ln : Z).

(** A round of the loop of [decodeLH5], up to what it does to the buffer. *)
Definition nextToken (s : lh5) : outcome (token * lh5) :=
  let! (r, nblk, c, p) :=
    if lhBlock s =? 0 then
      let '(nblk, r) := bits 16 (lhR s) in
      let! (t, r) := pTree 5 3 19 r in
      let! (c, r) := cTree 9 t 510 r in
      let! (p, r) := pTree 4 (-1) 14 r in
      Done (r, nblk, c, p)
    else Done (lhR s, lhBlock s, lhC s, lhP s) in
  let nblk := nblk - 1 in
  let! (v, r) := dec c r in
  if v <? 256 then Done (literal (byte_of v), mkLH5 r nblk c p) else
  let ln := v - 253 in
  let! (ov, r) := dec p r in
  let '(off, r) := if 0 <? ov then
                     let w := ov - 1 in
                     let '(b, r) := bits w r in (Z.shiftl 1 w + b, r)
                   else (ov, r) in
  Done (copyMatch off ln, mkLH5 r nblk c p).

(** Its copying loop: [i] counts up to the length. *)
Fixpoint copyLoop (togo : nat) (s i pos : Z) (buf : bytes) : outcome bytes :=
  match togo with
  | O => Done buf
  | S togo =>
      let! b := index buf (s + i) in
      let! buf := setIndex buf pos b in
      copyLoop togo s (i + 1) (pos + 1) buf
  end.

(** The rest of the round: the buffer and the position after. *)
Definition applyToken (t : token) (pos : Z) (buf : bytes) : outcome (Z * bytes) :=
  match t with
  | literal b => let! buf := setIndex buf pos b in Done (pos + 1, buf)
  | copyMatch off ln =>
      let s := pos - off - 1 in
      let ln := Z.min ln (Z.of_nat (length buf) - pos) in
      let! buf := copyLoop (Z.to_nat ln) s 0 pos buf in
      Done (pos + ln, buf)
  end.

(** quake106.go [decodeLH5]: each round fills at least a byte. *)
Fixpoint decodeLoop (fuel : nat) (s : lh5) (pos : Z) (buf : bytes) : outcome bytes :=
  if negb (pos <? Z.of_nat (length buf)) then Done buf else
  match fuel with
  | O => OutOfFuel
  | S fuel =>
      let! (t, s) := nextToken s in
      let! (pos, buf) := applyToken t pos buf in
      decodeLoop fuel s pos buf
  end.
Definition decodeLH5 (buf : bytes) (win : Z) (src : bytes) : outcome bytes :=
  decodeLoop (length buf) (newLH5 src) win buf.

(** quake106.go [decodeLH5Seg] *)
Definition window : nat := 8192.
Definition decodeLH5Seg (resource : bytes) (off clen outLen : Z) : outcome (result string bytes) :=
  let end_ := off + clen in
  if (off <? 0) || (clen <? 0) || (Z.of_nat (length resource) <? end_)
  then Done (Err "resource.1 bounds invalid"%string) else
  if outLen <? 0 then Panic else
  let buf := repeat (byte_of 32) window ++ repeat (byte_of 0) (Z.to_nat outLen) in
  let! buf := decodeLH5 buf (Z.of_nat window)
                (take (Z.to_nat clen) (drop (Z.to_nat off) resource)) in
  Done (Ok (drop window buf)).

(** * Extraction *)

(** quake106.go [segPak0Off] and the other segment bounds *)
Definition segPak0Off : Z := 29041.
Definition segPak0Len : Z := 8612632.
Definition segPak0Out : Z := 18689235.
Definition segLicOff : Z := 9054733.
Definition segLicLen : Z := 4040.
Definition segLicOut : Z := 10036.
Definition Resource1SHA256 : string := "c192c9c71bee41750dd7d14c99378766d61e077977b9d13d1a457b8d9eabe34a".
Definition Pak0SHA256 : string := "35a9c55e5e5a284a159ad2a62e0e8def23d829561fe2f54eb402dbc0a9a946af".
Definition SlicnseSHA256 : string := "070cdf6a6410adef8fb5f83a4e5ccdb9e2301d2e48d460bb3a67a0f5ba9d70a8".

Section Extract.
Context `{GoUnicode}.
(** crypto/sha256 and hex, and the answers of the file system *)
Variable sha256Hex : bytes -> string.
Variable writeFile : string -> option string.

(** quake106.go [writeSeg]: the file written, if any *)
Definition writeSeg (resource : bytes) (off clen outLen : Z) (outPath wantSHA : string)
    : outcome (option (string * bytes) * option string) :=
  let! seg := decodeLH5Seg resource off clen outLen in
  match seg with
  | Err e => Done (None, Some e)
  | Ok b => if negb (sha256Hex b =? wantSHA)%string then Done (None, Some "output hash mismatch"%string)
            else Done (Some (outPath, b), writeFile outPath)
  end.

(** quake106.go [ExtractPak0] over the entries of the zip, with what reading one gives, and what
    making the directory gives: the files written and the error. *)
Definition isResource1 (name : string) : bool :=
  EqualFold (filepath_Base (ReplaceByte name (byte_of 92) "/")) "resource.1".
Definition ExtractPak0 (files : list (string * result string bytes)) (mkdirErr : option string)
    (destRoot : string) : outcome (list (string * bytes) * option string) :=
  match List.find (fun f => isResource1 (fst f)) files with
  | None => Done ([], Some "resource.1 not found"%string)
  | Some (_, Err e) => Done ([], Some e)
  | Some (_, Ok resource) =>
      if negb (sha256Hex resource =? Resource1SHA256)%string
      then Done ([], Some "resource.1 hash mismatch"%string) else
      match mkdirErr with
      | Some e => Done ([], Some e)
      | None =>
          let! (f1, e1) := writeSeg resource segPak0Off segPak0Len segPak0Out
                             (filepath_Join [destRoot; "pak0.pak"]%string) Pak0SHA256 in
          match e1 with
          | Some e => Done (match f1 with Some f => [f] | None => [] end, Some e)
          | None =>
              let! (f2, e2) := writeSeg resource segLicOff segLicLen segLicOut
                                 (filepath_Join [destRoot; "SLICNSE.TXT"]%string) SlicnseSHA256 in
              Done ((match f1 with Some f => [f] | None => [] end)
                    ++ (match f2 with Some f => [f] | None => [] end), e2)
          end
      end
  end.
End Extract.

(** * Facts: the bit reader *)

(** The bits of a byte sequence, the high bit of the first byte first, and zeros after its end. *)
Definition byteBit (l : bytes) (k : Z) : bool :=
  match nth_error l (Z.to_nat (k / 8)) with
  | Some c => Z.testbit (byteZ c) (7 - k mod 8)
  | None => false
  end.

(** The number the first [k] bits of a stream spell, and the stream after them. *)
Fixpoint valueOf (k : nat) (f : Z -> bool) : Z :=
  match k with
  | O => 0
  | S k => 2 * valueOf k f + Z.b2z (f (Z.of_nat k))
  end.
Definition shifted (k : Z) (f : Z -> bool) : Z -> bool := fun j => f (j + k).

(** The stream a reader stands for: its buffered bits, then those of the bytes not yet taken. *)
Definition stream (r : br) (j : Z) : bool :=
  if j <? brN r then Z.testbit (brV r) (63 - j) else byteBit (drop (brI r) (brB r)) (j - brN r).

Record br_wf (r : br) : Prop := {
  bw_n : 0 <= brN r <= 24;
  bw_v : 0 <= brV r < 2 ^ 64;
  bw_low : forall j, brN r <= j < 64 -> Z.testbit (brV r) (63 - j) = false;
}.
Definition br_ok (r : br) : Prop := br_wf r /\ brN r <= 7.

(** Two streams that agree on every bit. *)
Definition same (f g : Z -> bool) : Prop := forall j, 0 <= j -> f j = g j.
#[export] Instance same_equiv : Equivalence same.
Proof. split; unfold same; [done|intros f g H j Hj; by rewrite H|intros f g h H1 H2 j Hj; by rewrite H1, H2]. Qed.

Lemma valueOf_same k f g : same f g -> valueOf k f = valueOf k g.
Proof. intros Hs. induction k as [|k IH]; cbn [valueOf]; [done|]. by rewrite IH, Hs by lia. Qed.

Lemma shifted_same k f g : 0 <= k -> same f g -> same (shifted k f) (shifted k g).
Proof. intros Hk Hs j Hj. apply Hs. lia. Qed.

Lemma valueOf_testbit k f m :
  0 <= m -> Z.testbit (valueOf k f) m = (m <? Z.of_nat k) && f (Z.of_nat k - 1 - m).
Proof.
  revert m. induction k as [|k IH]; intros m Hm; cbn [valueOf].
  { rewrite Z.testbit_0_l. destruct (Z.ltb_spec m (Z.of_nat 0)); [lia|done]. }
  destruct (Z.eq_dec m 0) as [->|Hne].
  - rewrite Z.testbit_0_r. rewrite (proj2 (Z.ltb_lt 0 (Z.of_nat (S k)))) by lia. cbn. do 2 f_equal. lia.
  - replace m with (Z.succ (m - 1)) at 1 by lia. rewrite Z.testbit_succ_r, IH by lia.
    f_equal; [|f_equal; lia].
    destruct (Z.ltb_spec (m - 1) (Z.of_nat k)), (Z.ltb_spec m (Z.of_nat (S k))); lia.
Qed.

Lemma valueOf_range k f : 0 <= valueOf k f < 2 ^ Z.of_nat k.
Proof.
  induction k as [|k IH]; cbn [valueOf]; [cbn; lia|].
  rewrite Nat2Z.inj_succ, Z.pow_succ_r by lia. destruct (f (Z.of_nat k)); cbn [Z.b2z]; lia.
Qed.

Lemma testbit_high x n m : 0 <= x < 2 ^ n -> 0 <= n <= m -> Z.testbit x m = false.
Proof.
  intros Hx Hm. rewrite <- (Z.mod_small x (2 ^ n)) by done. apply Z.mod_pow2_bits_high. lia.
Qed.

Lemma byteBit_drop b i k : 0 <= k -> byteBit (drop i b) (k + 8) = byteBit (drop (S i) b) k.
Proof.
  intros Hk. unfold byteBit. replace ((k + 8) mod 8) with (k mod 8) by (Z.to_euclidean_division_equations; lia).
  replace (Z.to_nat ((k + 8) / 8)) with (S (Z.to_nat (k / 8))) by (Z.to_euclidean_division_equations; lia).
  replace (drop (S i) b) with (drop 1 (drop i b)) by (rewrite drop_drop; f_equal; lia).
  by destruct (drop i b) as [|c l]; [destruct (Z.to_nat _)|].
Qed.

Lemma byteBit_head b i j :
  0 <= j < 8 -> byteBit (drop i b) j = Z.testbit (match nth_error b i with Some c => byteZ c | None => 0 end) (7 - j).
Proof.
  intros Hj. unfold byteBit. rewrite Z.div_small, Z.mod_small by lia. change (Z.to_nat 0) with 0%nat.
  replace (nth_error (drop i b) 0) with (nth_error b i).
  - destruct (nth_error b i); [done|]. by rewrite Z.testbit_0_l.
  - rewrite nth_error_skipn. f_equal. lia.
Qed.

Lemma shl64_small x s n : 0 <= x < 2 ^ n -> 0 <= n -> 0 <= s -> n + s <= 64 -> s < 64 -> shl64 x s = Z.shiftl x s.
Proof.
  intros Hx Hn Hs Hle Hlt. unfold shl64. replace ((s <? 0) || (64 <=? s)) with false by lia.
  unfold wrap64. apply Z.mod_small. rewrite Z.shiftl_mul_pow2 by lia.
  assert (2 ^ n * 2 ^ s <= 2 ^ 64) by (rewrite <- Z.pow_add_r by lia; apply Z.pow_le_mono_r; lia).
  nia.
Qed.

Lemma refillByte_wf r :
  br_wf r -> brN r <= 16 -> br_wf (refillByte r) /\ same (stream (refillByte r)) (stream r)
                            /\ brN (refillByte r) = brN r + 8.
Proof.
  intros [Hn Hv Hl] Hle. destruct r as [b i v n]. cbn in Hn, Hv, Hl, Hle.
  set (c := match nth_error b i with Some c => byteZ c | None => 0 end).
  set (i' := match nth_error b i with Some _ => S i | None => i end).
  assert (0 <= c < 2 ^ 8) as Hc.
  { unfold c. destruct (nth_error b i) as [x|]; [|lia]. pose proof (byteZ_range x). lia. }
  assert (refillByte (mkBR b i v n) = mkBR b i' (Z.lor v (Z.shiftl c (56 - n))) (8 + n)) as ->.
  { rewrite <- (shl64_small c (56 - n) 8) by lia. unfold refillByte, c, i'.
    cbn [brB brI brV brN]. by destruct (nth_error b i). }
  assert (forall m, 0 <= m -> Z.testbit (Z.lor v (Z.shiftl c (56 - n))) m
            = Z.testbit v m || Z.testbit c (m - (56 - n))) as Hbit.
  { intros m Hm. by rewrite Z.lor_spec, Z.shiftl_spec by lia. }
  assert (forall m, 0 <= m -> n <= 63 - m -> Z.testbit v m = false) as Hlow.
  { intros m Hm Hnm. replace m with (63 - (63 - m)) by lia. apply Hl. lia. }
  split; [|split; [|cbn [brN]; lia]].
  - constructor; cbn [brN brV]; [lia| |].
    + assert (0 <= Z.lor v (Z.shiftl c (56 - n))) as Hpos.
      { apply Z.lor_nonneg. split; [lia|]. apply Z.shiftl_nonneg. lia. }
      split; [done|]. destruct (Z.eq_dec (Z.lor v (Z.shiftl c (56 - n))) 0) as [->|Hnz]; [lia|].
      apply Z.log2_lt_pow2; [lia|]. rewrite Z.log2_lor; [|lia|apply Z.shiftl_nonneg; lia].
      apply Z.max_lub_lt.
      * destruct (Z.eq_dec v 0) as [->|]; [cbn; lia|]. apply Z.log2_lt_pow2; lia.
      * destruct (Z.eq_dec c 0) as [->|]; [rewrite Z.shiftl_0_l; cbn; lia|].
        rewrite Z.log2_shiftl by lia. assert (Z.log2 c < 8) by (apply Z.log2_lt_pow2; lia). lia.
    + intros j Hj. rewrite Hbit, Hlow by lia. apply Z.testbit_neg_r. lia.
  - intros j Hj. unfold stream. cbn [brB brI brV brN].
    destruct (Z.ltb_spec j n), (Z.ltb_spec j (8 + n)); try lia.
    + rewrite Hbit by lia. rewrite (testbit_high c 8) by lia. by rewrite orb_false_r.
    + rewrite Hbit, Hlow by lia. cbn. rewrite byteBit_head by lia. fold c. f_equal. lia.
    + replace (j - n) with (j - (8 + n) + 8) by lia. rewrite byteBit_drop by lia. unfold i'.
      destruct (nth_error b i) eqn:Hb; [done|]. apply nth_error_None in Hb.
      unfold byteBit. rewrite !drop_ge by lia. done.
Qed.


Lemma refill_spec k fuel : forall r,
  br_wf r -> 0 <= k <= 16 -> brN r <= k + 7 -> k <= brN r + 8 * Z.of_nat fuel ->
  let r' := refill fuel k r in
  br_wf r' /\ same (stream r') (stream r) /\ k <= brN r' <= k + 7.
Proof.
  induction fuel as [|fuel IH]; intros r Hr Hk Hn Hf; cbn [refill].
  { split_and!; [done|reflexivity|lia|lia]. }
  destruct (Z.ltb_spec (brN r) k).
  - destruct (refillByte_wf r Hr) as (Hwf & Hs & HN); [lia|].
    destruct (IH (refillByte r)) as (Hwf' & Hs' & HN'); [done|lia|lia|lia|].
    split_and!; [done|by etrans|lia|lia].
  - split_and!; [done|reflexivity|lia|lia].
Qed.

(** Reading consumes the first [k] bits of the stream. *)
Lemma bits_spec k r :
  br_ok r -> 0 <= k <= 16 ->
  let '(v, r') := bits k r in
  br_ok r' /\ v = valueOf (Z.to_nat k) (stream r) /\ same (stream r') (shifted k (stream r)).
Proof.
  intros [Hr H7] Hk. pose proof (bw_n r Hr) as Hn0. unfold bits. pose proof (refill_spec k (Z.to_nat k)) as Href.
  destruct (Z.le_gt_cases (brN r) (k + 7)) as [Hle|]; [|lia].
  specialize (Href r Hr Hk Hle ltac:(lia)). cbv zeta in Href.
  set (r1 := refill (Z.to_nat k) k r) in *. destruct Href as (Hwf & Hsame & HN).
  assert (brN r1 - k <= 7) as HN7 by lia.
  destruct Hwf as [Hn Hv Hl]. destruct r1 as [b i v n] eqn:Hr1. cbn [brB brI brV brN] in *.
  assert (shl64 v k = wrap64 (Z.shiftl v k)) as Hshl
    by (unfold shl64; by replace ((k <? 0) || (64 <=? k)) with false by lia).
  assert (forall m, 0 <= m < 64 -> Z.testbit (shl64 v k) m = Z.testbit v (m - k)) as Hbit.
  { intros m Hm. rewrite Hshl. unfold wrap64. rewrite Z.mod_pow2_bits_low by lia.
    by rewrite Z.shiftl_spec by lia. }
  split; [split|split].
  - constructor; cbn; [lia| |].
    + rewrite Hshl. apply Z.mod_pos_bound. lia.
    + intros j Hj. rewrite Hbit by lia.
      destruct (Z.lt_ge_cases (63 - j - k) 0); [apply Z.testbit_neg_r; lia|].
      replace (63 - j - k) with (63 - (j + k)) by lia. apply Hl. lia.
  - cbn. lia.
  - rewrite <- (valueOf_same _ _ _ Hsame). apply Z.bits_inj'. intros m Hm.
    rewrite valueOf_testbit by done. unfold wrap16, stream. cbn [brB brI brV brN].
    rewrite Z2Nat.id by lia. destruct (Z.ltb_spec m k) as [Hmk|Hmk].
    + rewrite Z.mod_pow2_bits_low by lia. unfold shr64.
      replace ((64 - k <? 0) || (64 <=? 64 - k)) with false by lia.
      rewrite Z.shiftr_spec by lia. replace (k - 1 - m <? n) with true by lia. cbn. f_equal. lia.
    + cbn [andb]. destruct (Z.lt_ge_cases m 16); [|by rewrite Z.mod_pow2_bits_high by lia].
      rewrite Z.mod_pow2_bits_low by lia. unfold shr64. destruct (_ || _); [apply Z.testbit_0_l|].
      rewrite Z.shiftr_spec by lia. apply (testbit_high v 64); lia.
  - intros j Hj. unfold shifted. rewrite <- Hsame by lia. unfold stream. cbn.
    destruct (Z.ltb_spec j (n - k)), (Z.ltb_spec (j + k) n); try lia.
    + rewrite Hbit by lia. f_equal. lia.
    + f_equal. lia.
Qed.

(** Reads of several sizes in a row. *)
Fixpoint readBits (ks : list Z) (r : br) : list Z :=
  match ks with
  | [] => []
  | k :: ks => let '(v, r) := bits k r in v :: readBits ks r
  end.
Fixpoint slices (ks : list Z) (f : Z -> bool) : list Z :=
  match ks with
  | [] => []
  | k :: ks => valueOf (Z.to_nat k) f :: slices ks (shifted k f)
  end.

Lemma slices_same ks f g : Forall (fun k => 0 <= k) ks -> same f g -> slices ks f = slices ks g.
Proof.
  intros Hks. revert f g. induction Hks as [|k ks Hk _ IH]; intros f g Hs; [done|]. cbn.
  rewrite (valueOf_same _ _ _ Hs). f_equal. by apply IH, shifted_same.
Qed.

Lemma readBits_slices ks r :
  br_ok r -> Forall (fun k => 0 <= k <= 16) ks -> readBits ks r = slices ks (stream r).
Proof.
  intros Hr Hks. revert r Hr. induction Hks as [|k ks Hk Hks IH]; intros r Hr; [done|]. cbn [readBits slices].
  pose proof (bits_spec k r Hr Hk) as Hb. destruct (bits k r) as [v r'].
  destruct Hb as (Hr' & -> & Hs). f_equal. rewrite (IH r' Hr').
  apply slices_same; [|done]. eapply Forall_impl; [exact Hks|]. intros x Hx. cbv beta in *. lia.
Qed.

Lemma newBR_ok src : br_ok (newBR src).
Proof. split; [|cbn; lia]. constructor; cbn; [lia|lia|]. intros. apply Z.testbit_0_l. Qed.

(** The bit reader reads the bits: with its 64-bit buffer, its refills and its shifts, any
    sequence of reads of at most sixteen bits each gives the numbers that the bits of the source
    spell, in order and without a gap, high bits first, and zeros past its end. *)
Theorem readBits_source src ks :
  Forall (fun k => 0 <= k <= 16) ks -> readBits ks (newBR src) = slices ks (byteBit src).
Proof.
  intros Hks. rewrite readBits_slices by (done || apply newBR_ok).
  apply slices_same; [eapply Forall_impl; [exact Hks|]; intros x Hx; cbv beta in *; lia|].
  intros j Hj. unfold stream. cbn. replace (j <? 0) with false by lia. f_equal. lia.
Qed.

(** * Facts: no run out of fuel *)

(** A computation that ends, in a panic or with a value that satisfies [P]. *)
Definition safe {A} (P : A -> Prop) (o : outcome A) : Prop :=
  match o with Done a => P a | Panic => True | OutOfFuel => False end.

Lemma safe_bind {A B} (P : A -> Prop) (Q : B -> Prop) (o : outcome A) (k : A -> outcome B) :
  safe P o -> (forall a, P a -> safe Q (k a)) -> safe Q (let! x := o in k x).
Proof. destruct o; cbn; auto. Qed.

Lemma safe_impl {A} (P Q : A -> Prop) (o : outcome A) :
  safe P o -> (forall a, P a -> Q a) -> safe Q o.
Proof. destruct o; cbn; auto. Qed.

Lemma index_safe {A} (P : A -> Prop) (l : list A) i : Forall P l -> safe P (index l i).
Proof.
  intros Hl. unfold index. destruct (i <? 0); [done|].
  destruct (nth_error l (Z.to_nat i)) as [a|] eqn:Hi; [|done].
  apply nth_error_In in Hi. by apply (proj1 (List.Forall_forall _ _) Hl).
Qed.

Lemma setIndex_safe {A} (l : list A) i a :
  safe (fun l' => l' = <[Z.to_nat i := a]> l /\ 0 <= i < Z.of_nat (length l)) (setIndex l i a).
Proof.
  unfold setIndex. destruct (_ && _) eqn:Hb; cbn; [|done]. split; [done|].
  apply andb_true_iff in Hb as [? ?]. lia.
Qed.

Lemma setIndex_length {A} (l : list A) i a : safe (fun l' => length l' = length l) (setIndex l i a).
Proof. eapply safe_impl; [apply setIndex_safe|]. intros l' [-> _]. apply length_insert. Qed.

Lemma setIndex_Forall {A} (P : A -> Prop) (l : list A) i a :
  Forall P l -> P a -> safe (Forall P) (setIndex l i a).
Proof.
  intros Hl Ha. eapply safe_impl; [apply setIndex_safe|]. intros l' [-> _]. by apply Forall_insert.
Qed.

Create HintDb lh5.
#[export] Hint Resolve index_safe setIndex_length setIndex_Forall : lh5.

(** What a decoded value is: of a table whose entries are not negative, it is not negative. *)
Definition huff_ok (h : huff) : Prop := 0 <= val h /\ Forall (Z.le 0) (sym h).

Lemma wrap16_nonneg z : 0 <= wrap16 z.
Proof. unfold wrap16. apply Z.mod_pos_bound. lia. Qed.
Lemma bits_nonneg k r : 0 <= fst (bits k r).
Proof. unfold bits. cbn. apply wrap16_nonneg. Qed.
#[export] Hint Resolve wrap16_nonneg bits_nonneg : lh5.

Ltac safe_step :=
  lazymatch goal with
  | |- safe _ (match ?c with Done _ => _ | Panic => _ | OutOfFuel => _ end) => eapply safe_bind
  | |- safe _ (let '(_, _) := bits ?k ?r in _) =>
      pose proof (bits_nonneg k r); destruct (bits k r) as [? ?] eqn:?; cbn [fst] in *
  | |- safe _ (if ?c then _ else _) => destruct c eqn:?
  end.

Lemma True_safe {A} (o : outcome A) : o <> OutOfFuel -> safe (fun _ => True) o.
Proof. by destruct o. Qed.

Lemma index_any {A} (l : list A) i : safe (fun _ => True) (index l i).
Proof. apply index_safe. by apply Forall_true. Qed.

Lemma countLengths_safe l : forall cnt, safe (fun _ => True) (countLengths l cnt).
Proof.
  induction l as [|v l IH]; intros cnt; cbn [countLengths]; [done|]. safe_step; [apply IH|].
  safe_step; [apply index_any|]. intros c _. safe_step; [apply setIndex_length|]. intros l' _. apply IH.
Qed.

Lemma firstCodes_safe steps : forall i code cnt first start,
  safe (fun _ => True) (firstCodes steps i code cnt first start).
Proof.
  induction steps as [|steps IH]; intros; cbn [firstCodes]; [done|].
  do 2 (safe_step; [apply index_any|intros ? _]). cbv zeta.
  do 2 (safe_step; [apply setIndex_length|intros ? _]). apply IH.
Qed.

Lemma placeSymbols_safe l : forall i next sym,
  Forall (Z.le 0) sym -> safe (Forall (Z.le 0)) (placeSymbols l i next sym).
Proof.
  induction l as [|v l IH]; intros i next sym Hs; cbn [placeSymbols]; [done|].
  safe_step; [by apply IH|]. safe_step; [apply index_any|]. intros at_ _.
  safe_step; [by apply setIndex_Forall; [|apply wrap16_nonneg]|]. intros sym' Hs'.
  safe_step; [apply setIndex_length|]. intros ? _. by apply IH.
Qed.

Lemma mkH_safe l : safe huff_ok (mkH l).
Proof.
  unfold mkH. safe_step; [apply countLengths_safe|]. intros cnt _.
  safe_step; [apply firstCodes_safe|]. intros [first start] _. cbv zeta.
  safe_step; [apply placeSymbols_safe, List.Forall_forall; intros x Hx%repeat_spec; lia|].
  intros sym Hs. split; [cbn; lia|done].
Qed.

Lemma decLoop_safe h steps : Forall (Z.le 0) (sym h) -> forall l code r,
  safe (fun '(v, _) => 0 <= v) (decLoop steps h l code r).
Proof.
  intros Hs. induction steps as [|steps IH]; intros l code r; cbn [decLoop]; [cbn; lia|].
  safe_step. safe_step; [apply index_any|]. intros f _. safe_step; [apply IH|].
  safe_step; [apply index_any|]. intros c _. cbv zeta. safe_step; [|apply IH].
  safe_step; [apply index_any|]. intros s _. safe_step; [by apply index_safe|]. done.
Qed.
Lemma dec_safe h r : huff_ok h -> safe (fun '(v, _) => 0 <= v) (dec h r).
Proof. intros [Hv Hs]. unfold dec. destruct (one h); [done|]. by apply decLoop_safe. Qed.

Lemma skipZeros_safe z : forall i limit l,
  safe (fun '(i', l') => i <= i' /\ (z <> O -> i < limit -> i < i') /\ length l' = length l)
       (skipZeros z i limit l).
Proof.
  induction z as [|z IH]; intros i limit l; cbn [skipZeros]; [cbn; lia|].
  safe_step; [|cbn; lia]. safe_step; [apply setIndex_length|]. intros l' Hl.
  eapply safe_impl; [apply IH|]. intros [i' l2] (? & ? & ?). cbv beta in Hl. lia.
Qed.

Lemma pLoop_safe special n0 fuel : forall i l r,
  Z.max 0 (n0 - i) < Z.of_nat fuel -> safe (fun _ => True) (pLoop fuel special n0 i l r).
Proof.
  induction fuel as [|fuel IH]; intros i l r Hf; [lia|]. cbn [pLoop].
  safe_step; [done|]. apply negb_false_iff, Z.ltb_lt in Heqb. safe_step.
  destruct (if z =? 7 then _ else _) as [c r'].
  safe_step; [apply setIndex_length|]. intros l' _. cbv zeta. safe_step; [|apply IH; lia].
  safe_step. safe_step; [apply skipZeros_safe|]. intros [i' l2] (? & _). apply IH. lia.
Qed.

Lemma cLoop_safe nbits tmp n n0 fuel : huff_ok tmp -> n0 <= n -> forall i l r,
  Z.max 0 (n0 - i) < Z.of_nat fuel -> safe (fun _ => True) (cLoop fuel nbits tmp n n0 i l r).
Proof.
  intros Ht Hn. induction fuel as [|fuel IH]; intros i l r Hf; [lia|]. cbn [cLoop].
  safe_step; [done|]. apply negb_false_iff, Z.ltb_lt in Heqb.
  safe_step; [by apply dec_safe|]. intros [c r'] _. safe_step.
  { safe_step; [apply setIndex_length|]. intros l' _. apply IH. lia. }
  destruct (if c =? 1 then _ else _) as [z r2] eqn:Hz.
  assert (1 <= z).
  { destruct (c =? 1); [|destruct (c =? 2)].
    - pose proof (bits_nonneg 4 r'). destruct (bits 4 r'). cbn in *. injection Hz. lia.
    - pose proof (bits_nonneg nbits r'). destruct (bits nbits r'). cbn [fst] in *. injection Hz. lia.
    - injection Hz. lia. }
  safe_step; [apply skipZeros_safe|]. intros [i' l2] (? & ? & _). apply IH. lia.
Qed.

Lemma pTree_safe nbits special n r : safe (fun '(h, _) => huff_ok h) (pTree nbits special n r).
Proof.
  unfold pTree. safe_step. safe_step.
  { safe_step. split; [done|constructor]. }
  cbv zeta. safe_step; [apply pLoop_safe; lia|]. intros [l r'] _.
  safe_step; [apply mkH_safe|]. done.
Qed.
Lemma cTree_safe nbits tmp n r : huff_ok tmp -> safe (fun '(h, _) => huff_ok h) (cTree nbits tmp n r).
Proof.
  intros Ht. unfold cTree. safe_step. safe_step.
  { safe_step. split; [done|constructor]. }
  cbv zeta. safe_step; [apply cLoop_safe; [done|lia|lia]|]. intros [l r'] _.
  safe_step; [apply mkH_safe|]. done.
Qed.

(** A round decodes a token that adds at least a byte, from an offset that is not negative. *)
Definition token_ok (t : token) : Prop :=
  match t with literal _ => True | copyMatch off ln => 0 <= off /\ 3 <= ln end.
Definition lh5_ok (s : lh5) : Prop := huff_ok (lhC s) /\ huff_ok (lhP s).

Lemma nextToken_safe s : lh5_ok s -> safe (fun '(t, s') => token_ok t /\ lh5_ok s') (nextToken s).
Proof.
  intros [Hc Hp]. unfold nextToken.
  eapply safe_bind with (P := fun '(_, _, c, p) => huff_ok c /\ huff_ok p).
  { safe_step; [|done]. safe_step. safe_step; [apply pTree_safe|]. intros [t r1] Ht.
    safe_step; [by apply cTree_safe|]. intros [c r2] Hc'. safe_step; [apply pTree_safe|]. by intros [p r3] Hp'. }
  intros [[[r nblk] c] p] [Hc' Hp']. cbv zeta. safe_step; [by apply dec_safe|]. intros [v r1] Hv.
  safe_step; [done|]. cbv zeta. safe_step; [by apply dec_safe|]. intros [ov r2] Hov.
  destruct (if 0 <? ov then _ else _) as [off r3] eqn:Hoff. split; [|done].
  split; [|lia]. destruct (0 <? ov) eqn:Ho; [|injection Hoff; lia].
  cbv zeta in Hoff. pose proof (bits_nonneg (ov - 1) r2). destruct (bits _ _). cbn [fst] in *.
  injection Hoff as <- _. pose proof (proj2 (Z.shiftl_nonneg 1 (ov - 1)) ltac:(lia)). lia.
Qed.

(** * A reference decoder *)

(** The LZSS semantics of a token over the bytes decoded so far: a match repeats the last
    [off + 1] of them until it has [ln] bytes; it may be longer than what it repeats. *)
Definition cycle (out : bytes) (p i : nat) : byte := nth (length out - p + i mod p) out (byte_of 0).
Definition expandToken (out : bytes) (t : token) : outcome bytes :=
  match t with
  | literal b => Done (out ++ [b])
  | copyMatch off ln =>
      let p := S (Z.to_nat off) in
      if (length out <? p)%nat then Panic
      else Done (out ++ map (cycle out p) (seq 0 (Z.to_nat ln)))
  end.
(** Tokens until there are enough bytes; the last match may give more than that. *)
Fixpoint expandLoop (fuel : nat) (limit : nat) (s : lh5) (out : bytes) : outcome bytes :=
  if (limit <=? length out)%nat then Done (take limit out) else
  match fuel with
  | O => OutOfFuel
  | S fuel =>
      let! (t, s) := nextToken s in
      let! out := expandToken out t in
      expandLoop fuel limit s out
  end.
(** The segment: the bytes after a window of spaces. *)
Definition expandSeg (resource : bytes) (off clen outLen : Z) : outcome (result string bytes) :=
  if (off <? 0) || (clen <? 0) || (Z.of_nat (length resource) <? off + clen)
  then Done (Err "resource.1 bounds invalid"%string) else
  if outLen <? 0 then Panic else
  let! out := expandLoop (window + Z.to_nat outLen) (window + Z.to_nat outLen)
                (newLH5 (take (Z.to_nat clen) (drop (Z.to_nat off) resource)))
                (repeat (byte_of 32) window) in
  Done (Ok (drop window out)).

Lemma nth_error_lookup' {A} (l : list A) i : nth_error l i = l !! i.
Proof. revert i. induction l as [|a l IH]; intros [|i]; cbn; auto. Qed.
Lemma index_lookup {A} (l : list A) (i : nat) a : l !! i = Some a -> index l (Z.of_nat i) = Done a.
Proof.
  intros Hi. unfold index. destruct (Z.ltb_spec (Z.of_nat i) 0); [lia|].
  by rewrite Nat2Z.id, nth_error_lookup', Hi.
Qed.
Lemma setIndex_in {A} (l : list A) (i : nat) a :
  (i < length l)%nat -> setIndex l (Z.of_nat i) a = Done (<[i := a]> l).
Proof.
  intros Hi. unfold setIndex.
  destruct (Z.leb_spec 0 (Z.of_nat i)), (Z.ltb_spec (Z.of_nat i) (Z.of_nat (length l))); try lia.
  cbn [andb]. by rewrite Nat2Z.id.
Qed.
Lemma take_S_insert {A} (l : list A) i a :
  (i < length l)%nat -> take (S i) (<[i := a]> l) = take i l ++ [a].
Proof.
  intros Hi. rewrite (take_S_r _ _ a) by (by apply list_lookup_insert_eq).
  by rewrite take_insert_ge by lia.
Qed.

(** The byte to copy next is among those already there. *)
Lemma cycle_lookup out p i :
  (0 < p <= length out)%nat ->
  (out ++ map (cycle out p) (seq 0 i)) !! (length out - p + i)%nat = Some (cycle out p i).
Proof.
  intros Hp. destruct (Nat.lt_ge_cases i p) as [Hi|Hi].
  - rewrite lookup_app_l by lia. unfold cycle. rewrite Nat.mod_small by done.
    destruct (lookup_lt_is_Some_2 out (length out - p + i)) as [b Hb]; [lia|].
    by rewrite Hb, (nth_lookup_Some _ _ _ _ Hb).
  - rewrite lookup_app_r by lia. rewrite list_lookup_fmap, lookup_seq_lt by lia. cbn. f_equal.
    unfold cycle. do 2 f_equal. replace i with (i - p + 1 * p)%nat at 2 by lia.
    rewrite Nat.Div0.mod_add. f_equal. lia.
Qed.

Lemma copyLoop_cycle out p togo : (0 < p <= length out)%nat -> forall i buf,
  (length out + i + togo <= length buf)%nat ->
  take (length out + i) buf = out ++ map (cycle out p) (seq 0 i) ->
  exists buf', copyLoop togo (Z.of_nat (length out - p)) (Z.of_nat i) (Z.of_nat (length out + i)) buf = Done buf'
    /\ length buf' = length buf
    /\ take (length out + (i + togo)) buf' = out ++ map (cycle out p) (seq 0 (i + togo)).
Proof.
  intros Hp. induction togo as [|togo IH]; intros i buf Hlen Htake; cbn [copyLoop].
  { exists buf. by rewrite Nat.add_0_r. }
  rewrite <- Nat2Z.inj_add.
  rewrite (index_lookup _ _ (cycle out p i)).
  2: { rewrite <- (cycle_lookup out p i Hp), <- Htake, lookup_take_lt by lia. done. }
  rewrite setIndex_in by lia.
  replace (Z.of_nat i + 1) with (Z.of_nat (S i)) by lia.
  replace (Z.of_nat (length out + i) + 1) with (Z.of_nat (length out + S i)) by lia.
  destruct (IH (S i) (<[(length out + i)%nat := cycle out p i]> buf)) as (buf' & -> & Hl & Ht).
  - rewrite length_insert. lia.
  - rewrite Nat.add_succ_r, take_S_insert by lia. rewrite Htake, seq_S, map_app, app_assoc. done.
  - exists buf'. rewrite length_insert in Hl. by replace (i + S togo)%nat with (S i + togo)%nat by lia.
Qed.

(** The buffer holds the bytes decoded so far up to the position. *)
Definition buffered (limit : nat) (out : bytes) (pos : Z) (buf : bytes) : Prop :=
  pos = Z.of_nat (Nat.min limit (length out)) /\ length buf = limit
  /\ take (Z.to_nat pos) buf = take limit out.

Lemma applyToken_expand limit out t pos buf :
  token_ok t -> (length out < limit)%nat -> buffered limit out pos buf ->
  match applyToken t pos buf, expandToken out t with
  | Done (pos', buf'), Done out' => buffered limit out' pos' buf' /\ (length out < length out')%nat
  | Panic, Panic => True
  | _, _ => False
  end.
Proof.
  intros Ht Hlt (Hpos & Hlen & Htake). rewrite Nat.min_r in Hpos by lia.
  rewrite Hpos, Nat2Z.id, (take_ge out) in Htake by lia. subst pos.
  destruct t as [b|off ln]; cbn [applyToken expandToken].
  - rewrite setIndex_in by lia. split; [|rewrite length_app; cbn; lia].
    unfold buffered. rewrite length_app, length_insert. cbn. split_and!; [lia|done|].
    replace (Z.to_nat (Z.of_nat (length out) + 1)) with (S (length out)) by lia.
    rewrite take_S_insert, Htake, take_ge by (rewrite ?length_app; cbn; lia). done.
  - cbn in Ht. set (p := S (Z.to_nat off)). cbv zeta.
    set (ln' := Z.min ln (Z.of_nat (length buf) - Z.of_nat (length out))).
    destruct (Nat.ltb_spec (length out) p) as [Hp|Hp].
    + destruct (Z.to_nat ln') as [|togo] eqn:Hl; [lia|]. cbn [copyLoop].
      unfold index. destruct (Z.ltb_spec (Z.of_nat (length out) - off - 1 + 0) 0); [done|lia].
    + replace (Z.of_nat (length out) - off - 1) with (Z.of_nat (length out - p)) by lia.
      destruct (copyLoop_cycle out p (Z.to_nat ln')) with (i := 0%nat) (buf := buf)
        as (buf' & Hc & Hl & Hbuf); [lia|lia|by rewrite Nat.add_0_r, app_nil_r|].
      rewrite Nat.add_0_r in Hc. change (Z.of_nat 0) with 0 in Hc. rewrite Hc.
      split; [|rewrite length_app, length_map, length_seq; lia].
      unfold buffered. rewrite length_app, length_map, length_seq. split_and!; [lia|lia|].
      replace (Z.to_nat (Z.of_nat (length out) + ln')) with (length out + (0 + Z.to_nat ln'))%nat by lia.
      rewrite Hbuf, take_app_ge by lia. f_equal. rewrite firstn_map, take_seq. cbn [Nat.add].
      do 2 f_equal. lia.
Qed.

Lemma decodeLoop_expand limit fuel : forall s out pos buf,
  lh5_ok s -> buffered limit out pos buf ->
  decodeLoop fuel s pos buf = expandLoop fuel limit s out.
Proof.
  induction fuel as [|fuel IH]; intros s out pos buf Hs Hb; cbn [decodeLoop expandLoop];
    pose proof Hb as (Hpos & Hlen & Htake);
    destruct (Z.ltb_spec pos (Z.of_nat (length buf))), (Nat.leb_spec limit (length out)); try lia;
    cbn [negb].
  2,4: f_equal; rewrite <- Htake, take_ge by lia; done.
  - done.
  - pose proof (nextToken_safe s Hs) as Hn. destruct (nextToken s) as [[t s']| |]; [|done|done].
    destruct Hn as [Ht Hs']. pose proof (applyToken_expand limit out t pos buf Ht ltac:(lia) Hb) as He.
    destruct (applyToken t pos buf) as [[pos' buf']| |], (expandToken out t) as [out'| |]; try done.
    destruct He as [He _]. by apply IH.
Qed.

Lemma newLH5_ok src : lh5_ok (newLH5 src).
Proof. split; (split; [done|constructor]). Qed.

#[local] Opaque window.

Lemma buffered_init n k : buffered (n + k) (repeat (byte_of 32) n) (Z.of_nat n)
                                   (repeat (byte_of 32) n ++ repeat (byte_of 0) k).
Proof.
  unfold buffered. rewrite length_app, !repeat_length. split_and!; [lia|done|].
  rewrite Nat2Z.id, take_app_le, take_ge, take_ge by (rewrite ?repeat_length; lia). done.
Qed.

Lemma decodeLH5_expand outLen src :
  decodeLH5 (repeat (byte_of 32) window ++ repeat (byte_of 0) outLen) (Z.of_nat window) src
  = expandLoop (window + outLen) (window + outLen) (newLH5 src) (repeat (byte_of 32) window).
Proof.
  unfold decodeLH5. rewrite length_app, !repeat_length.
  apply decodeLoop_expand; [apply newLH5_ok|apply buffered_init].
Qed.

(** The reference decoder has enough fuel: a round adds a byte. *)
Lemma expandLoop_safe limit fuel : forall s out,
  lh5_ok s -> (limit <= length out + fuel)%nat ->
  safe (fun b => length b = limit) (expandLoop fuel limit s out).
Proof.
  induction fuel as [|fuel IH]; intros s out Hs Hf; cbn [expandLoop];
    destruct (Nat.leb_spec limit (length out)); try lia.
  1,2: cbn; rewrite length_take; lia.
  safe_step; [by apply nextToken_safe|]. intros [t s'] [Ht Hs'].
  safe_step.
  - instantiate (1 := fun out' => (length out < length out')%nat). destruct t; cbn [expandToken].
    + cbn. rewrite length_app. cbn. lia.
    + cbv zeta. safe_step; [done|]. cbn [safe]. rewrite length_app, length_map, length_seq. cbn in Ht. lia.
  - intros out' Ho. cbv beta in Ho. apply IH; [done|lia].
Qed.

(** C26.  The decoder is the LZSS decoder: on any resource and bounds, in place over one buffer,
    with its copies that read what they have just written and its cut of the last match at the
    buffer's end, it gives what the reference gives, that appends literals and cyclic repeats
    of the last bytes to a list and cuts the list once; and it panics exactly when the
    reference meets an offset before the beginning of the window, or a bad table. *)
Theorem decodeLH5Seg_reference resource off clen outLen :
  decodeLH5Seg resource off clen outLen = expandSeg resource off clen outLen.
Proof.
  unfold decodeLH5Seg, expandSeg. destruct (_ || _); [done|].
  destruct (outLen <? 0); [done|]. cbv zeta. by rewrite decodeLH5_expand.
Qed.

(** What the decoder gives, when the segment is inside the resource. *)
Lemma decodeLH5Seg_safe resource off clen outLen :
  safe (fun b => match b with
                 | Ok b => 0 <= off /\ 0 <= clen /\ off + clen <= Z.of_nat (length resource)
                           /\ Z.of_nat (length b) = outLen
                 | Err _ => ~ (0 <= off /\ 0 <= clen /\ off + clen <= Z.of_nat (length resource))
                 end) (decodeLH5Seg resource off clen outLen).
Proof.
  unfold decodeLH5Seg. cbv zeta.
  destruct (Z.ltb_spec off 0), (Z.ltb_spec clen 0), (Z.ltb_spec (Z.of_nat (length resource)) (off + clen));
    cbn [orb safe]; try lia.
  assert (0 <= off /\ 0 <= clen /\ off + clen <= Z.of_nat (length resource)) as Hin by lia.
  destruct (Z.ltb_spec outLen 0); [done|]. rewrite decodeLH5_expand.
  pose proof (expandLoop_safe (window + Z.to_nat outLen) (window + Z.to_nat outLen)
    (newLH5 (take (Z.to_nat clen) (drop (Z.to_nat off) resource))) (repeat (byte_of 32) window)
    (newLH5_ok _) ltac:(lia)) as Hs.
  destruct (expandLoop _ _ _ _) as [b| |]; [|done|done]. cbn in Hs |- *.
  destruct Hin as (? & ? & ?). split_and!; [done|done|done|]. rewrite length_drop, Hs. lia.
Qed.

(** C27.  The decoder ends: whatever the bytes, it either panics or gives exactly as many bytes
    as it was asked for, with the tables' loops and its own ended; and it reports an error
    exactly when the segment is not inside the resource. *)
Theorem decodeLH5Seg_total resource off clen outLen :
  match decodeLH5Seg resource off clen outLen with
  | Done (Ok b) => 0 <= off /\ 0 <= clen /\ off + clen <= Z.of_nat (length resource)
                   /\ Z.of_nat (length b) = outLen
  | Done (Err _) => ~ (0 <= off /\ 0 <= clen /\ off + clen <= Z.of_nat (length resource))
  | Panic => True
  | OutOfFuel => False
  end.
Proof. apply decodeLH5Seg_safe. Qed.

(** * Canonical Huffman codes *)

(** The occurrences of a length, the symbols of shorter codes, and the code of a symbol: codes
    of a length are consecutive, and begin after the shorter codes extended with zeros. *)
Fixpoint occ (v : Z) (l : list Z) : Z :=
  match l with [] => 0 | x :: l => (if x =? v then 1 else 0) + occ v l end.
Fixpoint before (v : Z) (l : list Z) : Z :=
  match l with [] => 0 | x :: l => (if (0 <? x) && (x <? v) then 1 else 0) + before v l end.
Fixpoint shorter (v : Z) (l : list Z) : Z :=
  match l with [] => 0 | x :: l => (if (0 <? x) && (x <? v) then 2 ^ (v - x) else 0) + shorter v l end.
Definition codeOf (l : list Z) (i : nat) : Z :=
  let v := nth i l 0 in shorter v l + occ v (take i l).

(** Lengths a code exists for: Kraft's inequality, for lengths up to 16. *)
Fixpoint kraft (l : list Z) : Z :=
  match l with [] => 0 | x :: l => (if 0 <? x then 2 ^ (16 - x) else 0) + kraft l end.
Record lengths_ok (l : list Z) : Prop := {
  lo_range : Forall (fun v => 0 <= v <= 16) l;
  lo_kraft : kraft l <= 2 ^ 16;
}.

Definition occ1 (v : Z) (l : list Z) : Z := if 0 <? v then occ v l else 0.

Lemma occ_range v l : 0 <= occ v l <= Z.of_nat (length l).
Proof. induction l as [|x l IH]; cbn [occ length]; [lia|]. destruct (x =? v); lia. Qed.
Lemma before_range v l : 0 <= before v l <= Z.of_nat (length l).
Proof. induction l as [|x l IH]; cbn [before length]; [lia|]. destruct (_ && _); lia. Qed.
Lemma occ_app v l1 l2 : occ v (l1 ++ l2) = occ v l1 + occ v l2.
Proof. induction l1 as [|x l1 IH]; cbn [occ app]; lia. Qed.

Lemma before_step v l : before (v + 1) l = before v l + occ1 v l.
Proof.
  unfold occ1. induction l as [|x l IH]; cbn [before occ]; [by destruct (0 <? v)|]. rewrite IH.
  destruct (Z.ltb_spec 0 v), (Z.ltb_spec 0 x), (Z.ltb_spec x (v + 1)), (Z.ltb_spec x v), (Z.eqb_spec x v);
    cbn [andb]; lia.
Qed.
Lemma shorter_step v l : 0 <= v -> shorter (v + 1) l = 2 * (shorter v l + occ1 v l).
Proof.
  intros Hv. unfold occ1. induction l as [|x l IH]; cbn [shorter occ]; [by destruct (0 <? v)|].
  rewrite IH.
  destruct (Z.ltb_spec 0 v), (Z.ltb_spec 0 x), (Z.ltb_spec x (v + 1)), (Z.ltb_spec x v), (Z.eqb_spec x v);
    cbn [andb]; try lia.
  - replace (v + 1 - x) with (Z.succ (v - x)) by lia. rewrite Z.pow_succ_r by lia. lia.
  - subst x. replace (v + 1 - v) with 1 by lia. lia.
Qed.
Lemma before_mono v w l : v <= w -> before v l <= before w l.
Proof.
  intros Hvw. induction l as [|x l IH]; cbn [before]; [lia|].
  destruct (Z.ltb_spec 0 x), (Z.ltb_spec x v), (Z.ltb_spec x w); cbn [andb]; lia.
Qed.
Lemma shorter_nonneg v l : 0 <= shorter v l.
Proof.
  induction l as [|x l IH]; cbn [shorter]; [lia|]. pose proof (Z.pow_nonneg 2 (v - x)).
  destruct (_ && _); lia.
Qed.
Lemma shorter_0 v l : v <= 1 -> shorter v l = 0.
Proof.
  intros Hv. induction l as [|x l IH]; cbn [shorter]; [done|].
  destruct (Z.ltb_spec 0 x), (Z.ltb_spec x v); cbn [andb]; lia.
Qed.
Lemma before_0 v l : v <= 1 -> before v l = 0.
Proof.
  intros Hv. induction l as [|x l IH]; cbn [before]; [done|].
  destruct (Z.ltb_spec 0 x), (Z.ltb_spec x v); cbn [andb]; lia.
Qed.

(** The codes of a length, and those of the shorter ones, fit in it. *)
Lemma shorter_kraft v l :
  Forall (fun v => 0 <= v <= 16) l -> 0 <= v <= 16 ->
  2 ^ (16 - v) * (shorter v l + occ1 v l) <= kraft l.
Proof.
  intros Hl Hv. unfold occ1. induction Hl as [|x l Hx _ IH]; cbn [shorter occ kraft]; [destruct (0 <? v); lia|].
  pose proof (Z.pow_nonneg 2 (16 - x)). 
  destruct (Z.ltb_spec 0 v), (Z.ltb_spec 0 x), (Z.ltb_spec x v), (Z.eqb_spec x v); cbn [andb]; try lia.
  - assert (2 ^ (16 - x) = 2 ^ (16 - v) * 2 ^ (v - x)) as -> by (rewrite <- Z.pow_add_r by lia; f_equal; lia). lia.
  - subst x. lia.
Qed.
Lemma shorter_extend v w l : 0 <= v <= w -> 2 ^ (w - v) * shorter v l <= shorter w l.
Proof.
  intros Hvw. induction l as [|x l IH]; cbn [shorter]; [lia|]. pose proof (Z.pow_nonneg 2 (w - x)).
  destruct (Z.ltb_spec 0 x), (Z.ltb_spec x v), (Z.ltb_spec x w); cbn [andb]; try lia.
  assert (2 ^ (w - x) = 2 ^ (w - v) * 2 ^ (v - x)) as -> by (rewrite <- Z.pow_add_r by lia; f_equal; lia). lia.
Qed.
Lemma shorter_extend_lt v w l :
  0 <= v < w -> 2 ^ (w - v) * (shorter v l + occ1 v l) <= shorter w l.
Proof.
  intros Hvw. pose proof (shorter_extend (v + 1) w l ltac:(lia)) as H.
  rewrite shorter_step in H by lia.
  replace (w - v) with (Z.succ (w - (v + 1))) by lia. rewrite Z.pow_succ_r by lia. lia.
Qed.

(** An array of 17 words, by its contents. *)
Definition arr (f : Z -> Z) : list Z := map (fun k => f (Z.of_nat k)) (seq 0 17).
Definition setf (f : Z -> Z) (v a : Z) : Z -> Z := fun j => if j =? v then a else f j.
Lemma arr_lookup f (k : nat) : (k < 17)%nat -> arr f !! k = Some (f (Z.of_nat k)).
Proof. intros Hk. unfold arr. rewrite list_lookup_fmap, lookup_seq_lt by lia. done. Qed.
Lemma arr_index f v : 0 <= v <= 16 -> index (arr f) v = Done (f v).
Proof.
  intros Hv. replace v with (Z.of_nat (Z.to_nat v)) by lia. apply index_lookup, arr_lookup. lia.
Qed.
Lemma arr_ext f g : (forall v, 0 <= v <= 16 -> f v = g v) -> arr f = arr g.
Proof. intros Hfg. unfold arr. apply map_ext_in. intros k Hk%in_seq. apply Hfg. lia. Qed.
Lemma arr_set f v a : 0 <= v <= 16 -> setIndex (arr f) v a = Done (arr (setf f v a)).
Proof.
  intros Hv. replace v with (Z.of_nat (Z.to_nat v)) at 1 by lia. rewrite setIndex_in.
  2: { unfold arr. rewrite length_map, length_seq. lia. }
  f_equal. apply list_eq. intros k. destruct (Nat.lt_ge_cases k 17) as [Hk|Hk].
  - rewrite arr_lookup by lia. unfold setf. destruct (Z.eqb_spec (Z.of_nat k) v) as [<-|Hne].
    + rewrite Nat2Z.id. apply list_lookup_insert_eq. unfold arr. rewrite length_map, length_seq. lia.
    + rewrite list_lookup_insert_ne by lia. by apply arr_lookup.
  - rewrite !lookup_ge_None_2; [done|unfold arr; rewrite ?length_insert, length_map, length_seq; lia..].
Qed.

Lemma zeros17_arr : zeros17 = arr (fun _ => 0).
Proof. reflexivity. Qed.

Lemma countLengths_arr l : forall f,
  Forall (fun v => 0 <= v <= 16) l ->
  (forall v, 0 <= f v /\ f v + Z.of_nat (length l) < 2 ^ 16) ->
  countLengths l (arr f) = Done (arr (fun v => f v + occ1 v l)).
Proof.
  induction l as [|x l IH]; intros f Hl Hf; cbn [countLengths].
  { f_equal. apply arr_ext. intros v _. unfold occ1. cbn [occ]. destruct (0 <? v); lia. }
  apply List.Forall_cons_iff in Hl as [Hx Hl]. cbn [length] in Hf.
  destruct (Z.eqb_spec x 0) as [->|Hx0].
  - rewrite IH; [|done|intros v; specialize (Hf v); lia].
    apply (f_equal Done), arr_ext. intros v _. unfold occ1. cbn [occ].
    destruct (Z.ltb_spec 0 v), (Z.eqb_spec 0 v); lia.
  - rewrite arr_index by done. cbn iota. rewrite arr_set by done.
    rewrite IH; [|done|].
    + f_equal. apply arr_ext. intros v _. unfold setf, occ1. cbn [occ]. specialize (Hf v).
      destruct (Z.eqb_spec v x) as [->|].
      * unfold wrap16. rewrite Z.mod_small by lia. rewrite Z.eqb_refl. destruct (Z.ltb_spec 0 x); lia.
      * destruct (Z.eqb_spec x v); [lia|]. destruct (Z.ltb_spec 0 v); lia.
    + intros v. unfold setf. pose proof (Hf v). pose proof (Hf x).
      destruct (v =? x); [|lia]. unfold wrap16. rewrite Z.mod_small by lia. lia.
Qed.

Lemma wrap16_add a b : wrap16 (wrap16 a + b) = wrap16 (a + b).
Proof. unfold wrap16. by rewrite Z.add_mod_idemp_l by lia. Qed.
Lemma wrap16_shiftl a : wrap16 (Z.shiftl (wrap16 a) 1) = wrap16 (2 * a).
Proof.
  unfold wrap16. rewrite Z.shiftl_mul_pow2 by lia. rewrite (Z.mul_comm 2 a). by rewrite Z.mul_mod_idemp_l by lia.
Qed.

Lemma firstCodes_arr l steps : forall i f g,
  0 < i -> i + Z.of_nat steps <= 17 ->
  g (i - 1) = wrap16 (before (i - 1) l) ->
  firstCodes steps i (wrap16 (shorter (i - 1) l)) (arr (fun v => occ1 v l)) (arr f) (arr g)
  = Done (arr (fun v => if (i <=? v) && (v <? i + Z.of_nat steps) then wrap16 (shorter v l) else f v),
          arr (fun v => if (i <=? v) && (v <? i + Z.of_nat steps) then wrap16 (before v l) else g v)).
Proof.
  induction steps as [|steps IH]; intros i f g Hi Hle Hg; cbn [firstCodes].
  { f_equal. f_equal; apply arr_ext; intros v _;
      destruct (Z.leb_spec i v), (Z.ltb_spec v (i + Z.of_nat 0)); cbn [andb]; lia. }
  rewrite !arr_index by lia. cbv zeta. rewrite !arr_set by lia.
  rewrite wrap16_add, wrap16_shiftl, Hg, wrap16_add.
  rewrite <- shorter_step, <- before_step by lia.
  replace (i - 1 + 1) with i by lia.
  specialize (IH (i + 1) (setf f i (wrap16 (shorter i l))) (setf g i (wrap16 (before i l)))).
  replace (i + 1 - 1) with i in IH by lia. rewrite IH.
  - f_equal. f_equal; apply arr_ext; intros v _; unfold setf;
      destruct (Z.leb_spec (i + 1) v), (Z.ltb_spec v (i + 1 + Z.of_nat steps)), (Z.leb_spec i v),
        (Z.ltb_spec v (i + Z.of_nat (S steps))), (Z.eqb_spec v i) as [->|]; cbn [andb]; lia.
  - lia.
  - lia.
  - unfold setf. by rewrite Z.eqb_refl.
Qed.

(** The number of symbols. *)
Lemma total_symbols l n : forall i,
  foldl (fun t c => wrap16 (t + c)) (wrap16 (before (Z.of_nat i) l))
        (map (fun k => occ1 (Z.of_nat k) l) (seq i n)) = wrap16 (before (Z.of_nat (i + n)) l).
Proof.
  induction n as [|n IH]; intros i; cbn [seq map foldl]; [by rewrite Nat.add_0_r|].
  rewrite wrap16_add, <- before_step. replace (Z.of_nat i + 1) with (Z.of_nat (S i)) by lia.
  rewrite IH. do 3 f_equal. lia.
Qed.

Lemma setIndex_in' {A} (l : list A) i a :
  0 <= i < Z.of_nat (length l) -> setIndex l i a = Done (<[Z.to_nat i := a]> l).
Proof. intros Hi. rewrite <- (setIndex_in l) by lia. by rewrite Z2Nat.id by lia. Qed.

(** The place of a symbol in the table. *)
Definition place (l : list Z) (v : Z) (pre : list Z) : Z := before v l + occ v pre.

Lemma place_bounds l pre v post :
  l = pre ++ v :: post -> 0 < v <= 16 -> before v l <= place l v pre < before (v + 1) l.
Proof.
  intros -> Hv. unfold place. rewrite before_step. unfold occ1.
  rewrite (proj2 (Z.ltb_lt 0 v)) by lia. rewrite (occ_app v pre (v :: post)). cbn [occ]. rewrite Z.eqb_refl.
  pose proof (occ_range v pre). pose proof (occ_range v post). lia.
Qed.

Lemma take_split {A} (l : list A) j v : l !! j = Some v -> exists post, l = take j l ++ v :: post.
Proof. intros Hj. exists (drop (S j) l). by rewrite take_drop_middle. Qed.

Lemma place_distinct l j v pre w post :
  l = pre ++ w :: post -> (j < length pre)%nat -> l !! j = Some v -> 0 < v <= 16 -> 0 < w <= 16 ->
  place l v (take j l) <> place l w pre.
Proof.
  intros Hl Hj Hv Hv16 Hw16. pose proof (place_bounds l pre w post Hl Hw16).
  destruct (take_split l j v Hv) as [post' Hl']. pose proof (place_bounds l _ v post' Hl' Hv16).
  destruct (Z.lt_trichotomy v w) as [Hvw|[->|Hvw]].
  - pose proof (before_mono (v + 1) w l ltac:(lia)). lia.
  - unfold place. replace pre with (take j l ++ w :: drop (S j) pre).
    + rewrite (occ_app w (take j l)). cbn [occ]. rewrite Z.eqb_refl.
      pose proof (occ_range w (drop (S j) pre)). lia.
    + rewrite Hl, take_app_le by lia. apply take_drop_middle.
      rewrite Hl, lookup_app_l in Hv by lia. done.
  - pose proof (before_mono (w + 1) v l ltac:(lia)). lia.
Qed.

(** The symbols placed so far. *)
Definition placed (l pre sym : list Z) : Prop :=
  forall j v, (j < length pre)%nat -> l !! j = Some v -> v <> 0 ->
    sym !! Z.to_nat (place l v (take j l)) = Some (Z.of_nat j).

Lemma placeSymbols_placed l : forall post pre nf sym,
  l = pre ++ post -> Forall (fun v => 0 <= v <= 16) l -> Z.of_nat (length l) < 2 ^ 16 ->
  (forall v, 0 < v <= 16 -> nf v = wrap16 (place l v pre)) ->
  Z.of_nat (length sym) = before 17 l -> placed l pre sym ->
  exists sym', placeSymbols post (Z.of_nat (length pre)) (arr nf) sym = Done sym' /\ placed l l sym'.
Proof.
  induction post as [|v post IH]; intros pre nf sym Hl Hlr Hlen Hnf Hsym Hpl; cbn [placeSymbols].
  { exists sym. split; [done|]. rewrite app_nil_r in Hl. by rewrite Hl in Hpl |- *. }
  assert (l = (pre ++ [v]) ++ post) as Hl' by (by rewrite <- app_assoc).
  assert (Z.of_nat (length pre) + 1 = Z.of_nat (length (pre ++ [v]))) as Hlp by (rewrite length_app; cbn; lia).
  assert (0 <= v <= 16) as Hv.
  { rewrite Hl in Hlr. apply Forall_app in Hlr as [_ Hlr]. by apply List.Forall_inv in Hlr. }
  destruct (Z.eqb_spec v 0) as [->|Hv0].
  { rewrite Hlp. apply IH; try done.
    - intros w Hw. rewrite Hnf by done. f_equal. unfold place. rewrite occ_app. cbn [occ].
      destruct (Z.eqb_spec 0 w); lia.
    - intros j w Hj Hw Hw0. apply Hpl; [|done|done]. rewrite length_app in Hj. cbn in Hj.
      destruct (Nat.eq_dec j (length pre)) as [->|]; [|lia].
      rewrite Hl, list_lookup_middle in Hw by done. congruence. }
  pose proof (place_bounds l pre v post Hl ltac:(lia)) as Hb.
  pose proof (before_mono (v + 1) 17 l ltac:(lia)). pose proof (before_range 17 l). pose proof (before_range v l).
  assert (wrap16 (place l v pre) = place l v pre) as Hw by (apply Z.mod_small; lia).
  rewrite arr_index, Hnf, Hw by lia. cbn iota.
  rewrite setIndex_in' by lia. rewrite arr_set by lia. rewrite Hlp.
  apply IH; try done.
  - intros w Hw'. unfold setf, place. rewrite occ_app. cbn [occ]. destruct (Z.eqb_spec w v) as [->|].
    + rewrite Z.eqb_refl. f_equal. unfold place. lia.
    + destruct (Z.eqb_spec v w); [lia|]. rewrite Hnf by done. f_equal. unfold place. lia.
  - by rewrite length_insert.
  - intros j w Hj Hw' Hw0. rewrite length_app in Hj. cbn in Hj.
    destruct (Nat.eq_dec j (length pre)) as [->|].
    + rewrite Hl, list_lookup_middle in Hw' by done. injection Hw' as <-.
      assert (take (length pre) l = pre) as -> by (by rewrite Hl, take_app_length).
      rewrite list_lookup_insert_eq by lia. f_equal. unfold wrap16. apply Z.mod_small. pose proof (f_equal length Hl) as Hll.
      rewrite length_app in Hll. cbn in Hll. lia.
    + assert (0 < w <= 16).
      { pose proof (proj1 (Forall_lookup _ _) Hlr j w Hw'). cbn in *. lia. }
      pose proof (place_distinct l j w pre v post Hl ltac:(lia) Hw' ltac:(lia) ltac:(lia)).
      destruct (take_split l j w Hw') as [post' Hl2]. pose proof (place_bounds l _ w post' Hl2 ltac:(lia)).
      pose proof (before_range w l).
      rewrite list_lookup_insert_ne by lia. apply Hpl; [lia|done|done].
Qed.

(** The table of a list of lengths. *)
Lemma mkH_spec l :
  lengths_ok l -> Z.of_nat (length l) < 2 ^ 16 ->
  exists sy, mkH l = Done (mkHuff false 0 (arr (fun v => occ1 v l)) (arr (fun v => if 1 <=? v then wrap16 (shorter v l) else 0))
                                   (arr (fun v => if 1 <=? v then wrap16 (before v l) else 0)) sy)
    /\ placed l l sy.
Proof.
  intros [Hr Hk] Hlen. unfold mkH. rewrite zeros17_arr.
  rewrite countLengths_arr by (done || intros; lia).
  rewrite (arr_ext (fun v => 0 + occ1 v l) (fun v => occ1 v l)) by (intros; lia).
  pose proof (firstCodes_arr l 16 1 (fun _ => 0) (fun _ => 0) ltac:(lia) ltac:(lia)) as Hf.
  rewrite before_0, shorter_0 in Hf by lia. specialize (Hf eq_refl).
  change (wrap16 0) with 0 in Hf. rewrite Hf. clear Hf.
  cbv zeta.
  assert (foldl (fun t c => wrap16 (t + c)) 0 (drop 1 (arr (fun v => occ1 v l))) = before 17 l) as ->.
  { change (drop 1 (arr (fun v => occ1 v l))) with (map (fun k => occ1 (Z.of_nat k) l) (seq 1 16)).
    pose proof (total_symbols l 16 1) as Ht. rewrite before_0 in Ht by lia. change (wrap16 0) with 0 in Ht.
    rewrite Ht. unfold wrap16. apply Z.mod_small. pose proof (before_range 17 l). cbn [Nat.add]. lia. }
  match goal with |- context [placeSymbols l 0 (arr ?f)] => set (st := f) end.
  destruct (placeSymbols_placed l l [] st (repeat 0 (Z.to_nat (before 17 l)))) as (sy & Hsy & Hpl); try done.
  - intros v Hv. unfold st, place. cbn [occ].
    destruct (Z.leb_spec 1 v), (Z.ltb_spec v (1 + Z.of_nat 16)); cbn [andb]; try lia. f_equal. lia.
  - rewrite repeat_length. pose proof (before_range 17 l). lia.
  - intros j v Hj. cbn in Hj. lia.
  - change (Z.of_nat (length [])) with 0 in Hsy. rewrite Hsy. exists sy. split; [|done].
    reflexivity.
Qed.

(** A code fits in its length. *)
Lemma codeOf_bounds l i v :
  lengths_ok l -> l !! i = Some v -> 0 < v -> shorter v l <= codeOf l i < shorter v l + occ v l
    /\ 2 ^ (16 - v) * (codeOf l i + 1) <= 2 ^ 16 /\ v <= 16.
Proof.
  intros [Hr Hk] Hi Hv. assert (v <= 16) by (pose proof (proj1 (Forall_lookup _ _) Hr i v Hi); cbn in *; lia).
  destruct (take_split l i v Hi) as [post Hl]. pose proof (place_bounds l _ v post Hl ltac:(lia)) as Hp.
  rewrite before_step in Hp. unfold place in Hp. unfold codeOf.
  rewrite (nth_lookup_Some _ _ _ _ Hi). pose proof (shorter_kraft v l Hr ltac:(lia)) as Hs.
  unfold occ1 in *. rewrite (proj2 (Z.ltb_lt 0 v)) in * by lia. split_and!; [lia|lia| |done].
  pose proof (Z.pow_pos_nonneg 2 (16 - v)). nia.
Qed.

Lemma valueOf_split k j f :
  valueOf (k + j) f = 2 ^ Z.of_nat j * valueOf k f + valueOf j (shifted (Z.of_nat k) f).
Proof.
  induction j as [|j IH]; [rewrite Nat.add_0_r; cbn [valueOf]; change (2 ^ Z.of_nat 0) with 1; lia|].
  rewrite Nat.add_succ_r. cbn [valueOf]. rewrite IH, Nat2Z.inj_succ, Z.pow_succ_r by lia.
  assert (shifted (Z.of_nat k) f (Z.of_nat j) = f (Z.of_nat (k + j))) as -> by (unfold shifted; f_equal; lia).
  lia.
Qed.


Lemma lor_bit a b : Z.lor (2 * a) (Z.b2z b) = 2 * a + Z.b2z b.
Proof.
  apply Z.bits_inj'. intros m Hm. rewrite Z.lor_spec.
  destruct (Z.eq_dec m 0) as [->|Hm0].
  - rewrite Z.testbit_even_0, Z.testbit_0_r. destruct b; done.
  - replace m with (Z.succ (m - 1)) by lia.
    rewrite Z.testbit_even_succ, Z.testbit_succ_r by lia.
    replace (Z.testbit (Z.b2z b) (Z.succ (m - 1))) with false; [by rewrite orb_false_r|].
    destruct b; cbn [Z.b2z]; [|by rewrite Z.testbit_0_l]. symmetry. apply (testbit_high 1 1); lia.
Qed.

(** A step of the decoder's code: the next bit of the stream, appended. *)
Lemma code_step k r g :
  br_ok r -> (k < 16)%nat -> same (stream r) (shifted (Z.of_nat k) g) ->
  exists b r', bits 1 r = (b, r') /\ br_ok r' /\ same (stream r') (shifted (Z.of_nat (S k)) g)
    /\ Z.lor (wrap16 (Z.shiftl (valueOf k g) 1)) b = valueOf (S k) g.
Proof.
  intros Hr Hk Hg. pose proof (bits_spec 1 r Hr ltac:(lia)) as Hb.
  destruct (bits 1 r) as [b r']. destruct Hb as (Hr' & -> & Hs).
  exists (valueOf (Z.to_nat 1) (stream r)), r'. split_and!; [done|done| |].
  - intros j Hj. rewrite Hs by done. unfold shifted. rewrite Hg by lia. unfold shifted. f_equal. lia.
  - change (Z.to_nat 1) with 1%nat. cbn [valueOf]. rewrite Hg by lia. unfold shifted.
    change (Z.of_nat 0) with 0. rewrite Z.add_0_l. pose proof (valueOf_range k g) as Hv.
    assert (2 ^ Z.of_nat k <= 2 ^ 15) by (apply Z.pow_le_mono_r; lia).
    unfold wrap16. rewrite Z.shiftl_mul_pow2, Z.mod_small by lia.
    change (2 ^ 1) with 2. rewrite (Z.mul_comm _ 2). change (2 * 0) with 0. rewrite Z.add_0_l. apply lor_bit.
Qed.

Lemma decLoop_code l sy i v g :
  lengths_ok l -> Z.of_nat (length l) < 2 ^ 16 -> placed l l sy ->
  l !! i = Some v -> 0 < v -> valueOf (Z.to_nat v) g = codeOf l i ->
  forall steps k r, br_ok r -> same (stream r) (shifted (Z.of_nat k) g) ->
  Z.of_nat k < v -> v <= Z.of_nat k + Z.of_nat steps ->
  exists r', decLoop steps (mkHuff false 0 (arr (fun v => occ1 v l)) (arr (fun v => if 1 <=? v then wrap16 (shorter v l) else 0))
                                   (arr (fun v => if 1 <=? v then wrap16 (before v l) else 0)) sy)
                     (Z.of_nat k + 1) (valueOf k g) r = Done (Z.of_nat i, r')
    /\ br_ok r' /\ same (stream r') (shifted v g).
Proof.
  intros Hl Hlen Hsy Hi Hv Hg.
  destruct (codeOf_bounds l i v Hl Hi Hv) as (Hc & Hc16 & Hv16).
  induction steps as [|steps IH]; intros k r Hr Hs Hk Hst; [lia|]. cbn [decLoop].
  destruct (code_step k r g Hr ltac:(lia) Hs) as (b & r' & -> & Hr' & Hs' & ->). cbv zeta.
  set (c := valueOf (S k) g). pose proof (valueOf_range (S k) g : 0 <= c < _) as Hcr.
  assert (2 ^ Z.of_nat (S k) <= 2 ^ 16) by (apply Z.pow_le_mono_r; lia).
  cbn [first cnt start sym]. rewrite !arr_index by lia.
  replace (1 <=? Z.of_nat k + 1) with true by lia.
  replace (Z.of_nat k + 1) with (Z.of_nat (S k)) in * by lia.
  set (w := Z.of_nat (S k)) in *. pose proof (shorter_nonneg w l). pose proof (occ_range w l).
  assert (occ1 w l = occ w l) as Ho by (unfold occ1; by rewrite (proj2 (Z.ltb_lt 0 w)) by lia).
  destruct (Z.eq_dec w v) as [Heq|Hne].
  - assert (c = codeOf l i) as -> by (unfold c; rewrite <- Hg; f_equal; lia). rewrite Heq in *.
    assert (wrap16 (shorter v l) = shorter v l) as -> by (apply Z.mod_small; lia).
    destruct (Z.ltb_spec (codeOf l i) (shorter v l)); [lia|].
    assert (wrap16 (codeOf l i - shorter v l) = codeOf l i - shorter v l) as -> by (apply Z.mod_small; lia).
    rewrite Ho. destruct (Z.ltb_spec (codeOf l i - shorter v l) (occ v l)); [|lia].
    rewrite wrap16_add. unfold codeOf at 1. rewrite (nth_lookup_Some _ _ _ _ Hi).
    replace (before v l + (shorter v l + occ v (take i l) - shorter v l)) with (place l v (take i l))
      by (unfold place; lia).
    destruct (take_split l i v Hi) as [post Hp]. pose proof (place_bounds l _ v post Hp ltac:(lia)).
    pose proof (before_range v l). pose proof (before_range (v + 1) l).
    assert (wrap16 (place l v (take i l)) = place l v (take i l)) as -> by (apply Z.mod_small; lia).
    rewrite <- (Z2Nat.id (place l v (take i l))) by lia.
    rewrite (index_lookup _ _ (Z.of_nat i)) by (apply Hsy; [exact (lookup_lt_Some _ _ _ Hi)|done|lia]).
    exists r'. split_and!; [done|done|done].
  - assert (shorter w l + occ1 w l <= c) as Hge.
    { pose proof (shorter_extend_lt w v l ltac:(lia)) as Hx.
      pose proof (valueOf_split (S k) (Z.to_nat v - S k) g) as Hsp.
      replace (S k + (Z.to_nat v - S k))%nat with (Z.to_nat v) in Hsp by lia. rewrite Hg in Hsp. fold c in Hsp.
      pose proof (valueOf_range (Z.to_nat v - S k) (shifted (Z.of_nat (S k)) g)) as Hrest.
      replace (Z.of_nat (Z.to_nat v - S k)) with (v - w) in * by lia.
      pose proof (Z.pow_pos_nonneg 2 (v - w)). nia. }
    assert (wrap16 (shorter w l) = shorter w l) as -> by (apply Z.mod_small; lia).
    destruct (Z.ltb_spec c (shorter w l)); [lia|].
    assert (wrap16 (c - shorter w l) = c - shorter w l) as -> by (apply Z.mod_small; lia).
    destruct (Z.ltb_spec (c - shorter w l) (occ1 w l)); [lia|].
    apply (IH (S k)); [done|done|lia|lia].
Qed.

(** * Encoding *)

(** The bits of a code, high first; a message; and bits packed in bytes, high first. *)
Definition codeBits (l : list Z) (i : nat) : list bool :=
  let v := nth i l 0 in map (fun k => Z.testbit (codeOf l i) (v - 1 - Z.of_nat k)) (seq 0 (Z.to_nat v)).
Definition encode (l : list Z) (msg : list nat) : list bool := concat (map (codeBits l) msg).
Definition bitAt (bs : list bool) (k : Z) : bool := nth (Z.to_nat k) bs false.
Definition pack (bs : list bool) : bytes :=
  map (fun k => byte_of (valueOf 8 (shifted (8 * Z.of_nat k) (bitAt bs)))) (seq 0 (length bs / 8 + 1)).
(** Symbols decoded in a row. *)
Fixpoint decodeAll (n : nat) (h : huff) (r : br) : outcome (list Z) :=
  match n with
  | O => Done []
  | S n => let! (s, r) := dec h r in let! ss := decodeAll n h r in Done (s :: ss)
  end.

Lemma pack_bits bs : same (byteBit (pack bs)) (bitAt bs).
Proof.
  intros k Hk. unfold byteBit, pack. rewrite nth_error_lookup', list_lookup_fmap.
  pose proof (Z.mod_pos_bound k 8 ltac:(lia)). pose proof (Z.div_mod k 8 ltac:(lia)) as Hdm.
  pose proof (Z.div_pos k 8 Hk ltac:(lia)).
  destruct (Nat.lt_ge_cases (Z.to_nat (k / 8)) (length bs / 8 + 1)) as [Hlt|Hge].
  - rewrite lookup_seq_lt by done. cbn [fmap option_fmap option_map Nat.add].
    rewrite byteZ_of. rewrite Z2Nat.id by done. pose proof (valueOf_range 8 (shifted (8 * (k / 8)) (bitAt bs))).
    unfold wrap8. rewrite Z.mod_small by done. rewrite valueOf_testbit by lia.
    destruct (Z.ltb_spec (7 - k mod 8) (Z.of_nat 8)); [|lia]. cbn [andb]. unfold shifted. f_equal. lia.
  - rewrite lookup_seq_ge by done. cbn. unfold bitAt. rewrite nth_overflow; [done|].
    pose proof (Nat.div_mod (length bs) 8 ltac:(lia)). pose proof (Nat.mod_upper_bound (length bs) 8 ltac:(lia)). lia.
Qed.

Lemma codeBits_value l i v bs :
  lengths_ok l -> l !! i = Some v -> 0 < v ->
  valueOf (Z.to_nat v) (bitAt (codeBits l i ++ bs)) = codeOf l i
  /\ same (shifted v (bitAt (codeBits l i ++ bs))) (bitAt bs).
Proof.
  intros Hl Hi Hv. destruct (codeOf_bounds l i v Hl Hi Hv) as (Hc & Hc16 & Hv16).
  pose proof (shorter_nonneg v l).
  assert (codeOf l i < 2 ^ v).
  { assert (2 ^ 16 = 2 ^ (16 - v) * 2 ^ v) as H16 by (rewrite <- Z.pow_add_r by lia; f_equal; lia).
    rewrite H16 in Hc16. pose proof (Z.pow_pos_nonneg 2 (16 - v)). nia. }
  assert (length (codeBits l i) = Z.to_nat v) as Hlen.
  { unfold codeBits. by rewrite length_map, length_seq, (nth_lookup_Some _ _ _ _ Hi). }
  split.
  - apply Z.bits_inj'. intros m Hm. rewrite valueOf_testbit by done. rewrite Z2Nat.id by lia.
    destruct (Z.ltb_spec m v); cbn [andb].
    + unfold bitAt. rewrite nth_lookup, lookup_app_l by lia.
      unfold codeBits. rewrite (nth_lookup_Some _ _ _ _ Hi), list_lookup_fmap, lookup_seq_lt by lia.
      cbn [fmap option_fmap option_map default Nat.add]. cbn. f_equal. lia.
    + symmetry. apply (testbit_high _ v); lia.
  - intros j Hj. unfold shifted, bitAt. rewrite !nth_lookup, lookup_app_r by lia. do 2 f_equal. lia.
Qed.

Lemma decodeAll_encode l h : mkH l = Done h -> lengths_ok l -> Z.of_nat (length l) < 2 ^ 16 ->
  forall msg r, Forall (fun i => exists v, l !! i = Some v /\ 0 < v) msg ->
  br_ok r -> same (stream r) (bitAt (encode l msg)) ->
  decodeAll (length msg) h r = Done (map Z.of_nat msg).
Proof.
  intros Hh Hl Hlen. destruct (mkH_spec l Hl Hlen) as (sy & Hmk & Hsy). rewrite Hh in Hmk. injection Hmk as ->.
  induction msg as [|i msg IH]; intros r Hmsg Hr Hs; [done|]. cbn [length decodeAll map].
  apply List.Forall_cons_iff in Hmsg as [(v & Hi & Hv) Hmsg].
  destruct (codeBits_value l i v (encode l msg) Hl Hi Hv) as [Hval Hrest].
  pose proof (codeOf_bounds l i v Hl Hi Hv) as (_ & _ & Hv16).
  destruct (decLoop_code l sy i v (bitAt (encode l (i :: msg))) Hl Hlen Hsy Hi Hv Hval 16 0 r Hr)
    as (r' & Hd & Hr' & Hs'); [|lia|lia|].
  { intros j Hj. rewrite Hs by done. unfold shifted. f_equal. lia. }
  unfold dec. cbn [one]. change (Z.of_nat 0 + 1) with 1 in Hd. cbn [valueOf] in Hd. rewrite Hd.
  rewrite (IH r'); [done|done|done|]. etrans; [exact Hs'|exact Hrest].
Qed.

(** Decoding is the inverse of canonical Huffman coding: for any lengths up to sixteen that
    satisfy Kraft's inequality, the table that [mkH] builds in 16-bit words decodes the packed
    canonical codes of any message back to the message, one symbol after another. *)
Theorem decode_encode l msg :
  lengths_ok l -> Z.of_nat (length l) < 2 ^ 16 ->
  Forall (fun i => exists v, l !! i = Some v /\ 0 < v) msg ->
  (let! h := mkH l in decodeAll (length msg) h (newBR (pack (encode l msg)))) = Done (map Z.of_nat msg).
Proof.
  intros Hl Hlen Hmsg. destruct (mkH_spec l Hl Hlen) as (sy & Hh & _). rewrite Hh.
  apply (decodeAll_encode l _ Hh); try done.
  - apply newBR_ok.
  - etrans; [|apply pack_bits]. intros j Hj. unfold stream. cbn [newBR brN brI brB].
    destruct (Z.ltb_spec j 0); [lia|]. cbn [drop]. f_equal. lia.
Qed.

(** Lengths of a code with every kind of neighbour: unused symbols, and full. *)
Lemma decode_encode_witness :
  (let! h := mkH [2; 0; 3; 3; 1] in
   decodeAll 6 h (newBR (pack (encode [2; 0; 3; 3; 1] [4; 0; 3; 2; 2; 4]%nat)))) = Done [4; 0; 3; 2; 2; 4].
Proof.
  apply (decode_encode [2; 0; 3; 3; 1] [4; 0; 3; 2; 2; 4]%nat).
  - split; [repeat constructor; lia|vm_compute; discriminate].
  - cbn. lia.
  - repeat constructor; (eexists; split; [reflexivity|lia]).
Defined.

(** The reads across a byte and past the end. *)
Lemma readBits_source_witness :
  Forall (fun k => 0 <= k <= 16) [3; 9; 16; 0; 5] /\
  readBits [3; 9; 16; 0; 5] (newBR (map byte_of [165; 255; 18])) = slices [3; 9; 16; 0; 5] (byteBit (map byte_of [165; 255; 18])).
Proof.
  assert (Forall (fun k => 0 <= k <= 16) [3; 9; 16; 0; 5]) as H by (repeat constructor; lia).
  split; [exact H|exact (readBits_source (map byte_of [165; 255; 18]) [3; 9; 16; 0; 5] H)].
Defined.

(** * Facts: extraction *)

Section Extraction.
Context `{GoUnicode}.
Variable sha256Hex : bytes -> string.
Variable writeFile : string -> option string.

(** A file of the game: its name and its digest. *)
Definition pinned (destRoot : string) (f : string * bytes) : Prop :=
  (fst f = filepath_Join [destRoot; "pak0.pak"]%string /\ sha256Hex (snd f) = Pak0SHA256)
  \/ (fst f = filepath_Join [destRoot; "SLICNSE.TXT"]%string /\ sha256Hex (snd f) = SlicnseSHA256).

Lemma writeSeg_pinned resource off clen outLen outPath wantSHA :
  safe (fun '(f, e) => match f with
                       | Some f => fst f = outPath /\ sha256Hex (snd f) = wantSHA /\ e = writeFile outPath
                       | None => e <> None
                       end)
    (writeSeg sha256Hex writeFile resource off clen outLen outPath wantSHA).
Proof.
  unfold writeSeg. apply (safe_bind (fun _ => True)).
  { pose proof (decodeLH5Seg_safe resource off clen outLen) as Hs. by destruct (decodeLH5Seg _ _ _ _). }
  intros [b|e] _; [|done]. destruct (String.eqb_spec (sha256Hex b) wantSHA); done.
Qed.

(** Only the shareware files are written: whatever is in the archive, every file that
    [ExtractPak0] writes is pak0.pak or the license under the destination with the digest
    pinned for it, and without an error both were written. *)
Theorem ExtractPak0_pinned files mkdirErr destRoot :
  match ExtractPak0 sha256Hex writeFile files mkdirErr destRoot with
  | Done (fs, e) =>
      Forall (pinned destRoot) fs
      /\ (e <> None \/ map fst fs = [filepath_Join [destRoot; "pak0.pak"]; filepath_Join [destRoot; "SLICNSE.TXT"]]%string)
  | Panic => True
  | OutOfFuel => False
  end.
Proof.
  assert (forall e : string, Forall (pinned destRoot) [] /\ (Some e <> None \/ map fst (@nil (string * bytes)) = [filepath_Join [destRoot; "pak0.pak"]; filepath_Join [destRoot; "SLICNSE.TXT"]]%string)) as Herr
    by (intros e; split; [constructor|by left]).
  unfold ExtractPak0. destruct (List.find _ files) as [[nm [resource|e]]|]; [|apply Herr..].
  destruct (negb _); [apply Herr|]. destruct mkdirErr as [e|]; [apply Herr|].
  pose proof (writeSeg_pinned resource segPak0Off segPak0Len segPak0Out (filepath_Join [destRoot; "pak0.pak"]%string) Pak0SHA256) as H1.
  destruct (writeSeg _ _ _ _ _ _ _ _) as [[f1 e1]| |]; [|done|done]. cbn [safe] in H1.
  destruct e1 as [e1|].
  { destruct f1 as [f1|]; [|apply Herr]. destruct H1 as (Hp & Hd & _). split; [|by left].
    apply List.Forall_cons; [by left|constructor]. }
  destruct f1 as [f1|]; [|done]. destruct H1 as (Hp1 & Hd1 & _).
  pose proof (writeSeg_pinned resource segLicOff segLicLen segLicOut (filepath_Join [destRoot; "SLICNSE.TXT"]%string) SlicnseSHA256) as H2.
  destruct (writeSeg _ _ _ _ _ _ _ _) as [[f2 e2]| |]; [|done|done]. cbn [safe] in H2.
  destruct f2 as [f2|]; cbn [app].
  - destruct H2 as (Hp2 & Hd2 & _). split; [|right; cbn; by rewrite Hp1, Hp2].
    constructor; [by left|]. constructor; [by right|constructor].
  - split; [constructor; [by left|constructor]|by left].
Qed.
End Extraction.
