(* ===== verification/Lh5.v ===== *)
(** The LH5 format that quake106/quake106.go decodes: an encoder, and the proof that [decodeLH5Seg]
    inverts it.

    The source only decodes; the encoder is the specification of what it is given.  A stream is a
    sequence of blocks, each with its own two code tables, written in the block's header, and
    between 1 and 65535 tokens. *)
From S2P Require Import Prelude GoStrings Quake106.

(** * The encoder *)

(** A number in [k] bits, high first. *)
Definition numBits (k : nat) (v : Z) : list bool :=
  map (fun i => Z.testbit v (Z.of_nat k - 1 - Z.of_nat i)) (seq 0 k).

(** A code length as [pTree] reads it: three bits, and from 7 on a run of ones. *)
Definition lengthBits (v : Z) : list bool :=
  if v <? 7 then numBits 3 v else numBits 3 7 ++ repeat true (Z.to_nat (v - 7)) ++ [false].
(** The lengths of a table as [pTree] reads them; after the [special]-th come two bits, the number
    of zero lengths left out, here none. *)
Fixpoint lengthsBits (special i : Z) (l : list Z) : list bool :=
  match l with
  | [] => []
  | v :: l => lengthBits v ++ (if i + 1 =? special then numBits 2 0 else []) ++ lengthsBits special (i + 1) l
  end.
Definition pTreeBits (nbits : nat) (special : Z) (l : list Z) : list bool :=
  numBits nbits (Z.of_nat (length l)) ++ lengthsBits special 0 l.

(** The code of the lengths of the table of literals: every one of its 19 symbols in five bits. *)
Definition tLengths : list Z := repeat 5 19.
(** A length as [cTree] reads it: symbol 0 for a zero, [v + 2] for [v]. *)
Definition cSymbol (v : Z) : nat := if v =? 0 then 0%nat else Z.to_nat (v + 2).
Definition cTreeBits (l : list Z) : list bool :=
  numBits 9 (Z.of_nat (length l)) ++ encode tLengths (map cSymbol l).

(** A token: the symbol of a literal, or those of the length and of the size of the offset, and the
    low bits of the offset. *)
Definition offSize (off : Z) : Z := if off =? 0 then 0 else Z.log2 off + 1.
Definition offBits (off : Z) : list bool :=
  if off =? 0 then [] else numBits (Z.to_nat (Z.log2 off)) (off - 2 ^ Z.log2 off).
Definition tokenBits (lc lp : list Z) (t : token) : list bool :=
  match t with
  | literal b => codeBits lc (Z.to_nat (byteZ b))
  | copyMatch off ln => codeBits lc (Z.to_nat (ln + 253)) ++ codeBits lp (Z.to_nat (offSize off)) ++ offBits off
  end.

(** A block: the code lengths of its literals and match lengths, those of its offsets, its tokens. *)
Record block := mkBlock { bkC : list Z; bkP : list Z; bkTokens : list token }.
Definition tokensBits (lc lp : list Z) (ts : list token) : list bool := flat_map (tokenBits lc lp) ts.
Definition blockBits (b : block) : list bool :=
  numBits 16 (Z.of_nat (length (bkTokens b))) ++ pTreeBits 5 3 tLengths ++ cTreeBits (bkC b)
  ++ pTreeBits 4 (-1) (bkP b) ++ tokensBits (bkC b) (bkP b) (bkTokens b).
Definition blocksBits (bs : list block) : list bool := flat_map blockBits bs.
Definition encodeBlocks (bs : list block) : bytes := pack (blocksBits bs).

(** A symbol has a code; a token's symbols have; the tables are codes for all the tokens. *)
Definition coded (l : list Z) (i : Z) : Prop := exists v, l !! Z.to_nat i = Some v /\ 0 < v.
Definition token_coded (lc lp : list Z) (t : token) : Prop :=
  match t with
  | literal b => coded lc (byteZ b)
  | copyMatch off ln => 0 <= off < Z.of_nat window /\ 3 <= ln <= 256 /\ coded lc (ln + 253) /\ coded lp (offSize off)
  end.
Record block_ok (b : block) : Prop := {
  bo_C : lengths_ok (bkC b); bo_Clen : length (bkC b) = 510%nat;
  bo_P : lengths_ok (bkP b); bo_Plen : length (bkP b) = 14%nat;
  bo_count : 1 <= Z.of_nat (length (bkTokens b)) < 2 ^ 16;
  bo_tokens : Forall (token_coded (bkC b) (bkP b)) (bkTokens b);
}.

(** What tokens stand for: the bytes they append to a window of spaces. *)
Definition expand1 (out : bytes) (t : token) : bytes :=
  match t with
  | literal b => out ++ [b]
  | copyMatch off ln => out ++ map (cycle out (S (Z.to_nat off))) (seq 0 (Z.to_nat ln))
  end.
Definition expand (ts : list token) : bytes := drop window (foldl expand1 (repeat (byte_of 32) window) ts).

(** * Reading what was written *)

(** The reader is at the beginning of some bits, followed by zeros. *)
Definition reads (r : br) (bs : list bool) : Prop := br_ok r /\ same (stream r) (bitAt bs).

Lemma bitAt_app_ge l bs j : 0 <= j -> bitAt (l ++ bs) (j + Z.of_nat (length l)) = bitAt bs j.
Proof. intros Hj. unfold bitAt. rewrite !nth_lookup, lookup_app_r by lia. do 2 f_equal. lia. Qed.

Lemma numBits_value k v bs : 0 <= v < 2 ^ Z.of_nat k -> valueOf k (bitAt (numBits k v ++ bs)) = v.
Proof.
  intros Hv. apply Z.bits_inj'. intros m Hm. rewrite valueOf_testbit by done.
  destruct (Z.ltb_spec m (Z.of_nat k)); cbn [andb].
  - unfold bitAt, numBits. rewrite nth_lookup, lookup_app_l by (rewrite length_map, length_seq; lia).
    rewrite list_lookup_fmap, lookup_seq_lt by lia. cbn. f_equal. lia.
  - symmetry. apply (testbit_high _ (Z.of_nat k)); lia.
Qed.

Lemma reads_bits k v bs r :
  (k <= 16)%nat -> 0 <= v < 2 ^ Z.of_nat k -> reads r (numBits k v ++ bs) ->
  exists r', bits (Z.of_nat k) r = (v, r') /\ reads r' bs.
Proof.
  intros Hk Hv [Hr Hs]. pose proof (bits_spec (Z.of_nat k) r Hr ltac:(lia)) as Hb.
  destruct (bits (Z.of_nat k) r) as [w r']. destruct Hb as (Hr' & -> & Hs'). exists r'.
  rewrite Nat2Z.id, (valueOf_same _ _ _ Hs), numBits_value by done. split; [done|]. split; [done|].
  intros j Hj. rewrite Hs' by done. unfold shifted. rewrite Hs by lia.
  rewrite <- (bitAt_app_ge (numBits k v) bs j) by done. f_equal. unfold numBits. by rewrite length_map, length_seq.
Qed.

Lemma reads_code l h i v bs r :
  mkH l = Done h -> lengths_ok l -> Z.of_nat (length l) < 2 ^ 16 -> l !! i = Some v -> 0 < v ->
  reads r (codeBits l i ++ bs) -> exists r', dec h r = Done (Z.of_nat i, r') /\ reads r' bs.
Proof.
  intros Hh Hl Hlen Hi Hv [Hr Hs]. destruct (mkH_spec l Hl Hlen) as (sy & Hmk & Hsy). rewrite Hh in Hmk. injection Hmk as ->.
  destruct (codeBits_value l i v bs Hl Hi Hv) as [Hval Hrest].
  pose proof (codeOf_bounds l i v Hl Hi Hv) as (_ & _ & Hv16).
  destruct (decLoop_code l sy i v (bitAt (codeBits l i ++ bs)) Hl Hlen Hsy Hi Hv Hval 16 0 r Hr)
    as (r' & Hd & Hr' & Hs'); [|lia|lia|].
  { intros j Hj. rewrite Hs by done. unfold shifted. f_equal. lia. }
  exists r'. unfold dec. cbn [one]. change (Z.of_nat 0 + 1) with 1 in Hd. cbn [valueOf] in Hd. rewrite Hd.
  split; [done|]. split; [done|]. by etrans.
Qed.

Lemma reads_trues n : forall togo i bs r,
  (n < togo)%nat -> reads r (repeat true n ++ [false] ++ bs) ->
  exists r', truesLoop togo i r = (i + Z.of_nat n, r') /\ reads r' bs.
Proof.
  induction n as [|n IH]; intros [|togo] i bs r Hn Hr; try lia; cbn [truesLoop repeat app] in *.
  - destruct (reads_bits 1 0 bs r) as (r' & Hb & Hr'); [lia|cbn; lia|exact Hr|].
    change (Z.of_nat 1) with 1 in Hb. rewrite Hb. exists r'. split; [change (0 =? 0) with true; cbn iota; f_equal; lia|exact Hr'].
  - destruct (reads_bits 1 1 (repeat true n ++ false :: bs) r) as (r1 & Hb & Hr1); [lia|cbn; lia|exact Hr|].
    change (Z.of_nat 1) with 1 in Hb. rewrite Hb. cbn [Z.eqb]. destruct (IH togo (i + 1) bs r1) as (r' & Ht & Hr'); [lia|done|].
    exists r'. rewrite Ht. split; [f_equal; lia|done].
Qed.

(** * The tables *)

Lemma setIndex_middle (l1 l2 : list Z) a b : setIndex (l1 ++ a :: l2) (Z.of_nat (length l1)) b = Done (l1 ++ b :: l2).
Proof.
  rewrite setIndex_in by (rewrite length_app; cbn; lia). f_equal. rewrite insert_app_r_alt by lia. by rewrite Nat.sub_diag.
Qed.

Lemma reads_length v bs r :
  0 <= v <= 16 -> reads r (lengthBits v ++ bs) ->
  exists r', (let '(c, r) := bits 3 r in
              if c =? 7 then let '(t, r) := trues 13 r in (wrap16 (c + t), r) else (c, r)) = (v, r') /\ reads r' bs.
Proof.
  intros Hv Hr. unfold lengthBits in Hr. destruct (Z.ltb_spec v 7).
  - destruct (reads_bits 3 v bs r) as (r' & Hb & Hr'); [lia|cbn; lia|done|]. change (Z.of_nat 3) with 3 in Hb.
    rewrite Hb. exists r'. by replace (v =? 7) with false by lia.
  - rewrite <- !app_assoc in Hr. destruct (reads_bits 3 7 _ r ltac:(lia) ltac:(cbn; lia) Hr) as (r1 & Hb & Hr1).
    change (Z.of_nat 3) with 3 in Hb. rewrite Hb. cbn [Z.eqb Pos.eqb].
    destruct (reads_trues (Z.to_nat (v - 7)) 13 0 bs r1) as (r' & Ht & Hr'); [lia|exact Hr1|].
    unfold trues. rewrite Ht. exists r'. split; [|done]. f_equal. unfold wrap16. rewrite Z.mod_small; lia.
Qed.

Lemma pLoop_reads special l : Forall (fun v => 0 <= v <= 16) l -> forall rest pre fuel r bs,
  l = pre ++ rest -> (length rest < fuel)%nat ->
  reads r (lengthsBits special (Z.of_nat (length pre)) rest ++ bs) ->
  exists r', pLoop fuel special (Z.of_nat (length l)) (Z.of_nat (length pre)) (pre ++ repeat 0 (length rest)) r
             = Done (l, r') /\ reads r' bs.
Proof.
  intros Hl. induction rest as [|v rest IH]; intros pre [|fuel] r bs Heq Hf Hr; cbn [length] in *; try lia; cbn [pLoop].
  - rewrite app_nil_r in *. subst l. rewrite Z.ltb_irrefl. by exists r.
  - assert (length l = length pre + S (length rest))%nat as Hlen by (by rewrite Heq, length_app).
    replace (Z.of_nat (length pre) <? Z.of_nat (length l)) with true by lia. cbn [negb].
    assert (0 <= v <= 16) as Hv by (rewrite Heq, Forall_app, Forall_cons in Hl; tauto).
    cbn [lengthsBits] in Hr. rewrite <- !app_assoc in Hr.
    destruct (reads_length v _ r Hv Hr) as (r1 & Hb & Hr1).
    destruct (bits 3 r) as [c r0]. rewrite Hb. cbn [repeat]. rewrite setIndex_middle.
    replace (uint8 v) with v by (symmetry; apply Z.mod_small; lia).
    replace (Z.of_nat (length pre) + 1) with (Z.of_nat (length (pre ++ [v]))) in * by (rewrite length_app; cbn; lia).
    change (pre ++ v :: repeat 0 (length rest)) with (pre ++ [v] ++ repeat 0 (length rest)). rewrite app_assoc.
    assert (l = (pre ++ [v]) ++ rest) as Heq' by (by rewrite <- app_assoc).
    destruct (_ =? special).
    + destruct (reads_bits 2 0 _ r1 ltac:(lia) ltac:(cbn; lia) Hr1) as (r2 & Hb2 & Hr2).
      change (Z.of_nat 2) with 2 in Hb2. rewrite Hb2. cbn [Z.to_nat skipZeros]. apply IH; [done|lia|done].
    + apply IH; [done|lia|done].
Qed.

Lemma pTree_reads (nbits : nat) special l h bs r :
  (nbits <= 16)%nat -> lengths_ok l -> 0 < Z.of_nat (length l) < 2 ^ Z.of_nat nbits -> mkH l = Done h ->
  reads r (pTreeBits nbits special l ++ bs) ->
  exists r', pTree (Z.of_nat nbits) special (length l) r = Done (h, r') /\ reads r' bs.
Proof.
  intros Hn [Hl _] Hlen Hh Hr. unfold pTreeBits in Hr. rewrite <- app_assoc in Hr.
  destruct (reads_bits nbits (Z.of_nat (length l)) _ r Hn ltac:(lia) Hr) as (r1 & Hb & Hr1). unfold pTree. rewrite Hb.
  replace (Z.of_nat (length l) =? 0) with false by lia. rewrite Z.min_id.
  destruct (pLoop_reads special l Hl l [] (S (length l)) r1 bs) as (r' & Hp & Hr'); [done|lia|done|].
  cbn [app length] in Hp. change (Z.of_nat 0) with 0 in Hp. rewrite Hp, Hh. by exists r'.
Qed.

Lemma tLengths_ok : lengths_ok tLengths.
Proof. split; [repeat constructor; lia|vm_compute; discriminate]. Qed.

#[local] Opaque mkH.

(** Every symbol of the lengths' code has five bits. *)
Lemma tLengths_lookup i : (i < 19)%nat -> tLengths !! i = Some 5.
Proof. intros Hi. do 19 (destruct i as [|i]; [done|]). lia. Qed.

(** A round of the loop of [cTree]: one length. *)
Lemma cLoop_round h n v fuel pre rest r bs :
  mkH tLengths = Done h -> 0 <= v <= 16 -> Z.of_nat (length pre) < n ->
  reads r (codeBits tLengths (cSymbol v) ++ bs) ->
  exists r', reads r' bs /\
    cLoop (S fuel) 9 h n n (Z.of_nat (length pre)) (pre ++ 0 :: rest) r
    = cLoop fuel 9 h n n (Z.of_nat (length (pre ++ [v]))) ((pre ++ [v]) ++ rest) r'.
Proof.
  intros Hh Hv Hn Hr.
  assert (cSymbol v < 19)%nat as Hsym by (unfold cSymbol; destruct (v =? 0); lia).
  destruct (reads_code tLengths h (cSymbol v) 5 bs r Hh tLengths_ok ltac:(cbn; lia) (tLengths_lookup _ Hsym) ltac:(lia) Hr)
    as (r1 & Hd & Hr1).
  exists r1. split; [done|]. cbn [cLoop]. rewrite (proj2 (Z.ltb_lt _ _) Hn), Hd. cbn [negb]. rewrite <- app_assoc. cbn [app].
  replace (Z.of_nat (length (pre ++ [v]))) with (Z.of_nat (length pre) + 1) by (rewrite length_app; cbn [length]; lia).
  unfold cSymbol. destruct (Z.eqb_spec v 0) as [->|Hv0].
  - change (2 <? Z.of_nat 0) with false. change (Z.of_nat 0 =? 1) with false. change (Z.of_nat 0 =? 2) with false.
    cbv iota beta. change (Z.to_nat 1) with 1%nat. cbn [skipZeros].
    by rewrite (proj2 (Z.ltb_lt _ _) Hn), setIndex_middle.
  - rewrite Z2Nat.id by lia. replace (2 <? v + 2) with true by lia. rewrite setIndex_middle.
    replace (uint8 (v + 2 - 2)) with v by (unfold uint8, wrap8; rewrite Z.mod_small; lia). done.
Qed.

Lemma cLoop_reads h l : mkH tLengths = Done h -> Forall (fun v => 0 <= v <= 16) l ->
  forall rest pre fuel r bs,
  l = pre ++ rest -> (length rest < fuel)%nat -> reads r (encode tLengths (map cSymbol rest) ++ bs) ->
  exists r', cLoop fuel 9 h (Z.of_nat (length l)) (Z.of_nat (length l)) (Z.of_nat (length pre)) (pre ++ repeat 0 (length rest)) r
             = Done (l, r') /\ reads r' bs.
Proof.
  intros Hh Hl. induction rest as [|v rest IH]; intros pre [|fuel] r bs Heq Hf Hr; cbn [length] in *; try lia.
  - rewrite app_nil_r in *. subst l. cbn [cLoop]. rewrite Z.ltb_irrefl. exists r. split; [reflexivity|exact Hr].
  - pose proof (f_equal length Heq) as Hlen. rewrite length_app in Hlen. cbn [length] in Hlen.
    assert (Z.of_nat (length pre) < Z.of_nat (length l)) as Hlt by (clear -Hlen; lia).
    assert (0 <= v <= 16) as Hv by (rewrite Heq in Hl; apply Forall_app in Hl as [_ Hl]; by apply Forall_cons in Hl as [? _]).
    unfold encode in Hr. cbn [map concat] in Hr. rewrite <- app_assoc in Hr.
    destruct (cLoop_round h _ v fuel pre (repeat 0 (length rest)) r _ Hh Hv Hlt Hr) as (r1 & Hr1 & Hround).
    cbn [repeat]. rewrite Hround. apply IH; [by rewrite <- app_assoc|lia|done].
Qed.

Lemma cTree_reads h l hc bs r :
  mkH tLengths = Done h -> lengths_ok l -> 0 < Z.of_nat (length l) < 2 ^ 9 -> mkH l = Done hc ->
  reads r (cTreeBits l ++ bs) -> exists r', cTree 9 h (length l) r = Done (hc, r') /\ reads r' bs.
Proof.
  intros Hh [Hl _] Hlen Hhc Hr. unfold cTreeBits in Hr. rewrite <- app_assoc in Hr.
  destruct (reads_bits 9 (Z.of_nat (length l)) _ r ltac:(lia) ltac:(lia) Hr) as (r1 & Hb & Hr1). unfold cTree.
  change (Z.of_nat 9) with 9 in Hb. rewrite Hb. replace (Z.of_nat (length l) =? 0) with false by lia. rewrite Z.min_id.
  destruct (cLoop_reads h l Hh Hl l [] (S (length l)) r1 bs) as (r' & Hp & Hr'); [done|lia|done|].
  cbn [app length] in Hp. change (Z.of_nat 0) with 0 in Hp. rewrite Hp, Hhc. exists r'. by split.
Qed.

(** * Tokens and blocks *)

Lemma log2_range off : 0 < off < 8192 -> 0 <= Z.log2 off < 13 /\ 2 ^ Z.log2 off <= off < 2 ^ (Z.log2 off + 1).
Proof.
  intros Hoff. pose proof (Z.log2_spec off ltac:(lia)) as Hs. rewrite Z.add_1_r. split; [|lia].
  split; [apply Z.log2_nonneg|]. apply Z.log2_lt_pow2; [lia|]. change (2 ^ 13) with 8192. lia.
Qed.

(** The offset of a match, from the symbol of its size. *)
Lemma reads_offset off bs r :
  0 <= off < 8192 -> reads r (offBits off ++ bs) ->
  exists r', (if 0 <? offSize off then
                let '(b, r) := bits (offSize off - 1) r in (Z.shiftl 1 (offSize off - 1) + b, r)
              else (offSize off, r)) = (off, r') /\ reads r' bs.
Proof.
  intros Hoff Hr. unfold offBits, offSize in *. destruct (Z.eqb_spec off 0) as [->|Hne]; [by exists r|].
  destruct (log2_range off ltac:(lia)) as [Hlog Hpow]. replace (0 <? Z.log2 off + 1) with true by lia.
  replace (Z.log2 off + 1 - 1) with (Z.log2 off) by lia. rewrite Z.pow_add_r in Hpow by lia. change (2 ^ 1) with 2 in Hpow.
  destruct (reads_bits (Z.to_nat (Z.log2 off)) (off - 2 ^ Z.log2 off) bs r) as (r' & Hb & Hr');
    [lia|rewrite Z2Nat.id; lia|done|].
  rewrite Z2Nat.id in Hb by lia. rewrite Hb. exists r'. split; [|done]. f_equal. rewrite Z.shiftl_1_l. lia.
Qed.

(** The two halves of a round of [decodeLH5]: the header, when a block begins, and the token. *)
Definition blockTables (s : lh5) : outcome (br * Z * huff * huff) :=
  if lhBlock s =? 0 then
    let '(nblk, r) := bits 16 (lhR s) in
    let! (t, r) := pTree 5 3 19 r in
    let! (c, r) := cTree 9 t 510 r in
    let! (p, r) := pTree 4 (-1) 14 r in
    Done (r, nblk, c, p)
  else Done (lhR s, lhBlock s, lhC s, lhP s).
Definition readToken (r : br) (nblk : Z) (c p : huff) : outcome (token * lh5) :=
  let nblk := nblk - 1 in
  let! (v, r) := dec c r in
  if v <? 256 then Done (literal (byte_of v), mkLH5 r nblk c p) else
  let ln := v - 253 in
  let! (ov, r) := dec p r in
  let '(off, r) := if 0 <? ov then
                     let w := ov - 1 in
                     let '(b, r) := bits w r in (Z.shiftl 1 w + b, r)
                   else (ov, r) in
  Done (copyMatch off ln, mkLH5 r nblk c p).
Lemma nextToken_halves s : nextToken s = let! (r, n, c, p) := blockTables s in readToken r n c p.
Proof. reflexivity. Qed.

(** A table that is the canonical code of some lengths. *)
Definition table (n : nat) (l : list Z) (h : huff) : Prop := mkH l = Done h /\ lengths_ok l /\ length l = n.

Lemma reads_symbol n l h i bs r :
  table n l h -> (n <= 510)%nat -> coded l i -> 0 <= i -> reads r (codeBits l (Z.to_nat i) ++ bs) ->
  exists r', dec h r = Done (i, r') /\ reads r' bs.
Proof.
  intros (Hh & Hl & Hn) Hle (v & Hi & Hv) Hi0 Hr.
  destruct (reads_code l h (Z.to_nat i) v bs r Hh Hl ltac:(lia) Hi Hv Hr) as (r' & Hd & Hr').
  rewrite Z2Nat.id in Hd by done. by exists r'.
Qed.

Lemma readToken_reads lc lp hc hp n t bs r :
  table 510 lc hc -> table 14 lp hp -> token_coded lc lp t -> reads r (tokenBits lc lp t ++ bs) ->
  exists r', readToken r n hc hp = Done (t, mkLH5 r' (n - 1) hc hp) /\ reads r' bs.
Proof.
  intros Hc Hp Ht Hr. unfold readToken. destruct t as [b|off ln]; cbn [tokenBits token_coded] in *.
  - pose proof (byteZ_range b) as Hb.
    destruct (reads_symbol _ _ _ _ _ _ Hc ltac:(lia) Ht ltac:(lia) Hr) as (r' & -> & Hr').
    replace (byteZ b <? 256) with true by lia. exists r'. split; [|done]. by rewrite byte_of_Z.
  - destruct Ht as (Hoff & Hln & Htc & Htp). change (Z.of_nat window) with 8192 in Hoff. rewrite <- !app_assoc in Hr.
    destruct (reads_symbol _ _ _ _ _ _ Hc ltac:(lia) Htc ltac:(lia) Hr) as (r1 & -> & Hr1).
    replace (ln + 253 <? 256) with false by lia.
    assert (0 <= offSize off) as Hos by (unfold offSize; pose proof (Z.log2_nonneg off); destruct (off =? 0); lia).
    destruct (reads_symbol _ _ _ _ _ _ Hp ltac:(lia) Htp Hos Hr1) as (r2 & -> & Hr2).
    destruct (reads_offset off bs r2 Hoff Hr2) as (r3 & Ho & Hr3). rewrite Ho. exists r3. split; [|done].
    by replace (ln + 253 - 253) with ln by lia.
Qed.

Lemma table_exists n l : lengths_ok l -> length l = n -> (n <= 510)%nat -> exists h, table n l h.
Proof.
  intros Hl Hn Hle. destruct (mkH_spec l Hl ltac:(lia)) as (sy & Hh & _). eexists. by split_and!.
Qed.

Lemma blockTables_reads b bs s :
  block_ok b -> lhBlock s = 0 -> reads (lhR s) (blockBits b ++ bs) ->
  exists r' hc hp, blockTables s = Done (r', Z.of_nat (length (bkTokens b)), hc, hp)
    /\ table 510 (bkC b) hc /\ table 14 (bkP b) hp
    /\ reads r' (tokensBits (bkC b) (bkP b) (bkTokens b) ++ bs).
Proof.
  intros [HC HCl HP HPl Hn _] Hs Hr. unfold blockBits in Hr. rewrite <- !app_assoc in Hr. unfold blockTables. rewrite Hs.
  destruct (table_exists 19 tLengths tLengths_ok eq_refl ltac:(lia)) as (ht & Hht & _ & _).
  destruct (table_exists 510 (bkC b) HC HCl ltac:(lia)) as (hc & Hhc).
  destruct (table_exists 14 (bkP b) HP HPl ltac:(lia)) as (hp & Hhp).
  assert (0 < Z.of_nat (length (bkC b)) < 2 ^ 9) as HC9 by (rewrite HCl; split; reflexivity).
  assert (0 < Z.of_nat (length (bkP b)) < 2 ^ Z.of_nat 4) as HP4 by (rewrite HPl; split; reflexivity).
  destruct (reads_bits 16 (Z.of_nat (length (bkTokens b))) _ (lhR s) ltac:(lia) ltac:(lia) Hr) as (r1 & Hb & Hr1).
  change (Z.of_nat 16) with 16 in Hb. rewrite Hb. cbn [Z.eqb].
  destruct (pTree_reads 5 3 tLengths ht _ r1 ltac:(lia) tLengths_ok ltac:(cbn; lia) Hht Hr1) as (r2 & Ht & Hr2).
  change (Z.of_nat 5) with 5 in Ht. change (length tLengths) with 19%nat in Ht. rewrite Ht.
  destruct (cTree_reads ht (bkC b) hc _ r2 Hht HC HC9 (proj1 Hhc) Hr2) as (r3 & Hc & Hr3).
  rewrite HCl in Hc. rewrite Hc.
  destruct (pTree_reads 4 (-1) (bkP b) hp _ r3 ltac:(lia) HP HP4 (proj1 Hhp) Hr3) as (r4 & Hp & Hr4).
  change (Z.of_nat 4) with 4 in Hp. rewrite HPl in Hp. rewrite Hp. exists r4, hc, hp. split; [reflexivity|]. split; [exact Hhc|]. split; [exact Hhp|exact Hr4].
Qed.

(** * Streams *)

Lemma expand1_extends out t : exists more, expand1 out t = out ++ more.
Proof. destruct t; by eexists. Qed.
Lemma foldl_expand_extends ts : forall out, exists more, foldl expand1 out ts = out ++ more.
Proof.
  induction ts as [|t ts IH]; intros out; cbn [foldl]; [exists []; by rewrite app_nil_r|].
  destruct (expand1_extends out t) as [m1 ->]. destruct (IH (out ++ m1)) as [m2 ->]. exists (m1 ++ m2). by rewrite app_assoc.
Qed.

(** Tokens that are coded never reach before the window, and add something. *)
Lemma expandToken_coded lc lp out t :
  token_coded lc lp t -> (window <= length out)%nat ->
  expandToken out t = Done (expand1 out t) /\ (length out < length (expand1 out t))%nat.
Proof.
  intros Ht Hout. destruct t as [b|off ln]; cbn [expandToken expand1 token_coded] in *.
  - split; [done|]. rewrite length_app. cbn. lia.
  - destruct Ht as (Hoff & Hln & _). destruct (Nat.ltb_spec (length out) (S (Z.to_nat off))); [lia|].
    split; [done|]. rewrite length_app, length_map, length_seq. lia.
Qed.

(** Within a block, with some tokens and then some blocks to go. *)
Record ongoing (s : lh5) (lc lp : list Z) (ts : list token) (bs : list block) : Prop := {
  og_count : lhBlock s = Z.of_nat (length ts);
  og_reads : reads (lhR s) (tokensBits lc lp ts ++ blocksBits bs);
  og_tables : ts <> [] -> table 510 lc (lhC s) /\ table 14 lp (lhP s);
  og_tokens : Forall (token_coded lc lp) ts;
  og_blocks : Forall block_ok bs;
}.

(** A round takes the next token, through a header when the block is over. *)
Lemma nextToken_ongoing s lc lp ts bs t rest :
  ongoing s lc lp ts bs -> ts ++ flat_map bkTokens bs = t :: rest ->
  exists s' lc' lp' ts' bs', nextToken s = Done (t, s') /\ ongoing s' lc' lp' ts' bs'
    /\ ts' ++ flat_map bkTokens bs' = rest /\ token_coded lc' lp' t.
Proof.
  intros [Hn Hr Htab Hts Hbs] Heq. rewrite nextToken_halves.
  assert (forall r n hc hp lc lp ts bs, reads r (tokensBits lc lp (t :: ts) ++ blocksBits bs) ->
    table 510 lc hc -> table 14 lp hp -> n = Z.of_nat (length (t :: ts)) ->
    Forall (token_coded lc lp) (t :: ts) -> Forall block_ok bs ->
    exists s', readToken r n hc hp = Done (t, s') /\ ongoing s' lc lp ts bs /\ token_coded lc lp t) as Hread.
  { clear. intros r n hc hp lc lp ts bs Hr Hc Hp -> [Ht Hts]%Forall_cons Hbs. cbn [tokensBits flat_map] in Hr. rewrite <- app_assoc in Hr.
    destruct (readToken_reads lc lp hc hp (Z.of_nat (length (t :: ts))) t _ r Hc Hp Ht Hr) as (r' & Hd & Hr').
    eexists. split; [exact Hd|]. split; [|done]. constructor; cbn [lhBlock lhR lhC lhP]; [cbn; lia|exact Hr'|by split|done|done]. }
  destruct ts as [|t0 ts].
  - destruct bs as [|b bs]; [done|]. apply Forall_cons in Hbs as [Hb Hbs]. cbn [tokensBits blocksBits flat_map app] in Hr, Heq.
    destruct (blockTables_reads b (blocksBits bs) s Hb Hn Hr) as (r1 & hc & hp & -> & Hc & Hp & Hr1).
    destruct (bkTokens b) as [|t0 ts] eqn:Hts0; [destruct Hb as [_ _ _ _ Hcount _]; rewrite Hts0 in Hcount; cbn in Hcount; lia|].
    injection Heq as -> <-. destruct (Hread r1 _ hc hp (bkC b) (bkP b) ts bs Hr1 Hc Hp eq_refl) as (s' & Hd & Hog & Ht);
      [rewrite <- Hts0; apply Hb|done|].
    by exists s', (bkC b), (bkP b), ts, bs.
  - injection Heq as -> <-. unfold blockTables. rewrite Hn. change (Z.of_nat (length (t :: ts)) =? 0) with false.
    destruct (Htab ltac:(done)) as [Hc Hp].
    destruct (Hread (lhR s) _ (lhC s) (lhP s) lc lp ts bs Hr Hc Hp eq_refl Hts Hbs) as (s' & Hd & Hog & Ht).
    by exists s', lc, lp, ts, bs.
Qed.

Lemma expandLoop_ongoing limit fuel : forall s lc lp ts bs out,
  ongoing s lc lp ts bs -> (window <= length out)%nat ->
  (limit <= length (foldl expand1 out (ts ++ flat_map bkTokens bs)))%nat -> (limit <= length out + fuel)%nat ->
  expandLoop fuel limit s out = Done (take limit (foldl expand1 out (ts ++ flat_map bkTokens bs))).
Proof.
  induction fuel as [|fuel IH]; intros s lc lp ts bs out Hog Hw Hlim Hf; cbn [expandLoop];
    destruct (Nat.leb_spec limit (length out)) as [Hle|Hgt]; try lia.
  1,2: destruct (foldl_expand_extends (ts ++ flat_map bkTokens bs) out) as [more ->]; by rewrite take_app_le.
  destruct (ts ++ flat_map bkTokens bs) as [|t rest] eqn:Heq; cbn [foldl] in *; [lia|].
  destruct (nextToken_ongoing s lc lp ts bs t rest Hog Heq) as (s' & lc' & lp' & ts' & bs' & -> & Hog' & <- & Ht).
  destruct (expandToken_coded lc' lp' out t Ht Hw) as [-> Hgrow]. apply (IH s' lc' lp'); [done|lia|done|lia].
Qed.

(** A segment inside a resource is decoded from its own bytes. *)
Lemma decodeLH5Seg_within before src after n :
  decodeLH5Seg (before ++ src ++ after) (Z.of_nat (length before)) (Z.of_nat (length src)) (Z.of_nat n)
  = let! buf := expandLoop (window + n) (window + n) (newLH5 src) (repeat (byte_of 32) window) in Done (Ok (drop window buf)).
Proof.
  unfold decodeLH5Seg. cbv zeta. rewrite !length_app.
  destruct (Z.ltb_spec (Z.of_nat (length before)) 0); [lia|]. destruct (Z.ltb_spec (Z.of_nat (length src)) 0); [lia|].
  destruct (Z.ltb_spec (Z.of_nat (length before + (length src + length after))) (Z.of_nat (length before) + Z.of_nat (length src))); [lia|].
  destruct (Z.ltb_spec (Z.of_nat n) 0); [lia|]. cbn [orb].
  by rewrite !Nat2Z.id, drop_app_length, take_app_length, decodeLH5_expand.
Qed.

(** The reader of a packed stream is at its beginning. *)
Lemma reads_pack bs : reads (newBR (pack bs)) bs.
Proof.
  split; [apply newBR_ok|]. etrans; [|apply pack_bits]. intros j Hj. unfold stream. cbn [newBR brN brI brB].
  replace (j <? 0) with false by lia. cbn [drop]. f_equal. lia.
Qed.

Lemma expandLoop_blocks blocks n :
  Forall block_ok blocks -> (n <= length (expand (flat_map bkTokens blocks)))%nat ->
  expandLoop (window + n) (window + n) (newLH5 (encodeBlocks blocks)) (repeat (byte_of 32) window)
  = Done (take (window + n) (foldl expand1 (repeat (byte_of 32) window) (flat_map bkTokens blocks))).
Proof.
  intros Hok Hn. unfold expand in Hn. rewrite length_drop in Hn.
  apply (expandLoop_ongoing _ _ (newLH5 (encodeBlocks blocks)) [] [] [] blocks); cbn [app].
  - constructor; [done|apply reads_pack|done|done|done].
  - by rewrite repeat_length.
  - destruct (foldl_expand_extends (flat_map bkTokens blocks) (repeat (byte_of 32) window)) as [more Hmore].
    rewrite Hmore in *. rewrite length_app, repeat_length in *. lia.
  - rewrite repeat_length. lia.
Qed.

(** C28.  The decoder inverts LH5 encoding.  Take any blocks, each with its own two code tables given
    by any lengths that satisfy Kraft's inequality, and any tokens that these tables code, at most
    65535 in a block: literals and matches of 3 to 256 bytes that reach back at most the window.
    From their encoding, wherever it lies in the resource, the decoder gives the bytes that the
    tokens stand for, as many of them as it is asked for. *)
Theorem decodeLH5Seg_encodeBlocks blocks before after n :
  Forall block_ok blocks -> (n <= length (expand (flat_map bkTokens blocks)))%nat ->
  decodeLH5Seg (before ++ encodeBlocks blocks ++ after) (Z.of_nat (length before))
    (Z.of_nat (length (encodeBlocks blocks))) (Z.of_nat n)
  = Done (Ok (take n (expand (flat_map bkTokens blocks)))).
Proof.
  intros Hok Hn. rewrite decodeLH5Seg_within, expandLoop_blocks by done. by rewrite <- take_drop_commute.
Qed.

(** * Every message has an encoding *)

(** Codes of nine bits for all literals and match lengths, of four for all sizes of offsets, and
    literals only. *)
Definition flatC : list Z := repeat 9 510.
Definition flatP : list Z := repeat 4 14.
Definition maxTokens : nat := Z.to_nat 65535.
Fixpoint storeBlocks (fuel : nat) (msg : bytes) : list block :=
  match fuel, msg with
  | S fuel, _ :: _ => mkBlock flatC flatP (map literal (take maxTokens msg)) :: storeBlocks fuel (drop maxTokens msg)
  | _, _ => []
  end.
Definition store (msg : bytes) : bytes := encodeBlocks (storeBlocks (length msg) msg).

Lemma maxTokens_val : Z.of_nat maxTokens = 65535.
Proof. unfold maxTokens. by rewrite Z2Nat.id. Qed.
#[local] Opaque maxTokens.

Lemma repeat_lookup {A} (x : A) n i : (i < n)%nat -> repeat x n !! i = Some x.
Proof. revert i. induction n as [|n IH]; intros [|i] Hi; cbn; try lia; [done|]. apply IH. lia. Qed.

Lemma flatC_ok : lengths_ok flatC.
Proof. split; [|vm_compute; discriminate]. apply List.Forall_forall. intros v ->%repeat_spec. lia. Qed.
Lemma flatP_ok : lengths_ok flatP.
Proof. split; [|vm_compute; discriminate]. apply List.Forall_forall. intros v ->%repeat_spec. lia. Qed.
Lemma flatC_coded i : 0 <= i < 510 -> coded flatC i.
Proof. intros Hi. exists 9. split; [|lia]. apply repeat_lookup. lia. Qed.
Lemma flatP_coded i : 0 <= i < 14 -> coded flatP i.
Proof. intros Hi. exists 4. split; [|lia]. apply repeat_lookup. lia. Qed.

(** All tokens within the window are coded by these tables. *)
Lemma flat_coded t :
  match t with literal _ => True | copyMatch off ln => 0 <= off < Z.of_nat window /\ 3 <= ln <= 256 end ->
  token_coded flatC flatP t.
Proof.
  destruct t as [b|off ln]; cbn [token_coded]; [intros _; apply flatC_coded; pose proof (byteZ_range b); lia|].
  intros [Hoff Hln]. change (Z.of_nat window) with 8192 in *. split_and!; [lia|lia|lia|lia|apply flatC_coded; lia|].
  apply flatP_coded. unfold offSize. destruct (Z.eqb_spec off 0); [lia|]. pose proof (log2_range off ltac:(lia)). lia.
Qed.

Lemma flat_block ts :
  1 <= Z.of_nat (length ts) < 2 ^ 16 -> Forall (token_coded flatC flatP) ts -> block_ok (mkBlock flatC flatP ts).
Proof.
  intros Hn Hts. constructor; [apply flatC_ok|apply repeat_length|apply flatP_ok|apply repeat_length|exact Hn|exact Hts].
Qed.

Lemma storeBlocks_ok fuel : forall msg, (length msg <= fuel)%nat ->
  Forall block_ok (storeBlocks fuel msg) /\ flat_map bkTokens (storeBlocks fuel msg) = map literal msg.
Proof.
  induction fuel as [|fuel IH]; intros [|b msg] Hf; cbn [storeBlocks];
    [split; [constructor|reflexivity]|cbn in Hf; lia|split; [constructor|reflexivity]|].
  pose proof maxTokens_val as Hmax. set (m := b :: msg) in *. assert (0 < length m)%nat as Hpos by (cbn; lia).
  destruct (IH (drop maxTokens m)) as [Hok Hts]; [rewrite length_drop; lia|]. split.
  - constructor; [|done]. apply flat_block; [rewrite length_map, length_take; lia|].
    apply List.Forall_forall. intros t (c & <- & _)%in_map_iff. by apply flat_coded.
  - cbn [flat_map bkTokens]. by rewrite Hts, <- map_app, take_drop.
Qed.

Lemma foldl_literals msg : forall out, foldl expand1 out (map literal msg) = out ++ msg.
Proof.
  induction msg as [|b msg IH]; intros out; cbn [map foldl]; [by rewrite app_nil_r|]. rewrite IH. cbn. by rewrite <- app_assoc.
Qed.
Lemma drop_window msg : drop window (repeat (byte_of 32) window ++ msg) = msg.
Proof. rewrite <- (repeat_length (byte_of 32) window) at 1. apply drop_app_length. Qed.
Lemma expand_literals msg : expand (map literal msg) = msg.
Proof.
  unfold expand. by rewrite foldl_literals, drop_window.
Qed.

(** Nothing is out of the format's reach: any bytes at all have an encoding that the decoder turns
    back into them. *)
Theorem decodeLH5Seg_store msg :
  decodeLH5Seg (store msg) 0 (Z.of_nat (length (store msg))) (Z.of_nat (length msg)) = Done (Ok msg).
Proof.
  destruct (storeBlocks_ok (length msg) msg (le_n _)) as [Hok Hts].
  pose proof (decodeLH5Seg_within [] (store msg) [] (length msg)) as Hd. cbn [app length] in Hd.
  rewrite app_nil_r in Hd. change (Z.of_nat 0) with 0 in Hd. rewrite Hd. unfold store.
  rewrite expandLoop_blocks by (rewrite ?Hts, ?expand_literals; done).
  rewrite Hts, foldl_literals. rewrite take_ge by (by rewrite length_app, repeat_length).
  by rewrite drop_window.
Qed.

(** * A stream of two blocks with different tables, and matches that overlap what they copy *)

Definition flatBlock : block := mkBlock flatC flatP (map literal (blist "Quake ") ++ [copyMatch 5 13]).
(** Codes of one, twelve and sixteen bits, and no code for most symbols. *)
Definition sparseC : list Z := repeat 0 33 ++ [1] ++ repeat 0 222 ++ [12] ++ repeat 0 253.
Definition sparseP : list Z := [0; 16] ++ repeat 0 12.
Definition sparseBlock : block := mkBlock sparseC sparseP [literal (byte_of 33); literal (byte_of 33); copyMatch 1 3].

Lemma sparseBlock_ok : block_ok sparseBlock.
Proof.
  constructor; [|reflexivity| |reflexivity|cbn; lia|].
  - split; [apply (bool_decide_unpack _); vm_compute; exact I|vm_compute; discriminate].
  - split; [apply (bool_decide_unpack _); vm_compute; exact I|vm_compute; discriminate].
  - assert (coded sparseC 33 /\ coded sparseC 256 /\ coded sparseP (offSize 1)) as (H1 & H2 & H3)
      by (split_and!; eexists; (split; [vm_compute; reflexivity|lia])).
    by repeat constructor.
Qed.
Lemma flatBlock_ok : block_ok flatBlock.
Proof.
  apply flat_block; [cbn; lia|]. apply List.Forall_forall. intros t Hin. apply flat_coded.
  change (Z.of_nat window) with 8192. cbn in Hin. repeat (destruct Hin as [<-|Hin]; [done || lia|]). done.
Qed.

Lemma decodeLH5Seg_encodeBlocks_witness :
  decodeLH5Seg (blist "head" ++ encodeBlocks [flatBlock; sparseBlock] ++ blist "tail") 4
    (Z.of_nat (length (encodeBlocks [flatBlock; sparseBlock]))) 23 = Done (Ok (blist "Quake Quake Quake Q!!!!"%string)).
Proof.
  pose proof (decodeLH5Seg_encodeBlocks [flatBlock; sparseBlock] (blist "head") (blist "tail") 23) as T.
  assert (take 23 (expand (flat_map bkTokens [flatBlock; sparseBlock])) = blist "Quake Quake Quake Q!!!!"%string) as He
    by (vm_compute; reflexivity).
  rewrite He in T. apply T; [constructor; [apply flatBlock_ok|constructor; [apply sparseBlock_ok|constructor]]|].
  apply Nat.leb_le. vm_compute. reflexivity.
Defined.
