(* ===== verification/Vfs.v ===== *)
(** The client's file system: assets/clientfs.go and assets/clientfs_pak.go.

    Paths are cleaned and lower-cased to keys; the layers of a mod, each with its paks and its
    loose files, are laid over one another into one manifest.  What the operating system
    answers (the entries of a directory, the files a walk meets, the status and the content of a
    file) is an argument. *)
From S2P Require Import Prelude GoStrings Paths.

(** * Paths *)

(** clientfs.go [cleanVFSPath] *)
Definition cleanVFSPath (p : string) : result string string :=
  let p := TrimSpace p in
  if (p =? "")%string then Err "empty path"%string else
  let p := ReplaceByte p (byte_of 92) "/" in
  let p := TrimLeft p "/" in
  let p := filepath_Clean p in
  if (p =? ".")%string then Err "empty path"%string else
  if HasPrefix p "../" || (p =? "..")%string || Contains p "/../" then Err "path traversal"%string else
  Ok p.

(** clientfs.go [normalizeVFSKey] *)
Definition normalizeVFSKey `{GoUnicode} (p : string) : string :=
  match cleanVFSPath p with Ok clean => ToLower clean | Err _ => "" end.

(** * Paks *)

(** clientfs_pak.go [pakFileEntry] *)
Record pakFileEntry := mkPakFileEntry { pakName : string; pakOffset : Z; pakSize : Z }.

(** The errors of [readPakContents]. *)
Inductive pakError :=
  | pakTooSmall (size : Z)
  | pakMagic (magic : bytes)
  | pakDirNegative (off len : Z)
  | pakDirOutOfBounds (off len size : Z)
  | pakDirLength (len : Z)
  | pakEntryName (name : string) (err : string)
  | pakEntryNegative (name : string) (off size : Z)
  | pakEntryOutOfBounds (name : string) (off size file : Z).

(** binary.LittleEndian.Uint32 of the four bytes at an offset, and its int32. *)
Definition le32 (l : bytes) (at_ : nat) : Z :=
  let b k := byteZ (nth (at_ + k) l (byte_of 0)) in
  b 0%nat + b 1%nat * 2 ^ 8 + b 2%nat * 2 ^ 16 + b 3%nat * 2 ^ 24.
Definition int32 (z : Z) : Z := if z <? 2 ^ 31 then z else z - 2 ^ 32.

(** A directory entry: [None] when its name is empty. *)
Definition pakEntry (fileSize : Z) (chunk : bytes) : result pakError (option pakFileEntry) :=
  let rawName := take 56 chunk in
  let rawName := match cut_byte (byte_of 0) rawName with Some (n, _) => n | None => rawName end in
  let originalName := btext rawName in
  if (originalName =? "")%string then Ok None else
  match cleanVFSPath originalName with
  | Err err => Err (pakEntryName originalName err)
  | Ok name =>
      let off := int32 (le32 chunk 56) in
      let sz := int32 (le32 chunk 60) in
      if (off <? 0) || (sz <? 0) then Err (pakEntryNegative name off sz) else
      if fileSize <? off + sz then Err (pakEntryOutOfBounds name off sz fileSize) else
      Ok (Some (mkPakFileEntry name off sz))
  end.

(** The loop over the directory, 64 bytes a round. *)
Fixpoint pakEntries (fileSize : Z) (rounds : nat) (dirBytes : bytes) : result pakError (list pakFileEntry) :=
  match rounds with
  | O => Ok []
  | S rounds =>
      let* e := pakEntry fileSize (take 64 dirBytes) in
      let* rest := pakEntries fileSize rounds (drop 64 dirBytes) in
      Ok (match e with Some e => e :: rest | None => rest end)
  end.

(** clientfs_pak.go [readPakContents], on the content of the file. *)
Definition readPakContents (f : bytes) : result pakError (list pakFileEntry) :=
  let fileSize := Z.of_nat (length f) in
  if fileSize <? 12 then Err (pakTooSmall fileSize) else
  if negb (bool_decide (take 4 f = blist "PACK")) then Err (pakMagic (take 4 f)) else
  let dirOffset := int32 (le32 f 4) in
  let dirLen := int32 (le32 f 8) in
  if (dirOffset <? 0) || (dirLen <? 0) then Err (pakDirNegative dirOffset dirLen) else
  if fileSize <? dirOffset + dirLen then Err (pakDirOutOfBounds dirOffset dirLen fileSize) else
  if negb (dirLen mod 64 =? 0) then Err (pakDirLength dirLen) else
  let dirBytes := take (Z.to_nat dirLen) (drop (Z.to_nat dirOffset) f) in
  pakEntries fileSize (Z.to_nat (dirLen / 64)) dirBytes.

(** clientfs_pak.go [pakIndex] *)
Record pakIndex := mkPakIndex { modTimeUnixNano : Z; pakFileSize : Z; idxEntries : gmap string pakFileEntry }.

Section Vfs.
Context `{GoUnicode}.

(** [get]: the entries by their key. *)
Definition indexEntries (contents : list pakFileEntry) : gmap string pakFileEntry :=
  foldl (fun m e =>
    let key := normalizeVFSKey (pakName e) in
    if (key =? "")%string then m else <[key := e]> m) ∅ contents.

(** What the operating system says of a pak: its status, and its content or an error. *)
Variable statPak : string -> result string (Z * Z).
Variable readPak : string -> result string bytes.

Inductive getError := getOS (err : string) | getPak (err : pakError).

(** clientfs_pak.go [PakIndexCache] is its map by path; [NewPakIndexCache]. *)
Abbreviation PakIndexCache := (gmap string pakIndex) (only parsing).
Definition NewPakIndexCache : PakIndexCache := ∅.

(** clientfs_pak.go [PakIndexCache.get], its first critical section: what is cached for the path
    under the status that was found. *)
Definition getLookup (pakPath : string) (mt sz : Z) (c : PakIndexCache) : option pakIndex :=
  match c !! pakPath with
  | Some existing =>
      if (modTimeUnixNano existing =? mt) && (pakFileSize existing =? sz) then Some existing else None
  | None => None
  end.
(** Between the two: the index made of what is read, and what the call returns for it. *)
Definition getRead (mt sz : Z) (content : result string bytes) : result getError pakIndex :=
  match content with
  | Err e => Err (getOS e)
  | Ok f =>
      match readPakContents f with
      | Err e => Err (getPak e)
      | Ok contents => Ok (mkPakIndex mt sz (indexEntries contents))
      end
  end.
(** Its second critical section: the index that was made is cached. *)
Definition getStore (pakPath : string) (r : result getError pakIndex) (c : PakIndexCache) : PakIndexCache :=
  match r with Ok idx => <[pakPath := idx]> c | Err _ => c end.
(** [get] as a whole, for a caller that no other disturbs. *)
Definition get (pakPath : string) (c : PakIndexCache) : result getError pakIndex * PakIndexCache :=
  match statPak pakPath with
  | Err e => (Err (getOS e), c)
  | Ok (mt, sz) =>
      match getLookup pakPath mt sz c with
      | Some existing => (Ok existing, c)
      | None => let r := getRead mt sz (readPak pakPath) in (r, getStore pakPath r c)
      end
  end.

(** * The order of paks *)

(** clientfs.go [pakKey] *)
Record pakKey := mkPakKey { group : Z; num : Z; pkName : string }.

(** clientfs.go [pakNumberRE] on a lower-cased name: the digits of pakN.pak *)
Definition pakNumber (lower : string) : option string :=
  if HasPrefix lower "pak" then
    let rest := drop 3 (blist lower) in
    if has_prefix (rev (blist ".pak")) (rev rest) then
      let digits := take (length rest - 4) rest in
      if negb (bool_decide (digits = [])) && forallb (fun c => match digit_value c with Some _ => true | None => false end) digits
      then Some (btext digits) else None
    else None
  else None.

(** clientfs.go [pakSortKey] *)
Definition pakSortKey (name : string) : pakKey :=
  let lower := ToLower (TrimSpace name) in
  match pakNumber lower with
  | Some d => match Atoi d with Some n => mkPakKey 0 n lower | None => mkPakKey 1 0 lower end
  | None => mkPakKey 1 0 lower
  end.

(** The comparison of [listLayerPakFiles]. *)
Definition pakCompare (a b : string) : comparison :=
  let ak := pakSortKey a in
  let bk := pakSortKey b in
  match group ak ?= group bk with
  | Eq => match (if group ak =? 0 then num ak ?= num bk else Eq) with
          | Eq => String.compare (pkName ak) (pkName bk)
          | c => c
          end
  | c => c
  end.
Definition pakLe (a b : string) : Prop := pakCompare a b <> Gt.
#[export] Instance pakLe_dec a b : Decision (pakLe a b).
Proof. unfold pakLe. apply _. Defined.

(** clientfs.go [listLayerPakFiles], on the entries of the directory: names, and whether each
    is a directory. *)
Definition isPakName (name : string) : bool := HasSuffix (ToLower name) ".pak".
Definition listLayerPakFiles (ents : list (string * bool)) : list string :=
  merge_sort pakLe (map fst (filter (fun e => negb (snd e) && isPakName (fst e)) ents)).

(** * Layers *)

(** clientfs.go [assetBacking] and [assetManifestEntry] *)
Inductive assetBacking := loose (filePath : string) | inPak (pakPath : string) (pakEntry : pakFileEntry).
Record assetManifestEntry := mkEntry { Path : string; backing : assetBacking }.

(** What a walk meets, in its order. *)
Inductive walkItem := walkErr (err : string) | walkDir | walkFile (rel : string).

(** A layer's directory: whether it is one, its entries, and its walk. *)
Record layerTree := mkLayerTree {
  ltIsDir : bool;
  ltReadDir : result string (list (string * bool));
  ltWalk : list walkItem;
}.

(** The manifest being built, the cache of paks, and the paks that were skipped. *)
Record scan := mkScan { byKey : gmap string assetManifestEntry; cache : PakIndexCache; skipped : list string }.
#[export] Instance eta_scan : EtaRecord scan := fun s => mkScan (byKey s) (cache s) (skipped s).

(** clientfs.go [explodePakIntoManifest]: its loop is over a map, whose order is of no matter,
    since an entry's key is its own. *)
Definition explodeEntries (pakPath : string) (es : list (string * pakFileEntry))
    (m : gmap string assetManifestEntry) : gmap string assetManifestEntry :=
  foldl (fun m kv =>
    let key := normalizeVFSKey (pakName (snd kv)) in
    if (key =? "")%string then m else <[key := mkEntry key (inPak pakPath (snd kv))]> m) m es.
Definition explodePakIntoManifest (pakPath : string) (s : scan) : scan :=
  let '(r, c) := get pakPath (cache s) in
  match r with
  | Ok idx => s <| cache := c |> <| byKey ::= explodeEntries pakPath (map_to_list (idxEntries idx)) |>
  | Err _ => s <| cache := c |> <| skipped ::= fun l => l ++ [pakPath] |>
  end.

(** The walk of [overlayLayerIntoManifest]: loose files, over the paks. *)
Definition looseFile (mod_ layer root : string) (s : scan) (i : walkItem) : result string scan :=
  match i with
  | walkErr _ | walkDir => Ok s
  | walkFile rel =>
      if isPakName rel then
        if Contains rel "/" then Err ("nested pak not supported: " ++ mod_ ++ "/" ++ layer ++ "/" ++ rel)%string
        else Ok s
      else
        let key := normalizeVFSKey rel in
        if (key =? "")%string then Ok s
        else Ok (s <| byKey ::= <[key := mkEntry key (loose (filepath_Join [root; rel]))]> |>)
  end.
Fixpoint looseFiles (mod_ layer root : string) (s : scan) (w : list walkItem) : result string scan :=
  match w with
  | [] => Ok s
  | i :: w => let* s := looseFile mod_ layer root s i in looseFiles mod_ layer root s w
  end.

(** clientfs.go [overlayLayerIntoManifest] *)
Definition overlayLayerIntoManifest (gameDir mod_ layer : string) (t : layerTree) (s : scan) : result string scan :=
  let root := filepath_Join [gameDir; mod_; layer] in
  if negb (ltIsDir t) then Ok s else
  match ltReadDir t with
  | Err e => Err e
  | Ok ents =>
      let s := foldl (fun s pakRel => explodePakIntoManifest (filepath_Join [root; pakRel]) s) s (listLayerPakFiles ents) in
      looseFiles mod_ layer root s (ltWalk t)
  end.

(** clientfs.go [clientLayers] *)
Definition clientLayers : list string := ["common"; "client"]%string.

(** clientfs.go [buildVFSManifestWithWarnings] *)
Fixpoint overlayLayers (gameDir mod_ : string) (tree : string -> layerTree) (layers : list string) (s : scan)
    : result string scan :=
  match layers with
  | [] => Ok s
  | layer :: layers =>
      let* s := overlayLayerIntoManifest gameDir mod_ layer (tree layer) s in
      overlayLayers gameDir mod_ tree layers s
  end.
Definition pathLe (a b : assetManifestEntry) : Prop := strLe (Path a) (Path b).
#[export] Instance pathLe_dec a b : Decision (pathLe a b).
Proof. unfold pathLe. apply _. Defined.
Definition buildVFSManifestWithWarnings (gameDir mod_ : string) (tree : string -> layerTree) (c : PakIndexCache)
    : result string (list assetManifestEntry * scan) :=
  let* s := overlayLayers gameDir mod_ tree clientLayers (mkScan ∅ c []) in
  Ok (merge_sort pathLe (map snd (map_to_list (byKey s))), s).

(** * CD tracks *)

(** clientfs.go [isCDTrackFile] *)
Definition isCDTrackFile (path : string) : bool :=
  HasSuffix (ToLower path) ".ogg" || HasSuffix (ToLower path) ".mp3".

(** clientfs.go [buildCDManifest], when the directory is one: an error of the walk ends it. *)
Fixpoint cdFiles (cdDir : string) (w : list walkItem) : result string (list assetManifestEntry) :=
  match w with
  | [] => Ok []
  | walkErr e :: _ => Err e
  | walkDir :: w => cdFiles cdDir w
  | walkFile rel :: w =>
      let* rest := cdFiles cdDir w in
      Ok (if isCDTrackFile rel then mkEntry rel (loose (filepath_Join [cdDir; rel])) :: rest else rest)
  end.
Inductive dirStatus := notExist | statError (err : string) | notDirectory | directory.
Definition buildCDManifest (cdDir : string) (st : dirStatus) (w : list walkItem)
    : result string (list assetManifestEntry) :=
  match st with
  | notExist | notDirectory => Ok []
  | statError e => Err e
  | directory => let* out := cdFiles cdDir w in Ok (merge_sort pathLe out)
  end.
End Vfs.

(** * Facts: paths *)

Lemma TrimLeft_slash s : HasPrefix (TrimLeft s "/") "/" = false.
Proof.
  unfold HasPrefix, TrimLeft. rewrite blist_btext. pose proof (drop_chars_head (blist "/") (blist s)) as Hd.
  change (blist "/") with [slash] in *.
  destruct (drop_chars [slash] (blist s)) as [|a l]; [done|]. cbn [existsb has_prefix] in *.
  rewrite orb_false_r, Ascii.eqb_sym in Hd. by rewrite Hd.
Qed.

Lemma has_prefix_app_l p l r : (length p <= length l)%nat -> has_prefix p (l ++ r) = has_prefix p l.
Proof.
  revert l. induction p as [|a p IH]; intros [|b l] Hl; cbn in *; try done; [lia|].
  f_equal. apply IH. lia.
Qed.

(** What the cleaned path is. *)
Definition lexical (p : string) : string :=
  filepath_Clean (TrimLeft (ReplaceByte (TrimSpace p) (byte_of 92) "/") "/").

Lemma lexical_cases p :
  lexical p = "."%string \/ exists ups ns, climbs ups /\ Forall name ns /\ ups ++ ns <> [] /\ lexical p = Join (ups ++ ns) "/".
Proof.
  unfold lexical. destruct (decide (TrimLeft (ReplaceByte (TrimSpace p) (byte_of 92) "/") "/" = ""%string)) as [->|Hne].
  - by left.
  - apply filepath_Clean_relative; [done|apply TrimLeft_slash].
Qed.

Lemma cleanVFSPath_Ok p q :
  cleanVFSPath p = Ok q -> q = lexical p /\ exists ns, ns <> [] /\ Forall name ns /\ q = Join ns "/".
Proof.
  unfold cleanVFSPath. destruct (String.eqb_spec (TrimSpace p) ""); [done|]. fold (lexical p).
  destruct (String.eqb_spec (lexical p) "."); [done|]. destruct (_ || Contains _ _) eqn:Hc; [done|].
  intros [= <-]. split; [done|]. apply orb_false_iff in Hc as [Hc _].
  destruct (lexical_cases p) as [|(ups & ns & Hu & Hn & Hne & Hl)]; [done|]. rewrite Hl in *.
  destruct ups as [|u ups]; [by exists ns|]. by rewrite (climbs_rejected (u :: ups) ns) in Hc.
Qed.

Lemma cleanVFSPath_names ns : ns <> [] -> Forall name ns -> TrimSpace (Join ns "/") = Join ns "/" ->
  Forall (fun c => c <> byte_of 92) (blist (Join ns "/")) -> cleanVFSPath (Join ns "/") = Ok (Join ns "/").
Proof.
  intros Hne Hn Ht Hb. unfold cleanVFSPath. rewrite Ht.
  assert (ReplaceByte (Join ns "/") (byte_of 92) "/" = Join ns "/") as ->.
  { apply blist_inj. unfold ReplaceByte. rewrite blist_btext. induction Hb as [|c l Hc _ IH]; [done|].
    cbn [flat_map]. destruct (Ascii.eqb_spec c (byte_of 92)); [done|]. by rewrite IH. }
  destruct ns as [|s ns]; [done|]. destruct (Join_cons s ns "/") as [t Htt].
  assert (name s) as Hs by (by apply List.Forall_cons_iff in Hn as [? _]).
  assert (TrimLeft (Join (s :: ns) "/") "/" = Join (s :: ns) "/") as ->.
  { apply blist_inj. unfold TrimLeft. rewrite blist_btext, Htt, blist_app.
    destruct Hs as (Hs1 & _ & _ & Hs2). unfold no_slash in Hs2.
    destruct (blist s) as [|c l] eqn:Hbs; [by rewrite <- (btext_blist s), Hbs in Hs1|].
    apply List.Forall_cons_iff in Hs2 as [Hc _]. cbn. destruct (Ascii.eqb_spec c slash); [done|]. done. }
  rewrite filepath_Clean_names by done.
  destruct (names_no_climb_prefix (s :: ns)) as (H1 & H2 & H3); [done|done|].
  destruct (String.eqb_spec (Join (s :: ns) "/") ""); [by apply (Join_nonempty s ns) in e; [|destruct Hs]|].
  destruct (String.eqb_spec (Join (s :: ns) "/") "."), (String.eqb_spec (Join (s :: ns) "/") ".."); try done.
  by rewrite H1, names_no_climb.
Qed.

(** A path of the client's file system cannot leave it: cleaning gives a path made of
    names only, separated by single slashes, that is the lexical normal form of the input; and
    what is refused is exactly what is empty or climbs above its start. *)
Theorem cleanVFSPath_spec p :
  match cleanVFSPath p with
  | Ok q => q = lexical p /\ exists ns, ns <> [] /\ Forall name ns /\ q = Join ns "/"
  | Err _ => TrimSpace p = ""%string \/ lexical p = "."%string
             \/ exists ups ns, ups <> [] /\ climbs ups /\ Forall name ns /\ lexical p = Join (ups ++ ns) "/"
  end.
Proof.
  destruct (cleanVFSPath p) as [q|e] eqn:Hc; [by apply cleanVFSPath_Ok|]. unfold cleanVFSPath in Hc.
  destruct (String.eqb_spec (TrimSpace p) ""); [by left|right]. fold (lexical p) in Hc.
  destruct (String.eqb_spec (lexical p) "."); [by left|right].
  destruct (lexical_cases p) as [|(ups & ns & Hu & Hn & Hne & Hl)]; [done|]. exists ups, ns.
  split; [|done]. intros ->. cbn [app] in *. rewrite Hl in Hc.
  destruct (names_no_climb_prefix ns) as (H1 & H2 & H3); [done|done|].
  rewrite H1, names_no_climb in Hc by done. destruct (String.eqb_spec (Join ns "/") ".."); done.
Qed.

(** * Facts: paks *)

(** An entry inside the file, with a clean name. *)
Definition entry_ok (fileSize : Z) (e : pakFileEntry) : Prop :=
  0 <= pakOffset e /\ 0 <= pakSize e /\ pakOffset e + pakSize e <= fileSize
  /\ exists ns, ns <> [] /\ Forall name ns /\ pakName e = Join ns "/".

Lemma pakEntry_ok fileSize chunk e : pakEntry fileSize chunk = Ok (Some e) -> entry_ok fileSize e.
Proof.
  unfold pakEntry. cbv zeta. destruct (String.eqb _ _); [done|].
  destruct (cleanVFSPath _) as [q|] eqn:Hc; [|done].
  destruct (Z.ltb_spec (int32 (le32 chunk 56)) 0), (Z.ltb_spec (int32 (le32 chunk 60)) 0); cbn [orb]; try done.
  destruct (Z.ltb_spec fileSize (int32 (le32 chunk 56) + int32 (le32 chunk 60))); [done|]. intros [= <-].
  apply cleanVFSPath_Ok in Hc as [_ Hn]. by split_and!.
Qed.

Lemma pakEntries_ok fileSize n : forall dirBytes es,
  pakEntries fileSize n dirBytes = Ok es -> Forall (entry_ok fileSize) es /\ (length es <= n)%nat.
Proof.
  induction n as [|n IH]; intros d es; cbn [pakEntries]; [intros [= <-]; split; [constructor|cbn; lia]|].
  destruct (pakEntry fileSize (take 64 d)) as [e|] eqn:He; [|done].
  destruct (pakEntries fileSize n (drop 64 d)) as [rest|] eqn:Hr; [|done].
  destruct (IH _ _ Hr) as [Hf Hl]. destruct e as [e|]; intros [= <-]; cbn [length]; [|split; [done|lia]].
  split; [|lia]. constructor; [by eapply pakEntry_ok|done].
Qed.

(** C37.  A pak cannot make the server read out of it: whatever the bytes of the file, every entry
    that is listed lies inside it and has a clean relative name, and the directory is inside it
    too, 64 bytes an entry. *)
Theorem readPakContents_bounds f :
  match readPakContents f with
  | Ok es => Forall (entry_ok (Z.of_nat (length f))) es /\ 12 <= Z.of_nat (length f)
             /\ 64 * Z.of_nat (length es) <= Z.of_nat (length f)
  | Err _ => True
  end.
Proof.
  unfold readPakContents. cbv zeta. set (n := Z.of_nat (length f)).
  destruct (Z.ltb_spec n 12); [done|]. destruct (negb _); [done|].
  set (o := int32 (le32 f 4)). set (l := int32 (le32 f 8)).
  destruct (Z.ltb_spec o 0), (Z.ltb_spec l 0); cbn [orb]; try done.
  destruct (Z.ltb_spec n (o + l)); [done|]. destruct (negb _); [done|].
  destruct (pakEntries _ _ _) as [es|] eqn:He; [|done]. apply pakEntries_ok in He as [Hf Hl].
  split_and!; [done|done|]. pose proof (Z.mul_div_le l 64 ltac:(lia)). lia.
Qed.

(** ** The format *)

Definition putle32 (z : Z) : bytes :=
  [byte_of z; byte_of (z / 2 ^ 8); byte_of (z / 2 ^ 16); byte_of (z / 2 ^ 24)].
Definition padName (n : string) : bytes := blist n ++ repeat (byte_of 0) (56 - length (blist n)).
(** Where the files lie from an offset on, and the directory that says so. *)
Fixpoint layout (off : Z) (files : list (string * bytes)) : list pakFileEntry :=
  match files with
  | [] => []
  | (n, d) :: files => mkPakFileEntry n off (Z.of_nat (length d)) :: layout (off + Z.of_nat (length d)) files
  end.
Definition dirEntry (e : pakFileEntry) : bytes := padName (pakName e) ++ putle32 (pakOffset e) ++ putle32 (pakSize e).
Definition pakData (files : list (string * bytes)) : bytes := concat (map snd files).
Definition buildPak (files : list (string * bytes)) : bytes :=
  let es := layout 12 files in
  blist "PACK" ++ putle32 (12 + Z.of_nat (length (pakData files))) ++ putle32 (64 * Z.of_nat (length es))
  ++ pakData files ++ concat (map dirEntry es).
Definition sliceOf (f : bytes) (e : pakFileEntry) : bytes :=
  take (Z.to_nat (pakSize e)) (drop (Z.to_nat (pakOffset e)) f).
(** A name that fits the directory. *)
Definition pakName_ok (n : string) : Prop :=
  n <> ""%string /\ cleanVFSPath n = Ok n /\ (length (blist n) <= 56)%nat /\ byte_of 0 ∉ blist n.

Lemma le32_put l1 z l2 at_ : length l1 = at_ -> 0 <= z < 2 ^ 32 -> le32 (l1 ++ putle32 z ++ l2) at_ = z.
Proof.
  intros <- Hz. unfold le32.
  assert (forall k, nth (length l1 + k) (l1 ++ putle32 z ++ l2) (byte_of 0) = nth k (putle32 z ++ l2) (byte_of 0)) as Hk.
  { intros k. rewrite app_nth2 by lia. f_equal. lia. }
  rewrite !Hk. unfold putle32. cbn [nth app]. rewrite !byteZ_of. byte_arith.
Qed.
Lemma int32_small z : 0 <= z < 2 ^ 31 -> int32 z = z.
Proof. intros Hz. unfold int32. destruct (Z.ltb_spec z (2 ^ 31)); lia. Qed.

Lemma cut_padName n : byte_of 0 ∉ blist n -> (length (blist n) <= 56)%nat ->
  match cut_byte (byte_of 0) (padName n) with Some (x, _) => x | None => padName n end = blist n.
Proof.
  intros Hn Hl. unfold padName. destruct (56 - length (blist n))%nat as [|k].
  - cbn [repeat]. rewrite app_nil_r. destruct (cut_byte _ _) as [[x y]|] eqn:Hc; [|done].
    apply cut_byte_spec in Hc as [Hc _]. exfalso. apply Hn. rewrite Hc. apply elem_of_app. right. left.
  - cbn [repeat]. by rewrite cut_byte_app.
Qed.

Lemma length_padName n : (length (blist n) <= 56)%nat -> length (padName n) = 56%nat.
Proof. intros Hl. unfold padName. rewrite length_app, repeat_length. lia. Qed.
Lemma length_dirEntry e : (length (blist (pakName e)) <= 56)%nat -> length (dirEntry e) = 64%nat.
Proof. intros Hl. unfold dirEntry. rewrite !length_app, length_padName by done. done. Qed.

Lemma pakEntry_dirEntry fileSize e :
  pakName_ok (pakName e) -> 0 <= pakOffset e < 2 ^ 31 -> 0 <= pakSize e < 2 ^ 31 ->
  pakOffset e + pakSize e <= fileSize -> pakEntry fileSize (dirEntry e) = Ok (Some e).
Proof.
  intros (Hne & Hc & Hl & H0) Ho Hs Hle. unfold pakEntry. cbv zeta.
  replace (take 56 (dirEntry e)) with (padName (pakName e)).
  2: { unfold dirEntry. rewrite take_app_le by (rewrite length_padName; [lia|done]).
       by rewrite take_ge by (rewrite length_padName; [lia|done]). }
  rewrite cut_padName by done. rewrite btext_blist.
  destruct (String.eqb_spec (pakName e) ""); [done|]. rewrite Hc.
  unfold dirEntry. rewrite le32_put by (try apply length_padName; done || lia).
  rewrite (app_assoc (padName _)). rewrite <- (app_nil_r (putle32 (pakSize e))).
  rewrite le32_put by (rewrite ?length_app, ?length_padName by done; done || lia).
  rewrite !int32_small by lia.
  destruct (Z.ltb_spec (pakOffset e) 0), (Z.ltb_spec (pakSize e) 0),
    (Z.ltb_spec fileSize (pakOffset e + pakSize e)); try lia. cbn [orb]. by destruct e.
Qed.

Lemma pakEntries_dir fileSize es :
  Forall (fun e => pakName_ok (pakName e) /\ 0 <= pakOffset e < 2 ^ 31 /\ 0 <= pakSize e < 2 ^ 31
                   /\ pakOffset e + pakSize e <= fileSize) es ->
  pakEntries fileSize (length es) (concat (map dirEntry es)) = Ok es.
Proof.
  induction 1 as [|e es (Hn & Ho & Hs & Hle) _ IH]; [done|]. cbn [length pakEntries map concat].
  assert (length (dirEntry e) = 64%nat) as Hd by (apply length_dirEntry; by destruct Hn as (_ & _ & ? & _)).
  rewrite take_app_le, take_ge by lia. rewrite drop_app_ge, Hd, Nat.sub_diag, drop_0 by lia.
  rewrite pakEntry_dirEntry by done. by rewrite IH.
Qed.

Lemma layout_ok n files : forall off,
  0 <= off -> Forall (fun nd => pakName_ok (fst nd)) files -> off + Z.of_nat (length (pakData files)) <= n -> n < 2 ^ 31 ->
  Forall (fun e => pakName_ok (pakName e) /\ 0 <= pakOffset e < 2 ^ 31 /\ 0 <= pakSize e < 2 ^ 31
                   /\ pakOffset e + pakSize e <= n) (layout off files).
Proof.
  induction files as [|[nm d] files IH]; intros off Ho Hf Hle Hn; [constructor|]. cbn [layout].
  apply List.Forall_cons_iff in Hf as [Hnm Hf]. unfold pakData in Hle. cbn [map concat snd] in Hle.
  rewrite length_app in Hle. cbn [fst] in Hnm. constructor.
  - cbn. split_and!; try done; lia.
  - apply IH; [lia|done|unfold pakData; lia|done].
Qed.

Lemma layout_slices pre post files : forall off,
  off = Z.of_nat (length pre) ->
  map (sliceOf (pre ++ pakData files ++ post)) (layout off files) = map snd files.
Proof.
  revert pre. induction files as [|[nm d] files IH]; intros pre off ->; [done|].
  cbn [layout map snd]. unfold pakData. cbn [map concat snd]. f_equal.
  - unfold sliceOf. cbn. rewrite !Nat2Z.id, drop_app_length, <- app_assoc. by rewrite take_app_length.
  - rewrite <- app_assoc, app_assoc. apply IH. rewrite length_app. lia.
Qed.

(** C38.  Reading is the inverse of writing: of a pak built from named files in the format (a
    header, the data, a directory of 64-byte records with 32-bit little-endian numbers), up to
    2 GiB, the reader lists exactly those names in order, each at the bytes of its file. *)
Theorem readPakContents_buildPak files :
  Forall (fun nd => pakName_ok (fst nd)) files ->
  Z.of_nat (length (buildPak files)) < 2 ^ 31 ->
  exists es, readPakContents (buildPak files) = Ok es /\ map pakName es = map fst files
    /\ map (sliceOf (buildPak files)) es = map snd files.
Proof.
  intros Hf Hn. exists (layout 12 files).
  assert (forall off, length (layout off files) = length files) as Hll.
  { clear. induction files as [|[nm d] files IH]; intros off; [done|]. cbn. by rewrite IH. }
  assert (forall off, map pakName (layout off files) = map fst files) as Hnames.
  { clear. induction files as [|[nm d] files IH]; intros off; [done|]. cbn. by rewrite IH. }
  assert (Forall (fun e => pakName_ok (pakName e)) (layout 12 files)) as Hln.
  { clear Hn Hll Hnames. generalize 12. induction Hf as [|[nm d] files Hd _ IH]; intros off; constructor; [done|apply IH]. }
  assert (length (concat (map dirEntry (layout 12 files))) = 64 * length (layout 12 files))%nat as Hdir.
  { clear -Hln. induction Hln as [|e es (_ & _ & ? & _) _ IH]; [done|]. cbn [map concat length].
    rewrite length_app, IH, length_dirEntry by done. lia. }
  assert (Z.of_nat (length (buildPak files)) = 12 + Z.of_nat (length (pakData files)) + 64 * Z.of_nat (length (layout 12 files))) as Hsize.
  { unfold buildPak. rewrite !length_app, Hdir. cbn [length putle32 blist list_ascii_of_string]. lia. }
  split_and!.
  - unfold readPakContents. cbv zeta. rewrite Hsize. rewrite Hsize in Hn.
    destruct (Z.ltb_spec (12 + Z.of_nat (length (pakData files)) + 64 * Z.of_nat (length (layout 12 files))) 12); [lia|].
    unfold buildPak at 1. cbv zeta. rewrite bool_decide_true by done. cbn [negb].
    assert (le32 (buildPak files) 4 = 12 + Z.of_nat (length (pakData files))) as -> by (unfold buildPak; apply le32_put; [done|lia]).
    assert (le32 (buildPak files) 8 = 64 * Z.of_nat (length (layout 12 files))) as ->.
    { unfold buildPak. rewrite app_assoc. apply le32_put; [done|lia]. }
    rewrite !int32_small by lia. set (d := Z.of_nat (length (pakData files))) in *.
    set (k := Z.of_nat (length (layout 12 files))) in *.
    destruct (Z.ltb_spec (12 + d) 0), (Z.ltb_spec (64 * k) 0), (Z.ltb_spec (12 + d + 64 * k) (12 + d + 64 * k)); try lia.
    cbn [orb]. rewrite (Z.mul_comm 64 k), Z.mod_mul, Z.div_mul by lia. cbn [negb Z.eqb].
    assert (take (Z.to_nat (k * 64)) (drop (Z.to_nat (12 + d)) (buildPak files)) = concat (map dirEntry (layout 12 files))) as ->.
    { unfold buildPak. cbv zeta. rewrite 3 app_assoc. rewrite drop_app_ge by (rewrite !length_app; cbn; lia).
      match goal with |- take _ (drop ?k _) = _ => replace k with 0%nat by (rewrite !length_app; cbn; lia) end.
      rewrite drop_0, take_ge; [done|]. rewrite Hdir. lia. }
    replace (Z.to_nat k) with (length (layout 12 files)) by lia. apply pakEntries_dir.
    eapply Forall_impl; [apply (layout_ok (12 + d)); [lia|done|lia|lia]|]. intros e (? & ? & ? & ?). split_and!; try done; lia.
  - apply Hnames.
  - unfold buildPak. cbv zeta. rewrite 2 app_assoc. apply layout_slices. done.
Qed.

Lemma readPakContents_buildPak_witness :
  exists es, readPakContents (buildPak [("progs.dat", blist "code"); ("maps/e1m1.bsp", blist "geometry")]%string) = Ok es
    /\ map pakName es = ["progs.dat"; "maps/e1m1.bsp"]%string
    /\ map (sliceOf (buildPak [("progs.dat", blist "code"); ("maps/e1m1.bsp", blist "geometry")]%string)) es
       = [blist "code"; blist "geometry"].
Proof.
  assert (forall n, n <> ""%string -> cleanVFSPath n = Ok n -> (length (blist n) <= 56)%nat ->
    bool_decide (byte_of 0 ∉ blist n) = true -> pakName_ok n) as Hok.
  { intros n H1 H2 H3 H4%bool_decide_eq_true. by split_and!. }
  apply (readPakContents_buildPak [("progs.dat", blist "code"); ("maps/e1m1.bsp", blist "geometry")]%string).
  - repeat apply List.Forall_cons; [..|apply List.Forall_nil];
      (apply Hok; [discriminate|reflexivity|cbn; lia|reflexivity]).
  - vm_compute. reflexivity.
Defined.

(** * Facts: the cache of paks *)

Section Facts.
Context `{GoUnicode}.

(** An index maps a key to an entry that has it. *)
Definition index_ok (m : gmap string pakFileEntry) : Prop :=
  forall k e, m !! k = Some e -> normalizeVFSKey (pakName e) = k /\ k <> ""%string.

Lemma indexEntries_ok contents : index_ok (indexEntries contents).
Proof.
  unfold indexEntries. assert (index_ok ∅) as H0 by (intros k e; by rewrite lookup_empty).
  revert H0. generalize (∅ : gmap string pakFileEntry). induction contents as [|e contents IH]; intros m Hm; [done|].
  cbn [foldl]. apply IH. cbv zeta. destruct (String.eqb_spec (normalizeVFSKey (pakName e)) ""); [done|].
  intros k e'. destruct (decide (normalizeVFSKey (pakName e) = k)) as [<-|Hne].
  - rewrite lookup_insert_eq. by intros [= <-].
  - rewrite lookup_insert_ne by done. apply Hm.
Qed.

Variable statPak : string -> result string (Z * Z).
Variable readPak : string -> result string bytes.
(** The status of a pak identifies its content, and what can be examined can be read. *)
Variable content : string -> Z -> Z -> bytes.
Definition identified : Prop := forall p mt sz, statPak p = Ok (mt, sz) -> readPak p = Ok (content p mt sz).

(** The index without a cache. *)
Definition pakIndexNow (p : string) : result getError (gmap string pakFileEntry) :=
  match statPak p with
  | Err e => Err (getOS e)
  | Ok _ =>
      match readPak p with
      | Err e => Err (getOS e)
      | Ok f => match readPakContents f with Err e => Err (getPak e) | Ok es => Ok (indexEntries es) end
      end
  end.
(** What is cached was read from the content that its status identifies. *)
Definition cache_ok (c : gmap string pakIndex) : Prop :=
  forall p idx, c !! p = Some idx ->
    exists es, readPakContents (content p (modTimeUnixNano idx) (pakFileSize idx)) = Ok es
      /\ idxEntries idx = indexEntries es.

Lemma get_uncached p c : identified -> cache_ok c ->
  cache_ok (snd (get statPak readPak p c))
  /\ match fst (get statPak readPak p c) with
     | Ok idx => pakIndexNow p = Ok (idxEntries idx)
     | Err e => pakIndexNow p = Err e
     end.
Proof.
  intros Hid Hc. unfold get, pakIndexNow. destruct (statPak p) as [[mt sz]|e] eqn:Hst; [|done].
  rewrite (Hid _ _ _ Hst). unfold getLookup, getRead. set (f := content p mt sz).
  assert (let r := match readPakContents f with Err e => Err (getPak e) | Ok es => Ok (mkPakIndex mt sz (indexEntries es)) end in
    cache_ok (getStore p r c) /\ match r with
      | Ok idx => match readPakContents f with Err e => Err (getPak e) | Ok es => Ok (indexEntries es) end = Ok (idxEntries idx)
      | Err e => match readPakContents f with Err e => Err (getPak e) | Ok es => Ok (indexEntries es) end = Err e end) as Hmiss.
  { destruct (readPakContents f) as [es|] eqn:Hr; [|done]. split; [|done].
    intros p' idx. cbn [getStore]. destruct (decide (p = p')) as [<-|Hne].
    - rewrite lookup_insert_eq. intros [= <-]. by exists es.
    - rewrite lookup_insert_ne by done. apply Hc. }
  destruct (c !! p) as [ex|] eqn:Hp; [|exact Hmiss].
  destruct (Z.eqb_spec (modTimeUnixNano ex) mt), (Z.eqb_spec (pakFileSize ex) sz); cbn [andb]; try exact Hmiss.
  split; [done|]. cbn [fst]. destruct (Hc p ex Hp) as (es & Hr & He). subst. unfold f. by rewrite Hr, He.
Qed.

(** ** The cache under concurrent calls *)

(** A call of [get], with what the system answers it. *)
Record pakCall := mkCall { pcPath : string; pcStat : result string (Z * Z); pcRead : result string bytes }.
(** What it would return were there no cache. *)
Definition answerNow (k : pakCall) : result getError pakIndex :=
  match pcStat k with Err e => Err (getOS e) | Ok (mt, sz) => getRead mt sz (pcRead k) end.

(** The cache, the calls between their two critical sections, and what has been returned. *)
Record cacheState := mkCacheState {
  csCache : gmap string pakIndex;
  csReading : list pakCall;
  csDone : list (pakCall * result getError pakIndex) }.
(** Calls begin, and those that read end, in any order. *)
Inductive cacheStep : cacheState -> cacheState -> Prop :=
  | step_nostat c ks l k e : pcStat k = Err e ->
      cacheStep (mkCacheState c ks l) (mkCacheState c ks (l ++ [(k, Err (getOS e))]))
  | step_hit c ks l k mt sz idx : pcStat k = Ok (mt, sz) -> getLookup (pcPath k) mt sz c = Some idx ->
      cacheStep (mkCacheState c ks l) (mkCacheState c ks (l ++ [(k, Ok idx)]))
  | step_miss c ks l k mt sz : pcStat k = Ok (mt, sz) -> getLookup (pcPath k) mt sz c = None ->
      cacheStep (mkCacheState c ks l) (mkCacheState c (k :: ks) l)
  | step_store c ks1 ks2 l k mt sz r : pcStat k = Ok (mt, sz) -> r = getRead mt sz (pcRead k) ->
      cacheStep (mkCacheState c (ks1 ++ k :: ks2) l) (mkCacheState (getStore (pcPath k) r c) (ks1 ++ ks2) (l ++ [(k, r)])).
Definition newCacheState : cacheState := mkCacheState NewPakIndexCache [] [].

(** An undisturbed call is one or two of these steps. *)
Lemma get_steps p c ks l k : pcPath k = p -> pcStat k = statPak p -> pcRead k = readPak p ->
  rtc cacheStep (mkCacheState c ks l)
    (mkCacheState (snd (get statPak readPak p c)) ks (l ++ [(k, fst (get statPak readPak p c))])).
Proof.
  intros Hp Hs Hr. unfold get. destruct (statPak p) as [[mt sz]|e] eqn:Hst.
  - rewrite <- Hp. destruct (getLookup (pcPath k) mt sz c) as [idx|] eqn:Hl.
    + apply rtc_once, (step_hit _ _ _ _ mt sz); done.
    + eapply rtc_l; [apply (step_miss _ _ _ k mt sz); done|]. cbn [fst snd]. rewrite Hp, <- Hr, <- Hp.
      apply rtc_once. by apply (step_store c [] ks l k mt sz).
  - apply rtc_once. by apply step_nostat.
Qed.

(** What is cached, and what was returned, is what some call read under the same status. *)
Definition from (l : list pakCall) (p : string) (st : result string (Z * Z)) (r : result getError pakIndex) : Prop :=
  exists k', k' ∈ l /\ pcPath k' = p /\ pcStat k' = st /\ answerNow k' = r.
Definition cacheState_ok (s : cacheState) : Prop :=
  (forall p idx, csCache s !! p = Some idx ->
     from (map fst (csDone s)) p (Ok (modTimeUnixNano idx, pakFileSize idx)) (Ok idx))
  /\ forall before k r after, csDone s = before ++ (k, r) :: after ->
       from (map fst before ++ [k]) (pcPath k) (pcStat k) r /\ ((exists e, r = Err e) -> answerNow k = r).

Lemma from_app l l' p st r : from l p st r -> from (l ++ l') p st r.
Proof. intros (k' & Hk & Hx). exists k'. split; [by apply elem_of_app; left|done]. Qed.
Lemma from_self l k r : answerNow k = r -> from (l ++ [k]) (pcPath k) (pcStat k) r.
Proof. intros <-. exists k. split_and!; try done. apply elem_of_app. right. by left. Qed.

(** One more return keeps it. *)
Lemma returned_ok c ks l k r : cacheState_ok (mkCacheState c ks l) ->
  from (map fst l ++ [k]) (pcPath k) (pcStat k) r -> ((exists e, r = Err e) -> answerNow k = r) ->
  forall before k' r' after, l ++ [(k, r)] = before ++ (k', r') :: after ->
    from (map fst before ++ [k']) (pcPath k') (pcStat k') r' /\ ((exists e, r' = Err e) -> answerNow k' = r').
Proof.
  intros [_ Hd] Hf He before k' r' after Hl. destruct after as [|x after _] using rev_ind.
  - apply app_inj_tail in Hl as [<- [= <- <-]]. done.
  - change (before ++ (k', r') :: after ++ [x]) with (before ++ ((k', r') :: after) ++ [x]) in Hl.
    rewrite app_assoc in Hl. apply app_inj_tail in Hl as [Hl _]. by apply (Hd before k' r' after).
Qed.

Lemma cacheStep_ok s s' : cacheStep s s' -> cacheState_ok s -> cacheState_ok s'.
Proof.
  intros Hs Hok. pose proof Hok as [Hc _]. cbn [csCache csDone] in Hc.
  destruct Hs as [c ks l k e Hst|c ks l k mt sz idx Hst Hl|c ks l k mt sz Hst Hl|c ks1 ks2 l k mt sz r Hst Hr];
    cbn [csCache csDone] in Hc; [| |done|].
  - split; cbn [csCache csDone].
    + intros p idx Hp. rewrite map_app. by apply from_app, Hc.
    + apply (returned_ok c ks); [done| |]; [apply from_self|intros _]; unfold answerNow; by rewrite Hst.
  - split; cbn [csCache csDone].
    + intros p idx' Hp. rewrite map_app. by apply from_app, Hc.
    + apply (returned_ok c ks); [done| |by intros [? ?]]. apply from_app.
      unfold getLookup in Hl. destruct (c !! pcPath k) as [ex|] eqn:Hp; [|done].
      destruct (Z.eqb_spec (modTimeUnixNano ex) mt), (Z.eqb_spec (pakFileSize ex) sz); cbn in Hl; try done.
      injection Hl as ->. rewrite Hst. subst. by apply Hc.
  - assert (answerNow k = r) as Hk by (unfold answerNow; by rewrite Hst).
    split; cbn [csCache csDone].
    + intros p idx. rewrite map_app. unfold getStore. destruct r as [idx'|e].
      * destruct (decide (pcPath k = p)) as [<-|Hne].
        -- rewrite lookup_insert_eq. intros [= <-]. revert Hr. unfold getRead. repeat split_match; try done.
           intros [= ->]. cbn [modTimeUnixNano pakFileSize]. rewrite <- Hst. by apply from_self.
        -- rewrite lookup_insert_ne by done. intros Hp. by apply from_app, Hc.
      * intros Hp. by apply from_app, Hc.
    + apply (returned_ok c (ks1 ++ k :: ks2)); [done|by apply from_self|done].
Qed.

(** C39.  The cache of paks is never out of date by more than the status tells: however calls of
    [get] interleave, and whatever happens to the paks between them, a call returns what a call
    (itself, or one that returned before it) read of the same path under the same status, an
    error being always its own.  So if every call that found the path with that status reads
    the same, a call returns just what it would have returned without the cache. *)
Theorem get_transparent s before k r after :
  rtc cacheStep newCacheState s -> csDone s = before ++ (k, r) :: after ->
  (exists k', k' ∈ map fst before ++ [k] /\ pcPath k' = pcPath k /\ pcStat k' = pcStat k /\ answerNow k' = r)
  /\ ((exists e, r = Err e) -> answerNow k = r)
  /\ ((forall k', k' ∈ map fst before -> pcPath k' = pcPath k -> pcStat k' = pcStat k -> answerNow k' = answerNow k) ->
      r = answerNow k).
Proof.
  intros Hrun Hdone. assert (cacheState_ok s) as [_ Hok].
  { assert (cacheState_ok newCacheState) as H0 by (split; [intros p idx Hp; by apply (lookup_empty_Some p idx) in Hp|by intros [] ? ? ?]).
    revert H0. clear Hdone. induction Hrun as [|x y z Hxy _ IH]; intros Hx; [done|]. by apply IH, (cacheStep_ok x). }
  destruct (Hok before k r after Hdone) as [Hf He]. split_and!; [exact Hf|exact He|]. intros Hsame.
  destruct Hf as (k' & [Hk| ->%list_elem_of_singleton]%elem_of_app & Hp & Hst & <-); [by apply Hsame|done].
Qed.

(** * Facts: precedence *)

Definition orElse {A} (a b : option A) : option A := match a with Some _ => a | None => b end.
(** The last of a list of candidates. *)
Definition lastSome {A} (l : list (option A)) : option A := foldl (fun acc a => orElse a acc) None l.

Lemma lastSome_from {A} (l : list (option A)) acc : foldl (fun acc a => orElse a acc) acc l = orElse (lastSome l) acc.
Proof.
  unfold lastSome. revert acc. induction l as [|a l IH]; intros acc; [done|]. cbn [foldl].
  rewrite IH, (IH (orElse a None)). destruct (foldl _ None l); [done|]. by destruct a.
Qed.

(** What a pak, and an item of the walk, give for a key. *)
Definition pakAt (k p : string) : option assetManifestEntry :=
  match pakIndexNow p with
  | Ok m => match m !! k with Some e => Some (mkEntry k (inPak p e)) | None => None end
  | Err _ => None
  end.
Definition looseAt (root k : string) (i : walkItem) : option assetManifestEntry :=
  match i with
  | walkFile rel => if negb (isPakName rel) && (normalizeVFSKey rel =? k)%string && negb (k =? "")%string
                    then Some (mkEntry k (loose (filepath_Join [root; rel]))) else None
  | _ => None
  end.
Definition paksOf (root : string) (t : layerTree) : list string :=
  if negb (ltIsDir t) then [] else
  match ltReadDir t with
  | Ok ents => map (fun rel => filepath_Join [root; rel]) (listLayerPakFiles ents)
  | Err _ => []
  end.
Definition looseOf (t : layerTree) : list walkItem := if ltIsDir t then ltWalk t else [].

Lemma explodeEntries_lookup pakPath es : forall m k,
  Forall (fun kv => normalizeVFSKey (pakName (snd kv)) = fst kv /\ fst kv <> ""%string) es -> NoDup es.*1 ->
  explodeEntries pakPath es m !! k
  = orElse (match (list_to_map es : gmap string pakFileEntry) !! k with Some e => Some (mkEntry k (inPak pakPath e)) | None => None end) (m !! k).
Proof.
  unfold explodeEntries. induction es as [|[k' e] es IH]; intros m k Hes Hnd; [cbn; by rewrite lookup_empty|].
  apply List.Forall_cons_iff in Hes as [[Hk Hk0] Hes]. cbn in Hk, Hk0. cbn [fmap list_fmap fst] in Hnd. apply NoDup_cons in Hnd as [Hni Hnd].
  cbn [foldl snd]. rewrite Hk. destruct (String.eqb_spec k' ""); [done|]. rewrite IH by done. cbn [list_to_map foldr uncurry fst snd].
  destruct (decide (k' = k)) as [->|Hne].
  - rewrite !lookup_insert_eq. rewrite not_elem_of_list_to_map_1; done.
  - by rewrite !lookup_insert_ne by done.
Qed.

Lemma explode_lookup p s k : identified -> cache_ok (cache s) ->
  byKey (explodePakIntoManifest statPak readPak p s) !! k = orElse (pakAt k p) (byKey s !! k)
  /\ cache_ok (cache (explodePakIntoManifest statPak readPak p s)).
Proof.
  intros Hid Hc. destruct (get_uncached p (cache s) Hid Hc) as [Hc' Hg]. unfold explodePakIntoManifest, pakAt.
  destruct (get statPak readPak p (cache s)) as [[idx|e] c]; cbn [fst snd] in *; rewrite Hg; [|done].
  split; [|done]. cbn. assert (index_ok (idxEntries idx)) as Hio.
  { unfold pakIndexNow in Hg. destruct (statPak p); [|done]. destruct (readPak p); [|done].
    destruct (readPakContents _); [|done]. injection Hg as <-. apply indexEntries_ok. }
  rewrite explodeEntries_lookup.
  - by rewrite list_to_map_to_list.
  - apply Forall_forall. intros [k' e] Hin%elem_of_map_to_list. by apply Hio.
  - apply NoDup_fst_map_to_list.
Qed.

Lemma explodes_lookup ps : forall s k, identified -> cache_ok (cache s) ->
  let s' := foldl (fun s p => explodePakIntoManifest statPak readPak p s) s ps in
  byKey s' !! k = orElse (lastSome (map (pakAt k) ps)) (byKey s !! k) /\ cache_ok (cache s').
Proof.
  induction ps as [|p ps IH]; intros s k Hid Hc; [done|]. cbn [foldl map].
  destruct (explode_lookup p s k Hid Hc) as [Hl Hc']. destruct (IH _ k Hid Hc') as [Hl' Hc2]. cbv zeta in *.
  split; [|done]. rewrite Hl', Hl. unfold lastSome. cbn [foldl]. rewrite (lastSome_from _ (orElse _ None)).
  unfold lastSome. destruct (foldl _ None _); [done|]. by destruct (pakAt k p).
Qed.

Lemma looseFiles_lookup mod_ layer root w : forall s s' k,
  looseFiles mod_ layer root s w = Ok s' ->
  byKey s' !! k = orElse (lastSome (map (looseAt root k) w)) (byKey s !! k) /\ cache s' = cache s.
Proof.
  induction w as [|i w IH]; intros s s' k; cbn [looseFiles map]; [by intros [= <-]|].
  destruct (looseFile mod_ layer root s i) as [s1|] eqn:H1; [|done]. intros Hw.
  destruct (IH _ _ k Hw) as [-> ->]. unfold lastSome at 2. cbn [foldl]. rewrite lastSome_from.
  assert (byKey s1 !! k = orElse (looseAt root k i) (byKey s !! k) /\ cache s1 = cache s) as [-> ->].
  { destruct i as [e| |rel]; [by injection H1 as <-..|]. cbn [looseFile looseAt] in *.
    destruct (isPakName rel); [destruct (Contains rel "/"); [done|]; by injection H1 as <-|]. cbn [negb andb].
    destruct (String.eqb_spec (normalizeVFSKey rel) "") as [He|He]; injection H1 as <-.
    - rewrite He. destruct (String.eqb_spec "" k) as [<-|]; [|done]. done.
    - cbn. destruct (String.eqb_spec (normalizeVFSKey rel) k) as [<-|Hne]; cbn [andb].
      + destruct (String.eqb_spec (normalizeVFSKey rel) ""); [done|]. by rewrite lookup_insert_eq.
      + by rewrite lookup_insert_ne by done. }
  split; [|done]. unfold lastSome. destruct (foldl _ None _); [done|]. by destruct (looseAt root k i).
Qed.

(** The candidates of a layer for a key, from the weakest: its paks, then its loose files. *)
Definition layerRoot (gameDir mod_ layer : string) : string := filepath_Join [gameDir; mod_; layer].
Definition layerCandidate (gameDir mod_ : string) (tree : string -> layerTree) (layer k : string) : option assetManifestEntry :=
  let root := layerRoot gameDir mod_ layer in
  orElse (lastSome (map (looseAt root k) (looseOf (tree layer))))
         (lastSome (map (pakAt k) (paksOf root (tree layer)))).
(** Quake's precedence: the client layer before the common one, in a layer loose files before
    paks, and among paks the last one. *)
Definition precedence (gameDir mod_ : string) (tree : string -> layerTree) (k : string) : option assetManifestEntry :=
  orElse (layerCandidate gameDir mod_ tree "client" k) (layerCandidate gameDir mod_ tree "common" k).

Lemma overlay_lookup gameDir mod_ layer tree s s' k :
  identified -> cache_ok (cache s) ->
  overlayLayerIntoManifest statPak readPak gameDir mod_ layer (tree layer) s = Ok s' ->
  byKey s' !! k = orElse (layerCandidate gameDir mod_ tree layer k) (byKey s !! k) /\ cache_ok (cache s').
Proof.
  intros Hid Hc. unfold overlayLayerIntoManifest, layerCandidate, looseOf, paksOf. fold (layerRoot gameDir mod_ layer).
  cbv zeta. destruct (ltIsDir (tree layer)); cbn [negb]; [|by intros [= <-]].
  destruct (ltReadDir (tree layer)) as [ents|]; [|done]. intros Hw.
  set (root := layerRoot gameDir mod_ layer) in *.
  destruct (explodes_lookup (map (fun rel => filepath_Join [root; rel]) (listLayerPakFiles ents)) s k Hid Hc) as [Hl Hc2].
  cbv zeta in Hl, Hc2. rewrite foldl_map_arg in Hl, Hc2.
  apply (looseFiles_lookup _ _ _ _ _ _ k) in Hw as [-> ->].
  split; [|done]. rewrite Hl. unfold lastSome. by destruct (foldl _ None (map (looseAt _ _) _)).
Qed.

Lemma pakAt_path k p e : pakAt k p = Some e -> Path e = k.
Proof.
  unfold pakAt. destruct (pakIndexNow p) as [m|]; [|done]. destruct (m !! k); [|done]. by intros [= <-].
Qed.
Lemma looseAt_path root k i e : looseAt root k i = Some e -> Path e = k.
Proof. unfold looseAt. destruct i; [done..|]. destruct (_ && _); [|done]. by intros [= <-]. Qed.
Lemma lastSome_path {A} (f : A -> option assetManifestEntry) l k e :
  (forall a e, f a = Some e -> Path e = k) -> lastSome (map f l) = Some e -> Path e = k.
Proof.
  intros Hf. unfold lastSome. assert (forall e, None = Some e -> Path e = k) as H0 by done. revert H0.
  generalize (@None assetManifestEntry). induction l as [|a l IH]; intros acc Hacc; cbn [map foldl]; [apply Hacc|].
  apply IH. intros e' He. destruct (f a) as [e2|] eqn:Ha; cbn in He; [|by apply Hacc].
  injection He as <-. by apply (Hf a).
Qed.
Lemma precedence_path gameDir mod_ tree k e : precedence gameDir mod_ tree k = Some e -> Path e = k.
Proof.
  assert (forall layer e, layerCandidate gameDir mod_ tree layer k = Some e -> Path e = k) as Hl.
  { intros layer e'. unfold layerCandidate. cbv zeta. destruct (lastSome (map (looseAt _ _) _)) eqn:Hlo; cbn [orElse].
    - intros [= <-]. eapply lastSome_path; [|exact Hlo]. intros. by eapply looseAt_path.
    - intros He. eapply lastSome_path; [|exact He]. intros. by eapply pakAt_path. }
  unfold precedence. destruct (layerCandidate _ _ _ "client" k) eqn:Hc; cbn [orElse]; [|apply Hl].
  intros [= <-]. by eapply Hl.
Qed.

#[export] Instance pathLe_trans : Transitive pathLe.
Proof. intros a b c. unfold pathLe. by etrans. Qed.
#[export] Instance pathLe_total : Total pathLe.
Proof. intros a b. unfold pathLe. apply total, _. Qed.

Lemma manifest_lookup gameDir mod_ tree c out s :
  identified -> cache_ok c ->
  buildVFSManifestWithWarnings statPak readPak gameDir mod_ tree c = Ok (out, s) ->
  (forall k, byKey s !! k = precedence gameDir mod_ tree k) /\ cache_ok (cache s)
  /\ out = merge_sort pathLe (map snd (map_to_list (byKey s))).
Proof.
  intros Hid Hc. unfold buildVFSManifestWithWarnings, clientLayers. cbn [overlayLayers].
  destruct (overlayLayerIntoManifest _ _ _ _ "common" _ _) as [s1|] eqn:H1; [|done].
  destruct (overlayLayerIntoManifest _ _ _ _ "client" _ _) as [s2|] eqn:H2; [|done]. intros [= <- <-].
  pose proof (fun k => overlay_lookup _ _ _ tree (mkScan ∅ c []) _ k Hid Hc H1) as Ho1.
  pose proof (fun k => overlay_lookup _ _ _ tree _ _ k Hid (proj2 (Ho1 k)) H2) as Ho2.
  split_and!; [|by apply (Ho2 ""%string)|done]. intros k. destruct (Ho2 k) as [-> _]. destruct (Ho1 k) as [-> _].
  cbn [byKey]. rewrite lookup_empty. unfold precedence.
  destruct (layerCandidate _ _ _ "client" k); [done|]. by destruct (layerCandidate _ _ _ "common" k).
Qed.

(** C3.  The manifest of a mod follows Quake's precedence: it has one entry for each key that
    some file of a layer has, in the order of the keys; and the entry is that of the client
    layer before the common one, of a loose file before a pak, and of a later pak before an
    earlier one, whatever of the paks was cached. *)
Theorem manifest_precedence gameDir mod_ tree c out s :
  identified -> cache_ok c ->
  buildVFSManifestWithWarnings statPak readPak gameDir mod_ tree c = Ok (out, s) ->
  (forall e, e ∈ out <-> precedence gameDir mod_ tree (Path e) = Some e)
  /\ StronglySorted (fun a b => strLe (Path a) (Path b) /\ Path a <> Path b) out
  /\ cache_ok (cache s).
Proof.
  intros Hid Hc Hb. destruct (manifest_lookup _ _ _ _ _ _ Hid Hc Hb) as (Hl & Hc' & ->).
  assert (forall k e, byKey s !! k = Some e -> Path e = k) as Hpath.
  { intros k e. rewrite Hl. apply precedence_path. }
  split_and!; [| |done].
  - intros e. rewrite (merge_sort_Permutation pathLe), list_elem_of_fmap. split.
    + intros ([k e'] & -> & Hin%elem_of_map_to_list). cbn. by rewrite (Hpath _ _ Hin), <- Hl.
    + intros He. exists (Path e, e). split; [done|]. apply elem_of_map_to_list. by rewrite Hl.
  - apply StronglySorted_distinct; [apply (StronglySorted_merge_sort pathLe)|].
    rewrite (merge_sort_Permutation pathLe).
    replace (Path <$> map snd (map_to_list (byKey s))) with (map_to_list (byKey s)).*1; [apply NoDup_fst_map_to_list|].
    change (map snd (map_to_list (byKey s))) with (map_to_list (byKey s)).*2. rewrite <- list_fmap_compose.
    apply list_fmap_ext. intros i [k e] Hi. cbn. symmetry. apply Hpath.
    apply elem_of_map_to_list. by apply list_elem_of_lookup_2 in Hi.
Qed.
End Facts.

(** * Facts: the order of paks *)

Section Order.
Context `{GoUnicode}.

Lemma pakLe_spec a b :
  pakLe a b <->
  group (pakSortKey a) < group (pakSortKey b)
  \/ (group (pakSortKey a) = group (pakSortKey b)
      /\ ((group (pakSortKey a) = 0 /\ num (pakSortKey a) < num (pakSortKey b))
          \/ ((group (pakSortKey a) = 0 -> num (pakSortKey a) = num (pakSortKey b))
              /\ strLe (pkName (pakSortKey a)) (pkName (pakSortKey b))))).
Proof.
  unfold pakLe, pakCompare, strLe. cbv zeta.
  destruct (Z.compare_spec (group (pakSortKey a)) (group (pakSortKey b))) as [Hg|Hg|Hg];
    [|split; [lia|done]|split; [done|intros [?|[? _]]; lia]].
  destruct (Z.eqb_spec (group (pakSortKey a)) 0) as [H0|H0].
  - destruct (Z.compare_spec (num (pakSortKey a)) (num (pakSortKey b))) as [Hn|Hn|Hn].
    + split; [intros Hc; right; split; [done|right]; by split|].
      intros [?|[_ [[_ ?]|[_ Hc]]]]; [lia|lia|done].
    + split; [|done]. intros _. right. split; [done|left]. by split.
    + split; [done|]. intros [?|[_ [[_ ?]|[Hc _]]]]; [lia|lia|]. specialize (Hc H0). lia.
  - split; [intros Hc; right; split; [done|right]; by split|].
    intros [?|[_ [[? _]|[_ Hc]]]]; [lia|lia|done].
Qed.

#[export] Instance pakLe_trans : Transitive pakLe.
Proof.
  intros a b c. rewrite !pakLe_spec. intros [H1|(H1 & H2)] [H3|(H3 & H4)]; [left; lia..|right].
  split; [lia|]. destruct H2 as [H2|[H2 Hs]], H4 as [H4|[H4 Hs']]; [left; lia..|left; lia|].
  right. split; [intros Hg; rewrite H2 by done; apply H4; lia|]. by etrans.
Qed.
#[export] Instance pakLe_total : Total pakLe.
Proof.
  intros a b. rewrite !pakLe_spec.
  destruct (Z.lt_trichotomy (group (pakSortKey a)) (group (pakSortKey b))) as [?|[Hg|?]]; [left; by left| |right; by left].
  destruct (Z.eq_dec (group (pakSortKey a)) 0) as [H0|H0].
  - destruct (Z.lt_trichotomy (num (pakSortKey a)) (num (pakSortKey b))) as [?|[Hn|?]].
    + left; right. split; [done|left; lia].
    + destruct (total strLe (pkName (pakSortKey a)) (pkName (pakSortKey b))).
      * left; right. split; [done|right]. by split.
      * right; right. split; [done|right]. by split.
    + right; right. split; [done|left; lia].
  - destruct (total strLe (pkName (pakSortKey a)) (pkName (pakSortKey b))).
    + left; right. split; [done|right]. split; [lia|done].
    + right; right. split; [done|right]. split; [lia|done].
Qed.

(** The paks of a layer are read in Quake's order: each pak of its directory once, the
    numbered ones first and by number (so pak10 comes after pak9), then the others. *)
Theorem listLayerPakFiles_order ents :
  (forall n, n ∈ listLayerPakFiles ents <-> (n, false) ∈ ents /\ isPakName n = true)
  /\ StronglySorted (fun a b => group (pakSortKey a) < group (pakSortKey b)
       \/ (group (pakSortKey a) = group (pakSortKey b)
           /\ (group (pakSortKey a) <> 0 \/ num (pakSortKey a) <= num (pakSortKey b)))) (listLayerPakFiles ents).
Proof.
  unfold listLayerPakFiles. split.
  - intros n. rewrite (merge_sort_Permutation pakLe), list_elem_of_fmap. split.
    + intros ([n' d] & -> & [Hf Hin]%list_elem_of_filter). cbn in *. destruct d; [done|].
      split; [done|]. by apply Is_true_eq_true.
    + intros [Hin Hp]. exists (n, false). split; [done|]. apply list_elem_of_filter.
      split; [|done]. change (Is_true (isPakName n)). by rewrite Hp.
  - pose proof (StronglySorted_merge_sort pakLe (map fst (filter (fun e => negb (snd e) && isPakName (fst e)) ents))) as Hs.
    induction Hs as [|a l Hs IH Hf]; constructor; [done|]. eapply Forall_impl; [exact Hf|].
    intros b [?|(Hg & [[? ?]|[Hn _]])]%pakLe_spec; [by left|right; split; [done|right; lia]|right; split; [done|]].
    destruct (Z.eq_dec (group (pakSortKey a)) 0) as [H0|]; [right; rewrite Hn by done; lia|by left].
Qed.

(** Names as they are found, and their order. *)
Example pak_order :
  let _ := plain_unicode in
  listLayerPakFiles [("zz.pak", false); ("PAK10.PAK", false); ("pak2.pak", false); ("maps", true); ("x.bsp", false); ("pak.pak", false)]%string
  = ["pak2.pak"; "PAK10.PAK"; "pak.pak"; "zz.pak"]%string.
Proof. vm_compute. reflexivity. Qed.
End Order.

(** A manifest of two layers: the client's loose file over the pak of the common layer. *)
Definition demo_pak : bytes := buildPak [("progs.dat", blist "code"); ("Maps/E1M1.bsp", blist "geometry")]%string.
Definition demo_tree (layer : string) : layerTree :=
  if (layer =? "common")%string
  then mkLayerTree true (Ok [("pak0.pak", false)]%string) [walkDir; walkFile "pak0.pak"; walkFile "autoexec.cfg"]%string
  else mkLayerTree true (Ok [("progs.dat", false)]%string) [walkDir; walkFile "progs.dat"]%string.
Lemma manifest_precedence_witness :
  let _ := plain_unicode in
  match buildVFSManifestWithWarnings (fun _ => Ok (1, 152)) (fun _ => Ok demo_pak) "/game" "id1" demo_tree ∅ with
  | Ok (out, s) =>
      map Path out = ["autoexec.cfg"; "maps/e1m1.bsp"; "progs.dat"]%string
      /\ (forall e, e ∈ out <-> precedence (fun _ => Ok (1, 152)) (fun _ => Ok demo_pak) "/game" "id1" demo_tree (Path e) = Some e)
  | Err _ => False
  end.
Proof.
  intros u. destruct (buildVFSManifestWithWarnings _ _ "/game" "id1" demo_tree ∅) as [[out s]|] eqn:Hb.
  - split.
    + vm_compute in Hb. injection Hb as <- _. reflexivity.
    + apply (manifest_precedence (fun _ => Ok (1, 152)) (fun _ => Ok demo_pak) (fun _ _ _ => demo_pak) "/game" "id1" demo_tree ∅ out s).
      * intros p mt sz _. reflexivity.
      * intros p idx. by rewrite lookup_empty.
      * exact Hb.
  - vm_compute in Hb. discriminate Hb.
Defined.

(** Two calls that miss before either has stored, and a third that finds what the second cached. *)
Definition demo_call : pakCall := mkCall "/game/id1/common/pak0.pak" (Ok (1, 152)) (Ok demo_pak).
Definition demo_hit : pakCall := mkCall "/game/id1/common/pak0.pak" (Ok (1, 152)) (Err "gone")%string.
Lemma get_transparent_witness :
  let _ := plain_unicode in
  let r := getRead 1 152 (Ok demo_pak) in
  (exists idx, r = Ok idx /\ idxEntries idx !! "maps/e1m1.bsp"%string <> None) /\
  answerNow demo_hit <> r /\
  exists s, rtc cacheStep newCacheState s /\ csDone s = [(demo_call, r); (demo_call, r); (demo_hit, r)] /\
    exists k', k' ∈ [demo_call; demo_call; demo_hit] /\ pcPath k' = pcPath demo_hit /\ pcStat k' = pcStat demo_hit /\ answerNow k' = r.
Proof.
  intros u r. split.
  { unfold r, getRead. destruct (readPakContents demo_pak) as [es|] eqn:He; [|vm_compute in He; discriminate He].
    vm_compute in He. injection He as <-. eexists. split; [reflexivity|]. vm_compute. discriminate. }
  split; [vm_compute; discriminate|].
  set (c := getStore "/game/id1/common/pak0.pak" r ∅).
  exists (mkCacheState (getStore "/game/id1/common/pak0.pak" r c) [] [(demo_call, r); (demo_call, r); (demo_hit, r)]).
  assert (rtc cacheStep newCacheState
    (mkCacheState (getStore "/game/id1/common/pak0.pak" r c) [] [(demo_call, r); (demo_call, r); (demo_hit, r)])) as Hrun.
  { eapply rtc_l; [apply (step_miss ∅ [] [] demo_call 1 152); reflexivity|].
    eapply rtc_l; [apply (step_miss ∅ [demo_call] [] demo_call 1 152); reflexivity|].
    eapply rtc_l; [apply (step_store ∅ [] [demo_call] [] demo_call 1 152 r); reflexivity|].
    eapply rtc_l; [apply (step_store c [] [] [(demo_call, r)] demo_call 1 152 r); reflexivity|].
    assert (exists idx, r = Ok idx /\ getLookup "/game/id1/common/pak0.pak" 1 152 (getStore "/game/id1/common/pak0.pak" r c) = Some idx)
      as (idx & Hr & Hl).
    { unfold r at 1, getRead. destruct (readPakContents demo_pak) as [es|] eqn:He; [|vm_compute in He; discriminate He].
      eexists. split; [reflexivity|]. unfold r, getRead, getLookup. rewrite He. cbn [getStore].
      rewrite lookup_insert_eq. reflexivity. }
    assert ((demo_hit, r) = (demo_hit, Ok idx)) as -> by (by rewrite Hr).
    apply rtc_once. apply (step_hit _ [] [(demo_call, r); (demo_call, r)] demo_hit 1 152 idx); [reflexivity|exact Hl]. }
  split; [exact Hrun|]. split; [reflexivity|].
  destruct (get_transparent _ [(demo_call, r); (demo_call, r)] demo_hit r [] Hrun eq_refl) as [Hk _]. exact Hk.
Defined.
