(* ===== verification/AssetServer.v ===== *)
(** The asset server: assets/gamedir.go, assets/manifest.go, assets/manifest_asset.go and
    assets/generation.go.

    Each session is issued a manifest whose assets are addressed by hashes of its own; the
    server keeps the live manifests and one table by hash.  Iterating over a Go map is a list of
    its keys in any order, an argument of the operations that do so. *)
From S2P Require Import Prelude GoStrings Paths Vfs.

(** * Game directories *)

(** gamedir.go [isValidQuakeGameDirName] *)
Definition isValidQuakeGameDirName (name : string) : bool :=
  let n := Z.of_nat (length (blist name)) in
  if (n =? 0) || (15 <? n) then false
  else forallb (fun c => negb ((byteZ c <? 32) || (byteZ c =? 127))) (blist name).

(** What the file system answers: whether a path is a directory, and whether it is an empty one. *)
Section ListMods.
Variable isDirAt : string -> bool.
Variable emptyDirAt : string -> bool.

(** gamedir.go [dirHasAnyLayer] *)
Definition dirHasAnyLayer (modDir : string) : bool :=
  existsb (fun layer => isDirAt (filepath_Join [modDir; layer])) ["common"; "client"; "server"]%string.

(** gamedir.go [ListMods], on the entries of the directory: names, and whether each is one. *)
Definition isMod (gameDir : string) (ent : string * bool) : bool :=
  let '(name, isDir) := ent in
  isDir && negb (HasPrefix name ".") && isValidQuakeGameDirName name
  && (let modDir := filepath_Join [gameDir; name] in dirHasAnyLayer modDir || emptyDirAt modDir).
Definition ListMods (gameDir : string) (ents : result string (list (string * bool))) : result string (list string) :=
  match ents with
  | Err e => Err ("read GAME_DIR: " ++ e)%string
  | Ok ents => Ok (map fst (List.filter (isMod gameDir) ents))
  end.
End ListMods.

(** * Assets *)

(** What an asset opens: a file, or a section of a pak. *)
Inductive opened := wholeFile (path : string) | section (pakPath : string) (offset size : Z).

(** manifest_asset.go [hashedAsset] *)
Record hashedAsset := mkHashedAsset { haName : string; haModTime : Z; contentType : string; haOpen : opened }.

(** path.Ext: from the last dot of the last element *)
Definition path_Ext (p : string) : string :=
  let last := match cut_byte "/"%char (rev (blist p)) with Some (l, _) => l | None => rev (blist p) end in
  match cut_byte "."%char last with
  | Some (ext, _) => btext ("."%char :: rev ext)
  | None => ""
  end.

(** * Hashes *)

(** hash/fnv [New64a] *)
Definition fnvOffset : Z := 14695981039346656037.
Definition fnvPrime : Z := 1099511628211.
Definition fnvByte (h : Z) (c : byte) : Z := wrap64 (Z.lxor h (byteZ c) * fnvPrime).
Definition fnvWrite (h : Z) (l : bytes) : Z := foldl fnvByte h l.

(** Hexadecimal digits of a 64-bit number, high first: all sixteen, or without leading zeros. *)
Definition hex16 (z : Z) : bytes :=
  map (fun k => hex_digit (Z.land (Z.shiftr z (4 * (15 - Z.of_nat k))) 15)) (seq 0 16).
Definition hexTrim (z : Z) : bytes :=
  match drop_chars ["0"%char] (hex16 z) with [] => ["0"%char] | l => l end.

(** manifest.go [hashAssetKey] *)
Definition hashAssetKey (ref key : string) : string :=
  btext (hex16 (fnvWrite fnvOffset (blist (ref ++ ":" ++ key)))).

Section Server.
Context `{GoUnicode}.

(** manifest_asset.go [contentTypeForAsset] *)
Definition contentTypeForAsset (name : string) : string :=
  let ext := ToLower (path_Ext name) in
  if (ext =? ".ogg")%string then "audio/ogg"
  else if (ext =? ".mp3")%string then "audio/mpeg"
  else if (ext =? ".pak")%string || (ext =? ".data")%string then "application/octet-stream"
  else "".

(** The status of a file: its modification time, and whether it is a directory. *)
Variable statFile : string -> result string (Z * bool).

(** manifest_asset.go [hashedAssetFromEntry] *)
Definition hashedAssetFromEntry (ent : assetManifestEntry) : result string hashedAsset :=
  let '(statPath, name, op) :=
    match backing ent with
    | loose filePath => (filePath, filepath_Base filePath, wholeFile filePath)
    | inPak pakPath entry => (pakPath, filepath_Base (pakName entry), section pakPath (pakOffset entry) (pakSize entry))
    end in
  match statFile statPath with
  | Err e => Err e
  | Ok (mt, isDir) =>
      match backing ent with
      | loose _ => if isDir then Err ("expected file, got directory: " ++ statPath)%string
                   else let name := if (name =? "")%string then Path ent else name in
                        Ok (mkHashedAsset name mt (contentTypeForAsset name) op)
      | inPak _ _ => let name := if (name =? "")%string then Path ent else name in
                     Ok (mkHashedAsset name mt (contentTypeForAsset name) op)
      end
  end.

(** manifest.go [appendManifestAssets]: the paths listed, and the assets by hash. *)
Fixpoint appendManifestAssets (ref namespace : string) (manifest : list assetManifestEntry)
    (assets : gmap string hashedAsset) : result string (list string * gmap string hashedAsset) :=
  match manifest with
  | [] => Ok ([], assets)
  | ent :: manifest =>
      let key := normalizeVFSKey (Path ent) in
      if (key =? "")%string then appendManifestAssets ref namespace manifest assets else
      let* asset := hashedAssetFromEntry ent in
      let hash := hashAssetKey ref (namespace ++ ":" ++ key) in
      match assets !! hash with
      | Some _ => Err ("hash collision for " ++ Quote (Path ent))%string
      | None =>
          let* (out, assets) := appendManifestAssets ref namespace manifest (<[hash := asset]> assets) in
          Ok (Path ent :: out, assets)
      end
  end.

(** What [buildSnapshot] gives. *)
Record snapshot := mkSnapshot { snGame : gmap string (list string); snCD : list string; snAssets : gmap string hashedAsset }.

(** manifest.go [buildSnapshot]: its loop over the mods, each with its manifest, *)
Fixpoint snapshotMods (ref : string) (mods : list (string * result string (list assetManifestEntry)))
    (game : gmap string (list string)) (assets : gmap string hashedAsset)
    : result string (gmap string (list string) * gmap string hashedAsset) :=
  match mods with
  | [] => Ok (game, assets)
  | (mod_, manifest) :: mods =>
      let* manifest := manifest in
      let* (entries, assets) := appendManifestAssets ref ("mod:" ++ mod_) manifest assets in
      snapshotMods ref mods (<[mod_ := entries]> game) assets
  end.
(** and the whole. *)
Definition buildSnapshot (ref : string) (mods : result string (list (string * result string (list assetManifestEntry))))
    (cd : result string (list assetManifestEntry)) : result string snapshot :=
  let* mods := mods in
  let* (game, assets) := snapshotMods ref mods ∅ ∅ in
  let* cdManifest := cd in
  match cdManifest with
  | [] => Ok (mkSnapshot game [] assets)
  | _ => let* (cd, assets) := appendManifestAssets ref "cd" cdManifest assets in Ok (mkSnapshot game cd assets)
  end.
End Server.

(** * The server *)

(** manifest.go [issuedManifest]; times are in nanoseconds. *)
Record issuedManifest := mkIssued { createdAt : Z; assets : gmap string hashedAsset }.

(** manifest.go [HashedAssetServer]: its manifests, and its cached fingerprint. *)
Record HashedAssetServer := mkHAS {
  manifestTTL : Z;
  manifests : gmap string issuedManifest;
  assetsByHash : gmap string hashedAsset;
  genValue : string;
  genAt : Z;
}.
#[export] Instance eta_HAS : EtaRecord HashedAssetServer := fun g =>
  mkHAS (manifestTTL g) (manifests g) (assetsByHash g) (genValue g) (genAt g).

Definition defaultManifestTTL : Z := 37 * 60 * 1000000000.
Definition maxLiveManifests : Z := 256.

(** manifest.go [NewHashedAssetServer] *)
Definition NewHashedAssetServer : HashedAssetServer := mkHAS defaultManifestTTL ∅ ∅ "" 0.

(** manifest.go [removeManifestLocked]; the order in which the hashes are deleted is of no matter. *)
Definition removeManifestLocked (ref : string) (g : HashedAssetServer) : HashedAssetServer :=
  match manifests g !! ref with
  | None => g
  | Some session =>
      g <| assetsByHash ::= fun m => foldl (fun m h => delete h m) m (map fst (map_to_list (assets session))) |>
        <| manifests ::= delete ref |>
  end.

(** manifest.go [pruneExpiredLocked], over the manifests in the given order *)
Definition pruneExpiredLocked (order : list string) (now : Z) (g : HashedAssetServer) : HashedAssetServer :=
  foldl (fun g ref =>
    match manifests g !! ref with
    | Some session => if manifestTTL g <? now - createdAt session then removeManifestLocked ref g else g
    | None => g
    end) g order.

(** manifest.go [evictOldestLocked], over the manifests in the given order *)
Definition oldestStep (g : HashedAssetServer) (best : string * Z) (ref : string) : string * Z :=
  match manifests g !! ref with
  | Some session =>
      if (fst best =? "")%string || (createdAt session <? snd best) then (ref, createdAt session) else best
  | None => best
  end.
Definition evictOldestLocked (order : list string) (g : HashedAssetServer) : HashedAssetServer :=
  removeManifestLocked (fst (foldl (oldestStep g) (""%string, 0) order)) g.

(** manifest.go [IssueManifest], from the lock on: the snapshot is built before. *)
Definition registerManifest (order1 order2 : list string) (ref : string) (now : Z) (assets : gmap string hashedAsset)
    (g : HashedAssetServer) : HashedAssetServer :=
  let g := pruneExpiredLocked order1 now g in
  let g := if maxLiveManifests <=? Z.of_nat (size (manifests g)) then evictOldestLocked order2 g else g in
  g <| manifests ::= <[ref := mkIssued now assets]> |>
    <| assetsByHash ::= fun m => foldl (fun m ha => <[fst ha := snd ha]> m) m (map_to_list assets) |>.
(** The whole: the mods and tracks listed and the reference, or an error; nothing is issued when
    there is no mod. *)
Definition IssueManifest (order1 order2 : list string) (ref : string) (now : Z) (sn : result string snapshot)
    (g : HashedAssetServer) : result string (gmap string (list string) * list string * string) * HashedAssetServer :=
  match sn with
  | Err e => (Err e, g)
  | Ok sn =>
      if (Z.of_nat (size (snGame sn)) =? 0) then (Ok (∅, [], ""%string), g)
      else (Ok (snGame sn, snCD sn, ref), registerManifest order1 order2 ref now (snAssets sn) g)
  end.

(** manifest.go [lookupAsset] *)
Definition lookupAsset (order : list string) (now : Z) (hash : string) (g : HashedAssetServer)
    : option hashedAsset * HashedAssetServer :=
  match assetsByHash g !! hash with
  | Some a => (Some a, g)
  | None => let g := pruneExpiredLocked order now g in (assetsByHash g !! hash, g)
  end.

(** manifest.go [AssetHandler]: [opens] is whether the file of an asset opens. *)
Inductive assetResponse := assetMethodNotAllowed | assetNotFound | assetServed (a : hashedAsset).
Definition AssetHandler (opens : opened -> bool) (order : list string) (now : Z) (method path : string)
    (g : HashedAssetServer) : assetResponse * HashedAssetServer :=
  if negb (method =? "GET")%string && negb (method =? "HEAD")%string then (assetMethodNotAllowed, g) else
  let hash := TrimSpace (TrimPrefix path "/pak/") in
  if (hash =? "")%string || Contains hash "/" then (assetNotFound, g) else
  let '(a, g) := lookupAsset order now hash g in
  match a with
  | None => (assetNotFound, g)
  | Some a => if opens (haOpen a) then (assetServed a, g) else (assetNotFound, g)
  end.

(** * The fingerprint *)

(** A file the walk of [fingerprintTree] counts: its path, its size and its modification time. *)
Record fileInfo := mkFileInfo { fiRel : string; fiSize : Z; fiMtime : Z }.
Definition putle64 (z : Z) : bytes := map (fun k => byte_of (z / 2 ^ (8 * Z.of_nat k))) (seq 0 8).

(** generation.go [fingerprintTree] *)
Definition fingerprintFile (h : Z) (f : fileInfo) : Z :=
  fnvWrite (fnvWrite (fnvWrite h (blist (fiRel f))) (putle64 (fiSize f))) (putle64 (fiMtime f)).
Definition fingerprintTree (h : Z) (files : list fileInfo) : Z := foldl fingerprintFile h files.

(** generation.go [computeManifestGeneration], on the mods listed and the files under each path *)
Definition computeManifestGeneration (gameDir cdDir : string) (mods : result string (list string))
    (filesAt : string -> list fileInfo) : string :=
  let mods := merge_sort strLe (match mods with Ok l => l | Err _ => [] end) in
  let h := foldl (fun h mod_ =>
             foldl (fun h layer => fingerprintTree h (filesAt (filepath_Join [gameDir; mod_; layer]))) h clientLayers)
           fnvOffset mods in
  let h := if (cdDir =? "")%string then h else fingerprintTree h (filesAt cdDir) in
  btext (hexTrim h).

(** generation.go [manifestGenTTL]; [ManifestGeneration]: [compute] is the fingerprint at this time. *)
Definition manifestGenTTL : Z := 3 * 1000000000.
Definition ManifestGeneration (now : Z) (compute : string) (g : HashedAssetServer) : string * HashedAssetServer :=
  if negb (genValue g =? "")%string && (now - genAt g <? manifestGenTTL) then (genValue g, g)
  else (compute, g <| genValue := compute |> <| genAt := now |>).

(** * Facts: the table by hash *)

Lemma foldl_delete_lookup {A} (m : gmap string A) l h :
  foldl (fun m h => delete h m) m l !! h = if decide (h ∈ l) then None else m !! h.
Proof.
  revert m. induction l as [|k l IH]; intros m; cbn [foldl].
  { by rewrite decide_False by apply not_elem_of_nil. }
  rewrite IH. destruct (decide (h = k)) as [->|Hne].
  - rewrite (decide_True (P := k ∈ k :: l)) by left. destruct (decide (k ∈ l)); [done|apply lookup_delete_eq].
  - rewrite lookup_delete_ne by done.
    rewrite (decide_ext (h ∈ k :: l) (h ∈ l)); [done|]. rewrite elem_of_cons. naive_solver.
Qed.

Lemma foldl_insert_lookup {A} (l : list (string * A)) (m : gmap string A) h :
  NoDup l.*1 ->
  foldl (fun m ha => <[fst ha := snd ha]> m) m l !! h
  = match (list_to_map l : gmap string A) !! h with Some a => Some a | None => m !! h end.
Proof.
  revert m. induction l as [|[k a] l IH]; intros m; [cbn; by rewrite lookup_empty|].
  cbn [fmap list_fmap fst]. intros [Hk Hnd]%NoDup_cons. cbn [foldl fst snd list_to_map foldr uncurry]. rewrite IH by done.
  destruct (decide (k = h)) as [->|Hne].
  - rewrite !lookup_insert_eq. by rewrite not_elem_of_list_to_map_1.
  - by rewrite !lookup_insert_ne by done.
Qed.

(** The table has no other assets than those of the live manifests; but for the hashes [K], it has
    all of them, and a hash is of one manifest. *)
Definition holds (g : HashedAssetServer) (ref h : string) (a : hashedAsset) : Prop :=
  exists s, manifests g !! ref = Some s /\ assets s !! h = Some a.
Record synced (K : gset string) (g : HashedAssetServer) : Prop := {
  sy_sound : forall h a, assetsByHash g !! h = Some a -> exists ref, holds g ref h a;
  sy_table : forall h a ref, h ∉ K -> holds g ref h a -> assetsByHash g !! h = Some a;
  sy_own : forall r1 r2 h a1 a2, h ∉ K -> holds g r1 h a1 -> holds g r2 h a2 -> r1 = r2;
}.
Lemma synced_mono K K' g : K ⊆ K' -> synced K g -> synced K' g.
Proof.
  intros HK [H1 H2 H3]. split; [done| |].
  - intros h a ref Hh. apply H2. set_solver.
  - intros r1 r2 h a1 a2 Hh. apply H3. set_solver.
Qed.
(** A state with a part of the manifests of another. *)
Definition within (g' g : HashedAssetServer) : Prop :=
  (forall r s, manifests g' !! r = Some s -> manifests g !! r = Some s)
  /\ (forall h a, assetsByHash g' !! h = Some a -> assetsByHash g !! h = Some a)
  /\ manifestTTL g' = manifestTTL g.
#[export] Instance within_preorder : PreOrder within.
Proof.
  split; [by intros g|]. intros g1 g2 g3 (H1 & H2 & H3) (H4 & H5 & H6). split_and!; [auto|auto|congruence].
Qed.

Lemma removeManifestLocked_manifests ref g : manifests (removeManifestLocked ref g) = delete ref (manifests g).
Proof.
  unfold removeManifestLocked. destruct (manifests g !! ref) eqn:Hr; [done|].
  apply map_eq. intros k. destruct (decide (k = ref)) as [->|]; [by rewrite lookup_delete_eq|by rewrite lookup_delete_ne].
Qed.

Lemma removeManifestLocked_table ref g h :
  assetsByHash (removeManifestLocked ref g) !! h
  = match manifests g !! ref with
    | Some s => if decide (is_Some (assets s !! h)) then None else assetsByHash g !! h
    | None => assetsByHash g !! h
    end.
Proof.
  unfold removeManifestLocked. destruct (manifests g !! ref) as [s|]; [|done]. cbn.
  rewrite foldl_delete_lookup. apply decide_ext. change (map fst (map_to_list (assets s))) with (map_to_list (assets s)).*1.
  rewrite list_elem_of_fmap. split.
  - intros ([k a] & -> & Hin%elem_of_map_to_list). by exists a.
  - intros [a Ha]. exists (h, a). split; [done|]. by apply elem_of_map_to_list.
Qed.

Lemma removeManifestLocked_within ref g : within (removeManifestLocked ref g) g.
Proof.
  split_and!.
  - intros r s. rewrite removeManifestLocked_manifests. by intros [_ ?]%lookup_delete_Some.
  - intros h a. rewrite removeManifestLocked_table. destruct (manifests g !! ref); [|done]. by destruct (decide _).
  - unfold removeManifestLocked. by destruct (manifests g !! ref).
Qed.

Lemma removeManifestLocked_holds ref g r h a :
  holds (removeManifestLocked ref g) r h a <-> holds g r h a /\ r <> ref.
Proof.
  unfold holds. rewrite removeManifestLocked_manifests. split.
  - intros (s & [? ?]%lookup_delete_Some & ?). split; [by exists s|done].
  - intros [(s & ? & ?) ?]. exists s. by rewrite lookup_delete_ne by done.
Qed.

Lemma removeManifestLocked_synced K ref g : synced K g -> synced K (removeManifestLocked ref g).
Proof.
  intros [Hs Ht Ho]. split.
  - intros h a. rewrite removeManifestLocked_table. setoid_rewrite removeManifestLocked_holds.
    destruct (manifests g !! ref) as [s|] eqn:Hr; [destruct (decide _) as [|Hn]; [done|]|];
      intros (r & Hh)%Hs; exists r; (split; [done|]); intros ->; destruct Hh as (s' & Hs' & Ha); rewrite Hr in Hs'.
    + injection Hs' as <-. apply Hn. by exists a.
    + done.
  - intros h a r HK [Hh Hne]%removeManifestLocked_holds. rewrite removeManifestLocked_table.
    destruct (manifests g !! ref) as [s|] eqn:Hr; [|by apply (Ht h a r)].
    destruct (decide _) as [[b Hb]|]; [|by apply (Ht h a r)]. exfalso. apply Hne. apply (Ho r ref h a b); [done..|]. by exists s.
  - intros r1 r2 h a1 a2 HK [H1 _]%removeManifestLocked_holds [H2 _]%removeManifestLocked_holds. by eapply Ho.
Qed.

(** Pruning removes manifests, one by one. *)
Definition expired (now : Z) (g : HashedAssetServer) (s : issuedManifest) : Prop := manifestTTL g < now - createdAt s.
#[export] Instance expired_dec now g s : Decision (expired now g s).
Proof. unfold expired. apply _. Defined.

Lemma pruneExpiredLocked_ind (P : HashedAssetServer -> Prop) order now g :
  P g -> (forall ref g, P g -> P (removeManifestLocked ref g)) -> P (pruneExpiredLocked order now g).
Proof.
  intros H0 Hrm. unfold pruneExpiredLocked. revert g H0. induction order as [|r order IH]; intros g H0; [done|].
  cbn [foldl]. apply IH. destruct (manifests g !! r) as [s|]; [|done]. destruct (_ <? _); auto.
Qed.
Lemma pruneExpiredLocked_within order now g : within (pruneExpiredLocked order now g) g.
Proof.
  apply pruneExpiredLocked_ind; [done|]. intros ref g' Hw. etrans; [apply removeManifestLocked_within|done].
Qed.
Lemma pruneExpiredLocked_synced K order now g : synced K g -> synced K (pruneExpiredLocked order now g).
Proof. intros Hs. apply pruneExpiredLocked_ind; [done|]. intros. by apply removeManifestLocked_synced. Qed.

(** It removes the expired ones, whatever the order, and no other. *)
Lemma pruneExpiredLocked_manifests order now g r :
  manifests (pruneExpiredLocked order now g) !! r
  = match manifests g !! r with
    | Some s => if decide (r ∈ order /\ expired now g s) then None else Some s
    | None => None
    end.
Proof.
  unfold pruneExpiredLocked. revert g. induction order as [|k order IH]; intros g; cbn [foldl].
  { destruct (manifests g !! r); [|done]. rewrite decide_False; [done|]. intros [?%not_elem_of_nil _]. done. }
  rewrite IH. clear IH. destruct (manifests g !! k) as [sk|] eqn:Hk.
  - destruct (Z.ltb_spec (manifestTTL g) (now - createdAt sk)) as [He|He].
    + rewrite removeManifestLocked_manifests. destruct (decide (r = k)) as [->|Hne].
      * rewrite lookup_delete_eq, Hk. rewrite decide_True; [done|]. split; [by left|done].
      * rewrite lookup_delete_ne by done. destruct (manifests g !! r) as [s|]; [|done].
        destruct (removeManifestLocked_within k g) as (_ & _ & Httl).
        apply decide_ext. unfold expired. rewrite Httl, elem_of_cons. tauto.
    + destruct (manifests g !! r) as [s|] eqn:Hr; [|done]. apply decide_ext. rewrite elem_of_cons.
      split; [tauto|]. intros [[->|?] ?]; [|done]. unfold expired in *. rewrite Hk in Hr. injection Hr as ->. lia.
  - destruct (manifests g !! r) as [s|] eqn:Hr; [|done]. apply decide_ext. rewrite elem_of_cons.
    split; [tauto|]. intros [[->|?] ?]; [|done]. by rewrite Hk in Hr.
Qed.

(** The keys of the live manifests, in some order. *)
Definition iterates (order : list string) (g : HashedAssetServer) : Prop := order ≡ₚ (map_to_list (manifests g)).*1.
Lemma iterates_elem order g r : iterates order g -> r ∈ order <-> is_Some (manifests g !! r).
Proof.
  intros Ho. rewrite Ho, list_elem_of_fmap. split.
  - intros ([k s] & -> & Hin%elem_of_map_to_list). by exists s.
  - intros [s Hs]. exists (r, s). split; [done|]. by apply elem_of_map_to_list.
Qed.

(** ** Eviction *)

Definition oldest (g : HashedAssetServer) (order : list string) : string * Z := foldl (oldestStep g) (""%string, 0) order.

(** What the scan keeps: one of the manifests seen, and the oldest, when none has an empty name. *)
Lemma oldest_from g order : forall best (seen : list string),
  (seen = [] /\ fst best = ""%string \/ fst best ∈ seen) ->
  (""%string ∉ seen ++ order -> forall r, r ∈ seen -> exists s b, manifests g !! r = Some s /\ manifests g !! fst best = Some b
     /\ snd best = createdAt b /\ createdAt b <= createdAt s) ->
  Forall (fun r => is_Some (manifests g !! r)) order ->
  let best' := foldl (oldestStep g) best order in
  (seen ++ order = [] \/ fst best' ∈ seen ++ order)
  /\ (""%string ∉ seen ++ order -> forall r, r ∈ seen ++ order -> exists s b, manifests g !! r = Some s
       /\ manifests g !! fst best' = Some b /\ createdAt b <= createdAt s).
Proof.
  induction order as [|k order IH]; intros best seen Hb Hmin Hall; cbn [foldl].
  { rewrite app_nil_r in *. cbv zeta. split; [destruct Hb as [[-> _]|?]; auto|].
    intros Hne r Hr. destruct (Hmin Hne r Hr) as (s & b & ? & ? & _ & ?). eauto. }
  apply List.Forall_cons_iff in Hall as [[sk Hk] Hall].
  replace (seen ++ k :: order) with ((seen ++ [k]) ++ order) in * by (by rewrite <- app_assoc).
  apply IH; [| |done].
  - right. unfold oldestStep. rewrite Hk. destruct (_ || _) eqn:Hc; cbn [fst].
    + apply elem_of_app. right. by left.
    + apply orb_false_iff in Hc as [Hc _]. apply String.eqb_neq in Hc. destruct Hb as [[_ ?]|?]; [done|].
      apply elem_of_app. by left.
  - intros Hne r Hr. assert (""%string ∉ seen ++ [k] /\ ""%string ∉ seen) as [Hne1 Hne2].
    { rewrite !not_elem_of_app in Hne. rewrite !not_elem_of_app. tauto. }
    unfold oldestStep. rewrite Hk. apply elem_of_app in Hr.
    assert (r ∈ seen \/ r = k) as Hr' by (destruct Hr as [?|?%list_elem_of_singleton]; auto).
    destruct (_ || _) eqn:Hc; cbn [fst snd].
    + destruct Hr' as [Hr'| ->]; [|exists sk, sk; split_and!; (done || lia)].
      destruct (Hmin Hne r Hr') as (s & b & Hs & Hbst & Hsnd & Hle).
      apply orb_true_iff in Hc as [Hc|Hc].
      * apply String.eqb_eq in Hc. destruct Hb as [[-> _]|Hb]; [by apply not_elem_of_nil in Hr'|]. by rewrite Hc in Hb.
      * exists s, sk. split_and!; [done|done|done|lia].
    + apply orb_false_iff in Hc as [Hc1 Hc2]. apply String.eqb_neq in Hc1. apply Z.ltb_ge in Hc2.
      destruct Hb as [[_ ?]|Hb]; [done|].
      destruct Hr' as [Hr'| ->]; [by apply (Hmin Hne)|].
      destruct (Hmin Hne (fst best) Hb) as (_ & b & _ & Hbst & Hsnd & _).
      exists sk, b. split_and!; [done|done|done|lia].
Qed.

Lemma oldest_spec g order :
  iterates order g -> order <> [] ->
  is_Some (manifests g !! fst (oldest g order))
  /\ (manifests g !! ""%string = None -> forall r s, manifests g !! r = Some s ->
      exists b, manifests g !! fst (oldest g order) = Some b /\ createdAt b <= createdAt s).
Proof.
  intros Ho Hne. unfold oldest.
  destruct (oldest_from g order (""%string, 0) []) as [Hin Hmin].
  - by left.
  - intros _ r Hr. by apply not_elem_of_nil in Hr.
  - apply Forall_forall. intros r. by apply iterates_elem.
  - cbn [app] in *. cbv zeta in *. split.
    + destruct Hin as [?|Hin]; [done|]. by apply (iterates_elem _ _ _ Ho).
    + intros Hemp r s Hr. destruct (Hmin ltac:(rewrite (iterates_elem _ _ _ Ho), Hemp; by intros [? ?]) r) as (s' & b & Hs' & Hb & Hle).
      * apply (iterates_elem _ _ _ Ho). by exists s.
      * rewrite Hr in Hs'. injection Hs' as <-. eauto.
Qed.

(** ** Issuing *)

(** A reference not in use: sixteen random bytes; and hashes not in use. *)
Definition newRef (g : HashedAssetServer) (ref : string) : Prop := ref <> ""%string /\ manifests g !! ref = None.
Definition clashes (g : HashedAssetServer) (sn : gmap string hashedAsset) : gset string := dom sn ∩ dom (assetsByHash g).
Definition fresh (g : HashedAssetServer) (ref : string) (sn : gmap string hashedAsset) : Prop :=
  ref <> ""%string /\ manifests g !! ref = None /\ forall h, is_Some (sn !! h) -> assetsByHash g !! h = None.
Lemma fresh_new g ref sn : fresh g ref sn -> newRef g ref /\ clashes g sn = ∅.
Proof.
  intros (H1 & H2 & H3). split; [done|]. apply leibniz_equiv. unfold clashes. intros h.
  rewrite elem_of_intersection, !elem_of_dom. split; [|set_solver]. intros [Hs [a Ha]]. by rewrite H3 in Ha.
Qed.

Definition addManifest (ref : string) (now : Z) (sn : gmap string hashedAsset) (g : HashedAssetServer) : HashedAssetServer :=
  g <| manifests ::= <[ref := mkIssued now sn]> |>
    <| assetsByHash ::= fun m => foldl (fun m ha => <[fst ha := snd ha]> m) m (map_to_list sn) |>.
(** What is left when a manifest is added. *)
Definition makeRoom (order1 order2 : list string) (now : Z) (g : HashedAssetServer) : HashedAssetServer :=
  let g := pruneExpiredLocked order1 now g in
  if maxLiveManifests <=? Z.of_nat (size (manifests g)) then evictOldestLocked order2 g else g.
Lemma registerManifest_eq order1 order2 ref now sn g :
  registerManifest order1 order2 ref now sn g = addManifest ref now sn (makeRoom order1 order2 now g).
Proof. done. Qed.

Lemma makeRoom_within order1 order2 now g : within (makeRoom order1 order2 now g) g.
Proof.
  unfold makeRoom. cbv zeta. destruct (_ <=? _); [etrans; [apply removeManifestLocked_within|]|]; apply pruneExpiredLocked_within.
Qed.
Lemma makeRoom_synced K order1 order2 now g : synced K g -> synced K (makeRoom order1 order2 now g).
Proof.
  intros Hs. unfold makeRoom. cbv zeta.
  destruct (_ <=? _); [apply removeManifestLocked_synced|]; by apply pruneExpiredLocked_synced.
Qed.
Lemma newRef_within g g' ref : within g' g -> newRef g ref -> newRef g' ref.
Proof.
  intros (Hm & _) (Hne & Hr). split; [done|].
  destruct (manifests g' !! ref) as [s|] eqn:Hs; [|done]. apply Hm in Hs. by rewrite Hr in Hs.
Qed.
Lemma clashes_within g g' sn : within g' g -> clashes g' sn ⊆ clashes g sn.
Proof.
  intros (_ & Ht & _) h. unfold clashes. rewrite !elem_of_intersection, !elem_of_dom.
  intros [Hs [a Ha]]. split; [done|]. exists a. by apply Ht.
Qed.

Lemma addManifest_table ref now sn g h :
  assetsByHash (addManifest ref now sn g) !! h = match sn !! h with Some a => Some a | None => assetsByHash g !! h end.
Proof.
  unfold addManifest. cbn. rewrite foldl_insert_lookup by apply NoDup_fst_map_to_list. by rewrite list_to_map_to_list.
Qed.
Lemma addManifest_holds ref now sn g r h a : manifests g !! ref = None ->
  holds (addManifest ref now sn g) r h a <-> (r = ref /\ sn !! h = Some a) \/ holds g r h a.
Proof.
  intros Hr. unfold holds, addManifest. cbn. split.
  - intros (s & [[<- <-]|[Hne Hs]]%lookup_insert_Some & Ha); [by left|right; by exists s].
  - intros [[-> Ha]|(s & Hs & Ha)].
    + exists (mkIssued now sn). by rewrite lookup_insert_eq.
    + exists s. rewrite lookup_insert_ne; [done|]. intros ->. by rewrite Hr in Hs.
Qed.
Lemma addManifest_synced K ref now sn g : synced K g -> newRef g ref -> synced (K ∪ clashes g sn) (addManifest ref now sn g).
Proof.
  intros [Hs Ht Ho] [_ Hr].
  assert (forall r h a b, h ∉ K ∪ clashes g sn -> holds g r h a -> sn !! h = Some b -> False) as Hx.
  { intros r h a b HK Hg Hb. apply HK, elem_of_union. right. unfold clashes. rewrite elem_of_intersection, !elem_of_dom. split; [by exists b|].
    exists a. apply (Ht h a r); [set_solver|done]. }
  split.
  - intros h a. rewrite addManifest_table. setoid_rewrite addManifest_holds; [|done].
    destruct (sn !! h) as [b|] eqn:Hb; [intros [= ->]; exists ref; by left|]. intros (r & Hh)%Hs. exists r. by right.
  - intros h a r HK [[-> Ha]|Hh]%addManifest_holds; [| |done]; rewrite addManifest_table; [by rewrite Ha|].
    destruct (sn !! h) as [b|] eqn:Hb; [by destruct (Hx r h a b)|]. apply (Ht h a r); [set_solver|done].
  - intros r1 r2 h a1 a2 HK [[-> H1]|H1]%addManifest_holds [[-> H2]|H2]%addManifest_holds; try done.
    + by destruct (Hx r2 h a2 a1).
    + by destruct (Hx r1 h a1 a2).
    + apply (Ho r1 r2 h a1 a2); [set_solver|done|done].
Qed.

(** The bound: one is evicted when there are 256. *)
Lemma size_within g g' : within g' g -> (size (manifests g') <= size (manifests g))%nat.
Proof. intros (Hm & _). apply map_subseteq_size. by apply map_subseteq_spec. Qed.

Lemma makeRoom_size order1 order2 now g :
  iterates order2 (pruneExpiredLocked order1 now g) -> Z.of_nat (size (manifests g)) <= maxLiveManifests ->
  Z.of_nat (size (manifests (makeRoom order1 order2 now g))) < maxLiveManifests.
Proof.
  intros Ho Hg. unfold makeRoom. cbv zeta. pose proof (size_within _ _ (pruneExpiredLocked_within order1 now g)) as Hp.
  set (g1 := pruneExpiredLocked order1 now g) in *.
  destruct (Z.leb_spec maxLiveManifests (Z.of_nat (size (manifests g1)))) as [Hle|]; [|done].
  unfold evictOldestLocked. rewrite removeManifestLocked_manifests. unfold maxLiveManifests in *.
  destruct (oldest_spec g1 order2 Ho) as [[s Hs] _].
  { intros ->. pose proof (f_equal (@length _) (proj1 (Permutation_nil_l _) Ho)) as Hl || pose proof (Permutation_length Ho) as Hl.
    rewrite length_fmap, length_map_to_list in Hl. cbn in Hl. lia. }
  fold (oldest g1 order2). rewrite map_size_delete_Some; [|by exists s]. lia.
Qed.

Lemma addManifest_size ref now sn g :
  (size (manifests (addManifest ref now sn g)) <= S (size (manifests g)))%nat.
Proof. unfold addManifest. cbn. rewrite map_size_insert. destruct (manifests g !! ref); cbn; lia. Qed.

(** * Steps *)

(** An operation, and the hashes it issues that are another manifest's as well: it overwrites the
    table's entry of such a hash.  The iterations meet each manifest once, and a reference is new. *)
Inductive astep : gset string -> HashedAssetServer -> HashedAssetServer -> Prop :=
  | step_issue order1 order2 ref now sn g :
      iterates order1 g -> iterates order2 (pruneExpiredLocked order1 now g) -> newRef g ref ->
      astep (clashes g (snAssets sn)) g (snd (IssueManifest order1 order2 ref now (Ok sn) g))
  | step_issue_error order1 order2 ref now e g : astep ∅ g (snd (IssueManifest order1 order2 ref now (Err e) g))
  | step_asset opens order now method path g :
      iterates order g -> astep ∅ g (snd (AssetHandler opens order now method path g))
  | step_generation now compute g : astep ∅ g (snd (ManifestGeneration now compute g)).
(** What any operations reach, and the hashes that clashed on the way. *)
Inductive areachable : gset string -> HashedAssetServer -> Prop :=
  | areach_new : areachable ∅ NewHashedAssetServer
  | areach_step K L g g' : areachable K g -> astep L g g' -> areachable (K ∪ L) g'.

Definition served_ok (K : gset string) (g : HashedAssetServer) : Prop :=
  synced K g /\ Z.of_nat (size (manifests g)) <= maxLiveManifests /\ manifests g !! ""%string = None.

Lemma within_ok K g g' : within g' g -> synced K g' -> served_ok K g -> served_ok K g'.
Proof.
  intros Hw Hs (_ & Hsz & He). split_and!; [done| |].
  - pose proof (size_within _ _ Hw). lia.
  - destruct (manifests g' !! ""%string) as [s|] eqn:Hx; [|done]. apply Hw in Hx. by rewrite He in Hx.
Qed.

Lemma lookupAsset_state order now hash g :
  snd (lookupAsset order now hash g) = g \/ snd (lookupAsset order now hash g) = pruneExpiredLocked order now g.
Proof. unfold lookupAsset. destruct (assetsByHash g !! hash); auto. Qed.
Lemma AssetHandler_state opens order now method path g :
  snd (AssetHandler opens order now method path g) = g \/ snd (AssetHandler opens order now method path g) = pruneExpiredLocked order now g.
Proof.
  unfold AssetHandler. destruct (_ && _); [by left|]. cbv zeta. destruct (_ || Contains _ _); [by left|].
  destruct (lookupAsset_state order now (TrimSpace (TrimPrefix path "/pak/")) g) as [He|He];
    destruct (lookupAsset _ _ _ _) as [a g']; cbn in He; subst g'; destruct a as [a|]; try destruct (opens _); auto.
Qed.

Lemma astep_ok K L g g' : served_ok K g -> astep L g g' -> served_ok (K ∪ L) g'.
Proof.
  intros Hok Hst. destruct Hst as [order1 order2 ref now sn g Ho1 Ho2 Hf|order1 order2 ref now e g|opens order now method path g Ho|now compute g].
  - unfold IssueManifest. destruct (Z.of_nat (size (snGame sn)) =? 0).
    { destruct Hok as (Hs & Hsz & He). split_and!; [|done|done]. eapply synced_mono; [|exact Hs]. set_solver. }
    cbn [snd]. rewrite registerManifest_eq.
    pose proof (makeRoom_within order1 order2 now g) as Hw. destruct Hok as (Hs & Hsz & He).
    pose proof (makeRoom_synced K order1 order2 now g Hs) as Hs'. pose proof (newRef_within _ _ _ Hw Hf) as Hf'.
    split_and!.
    + eapply synced_mono; [|by apply (addManifest_synced K)]. pose proof (clashes_within _ _ (snAssets sn) Hw). set_solver.
    + pose proof (makeRoom_size order1 order2 now g Ho2 Hsz). pose proof (addManifest_size ref now (snAssets sn) (makeRoom order1 order2 now g)).
      unfold maxLiveManifests in *. lia.
    + unfold addManifest. cbn. destruct Hf as (Hne & _). rewrite lookup_insert_ne by done.
      by apply (within_ok K g).
  - by rewrite union_empty_r_L.
  - rewrite union_empty_r_L. destruct (AssetHandler_state opens order now method path g) as [-> | ->]; [done|].
    apply (within_ok K g); [apply pruneExpiredLocked_within|apply pruneExpiredLocked_synced, Hok|done].
  - rewrite union_empty_r_L. unfold ManifestGeneration. destruct (_ && _); [done|]. destruct Hok as ([H1 H2 H3] & Hsz & He).
    split_and!; [by split|exact Hsz|exact He].
Qed.

Lemma areachable_ok K g : areachable K g -> served_ok K g.
Proof.
  induction 1 as [|K L g g' _ IH Hst]; [|by eapply astep_ok]. split_and!; [|done|done].
  split; [by intros h a Hx; apply (lookup_empty_Some h a) in Hx|by intros h a ref _ (s & Hs & _)|by intros r1 r2 h a1 a2 _ (s & Hs & _)].
Qed.

(** C14.  The asset table is the live manifests, but for hashes that clash.  After any operations
    there are at most 256 manifests, and a hash is served only with the asset that some live
    manifest has under it: nothing of a removed manifest is.  A hash that was not another live
    manifest's when it was issued, nor is issued again while served, belongs to one live manifest
    and is served for as long as that is live; of a hash that two manifests share (hashes are 64
    bits, and nothing checks them across manifests), the table's one entry goes with whichever is
    removed first. *)
Theorem areachable_synced K g :
  areachable K g ->
  Z.of_nat (size (manifests g)) <= 256
  /\ (forall h a, assetsByHash g !! h = Some a -> exists ref s, manifests g !! ref = Some s /\ assets s !! h = Some a)
  /\ (forall h, h ∉ K ->
        (forall ref s a, manifests g !! ref = Some s -> assets s !! h = Some a -> assetsByHash g !! h = Some a)
        /\ (forall r1 r2 s1 s2, manifests g !! r1 = Some s1 -> manifests g !! r2 = Some s2 ->
              is_Some (assets s1 !! h) -> is_Some (assets s2 !! h) -> r1 = r2)).
Proof.
  intros Hr. destruct (areachable_ok K g Hr) as ([Hs Ht Ho] & Hsz & _).
  split_and!; [done|exact Hs|]. intros h HK. split.
  - intros ref s a Hm Ha. apply (Ht h a ref HK). by exists s.
  - intros r1 r2 s1 s2 H1 H2 [a1 Ha1] [a2 Ha2]. apply (Ho r1 r2 h a1 a2 HK); [by exists s1|by exists s2].
Qed.

(** A page gets its manifest, and room is made fairly: after issuing, the new manifest is
    live, what is left of the others is not expired; and of the unexpired ones at most one is
    gone, only when there were 256 of them, and it is one that no other is older than. *)
Theorem registerManifest_fair order1 order2 ref now sn g :
  iterates order1 g -> iterates order2 (pruneExpiredLocked order1 now g) -> manifests g !! ""%string = None ->
  let g' := registerManifest order1 order2 ref now sn g in
  manifests g' !! ref = Some (mkIssued now sn)
  /\ (forall r s, r <> ref -> manifests g' !! r = Some s -> manifests g !! r = Some s /\ now - createdAt s <= manifestTTL g)
  /\ (forall r s, manifests g !! r = Some s -> now - createdAt s <= manifestTTL g -> r <> ref -> manifests g' !! r = None ->
        256 <= Z.of_nat (size (manifests (pruneExpiredLocked order1 now g)))
        /\ forall r' s', r' <> r -> r' <> ref -> manifests g !! r' = Some s' -> now - createdAt s' <= manifestTTL g ->
             manifests g' !! r' = Some s' /\ createdAt s <= createdAt s').
Proof.
  intros Ho1 Ho2 He g'. unfold g'. rewrite registerManifest_eq. unfold addManifest. cbn.
  assert (forall r, manifests (pruneExpiredLocked order1 now g) !! r
      = match manifests g !! r with Some s => if decide (expired now g s) then None else Some s | None => None end) as Hp.
  { intros r. rewrite pruneExpiredLocked_manifests. destruct (manifests g !! r) as [s|] eqn:Hr; [|done].
    apply decide_ext. rewrite (iterates_elem _ _ _ Ho1), Hr. split; [tauto|]. intros ?. split; [by eexists|done]. }
  assert (forall r s, manifests (pruneExpiredLocked order1 now g) !! r = Some s <-> manifests g !! r = Some s /\ now - createdAt s <= manifestTTL g) as Hp'.
  { intros r s. rewrite Hp. destruct (manifests g !! r) as [s'|]; [|naive_solver].
    destruct (decide (expired now g s')) as [Hx|Hx]; unfold expired in Hx.
    - split; [done|]. intros [[= ->] ?]. lia.
    - split; [intros [= ->]; split; [done|lia]|]. by intros [? _]. }
  set (g1 := pruneExpiredLocked order1 now g) in *.
  split_and!.
  - apply lookup_insert_eq.
  - intros r s Hne. rewrite lookup_insert_ne by done. intros Hr. apply Hp'.
    unfold makeRoom in Hr. cbv zeta in Hr. fold g1 in Hr. destruct (_ <=? _); [|done].
    unfold evictOldestLocked in Hr. rewrite removeManifestLocked_manifests in Hr. by apply lookup_delete_Some in Hr as [_ ?].
  - intros r s Hr Hx Hne. rewrite lookup_insert_ne by done. unfold makeRoom. cbv zeta. fold g1.
    assert (manifests g1 !! r = Some s) as Hr1 by (by apply Hp').
    destruct (Z.leb_spec maxLiveManifests (Z.of_nat (size (manifests g1)))) as [Hsz|]; [|by rewrite Hr1].
    unfold evictOldestLocked. rewrite removeManifestLocked_manifests. fold (oldest g1 order2).
    intros [Hd|Hd]%lookup_delete_None; [|by rewrite Hr1 in Hd]. split; [done|].
    intros r' s' Hne1 Hne2 Hr' Hx'. rewrite lookup_insert_ne, lookup_delete_ne by congruence.
    assert (manifests g1 !! r' = Some s') as Hr1' by (by apply Hp'). split; [done|].
    destruct (oldest_spec g1 order2 Ho2) as [_ Hmin].
    { intros ->. assert (r ∈ []) as Hin by (apply (iterates_elem _ _ _ Ho2); by exists s). by apply not_elem_of_nil in Hin. }
    destruct (Hmin ltac:(by rewrite Hp, He) r' s' Hr1') as (b & Hb & Hle). rewrite Hd, Hr1 in Hb. injection Hb as <-. done.
Qed.

(** What is served: an asset is answered exactly to a GET or HEAD of /pak/<hash> for a hash
    without a slash that a live manifest has, when its file opens; everything else is refused,
    and asking changes nothing of what is live and not expired. *)
Theorem AssetHandler_serves K opens order now method path g a :
  areachable K g -> TrimSpace (TrimPrefix path "/pak/") ∉ K ->
  fst (AssetHandler opens order now method path g) = assetServed a
  <-> (method = "GET" \/ method = "HEAD")%string
      /\ (let hash := TrimSpace (TrimPrefix path "/pak/") in
          hash <> ""%string /\ Contains hash "/" = false
          /\ exists ref s, manifests g !! ref = Some s /\ assets s !! hash = Some a)
      /\ opens (haOpen a) = true.
Proof.
  intros Hr HK. destruct (areachable_ok K g Hr) as ([Hs Htab _] & _ & _).
  assert (forall a, assetsByHash g !! TrimSpace (TrimPrefix path "/pak/") = Some a
    <-> exists ref s, manifests g !! ref = Some s /\ assets s !! TrimSpace (TrimPrefix path "/pak/") = Some a) as Ht.
  { intros b. split; [apply Hs|]. intros (ref & s & Hm & Ha). apply (Htab _ b ref HK). by exists s. }
  clear Hs Htab HK. revert Ht. unfold AssetHandler. cbv zeta. set (hash := TrimSpace (TrimPrefix path "/pak/")).
  intros Ht. destruct (negb _ && negb _) eqn:Hm.
  { split; [done|]. intros ([-> | ->] & _); discriminate Hm. }
  assert (method = "GET" \/ method = "HEAD")%string as Hm'.
  { destruct (String.eqb_spec method "GET"); [by left|]. destruct (String.eqb_spec method "HEAD"); [by right|done]. }
  destruct (String.eqb_spec hash "") as [He|He]; [split; [done|by intros (_ & (? & _) & _)]|].
  destruct (Contains hash "/") eqn:Hc; cbn [orb]; [split; [done|by intros (_ & (_ & ? & _) & _)]|].
  unfold lookupAsset. destruct (assetsByHash g !! hash) as [b|] eqn:Hb.
  - destruct (opens (haOpen b)) eqn:Hop; cbn [fst]; split.
    + intros [= <-]. split; [done|]. split; [|done]. split; [done|]. split; [done|]. by apply Ht.
    + intros (_ & (_ & _ & Hl) & _). by injection (proj2 (Ht a) Hl) as ->.
    + done.
    + intros (_ & (_ & _ & Hl) & Ho). injection (proj2 (Ht a) Hl) as ->. by rewrite Hop in Ho.
  - assert (assetsByHash (pruneExpiredLocked order now g) !! hash = None) as ->.
    { destruct (assetsByHash (pruneExpiredLocked order now g) !! hash) as [b|] eqn:Hb'; [|done].
      apply pruneExpiredLocked_within in Hb'. by rewrite Hb in Hb'. }
    split; [done|]. intros (_ & (_ & _ & Hl) & _). by apply Ht in Hl.
Qed.

(** * Facts: building a snapshot *)

Section Snapshot.
Context `{GoUnicode}.
Variable statFile : string -> result string (Z * bool).

Definition listed (e : assetManifestEntry) : bool := negb (normalizeVFSKey (Path e) =? "")%string.
Definition addressOf (ref namespace : string) (e : assetManifestEntry) : string :=
  hashAssetKey ref (namespace ++ ":" ++ normalizeVFSKey (Path e)).

(** What is listed can be fetched: when the entries of a manifest get their addresses, each
    entry with a key is listed, in order, and its address holds its asset; no address that was
    there before is lost or changed, and there is no other. *)
Theorem appendManifestAssets_spec ref namespace manifest : forall assets,
  match appendManifestAssets statFile ref namespace manifest assets with
  | Ok (out, assets') =>
      out = map Path (List.filter listed manifest)
      /\ (forall h, assets' !! h = match assets !! h with
                                   | Some a => Some a
                                   | None => match List.find (fun e => listed e && (addressOf ref namespace e =? h)%string) manifest with
                                             | Some e => match hashedAssetFromEntry statFile e with Ok a => Some a | Err _ => None end
                                             | None => None
                                             end
                                   end)
      /\ Forall (fun e => is_Some (assets' !! addressOf ref namespace e) /\ assets !! addressOf ref namespace e = None)
           (List.filter listed manifest)
      /\ NoDup (map (addressOf ref namespace) (List.filter listed manifest))
  | Err _ => True
  end.
Proof.
  induction manifest as [|e manifest IH]; intros assets; cbn [appendManifestAssets].
  { split_and!; [done| |constructor|constructor]. intros h. cbn. by destruct (assets !! h). }
  destruct (String.eqb_spec (normalizeVFSKey (Path e)) "") as [Hk|Hk].
  { assert (listed e = false) as Hl by (unfold listed; by rewrite Hk).
    specialize (IH assets). destruct (appendManifestAssets _ _ _ _ _) as [[out as']|]; [|done].
    cbn [List.filter List.find]. rewrite Hl. cbn [andb]. done. }
  assert (listed e = true) as Hl by (unfold listed; by destruct (String.eqb_spec (normalizeVFSKey (Path e)) "")).
  destruct (hashedAssetFromEntry statFile e) as [a|] eqn:Ha; [|done].
  fold (addressOf ref namespace e). destruct (assets !! addressOf ref namespace e) as [b|] eqn:Hb; [done|].
  specialize (IH (<[addressOf ref namespace e := a]> assets)).
  destruct (appendManifestAssets _ _ _ _ _) as [[out as']|]; [|done].
  destruct IH as (-> & Hlk & Hall & Hnd). cbn [List.filter List.find map]. rewrite Hl. cbn [map andb].
  split_and!; [done| | |].
  - intros h. rewrite Hlk. destruct (String.eqb_spec (addressOf ref namespace e) h) as [<-|Hne].
    + by rewrite lookup_insert_eq, Hb, Ha.
    + by rewrite lookup_insert_ne by done.
  - constructor.
    + split; [|done]. rewrite Hlk, lookup_insert_eq. by exists a.
    + eapply Forall_impl; [exact Hall|]. intros e' [? Hn]. split; [done|].
      by apply lookup_insert_None in Hn as [? _].
  - constructor; [|done]. intros Hin. apply list_elem_of_fmap in Hin as (e' & He & Hin).
    rewrite Forall_forall in Hall. destruct (Hall _ Hin) as [_ Hn]. rewrite <- He, lookup_insert_eq in Hn. done.
Qed.
End Snapshot.

(** * What the code does not do *)

(** The comment of [AssetHandler] promises a 404 for an expired hash; one that nothing pruned
    meanwhile is served, here a day after. *)
Example expired_hash_served :
  let a := mkHashedAsset "a.cfg" 0 "" (wholeFile "/game/id1/client/a.cfg") in
  let g := registerManifest [] [] "ref" 0 {["00ff" := a]}%string NewHashedAssetServer in
  expired (24 * 3600 * 1000000000) g (mkIssued 0 {["00ff" := a]}%string)
  /\ fst (AssetHandler (fun _ => true) ["ref"]%string (24 * 3600 * 1000000000) "GET" "/pak/00ff" g) = assetServed a.
Proof. vm_compute. split; reflexivity. Qed.

(** Two entries of one pak whose names differ can have keys that differ only until they are
    cleaned once more, for their addresses: then there is no manifest for any mod. *)
Example pak_name_blocks_manifest :
  let _ := plain_unicode in
  let pak := buildPak [("x", blist "1"); ("x / /.", blist "2")]%string in
  let tree layer := if (layer =? "client")%string then mkLayerTree true (Ok [("pak0.pak", false)]%string) [walkFile "pak0.pak"%string]
                    else mkLayerTree false (Ok []) [] in
  match buildVFSManifestWithWarnings (fun _ => Ok (1, 1)) (fun _ => Ok pak) "/game" "id1" tree ∅ with
  | Ok (manifest, _) =>
      map Path manifest = ["x"; "x "]%string
      /\ buildSnapshot (fun _ => Ok (0, false)) "ref" (Ok [("id1", Ok manifest)]%string) (Ok []) = Err ("hash collision for " ++ Quote "x ")%string
  | Err _ => False
  end.
Proof. vm_compute. split; reflexivity. Qed.

(** The fingerprint is of the files in one sequence, without the mod and the layer they are in, *)
Definition genFiles (gameDir cdDir : string) (mods : list string) (filesAt : string -> list fileInfo) : list fileInfo :=
  flat_map (fun mod_ => flat_map (fun layer => filesAt (filepath_Join [gameDir; mod_; layer])) clientLayers) (merge_sort strLe mods)
  ++ (if (cdDir =? "")%string then [] else filesAt cdDir).

(** The fingerprint of the client's files depends on their sequence alone: mods by name,
    the common layer and then the client's, then the tracks; the same paths, sizes and times in
    the same order give the same fingerprint. *)
Theorem computeManifestGeneration_files gameDir cdDir mods filesAt :
  computeManifestGeneration gameDir cdDir (Ok mods) filesAt
  = btext (hexTrim (fingerprintTree fnvOffset (genFiles gameDir cdDir mods filesAt))).
Proof.
  unfold computeManifestGeneration, genFiles. cbv zeta. do 2 f_equal. unfold fingerprintTree. rewrite foldl_app.
  assert (forall ms h, foldl (fun h mod_ => foldl (fun h layer => foldl fingerprintFile h (filesAt (filepath_Join [gameDir; mod_; layer]))) h clientLayers) h ms
    = foldl fingerprintFile h (flat_map (fun mod_ => flat_map (fun layer => filesAt (filepath_Join [gameDir; mod_; layer])) clientLayers) ms)) as ->.
  { induction ms as [|m ms IH]; intros h; [done|]. cbn [foldl flat_map]. rewrite IH, foldl_app. f_equal.
    unfold clientLayers. cbn [foldl flat_map]. by rewrite app_nil_r, foldl_app. }
  by destruct (String.eqb_spec cdDir "").
Qed.

(** so moving a file to another mod can leave it as it was, although generation.go says that it
    changes whenever a visible file is added, removed or renamed. *)
Example moved_file_same_generation :
  let f := mkFileInfo "autoexec.cfg" 10 7 in
  let before path := if (path =? "/game/ctf/client")%string then [f] else [] in
  let after path := if (path =? "/game/id1/common")%string then [f] else [] in
  computeManifestGeneration "/game" "" (Ok ["ctf"; "id1"]%string) before
  = computeManifestGeneration "/game" "" (Ok ["ctf"; "id1"]%string) after.
Proof. vm_compute. reflexivity. Qed.

(** * Witnesses *)

Definition demo_asset : hashedAsset := mkHashedAsset "a.cfg" 0 "" (wholeFile "/game/id1/client/a.cfg").
Definition demo_snapshot : snapshot := mkSnapshot {["id1" := ["a.cfg"]]}%string [] {["00ff" := demo_asset]}%string.
Definition demo_server : HashedAssetServer := snd (IssueManifest [] [] "ref" 5 (Ok demo_snapshot) NewHashedAssetServer).
Lemma demo_server_reachable : areachable ∅ demo_server.
Proof.
  change (∅ : gset string) with ((∅ : gset string) ∪ clashes NewHashedAssetServer (snAssets demo_snapshot)). eapply areach_step; [apply areach_new|].
  apply (step_issue [] [] "ref" 5 demo_snapshot NewHashedAssetServer); [vm_compute; reflexivity..|by split].
Qed.

(** A second manifest that shares a hash with the first, and has one of its own. *)
Definition clash_snapshot : snapshot := mkSnapshot {["id1" := ["a.cfg"]]}%string [] {["00ff" := demo_asset; "0100" := demo_asset]}%string.
Definition clash_server : HashedAssetServer := snd (IssueManifest ["ref"]%string ["ref"]%string "next" 9 (Ok clash_snapshot) demo_server).
Lemma clash_server_reachable : areachable {["00ff"%string]} clash_server.
Proof.
  assert ({["00ff"%string]} = ∅ ∪ clashes demo_server (snAssets clash_snapshot)) as -> by (apply (bool_decide_unpack _); vm_compute; exact I).
  eapply areach_step; [apply demo_server_reachable|].
  apply (step_issue ["ref"]%string ["ref"]%string "next" 9 clash_snapshot demo_server); [vm_compute; reflexivity..|by split].
Qed.
Lemma areachable_synced_witness :
  Z.of_nat (size (manifests clash_server)) <= 256 /\ assetsByHash clash_server !! "0100"%string = Some demo_asset.
Proof.
  destruct (areachable_synced {["00ff"%string]} clash_server clash_server_reachable) as (Hsz & _ & Ht).
  split; [exact Hsz|]. destruct (Ht "0100"%string) as [Hx _]; [apply (bool_decide_unpack _); vm_compute; exact I|].
  apply (Hx "next"%string (mkIssued 9 (snAssets clash_snapshot)) demo_asset); vm_compute; reflexivity.
Defined.
(** The shared hash goes with the first manifest, although the second is live. *)
Example clash_unserved :
  manifests (removeManifestLocked "ref" clash_server) !! "next"%string = Some (mkIssued 9 (snAssets clash_snapshot))
  /\ assetsByHash (removeManifestLocked "ref" clash_server) !! "00ff"%string = None.
Proof. vm_compute. split; reflexivity. Qed.

Lemma registerManifest_fair_witness :
  manifests (registerManifest ["ref"]%string ["ref"]%string "next" 9 ∅ demo_server) !! "next"%string = Some (mkIssued 9 ∅)
  /\ manifests (registerManifest ["ref"]%string ["ref"]%string "next" 9 ∅ demo_server) !! "ref"%string = Some (mkIssued 5 {["00ff" := demo_asset]})%string.
Proof.
  assert (iterates ["ref"]%string demo_server) as H1 by (vm_compute; reflexivity).
  assert (iterates ["ref"]%string (pruneExpiredLocked ["ref"]%string 9 demo_server)) as H2 by (vm_compute; reflexivity).
  assert (manifests demo_server !! ""%string = None) as H3 by reflexivity.
  split; [|vm_compute; reflexivity].
  exact (proj1 (registerManifest_fair ["ref"]%string ["ref"]%string "next" 9 ∅ demo_server H1 H2 H3)).
Defined.

Lemma AssetHandler_serves_witness :
  fst (AssetHandler (fun _ => true) [] 6 "GET" "/pak/00ff" demo_server) = assetServed demo_asset.
Proof.
  apply (AssetHandler_serves ∅ (fun _ => true) [] 6 "GET" "/pak/00ff" demo_server demo_asset demo_server_reachable).
  { apply (bool_decide_unpack _). vm_compute. exact I. }
  split; [by left|]. split; [|reflexivity]. split; [discriminate|]. split; [reflexivity|].
  exists "ref"%string, (mkIssued 5 {["00ff" := demo_asset]}%string). split; reflexivity.
Defined.
