(* ===== verification/Overlay.v ===== *)
(** The runtime overlay: assets/serverfs.go.

    A directory of symbolic links is kept equal to the files of the common and server layers of
    each mod, one file-system event at a time.  A path is the list of its segments.  The source
    tree is the set of its regular files (it holds no links), the runtime tree a map from paths
    to directories and links; the answers of the operating system follow from the two. *)
From S2P Require Import Prelude GoStrings.

(** * The two trees *)

(** A source file: its mod, its layer and its path in the layer. *)
Record source := mkSource { soMod : string; soLayer : string; soRel : list string }.
#[export] Instance source_eq_dec : EqDecision source.
Proof. solve_decision. Defined.
#[export] Instance source_countable : Countable source.
Proof.
  refine (inj_countable' (fun s => (soMod s, soLayer s, soRel s)) (fun '(m, l, r) => mkSource m l r) _).
  by intros [].
Defined.
Abbreviation sourceTree := (gset source) (only parsing).

Inductive node := dir | link (target : source).
(** The runtime tree: the key is the mod and then the segments. *)
Abbreviation runtimeTree := (gmap (list string) node) (only parsing).

(** os.RemoveAll, os.MkdirAll (of the directories below [pre]), and os.Symlink; their errors are
    ignored by the code. *)
Definition removeAll (p : list string) (fs : runtimeTree) : runtimeTree :=
  filter (fun kv => ~ p `prefix_of` fst kv) fs.
Fixpoint mkdirAll (pre rest : list string) (fs : runtimeTree) : runtimeTree :=
  match rest with
  | [] => fs
  | s :: rest =>
      let p := pre ++ [s] in
      match fs !! p with
      | Some dir => mkdirAll p rest fs
      | Some (link _) => fs
      | None => mkdirAll p rest (<[p := dir]> fs)
      end
  end.
Definition symlink (target : source) (p : list string) (fs : runtimeTree) : runtimeTree :=
  match fs !! p, fs !! removelast p with
  | None, Some dir => <[p := link target]> fs
  | _, _ => fs
  end.

(** serverfs.go [overlayLayers] *)
Definition overlayLayers : list string := ["common"; "server"]%string.

(** serverfs.go [overlayWatch], and the watches and the runtime tree of [overlay] *)
Record overlayWatch := mkWatch { owMod : string; layerRoot : list string }.
Record overlay := mkOverlay { runtimeRoot : runtimeTree; watched : gmap (list string) overlayWatch }.
#[export] Instance eta_overlay : EtaRecord overlay := fun o => mkOverlay (runtimeRoot o) (watched o).

Section Overlay.
Context `{GoUnicode}.

(** Where a source file goes. *)
Definition dstOf (mod_ : string) (rel : list string) : list string := mod_ :: map ToLower rel.

(** The layer that a file comes from: the last that has it. *)
Definition winner (src : sourceTree) (mod_ : string) (rel : list string) : option source :=
  List.find (fun s => bool_decide (s ∈ src)) (map (fun l => mkSource mod_ l rel) (rev overlayLayers)).

(** serverfs.go [reconcile] *)
Definition reconcile (src : sourceTree) (mod_ : string) (rel : list string) (fs : runtimeTree) : runtimeTree :=
  if bool_decide (rel = []) then fs else
  let dst := dstOf mod_ rel in
  match winner src mod_ rel with
  | Some s => symlink s dst (removeAll dst (mkdirAll [] (removelast dst) fs))
  | None => removeAll dst fs
  end.

(** What a walk meets: directories and files, by their paths. *)
Inductive walked := walkedDir (full : list string) | walkedFile (full : list string) | walkedErr.

(** filepath.Rel, for a path under the base; another is one that starts with two dots. *)
Fixpoint relTo (base p : list string) : option (list string) :=
  match base, p with
  | [], _ => Some p
  | b :: base, s :: p => if (b =? s)%string then relTo base p else None
  | _ :: _, [] => None
  end.

(** serverfs.go [watch], [scan] *)
Definition watch (mod_ : string) (root d : list string) (o : overlay) : overlay :=
  o <| watched ::= <[d := mkWatch mod_ root]> |>.
Definition scanItem (src : sourceTree) (mod_ : string) (root : list string) (o : overlay) (i : walked) : overlay :=
  match i with
  | walkedErr => o
  | walkedDir full => watch mod_ root full o
  | walkedFile full =>
      match relTo root full with
      | Some rel => o <| runtimeRoot ::= reconcile src mod_ rel |>
      | None => o
      end
  end.
Definition scan (src : sourceTree) (mod_ : string) (root : list string) (walk : list walked) (o : overlay) : overlay :=
  foldl (scanItem src mod_ root) o walk.

(** serverfs.go [classify]: up from the path to the nearest watched directory. *)
Definition dotted (rel : list string) : bool := match rel with s :: _ => HasPrefix s ".." | [] => false end.
Fixpoint classifyFrom (fuel : nat) (d abs : list string) (o : overlay) : option (string * list string * list string) :=
  match watched o !! d with
  | Some w =>
      match relTo (layerRoot w) abs with
      | Some rel => if dotted rel then None else Some (owMod w, rel, layerRoot w)
      | None => None
      end
  | None => match fuel with O => None | S fuel => classifyFrom fuel (removelast d) abs o end
  end.
Definition classify (abs : list string) (o : overlay) : option (string * list string * list string) :=
  classifyFrom (length abs) abs abs o.

(** serverfs.go [seed]: the walks of the layers of the mods that are directories. *)
Definition sourceRoot (sourceDataDir : list string) (mod_ layer : string) : list string := sourceDataDir ++ [mod_; layer].
Definition seedMod (src : sourceTree) (sourceDataDir : list string) (walkAt : list string -> option (list walked))
    (o : overlay) (mod_ : string) : overlay :=
  let o := o <| runtimeRoot ::= mkdirAll [] [mod_] |> in
  foldl (fun o layer =>
    let root := sourceRoot sourceDataDir mod_ layer in
    match walkAt root with
    | Some walk => scan src mod_ root walk o
    | None => o
    end) o overlayLayers.
Definition seed (src : sourceTree) (sourceDataDir : list string) (walkAt : list string -> option (list walked))
    (mods : list string) : overlay :=
  foldl (seedMod src sourceDataDir walkAt) (mkOverlay ∅ ∅) mods.

(** serverfs.go [run]: what it does with an event; [subtree] is the walk of the path when it is a
    directory now. *)
Definition handleEvent (src : sourceTree) (name : list string) (create : bool) (subtree : option (list walked))
    (o : overlay) : overlay :=
  match classify name o with
  | None => o
  | Some (mod_, rel, root) =>
      if (mod_ =? "")%string then o else
      match create, subtree with
      | true, Some walk => scan src mod_ root walk o
      | _, _ => o <| runtimeRoot ::= reconcile src mod_ rel |>
      end
  end.

(** What the select of serverfs.go [run] receives: an event, with the sources as they are when it
    is handled; an error; that the watcher has been closed. *)
Inductive watcherMsg :=
  | wEvent (src : sourceTree) (name : list string) (create : bool) (subtree : option (list walked))
  | wError | wClosed.

(** serverfs.go [run]: the overlay, and whether the goroutine has returned. *)
Fixpoint run (msgs : list watcherMsg) (o : overlay) : overlay * bool :=
  match msgs with
  | [] => (o, false)
  | wClosed :: _ => (o, true)
  | wError :: msgs => run msgs o
  | wEvent src name create subtree :: msgs => run msgs (handleEvent src name create subtree o)
  end.

(** What serverfs.go [PrepareRuntimeBasedir] makes and takes back *)
Inductive basedirEffect := madeTemp (root : string) | openedWatcher | closedWatcher | removedAll (root : string).
(** What the system answers: the temporary directory, the watcher, each mod directory. *)
Record basedirEnv := mkBasedirEnv {
  bdTemp : string + string; bdWatcherErr : option string; bdMkdirErr : string -> option string }.

(** serverfs.go [seed], its error: that of the first mod directory that cannot be made. *)
Fixpoint seedErr (mkdirErr : string -> option string) (mods : list string) : option string :=
  match mods with
  | [] => None
  | m :: mods =>
      match mkdirErr m with
      | Some err => Some ("create runtime mod dir " ++ Quote m ++ ": " ++ err)%string
      | None => seedErr mkdirErr mods
      end
  end.

(** serverfs.go [PrepareRuntimeBasedir] *)
Definition PrepareRuntimeBasedir (env : basedirEnv) (src : sourceTree) (sourceGameDir : list string)
    (walkAt : list string -> option (list walked)) (mods : list string)
    : list basedirEffect * (string + string * overlay) :=
  match bdTemp env with
  | inl err => ([], inl ("create runtime basedir: " ++ err)%string)
  | inr root =>
      match bdWatcherErr env with
      | Some err => ([madeTemp root; removedAll root], inl ("create overlay watcher: " ++ err)%string)
      | None =>
          match seedErr (bdMkdirErr env) mods with
          | Some err => ([madeTemp root; openedWatcher; closedWatcher; removedAll root], inl err)
          | None => ([madeTemp root; openedWatcher], inr (root, seed src sourceGameDir walkAt mods))
          end
      end
  end.

(** * Facts: the runtime tree *)

(** Below the root every path has directories above it. *)
Definition tree_wf (fs : runtimeTree) : Prop :=
  forall p q n, fs !! p = Some n -> q `prefix_of` p -> q <> p -> q <> [] -> fs !! q = Some dir.
(** The files of a mod do not meet: none has a path, in lower case, that another's begins with. *)
Definition consistent (src : sourceTree) : Prop :=
  forall s1 s2, s1 ∈ src -> s2 ∈ src -> soMod s1 = soMod s2 ->
    map ToLower (soRel s1) `prefix_of` map ToLower (soRel s2) -> soRel s1 = soRel s2.
Definition rooted (src : sourceTree) : Prop := forall s, s ∈ src -> soRel s <> [].
(** Which of a mod's files a path of it shows: the server layer's, and the common layer's where
    the server layer has none. *)
Definition shows (src : sourceTree) (m : string) (rel : list string) (t : source) : Prop :=
  (t = mkSource m "server" rel /\ t ∈ src)
  \/ (t = mkSource m "common" rel /\ t ∈ src /\ mkSource m "server" rel ∉ src).
(** The links are the files, at their paths in lower case. *)
Definition reflects (src : sourceTree) (fs : runtimeTree) : Prop :=
  tree_wf fs
  /\ forall m p t, fs !! (m :: p) = Some (link t) <-> exists rel, rel <> [] /\ p = map ToLower rel /\ shows src m rel t.
(** The same by the code's own search. *)
Definition linked (src : sourceTree) (fs : runtimeTree) : Prop :=
  tree_wf fs
  /\ forall m p t, fs !! (m :: p) = Some (link t) <-> exists rel, rel <> [] /\ p = map ToLower rel /\ winner src m rel = Some t.

Lemma winner_shows src m rel t : winner src m rel = Some t <-> shows src m rel t.
Proof.
  unfold winner, shows, overlayLayers. cbn [rev app map List.find].
  destruct (bool_decide_reflect (mkSource m "server" rel ∈ src)) as [H1|H1].
  { split; [intros [= <-]; by left|]. by intros [[-> _]|(_ & _ & ?)]. }
  destruct (bool_decide_reflect (mkSource m "common" rel ∈ src)) as [H2|H2].
  - split; [intros [= <-]; by right|]. by intros [[-> ?]|(-> & _)].
  - split; [done|]. by intros [[-> ?]|(-> & ? & _)].
Qed.
Lemma reflects_linked src fs : reflects src fs <-> linked src fs.
Proof. unfold reflects, linked. by setoid_rewrite winner_shows. Qed.

Lemma winner_Some src m rel t :
  winner src m rel = Some t -> t ∈ src /\ soMod t = m /\ soRel t = rel /\ soLayer t ∈ overlayLayers.
Proof.
  unfold winner. intros Hf. apply find_some in Hf as [Hin Hs%bool_decide_eq_true]. split; [done|].
  apply in_map_iff in Hin as (l & <- & Hl). cbn. split_and!; [done|done|].
  rewrite list_elem_of_In. by apply in_rev.
Qed.
Lemma winner_None src m rel l : winner src m rel = None -> l ∈ overlayLayers -> mkSource m l rel ∉ src.
Proof.
  unfold winner. intros Hf Hl Hin. apply (find_none _ _) with (x := mkSource m l rel) in Hf.
  - by apply bool_decide_eq_false in Hf.
  - apply in_map_iff. exists l. split; [done|]. apply -> in_rev. by rewrite <- list_elem_of_In.
Qed.
(** The winner depends on the files of that path alone. *)
Lemma winner_agree src src' m rel :
  (forall l, l ∈ overlayLayers -> mkSource m l rel ∈ src <-> mkSource m l rel ∈ src') -> winner src m rel = winner src' m rel.
Proof.
  intros Ha. assert (forall l, l ∈ overlayLayers ->
    bool_decide (mkSource m l rel ∈ src) = bool_decide (mkSource m l rel ∈ src')) as Hb.
  { intros l Hl. apply bool_decide_ext. by apply Ha. }
  unfold winner, overlayLayers. cbn [rev app map List.find].
  by rewrite (Hb "server"%string), (Hb "common"%string) by (unfold overlayLayers; set_solver).
Qed.

Lemma removeAll_lookup p fs q : removeAll p fs !! q = if decide (p `prefix_of` q) then None else fs !! q.
Proof.
  unfold removeAll. destruct (decide (p `prefix_of` q)) as [Hp|Hp].
  - apply map_lookup_filter_None. right. intros n _. cbn. tauto.
  - destruct (fs !! q) as [n|] eqn:Hq.
    + by apply map_lookup_filter_Some.
    + apply map_lookup_filter_None. by left.
Qed.
Lemma removeAll_wf p fs : tree_wf fs -> tree_wf (removeAll p fs).
Proof.
  intros Hw a q n. rewrite !removeAll_lookup. destruct (decide (p `prefix_of` a)) as [|Hp]; [done|].
  intros Ha Hq Hne Hq0. destruct (decide (p `prefix_of` q)) as [Hpq|]; [|by eapply Hw].
  exfalso. apply Hp. by etrans.
Qed.

Lemma mkdirAll_link rest : forall pre fs p t, mkdirAll pre rest fs !! p = Some (link t) <-> fs !! p = Some (link t).
Proof.
  induction rest as [|s rest IH]; intros pre fs p t; [done|]. cbn [mkdirAll].
  destruct (fs !! (pre ++ [s])) as [[|t']|] eqn:Hs; [apply IH|done|]. rewrite IH.
  destruct (decide (p = pre ++ [s])) as [->|Hne]; [by rewrite lookup_insert_eq, Hs|by rewrite lookup_insert_ne].
Qed.

Lemma prefix_snoc_inv {A} (q pre : list A) s : q `prefix_of` pre ++ [s] -> q <> pre ++ [s] -> q `prefix_of` pre.
Proof.
  intros [k Hk] Hne. destruct k as [|x k _] using rev_ind; [rewrite app_nil_r in Hk; congruence|].
  rewrite app_assoc in Hk. apply app_inj_tail in Hk as [-> _]. by apply prefix_app_r.
Qed.

Lemma insert_wf p n fs : tree_wf fs -> fs !! p = None -> p <> [] ->
  (forall q, q `prefix_of` p -> q <> p -> q <> [] -> fs !! q = Some dir) -> tree_wf (<[p := n]> fs).
Proof.
  intros Hw Hp Hp0 Hdirs a q b Ha Hq Hne Hq0.
  assert (q <> p) as Hqp.
  { intros ->. destruct (decide (a = p)) as [->|Hap]; [done|]. rewrite lookup_insert_ne in Ha by done.
    pose proof (Hw a p b Ha Hq Hne Hp0) as Hx. by rewrite Hp in Hx. }
  rewrite lookup_insert_ne by done. destruct (decide (a = p)) as [->|Hap]; [by apply Hdirs|].
  rewrite lookup_insert_ne in Ha by done. by apply (Hw a q b).
Qed.

Lemma mkdirAll_dirs rest : forall pre fs,
  tree_wf fs -> (pre = [] \/ fs !! pre = Some dir) ->
  (forall q t, q `prefix_of` rest -> q <> [] -> fs !! (pre ++ q) <> Some (link t)) ->
  tree_wf (mkdirAll pre rest fs)
  /\ (forall q, q `prefix_of` rest -> q <> [] -> mkdirAll pre rest fs !! (pre ++ q) = Some dir)
  /\ (pre <> [] -> mkdirAll pre rest fs !! pre = Some dir).
Proof.
  induction rest as [|s rest IH]; intros pre fs Hw Hpre Hno; cbn [mkdirAll].
  { split_and!; [done| |by destruct Hpre]. intros q Hq Hq0. by apply prefix_nil_inv in Hq. }
  assert (forall fs', tree_wf fs' -> fs' !! (pre ++ [s]) = Some dir -> (pre <> [] -> fs' !! pre = Some dir) ->
    (forall p t, fs' !! p = Some (link t) <-> fs !! p = Some (link t)) ->
    tree_wf (mkdirAll (pre ++ [s]) rest fs')
    /\ (forall q, q `prefix_of` s :: rest -> q <> [] -> mkdirAll (pre ++ [s]) rest fs' !! (pre ++ q) = Some dir)
    /\ (pre <> [] -> mkdirAll (pre ++ [s]) rest fs' !! pre = Some dir)) as Hstep.
  { intros fs' Hw' Hs' Hp' Hl'. destruct (IH (pre ++ [s]) fs' Hw' (or_intror Hs')) as (H1 & H2 & H3).
    - intros q t Hq Hq0. rewrite Hl', <- app_assoc. apply Hno; [by apply prefix_cons|done].
    - split_and!; [done| |].
      + intros q Hq Hq0. destruct q as [|s' q]; [done|]. apply prefix_cons_inv_1 in Hq as Hs; subst s'.
        apply prefix_cons_inv_2 in Hq. change (s :: q) with ([s] ++ q). rewrite app_assoc.
        destruct q as [|c q]; [rewrite app_nil_r; apply H3; by destruct pre|]. by apply H2.
      + intros Hne. apply (H1 (pre ++ [s]) pre dir); [apply H3; by destruct pre| |intros Hx; apply (f_equal (@length _)) in Hx; rewrite length_app in Hx; cbn in Hx; lia|done].
        by apply prefix_app_r. }
  destruct (fs !! (pre ++ [s])) as [[|t]|] eqn:Hs.
  - apply Hstep; try done. by destruct Hpre.
  - exfalso. apply (Hno [s] t); [by apply prefix_cons, prefix_nil|done|done].
  - apply Hstep.
    + apply insert_wf; [done|done|by destruct pre|]. intros q Hq Hne Hq0. apply prefix_snoc_inv in Hq; [|done].
      destruct Hpre as [->|Hpre]; [by apply prefix_nil_inv in Hq|].
      destruct (decide (q = pre)) as [->|]; [done|]. by apply (Hw pre q dir).
    + apply lookup_insert_eq.
    + intros Hne. destruct Hpre as [?|Hpre]; [done|]. rewrite lookup_insert_ne; [done|]. intros Hx.
      apply (f_equal (@length _)) in Hx. rewrite length_app in Hx. cbn in Hx. lia.
    + intros p t. destruct (decide (p = pre ++ [s])) as [->|Hne]; [by rewrite lookup_insert_eq, Hs|by rewrite lookup_insert_ne].
Qed.

Lemma dstOf_split m rel : rel <> [] -> exists d l, dstOf m rel = d ++ [l] /\ d <> [] /\ removelast (dstOf m rel) = d.
Proof.
  intros Hne. destruct rel as [|x rel _] using rev_ind; [done|]. unfold dstOf. rewrite map_app.
  exists (m :: map ToLower rel), (ToLower x). split_and!; [done|done|].
  change (m :: map ToLower rel ++ map ToLower [x]) with ((m :: map ToLower rel) ++ [ToLower x]). apply removelast_last.
Qed.

(** Nothing of the source is below a path, or at it under another name. *)
Definition clear (src : sourceTree) (m : string) (rel : list string) : Prop :=
  forall s, s ∈ src -> soMod s = m -> map ToLower rel `prefix_of` map ToLower (soRel s) -> soRel s = rel.

(** The link that the sources ask for at a path *)
Definition wanted (src : sourceTree) (m : string) (p : list string) (t : source) : Prop :=
  exists rel, rel <> [] /\ p = map ToLower rel /\ winner src m rel = Some t.

(** Two trees that agree but for one path want the same links but at that path. *)
Lemma wanted_agree src0 src1 m rel m' p t :
  (forall s, soMod s <> m \/ soRel s <> rel -> s ∈ src0 <-> s ∈ src1) -> m' :: p <> dstOf m rel ->
  wanted src0 m' p t <-> wanted src1 m' p t.
Proof.
  intros Hagree Hne. unfold wanted.
  assert (forall rel', p = map ToLower rel' -> winner src0 m' rel' = winner src1 m' rel') as Hwin.
  { intros rel' ->. apply winner_agree. intros l _. apply Hagree. cbn.
    destruct (decide (m' = m)) as [->|]; [right|by left]. by intros ->. }
  split; intros (rel' & Hr & Hp & Hwn); exists rel'; (split_and!; [done|done|]); [by rewrite <- Hwin|by rewrite Hwin].
Qed.

(** What is wanted at or below the path is the file of the path. *)
Lemma wanted_below src m rel m' p t :
  clear src m rel -> wanted src m' p t -> dstOf m rel `prefix_of` m' :: p ->
  m' :: p = dstOf m rel /\ winner src m rel = Some t.
Proof.
  intros Hclear (rel' & _ & -> & Hwn) Hpre. apply prefix_cons_inv_1 in Hpre as Hm; subst m'.
  apply winner_Some in Hwn as Hs. destruct Hs as (Hin & Hm & Hr & _).
  apply prefix_cons_inv_2 in Hpre. rewrite <- Hr in Hpre. apply Hclear in Hpre; [|done|done].
  assert (rel' = rel) as -> by congruence. by split.
Qed.

(** The directories above a wanted link are free of the links of another tree that agrees but there. *)
Lemma wanted_above src0 src1 m rel s q t :
  consistent src1 -> winner src1 m rel = Some s ->
  (forall s, soMod s <> m \/ soRel s <> rel -> s ∈ src0 <-> s ∈ src1) ->
  q `prefix_of` map ToLower rel -> q <> map ToLower rel -> ~ wanted src0 m q t.
Proof.
  intros Hcons (Hsin & Hsm & Hsr & _)%winner_Some Hagree Hq Hne (rel' & _ & -> & Hwn).
  apply winner_Some in Hwn as (Hin & Hm & Hr & _). apply Hne. f_equal. rewrite <- Hr, <- Hsr.
  apply Hcons; [|done|congruence|by rewrite Hr, Hsr]. apply Hagree; [|done]. right. congruence.
Qed.

(** One event: the runtime tree follows the source at its path. *)
Lemma reconcile_linked src0 src1 m rel fs :
  consistent src1 -> rel <> [] -> clear src1 m rel ->
  (forall s, soMod s <> m \/ soRel s <> rel -> s ∈ src0 <-> s ∈ src1) ->
  linked src0 fs -> linked src1 (reconcile src1 m rel fs).
Proof.
  intros Hcons Hrel Hclear Hagree [Hw Hl].
  unfold reconcile. rewrite bool_decide_false by done. cbv zeta.
  destruct (winner src1 m rel) as [s|] eqn:Hs.
  - destruct (dstOf_split m rel Hrel) as (d & l & Hd & Hd0 & Hrl). rewrite Hrl.
    destruct (mkdirAll_dirs d [] fs Hw (or_introl eq_refl)) as (Hw1 & Hdirs & _).
    { intros q t Hq Hq0 Hlk. cbn in Hlk. destruct q as [|m' q]; [done|].
      assert (m' :: q `prefix_of` dstOf m rel) as Hqd by (rewrite Hd; by apply prefix_app_r).
      apply prefix_cons_inv_1 in Hqd as Hm; subst m'. apply prefix_cons_inv_2 in Hqd.
      apply Hl in Hlk. revert Hlk. apply (wanted_above src0 src1 m rel s); [done..|].
      intros ->. apply prefix_length in Hq. apply (f_equal length) in Hd. rewrite length_app in Hd. cbn in *. lia. }
    set (fs1 := mkdirAll [] d fs) in *.
    assert (forall q, q `prefix_of` d -> q <> [] -> removeAll (dstOf m rel) fs1 !! q = Some dir) as Hdirs2.
    { intros q Hq Hq0. rewrite removeAll_lookup. case_decide as Hx; [|by apply (Hdirs q)].
      exfalso. assert (dstOf m rel `prefix_of` d) as Hy by (by etrans). rewrite Hd in Hy. by apply prefix_snoc_not in Hy. }
    assert (removeAll (dstOf m rel) fs1 !! dstOf m rel = None) as Hnone by (by rewrite removeAll_lookup, decide_True).
    unfold symlink. rewrite Hnone, Hrl, (Hdirs2 d) by done. split.
    + apply insert_wf; [by apply removeAll_wf|done|done|]. intros q Hq Hne Hq0. apply Hdirs2; [|done].
      rewrite Hd in Hq, Hne. by apply prefix_snoc_inv in Hq.
    + intros m' p t. change (exists _, _) with (wanted src1 m' p t). destruct (decide (m' :: p = dstOf m rel)) as [He|He].
      * rewrite He, lookup_insert_eq. split; [intros [= ->]; injection He as -> ->; by exists rel|].
        intros Hwt. destruct (wanted_below src1 m rel m' p t Hclear Hwt) as [_ ?]; [by rewrite He|congruence].
      * rewrite lookup_insert_ne, removeAll_lookup by done. case_decide as Hpre.
        -- split; [done|]. intros Hwt. by destruct (wanted_below src1 m rel m' p t Hclear Hwt Hpre).
        -- unfold fs1. rewrite mkdirAll_link, Hl. by apply (wanted_agree src0 src1 m rel).
  - split; [by apply removeAll_wf|]. intros m' p t. rewrite removeAll_lookup.
    change (exists _, _) with (wanted src1 m' p t). case_decide as Hpre.
    + split; [done|]. intros Hwt. destruct (wanted_below src1 m rel m' p t Hclear Hwt Hpre). congruence.
    + rewrite Hl. apply (wanted_agree src0 src1 m rel); [done|]. intros He. apply Hpre. by rewrite He.
Qed.

(** * Facts: batches of events *)

Definition reconcileAll (src : sourceTree) (evs : list (string * list string)) (fs : runtimeTree) : runtimeTree :=
  foldl (fun fs ev => reconcile src (fst ev) (snd ev) fs) fs evs.

(** The tree that has the new files at the paths done, and the old ones elsewhere. *)
Definition mixed (src0 src1 : sourceTree) (done_ : list (string * list string)) : sourceTree :=
  filter (fun s => ((soMod s, soRel s) ∈ done_ /\ s ∈ src1) \/ ((soMod s, soRel s) ∉ done_ /\ s ∈ src0)) (src0 ∪ src1).

Lemma mixed_elem src0 src1 done_ s :
  s ∈ mixed src0 src1 done_ <-> if decide ((soMod s, soRel s) ∈ done_) then s ∈ src1 else s ∈ src0.
Proof. unfold mixed. rewrite elem_of_filter, elem_of_union. destruct (decide _); tauto. Qed.

Lemma reconcile_agree src src' m rel fs :
  (forall l, l ∈ overlayLayers -> mkSource m l rel ∈ src <-> mkSource m l rel ∈ src') -> reconcile src m rel fs = reconcile src' m rel fs.
Proof. intros Ha. unfold reconcile. by rewrite (winner_agree _ _ _ _ Ha). Qed.

Lemma linked_ext src src' fs : (forall s, s ∈ src <-> s ∈ src') -> linked src fs -> linked src' fs.
Proof.
  intros Hs [Hw Hl]. split; [done|]. intros m p t. rewrite Hl. split; intros (rel & ? & ? & Hwn); exists rel; (split_and!; [done|done|]);
    rewrite <- Hwn; apply winner_agree; intros; by rewrite Hs.
Qed.

Lemma reconcileAll_linked src0 src1 : consistent (src0 ∪ src1) -> rooted (src0 ∪ src1) -> forall evs done_ fs,
  (forall m rel, (m, rel) ∈ evs -> exists l, mkSource m l rel ∈ src0 ∪ src1) ->
  linked (mixed src0 src1 done_) fs -> linked (mixed src0 src1 (done_ ++ evs)) (reconcileAll src1 evs fs).
Proof.
  intros Hc Hroot. induction evs as [|[m rel] evs IH]; intros done_ fs Hev Hfs; [by rewrite app_nil_r|].
  cbn [reconcileAll foldl fst snd]. replace (done_ ++ (m, rel) :: evs) with ((done_ ++ [(m, rel)]) ++ evs) by (by rewrite <- app_assoc).
  apply IH; [intros m' rel' Hin; apply Hev; by right|].
  destruct (Hev m rel ltac:(by left)) as [l Hl].
  assert (forall s, s ∈ mixed src0 src1 (done_ ++ [(m, rel)]) -> s ∈ src0 ∪ src1) as Hsub.
  { intros s. rewrite mixed_elem, elem_of_union. destruct (decide _); tauto. }
  rewrite (reconcile_agree src1 (mixed src0 src1 (done_ ++ [(m, rel)]))).
  2: { intros l' _. rewrite mixed_elem. cbn. rewrite decide_True; [done|]. apply elem_of_app. right. by left. }
  apply (reconcile_linked (mixed src0 src1 done_)); [| | | |done].
  - intros s1 s2 H1 H2. apply Hc; by apply Hsub.
  - apply (Hroot _ Hl).
  - intros s Hs Hm Hp. symmetry. apply (Hc (mkSource m l rel) s); [done|by apply Hsub|done|done].
  - intros s Hne. rewrite !mixed_elem.
    destruct (decide ((soMod s, soRel s) ∈ done_)) as [Hd|Hd], (decide ((soMod s, soRel s) ∈ done_ ++ [(m, rel)])) as [Hd'|Hd']; try done.
    + exfalso. apply Hd'. apply elem_of_app. by left.
    + exfalso. apply elem_of_app in Hd' as [?|Hd'%list_elem_of_singleton]; [done|]. injection Hd' as ? ?. tauto.
Qed.

(** C15.  The overlay converges, for sources whose files' paths do not meet: take the regular files
    of the layers before and after any changes, all below the root of their layer, and let no
    one of them, of one mod and in lower case, be another's directory or another's name in
    different case.  If the runtime tree reflected the files before, and events of files of those
    (none of a directory) have been handled over the files after, in any order, each changed
    file's once or more, it reflects the files after: at each file's path in lower case there
    is a link to the server layer's file, or to the common layer's where the server layer has
    none, and there is no link besides. *)
Theorem reconcileAll_converges src0 src1 evs fs :
  consistent (src0 ∪ src1) -> rooted (src0 ∪ src1) ->
  (forall s, (s ∈ src0 <-> s ∈ src1) \/ (soMod s, soRel s) ∈ evs) ->
  (forall m rel, (m, rel) ∈ evs -> exists l, mkSource m l rel ∈ src0 ∪ src1) ->
  reflects src0 fs -> reflects src1 (reconcileAll src1 evs fs).
Proof.
  rewrite !reflects_linked. intros Hc Hroot Hall Hev Hfs.
  apply (linked_ext (mixed src0 src1 evs)).
  - intros s. rewrite mixed_elem. destruct (Hall s) as [Hs|Hs]; destruct (decide _); try done; tauto.
  - apply (reconcileAll_linked src0 src1 Hc Hroot evs []); [done|].
    apply (linked_ext src0); [|done]. intros s. rewrite mixed_elem. rewrite decide_False; [done|apply not_elem_of_nil].
Qed.

(** * Facts: seeding *)

(** The runtime tree after a scan is that after the events of its files. *)
Definition filesOf (mod_ : string) (root : list string) (walk : list walked) : list (string * list string) :=
  omap (fun i => match i with
                 | walkedFile full => match relTo root full with Some rel => Some (mod_, rel) | None => None end
                 | _ => None
                 end) walk.
Lemma scan_runtime src mod_ root walk : forall o,
  runtimeRoot (scan src mod_ root walk o) = reconcileAll src (filesOf mod_ root walk) (runtimeRoot o).
Proof.
  induction walk as [|i walk IH]; intros o; [done|]. unfold scan in *. cbn [foldl]. rewrite IH.
  destruct i as [full|full|]; cbn [scanItem filesOf omap list_omap]; [done| |done].
  unfold filesOf. cbn. by destruct (relTo root full).
Qed.
Lemma reconcileAll_app src evs1 evs2 fs : reconcileAll src (evs1 ++ evs2) fs = reconcileAll src evs2 (reconcileAll src evs1 fs).
Proof. unfold reconcileAll. by rewrite foldl_app. Qed.

(** Making the directory of a mod changes no link. *)
Lemma mkdir_mod_linked src m fs : rooted src -> linked src fs -> linked src (mkdirAll [] [m] fs).
Proof.
  intros Hr [Hw Hl]. split.
  - apply mkdirAll_dirs; [done|by left|]. intros q t Hq Hq0 Hlk. cbn in Hlk.
    destruct q as [|m' p]; [done|]. apply prefix_cons_inv_2 in Hq. apply prefix_nil_inv in Hq as ->.
    apply Hl in Hlk as (rel & Hr0 & Hp & _). by destruct rel.
  - intros m' p t. by rewrite mkdirAll_link.
Qed.

Lemma relTo_app base p : relTo base (base ++ p) = Some p.
Proof. induction base as [|b base IH]; [done|]. cbn. by rewrite String.eqb_refl. Qed.
Lemma relTo_Some base : forall p rel, relTo base p = Some rel -> p = base ++ rel.
Proof.
  induction base as [|b base IH]; intros p rel; cbn; [by intros [= ->]|]. destruct p as [|s p]; [done|].
  destruct (String.eqb_spec b s) as [->|]; [|done]. intros Hr. by rewrite (IH _ _ Hr).
Qed.
Lemma filesOf_elem m root walk m' rel : (m', rel) ∈ filesOf m root walk <-> m' = m /\ walkedFile (root ++ rel) ∈ walk.
Proof.
  unfold filesOf. rewrite list_elem_of_omap. split.
  - intros (i & Hin & Hi). destruct i as [| full|]; [done| |done].
    destruct (relTo root full) as [rel'|] eqn:Hr; [|done]. injection Hi as <- <-. apply relTo_Some in Hr as ->. done.
  - intros [-> Hin]. exists (walkedFile (root ++ rel)). by rewrite relTo_app.
Qed.

(** The files that [seed] meets in a mod. *)
Definition seedEvents (sourceDataDir : list string) (walkAt : list string -> option (list walked)) (m : string) : list (string * list string) :=
  flat_map (fun l => match walkAt (sourceRoot sourceDataDir m l) with
                     | Some walk => filesOf m (sourceRoot sourceDataDir m l) walk
                     | None => []
                     end) overlayLayers.
Lemma seedMod_runtime src sourceDataDir walkAt o m :
  runtimeRoot (seedMod src sourceDataDir walkAt o m)
  = reconcileAll src (seedEvents sourceDataDir walkAt m) (mkdirAll [] [m] (runtimeRoot o)).
Proof.
  unfold seedMod, seedEvents, overlayLayers. cbn [foldl flat_map]. rewrite app_nil_r, reconcileAll_app.
  destruct (walkAt (sourceRoot _ _ "common")), (walkAt (sourceRoot _ _ "server")); rewrite ?scan_runtime; done.
Qed.
Lemma seedEvents_elem sourceDataDir walkAt m m' rel :
  (m', rel) ∈ seedEvents sourceDataDir walkAt m
  <-> m' = m /\ exists l walk, l ∈ overlayLayers /\ walkAt (sourceRoot sourceDataDir m l) = Some walk
                             /\ walkedFile (sourceRoot sourceDataDir m l ++ rel) ∈ walk.
Proof.
  unfold seedEvents. rewrite list_elem_of_In, in_flat_map. split.
  - intros (l & Hl%list_elem_of_In & Hin%list_elem_of_In). destruct (walkAt _) as [walk|] eqn:Hw; [|by apply not_elem_of_nil in Hin].
    apply filesOf_elem in Hin as [-> Hin]. split; [done|]. by exists l, walk.
  - intros (-> & l & walk & Hl & Hw & Hin). exists l. rewrite <- !list_elem_of_In, Hw. split; [done|]. by apply filesOf_elem.
Qed.

Lemma reconcileAll_agree src src' evs : forall fs,
  (forall m rel, (m, rel) ∈ evs -> forall l, l ∈ overlayLayers -> mkSource m l rel ∈ src <-> mkSource m l rel ∈ src') ->
  reconcileAll src evs fs = reconcileAll src' evs fs.
Proof.
  unfold reconcileAll. induction evs as [|[m rel] evs IH]; intros fs Ha; [done|]. cbn [foldl fst snd].
  rewrite (reconcile_agree src src') by (apply Ha; by left). apply IH. intros m' rel' Hin. apply Ha. by right.
Qed.

(** The overlay starts right: over sources whose files have paths that do not meet, and walks
    that find the files of each layer of the mods, [seed] makes one link for each file of the
    mods, to the server layer's file before the common one's, and no link besides. *)
Theorem seed_reflects src sourceDataDir walkAt mods :
  consistent src -> rooted src ->
  (forall m l rel, m ∈ mods -> l ∈ overlayLayers ->
     mkSource m l rel ∈ src <->
     exists walk, walkAt (sourceRoot sourceDataDir m l) = Some walk /\ walkedFile (sourceRoot sourceDataDir m l ++ rel) ∈ walk) ->
  reflects (filter (fun s => soMod s ∈ mods /\ soLayer s ∈ overlayLayers) src) (runtimeRoot (seed src sourceDataDir walkAt mods)).
Proof.
  rewrite reflects_linked. intros Hc Hroot Hwalk. set (src' := filter _ src).
  assert (forall s, s ∈ src' <-> s ∈ src /\ soMod s ∈ mods /\ soLayer s ∈ overlayLayers) as Hsrc'.
  { intros s. unfold src'. rewrite elem_of_filter. tauto. }
  assert (forall s, s ∈ ∅ ∪ src' -> s ∈ src) as Hsub by (intros s; rewrite union_empty_l_L, Hsrc'; tauto).
  assert (forall ms o done_, (forall m, m ∈ ms -> m ∈ mods) -> linked (mixed ∅ src' done_) (runtimeRoot o) ->
    linked (mixed ∅ src' (done_ ++ flat_map (seedEvents sourceDataDir walkAt) ms))
             (runtimeRoot (foldl (seedMod src sourceDataDir walkAt) o ms))) as Hgo.
  { induction ms as [|m ms IH]; intros o done_ Hms Ho; [by rewrite app_nil_r|]. cbn [foldl flat_map]. rewrite app_assoc.
    apply IH; [intros m' Hm'; apply Hms; by right|]. rewrite seedMod_runtime.
    assert (m ∈ mods) as Hm by (apply Hms; by left).
    rewrite (reconcileAll_agree src src').
    2: { intros m' rel [-> _]%seedEvents_elem l Hl. rewrite Hsrc'. cbn. tauto. }
    apply reconcileAll_linked.
    - intros s1 s2 H1%Hsub H2%Hsub. by apply Hc.
    - intros s Hs%Hsub. by apply Hroot.
    - intros m' rel (-> & l & walk & Hl & Hw & Hin)%seedEvents_elem. exists l. rewrite union_empty_l_L, Hsrc'. cbn.
      split; [|done]. apply Hwalk; [done|done|]. by exists walk.
    - apply mkdir_mod_linked; [|done]. intros s. rewrite mixed_elem. intros Hs. apply Hroot.
      destruct (decide _); [by apply Hsrc' in Hs as [? _]|by apply not_elem_of_empty in Hs]. }
  apply (linked_ext (mixed ∅ src' (flat_map (seedEvents sourceDataDir walkAt) mods))).
  - intros s. rewrite mixed_elem. destruct (decide _) as [Hd|Hd]; [done|]. split; [by intros ?%not_elem_of_empty|].
    intros Hs. exfalso. apply Hd. apply Hsrc' in Hs as (Hs & Hm & Hl). rewrite list_elem_of_In. apply in_flat_map.
    exists (soMod s). rewrite <- !list_elem_of_In. split; [done|]. apply seedEvents_elem. split; [done|].
    destruct s as [m l rel]. cbn in *. apply (Hwalk m l rel Hm Hl) in Hs as (walk & Hw & Hin). by exists l, walk.
  - apply (Hgo mods (mkOverlay ∅ ∅) []); [done|]. cbn [runtimeRoot]. split; [intros p q n; by rewrite lookup_empty|].
    intros m p t. rewrite lookup_empty. split; [done|]. intros (rel & _ & _ & Hwn). apply winner_Some in Hwn as [Hin _].
    apply mixed_elem in Hin. rewrite decide_False in Hin by apply not_elem_of_nil. by apply not_elem_of_empty in Hin.
Qed.

(** * Facts: events *)

(** An event of a file whose directory is watched reconciles its path. *)
Lemma classify_file o m root rel :
  watched o !! (root ++ rel) = None -> watched o !! removelast (root ++ rel) = Some (mkWatch m root) ->
  rel <> [] -> dotted rel = false -> classify (root ++ rel) o = Some (m, rel, root).
Proof.
  intros H1 H2 Hr Hd. unfold classify. destruct (length (root ++ rel)) as [|n] eqn:Hl.
  { apply length_zero_iff_nil in Hl. by apply app_eq_nil in Hl as [_ ->]. }
  cbn [classifyFrom]. rewrite H1. destruct n; cbn [classifyFrom]; rewrite H2; cbn [layerRoot owMod]; by rewrite relTo_app, Hd.
Qed.

Lemma handleEvent_linked src0 src1 o m root rel create :
  consistent (src0 ∪ src1) -> rooted (src0 ∪ src1) ->
  (forall s, (s ∈ src0 <-> s ∈ src1) \/ (soMod s = m /\ soRel s = rel)) ->
  (exists l, mkSource m l rel ∈ src0 ∪ src1) ->
  watched o !! (root ++ rel) = None -> watched o !! removelast (root ++ rel) = Some (mkWatch m root) ->
  m <> ""%string -> dotted rel = false ->
  linked src0 (runtimeRoot o) ->
  linked src1 (runtimeRoot (handleEvent src1 (root ++ rel) create None o)).
Proof.
  intros Hc Hroot Hall [l Hl] H1 H2 Hm Hd Ho. pose proof (Hroot _ Hl : rel <> []) as Hrel.
  unfold handleEvent. rewrite (classify_file o m root rel) by done. destruct (String.eqb_spec m ""); [done|].
  assert (linked src1 (reconcile src1 m rel (runtimeRoot o))) as Hr.
  { apply (reconcile_linked src0); [|done| | |done].
    - intros s1 s2 Hs1 Hs2. apply Hc; set_solver.
    - intros s Hs Hsm Hp. symmetry. apply (Hc (mkSource m l rel) s); [done|set_solver|done|done].
    - intros s Hne. destruct (Hall s) as [?|[? ?]]; [done|]. by destruct Hne. }
  by destruct create.
Qed.

(** An event keeps the overlay right: when a file of a watched directory has been made,
    removed, renamed away or changed, handling its event makes the runtime tree reflect the new
    sources. *)
Theorem handleEvent_file src0 src1 o m root rel create :
  consistent (src0 ∪ src1) -> rooted (src0 ∪ src1) ->
  (forall s, (s ∈ src0 <-> s ∈ src1) \/ (soMod s = m /\ soRel s = rel)) ->
  (exists l, mkSource m l rel ∈ src0 ∪ src1) ->
  watched o !! (root ++ rel) = None -> watched o !! removelast (root ++ rel) = Some (mkWatch m root) ->
  m <> ""%string -> dotted rel = false ->
  reflects src0 (runtimeRoot o) ->
  reflects src1 (runtimeRoot (handleEvent src1 (root ++ rel) create None o)).
Proof. rewrite !reflects_linked. apply handleEvent_linked. Qed.

(** A change of one file below a watched directory, as [run] meets it: before it the sources were
    [src0], when its event is handled they are [src1]. *)
Record fileChange (w : gmap (list string) overlayWatch) (src0 src1 : sourceTree) (name : list string) : Prop := {
  fc_consistent : consistent (src0 ∪ src1);
  fc_rooted : rooted (src0 ∪ src1);
  fc_where : exists m root rel l, name = root ++ rel /\ m <> ""%string /\ dotted rel = false /\
    w !! name = None /\ w !! removelast name = Some (mkWatch m root) /\
    mkSource m l rel ∈ src0 ∪ src1 /\
    forall s, (s ∈ src0 <-> s ∈ src1) \/ (soMod s = m /\ soRel s = rel) }.

(** The changes that messages tell, from the first sources to the last. *)
Inductive tells (w : gmap (list string) overlayWatch) : sourceTree -> list watcherMsg -> sourceTree -> Prop :=
  | tells_nil src : tells w src [] src
  | tells_error src msgs src' : tells w src msgs src' -> tells w src (wError :: msgs) src'
  | tells_event src0 src1 name create msgs src' :
      fileChange w src0 src1 name -> tells w src1 msgs src' ->
      tells w src0 (wEvent src1 name create None :: msgs) src'.

Lemma handleEvent_watched src name create o : watched (handleEvent src name create None o) = watched o.
Proof. unfold handleEvent. by repeat split_match. Qed.

(** The overlay follows the sources for as long as its watcher runs: through any sequence of
    changes of files of watched directories, each told by an event, and any errors between them. *)
Theorem run_follows src0 msgs src1 o :
  tells (watched o) src0 msgs src1 -> reflects src0 (runtimeRoot o) ->
  reflects src1 (runtimeRoot (fst (run msgs o))) /\ snd (run msgs o) = false.
Proof.
  rewrite !reflects_linked. remember (watched o) as w eqn:Hw. intros Ht. revert o Hw.
  induction Ht as [src|src msgs src' _ IH|src0 src1 name create msgs src' Hfc _ IH]; intros o Hw Ho; cbn [run].
  - by split.
  - by apply IH.
  - apply IH; [by rewrite handleEvent_watched|].
    destruct Hfc as [Hc Hroot (m & root & rel & l & -> & Hm & Hd & H1 & H2 & Hin & Hall)]. subst w.
    apply (handleEvent_linked src0 src1 o m root rel create); eauto.
Qed.
End Overlay.

(** What is still held after some effects. *)
Definition held1 (h : list string * bool) (e : basedirEffect) : list string * bool :=
  match e with
  | madeTemp root => (root :: fst h, snd h)
  | openedWatcher => (fst h, true)
  | closedWatcher => (fst h, false)
  | removedAll root => (filter (fun r => r <> root) (fst h), snd h)
  end.
Definition held (effects : list basedirEffect) : list string * bool := foldl held1 ([], false) effects.

(** A base directory is prepared or it leaves nothing: on success the directory and its watcher
    are the caller's, and after any failure there is neither. *)
Theorem PrepareRuntimeBasedir_clean `{GoUnicode} env src sourceGameDir walkAt mods :
  match PrepareRuntimeBasedir env src sourceGameDir walkAt mods with
  | (effects, inl _) => held effects = ([], false)
  | (effects, inr (root, o)) =>
      held effects = ([root], true) /\ o = seed src sourceGameDir walkAt mods /\
      forall m, m ∈ mods -> bdMkdirErr env m = None
  end.
Proof.
  unfold PrepareRuntimeBasedir. destruct (bdTemp env) as [err|root]; [done|].
  assert (forall w, held1 ([root], w) (removedAll root) = ([], w)) as Hrm.
  { intros w. cbn. by rewrite decide_False by tauto. }
  destruct (bdWatcherErr env); [apply Hrm|].
  destruct (seedErr (bdMkdirErr env) mods) eqn:He; [apply Hrm|]. split_and!; [done|done|].
  induction mods as [|m mods IH]; cbn in He; [by intros m ?%elem_of_nil|].
  destruct (bdMkdirErr env m) eqn:Hm; [done|]. intros m' [->|Hin]%elem_of_cons; [done|by apply IH].
Qed.

(** * What the code does not do *)

(** Removing a directory from one layer removes the links of the other layer's files in it. *)
Example directory_event_clobbers :
  let _ := plain_unicode in
  let f := mkSource "id1" "server" ["maps"; "a.bsp"]%string in
  let src0 := {[ f; mkSource "id1" "common" ["maps"; "b.bsp"]%string ]} in
  let src1 := {[ f ]} in
  let fs := reconcileAll src0 [("id1", ["maps"; "a.bsp"]); ("id1", ["maps"; "b.bsp"])]%string ∅ in
  fs !! ["id1"; "maps"; "a.bsp"]%string = Some (link f)
  /\ reconcile src1 "id1" ["maps"]%string fs !! ["id1"; "maps"; "a.bsp"]%string = None.
Proof. vm_compute. split; reflexivity. Qed.

(** Two files whose names differ in case are one link, which goes when either does. *)
Example case_event_clobbers :
  let _ := plain_unicode in
  let f := mkSource "id1" "common" ["Progs.dat"]%string in
  let src0 := {[ f; mkSource "id1" "server" ["progs.dat"]%string ]} in
  let src1 := {[ f ]} in
  let fs := reconcileAll src0 [("id1", ["Progs.dat"]); ("id1", ["progs.dat"])]%string ∅ in
  fs !! ["id1"; "progs.dat"]%string = Some (link (mkSource "id1" "server" ["progs.dat"]%string))
  /\ reconcile src1 "id1" ["progs.dat"]%string fs !! ["id1"; "progs.dat"]%string = None.
Proof. vm_compute. split; reflexivity. Qed.

(** * Witnesses *)

(** Paths that do not meet, checked on the elements. *)
Definition consistentb `{GoUnicode} (src : gset source) : bool :=
  forallb (fun s1 => forallb (fun s2 =>
    negb (bool_decide (soMod s1 = soMod s2)) || negb (bool_decide (map ToLower (soRel s1) `prefix_of` map ToLower (soRel s2)))
    || bool_decide (soRel s1 = soRel s2)) (elements src)) (elements src)
  && forallb (fun s => negb (bool_decide (soRel s = []))) (elements src).
Lemma consistentb_spec `{GoUnicode} src : consistentb src = true -> consistent src /\ rooted src.
Proof.
  unfold consistentb. rewrite andb_true_iff, !forallb_forall. intros [Hc Hr]. split.
  - intros s1 s2 H1 H2 Hm Hp. specialize (Hc s1 ltac:(by rewrite <- list_elem_of_In, elem_of_elements)).
    rewrite forallb_forall in Hc. specialize (Hc s2 ltac:(by rewrite <- list_elem_of_In, elem_of_elements)).
    rewrite (bool_decide_true (soMod s1 = soMod s2)), (bool_decide_true (map ToLower (soRel s1) `prefix_of` _)) in Hc by done.
    by apply bool_decide_eq_true in Hc.
  - intros s Hs. specialize (Hr s ltac:(by rewrite <- list_elem_of_In, elem_of_elements)).
    by apply negb_true_iff, bool_decide_eq_false in Hr.
Qed.

Lemma reflects_empty `{GoUnicode} : reflects ∅ ∅.
Proof.
  split; [intros p q n; by rewrite lookup_empty|]. intros m p t. rewrite lookup_empty. split; [done|].
  intros (rel & _ & _ & Hwn). apply winner_shows, winner_Some in Hwn as [Hin _]. by apply not_elem_of_empty in Hin.
Qed.

Definition demo_bsp : source := mkSource "id1" "common" ["maps"; "e1m1.bsp"]%string.
Definition demo_txt : source := mkSource "id1" "server" ["Maps.txt"]%string.
Definition demo_both : gset source := {[ demo_bsp; demo_txt ]}.
Lemma demo_both_elem s : s ∈ demo_both <-> s = demo_bsp \/ s = demo_txt.
Proof. unfold demo_both. by rewrite elem_of_union, !elem_of_singleton. Qed.

Lemma reconcileAll_converges_witness :
  let _ := plain_unicode in
  let evs := [("id1", ["maps"; "e1m1.bsp"]); ("id1", ["Maps.txt"]); ("id1", ["maps"; "e1m1.bsp"])]%string in
  reflects demo_both (reconcileAll demo_both evs ∅)
  /\ reconcileAll demo_both evs ∅ !! ["id1"; "maps.txt"]%string = Some (link demo_txt).
Proof.
  intros u evs. split; [|vm_compute; reflexivity].
  destruct (consistentb_spec (∅ ∪ demo_both)) as [Hc Hr]; [vm_compute; reflexivity|].
  apply (reconcileAll_converges ∅ demo_both evs ∅ Hc Hr).
  - intros s. destruct (decide (s ∈ demo_both)) as [Hs|Hs].
    + right. apply demo_both_elem in Hs as [->| ->]; [by left|by right; left].
    + left. split; intros Hx; [by apply not_elem_of_empty in Hx|done].
  - intros m rel Hin. unfold evs in Hin. rewrite !elem_of_cons, elem_of_nil in Hin.
    destruct Hin as [[= -> ->]|[[= -> ->]|[[= -> ->]|[]]]]; [exists "common"%string|exists "server"%string|exists "common"%string];
      rewrite union_empty_l_L; apply demo_both_elem; auto.
  - apply reflects_empty.
Defined.

Definition demo_walk (p : list string) : option (list walked) :=
  if bool_decide (p = ["g"; "id1"; "common"]%string)
  then Some [walkedDir p; walkedDir (p ++ ["maps"]); walkedFile (p ++ ["maps"; "e1m1.bsp"])]%string
  else if bool_decide (p = ["g"; "id1"; "server"]%string) then Some [walkedDir p; walkedFile (p ++ ["Maps.txt"])]%string
  else None.
Lemma seed_reflects_witness :
  let _ := plain_unicode in
  reflects (filter (fun s => soMod s ∈ ["id1"]%string /\ soLayer s ∈ overlayLayers) demo_both)
           (runtimeRoot (seed demo_both ["g"]%string demo_walk ["id1"]%string))
  /\ runtimeRoot (seed demo_both ["g"]%string demo_walk ["id1"]%string) !! ["id1"; "maps"; "e1m1.bsp"]%string = Some (link demo_bsp).
Proof.
  intros u. split; [|vm_compute; reflexivity].
  destruct (consistentb_spec demo_both) as [Hc Hr]; [vm_compute; reflexivity|].
  apply (seed_reflects demo_both ["g"]%string demo_walk ["id1"]%string Hc Hr).
  intros m l rel Hm%list_elem_of_singleton Hl. subst m. rewrite demo_both_elem.
  unfold overlayLayers in Hl. rewrite !elem_of_cons, elem_of_nil in Hl. destruct Hl as [->|[->|[]]].
  - change (demo_walk (sourceRoot ["g"]%string "id1" "common")) with
      (Some [walkedDir ["g"; "id1"; "common"]; walkedDir ["g"; "id1"; "common"; "maps"];
             walkedFile ["g"; "id1"; "common"; "maps"; "e1m1.bsp"]])%string.
    split.
    + intros [[= ->]|Hx]; [|discriminate Hx]. eexists. split; [reflexivity|]. right. right. left.
    + intros (walk & [= <-] & Hin). rewrite !elem_of_cons, elem_of_nil in Hin.
      destruct Hin as [Hx|[Hx|[[= ->]|[]]]]; [discriminate Hx|discriminate Hx|by left].
  - change (demo_walk (sourceRoot ["g"]%string "id1" "server")) with
      (Some [walkedDir ["g"; "id1"; "server"]; walkedFile ["g"; "id1"; "server"; "Maps.txt"]])%string.
    split.
    + intros [Hx|[= ->]]; [discriminate Hx|]. eexists. split; [reflexivity|]. right. left.
    + intros (walk & [= <-] & Hin). rewrite !elem_of_cons, elem_of_nil in Hin.
      destruct Hin as [Hx|[[= ->]|[]]]; [discriminate Hx|by right].
Defined.

Lemma handleEvent_file_witness :
  let _ := plain_unicode in
  let root := ["g"; "id1"; "server"]%string in
  reflects {[ demo_txt ]} (runtimeRoot (handleEvent {[ demo_txt ]} (root ++ ["Maps.txt"]%string) true None
    (mkOverlay ∅ {[ root := mkWatch "id1" root ]}))).
Proof.
  intros u root. destruct (consistentb_spec (∅ ∪ {[ demo_txt ]})) as [Hc Hr]; [vm_compute; reflexivity|].
  apply (handleEvent_file ∅ {[ demo_txt ]} (mkOverlay ∅ {[ root := mkWatch "id1" root ]}) "id1" root ["Maps.txt"]%string true Hc Hr).
  - intros s. destruct (decide (s = demo_txt)) as [->|Hs]; [right; by split|left].
    split; intros Hx; [by apply not_elem_of_empty in Hx|by apply elem_of_singleton in Hx].
  - exists "server"%string. rewrite union_empty_l_L. by apply elem_of_singleton.
  - reflexivity.
  - reflexivity.
  - discriminate.
  - reflexivity.
  - apply reflects_empty.
Defined.

Lemma run_follows_witness :
  let _ := plain_unicode in
  let root := ["g"; "id1"; "server"]%string in
  let o := mkOverlay ∅ {[ root := mkWatch "id1" root ]} in
  let msgs := [wError; wEvent {[ demo_txt ]} (root ++ ["Maps.txt"]) true None]%string in
  reflects {[ demo_txt ]} (runtimeRoot (fst (run msgs o))) /\
  run (msgs ++ [wClosed]) o = (fst (run msgs o), true).
Proof.
  intros u root o msgs. split; [|vm_compute; reflexivity].
  destruct (consistentb_spec (∅ ∪ {[ demo_txt ]})) as [Hc Hr]; [vm_compute; reflexivity|].
  apply (run_follows ∅ msgs {[ demo_txt ]} o); [|apply reflects_empty].
  apply tells_error, tells_event; [|apply tells_nil]. constructor; [exact Hc|exact Hr|].
  exists "id1"%string, root, ["Maps.txt"]%string, "server"%string.
  split_and!; [reflexivity|discriminate|reflexivity|reflexivity|reflexivity| |].
  - rewrite union_empty_l_L. by apply elem_of_singleton.
  - intros s. destruct (decide (s = demo_txt)) as [->|Hs]; [right; by split|left].
    split; intros Hx; [by apply not_elem_of_empty in Hx|by apply elem_of_singleton in Hx].
Defined.
