(* ===== verification/Quickstart.v ===== *)
(** Quickstart: assets/quickstart.go, assets/quickstart_install.go and
    assets/quickstart_extract.go.

    The games that are missing are chosen from a catalog and installed from archives.  The world
    (the file system and the network) is abstract: what the code asks of it and does to it are
    functions; JSON and the third-party [shlex] are parameters too. *)
From S2P Require Import Prelude GoStrings Paths Quake106.

(** * Extraction *)

(** quickstart_extract.go [safeJoin] *)
Definition safeJoin `{GoUnicode} (root rel : string) : result string string :=
  let clean := filepath_Clean rel in
  if (clean =? ".")%string || HasPrefix clean "/" || HasPrefix clean "../" || (clean =? "..")%string
  then Err ("invalid path: " ++ Quote rel)%string else
  let rootClean := filepath_Clean root in
  let path := filepath_Join [rootClean; clean] in
  let rootPrefix := (rootClean ++ "/")%string in
  if negb (path =? rootClean)%string && negb (HasPrefix (path ++ "/")%string rootPrefix)
  then Err ("path escape: " ++ Quote rel)%string else Ok path.

(** An entry of an archive: its name, whether it is a directory, and its content or the error of
    opening it. *)
Record zipFile := mkZipFile { zfName : string; zfIsDir : bool; zfContent : result string bytes }.

(** quickstart_extract.go [normalizedZipEntryName] *)
Definition normalizedZipEntryName (zf : zipFile) : string :=
  let name := TrimLeft (ReplaceByte (zfName zf) (byte_of 92) "/") "/" in
  if (name =? "")%string || HasSuffix name "/" || zfIsDir zf then ""%string else name.

(** quickstart_extract.go [zipSingleRootPrefix]: its loop, with [None] for its early returns, *)
Fixpoint singleRoot (files : list zipFile) (root : string) : option string :=
  match files with
  | [] => Some root
  | zf :: files =>
      let name := normalizedZipEntryName zf in
      if (name =? "")%string then singleRoot files root else
      match cut_byte "/"%char (blist name) with
      | None | Some ([], _) => None
      | Some (part, _) =>
          if (root =? "")%string then singleRoot files (btext part)
          else if negb (btext part =? root)%string then None else singleRoot files root
      end
  end.
(** and the whole. *)
Definition zipSingleRootPrefix (files : list zipFile) : string :=
  match singleRoot files "" with
  | None => ""
  | Some root => if (root =? "")%string then "" else (root ++ "/")%string
  end.

(** The name an entry is extracted under: empty when it is not. *)
Definition extractedName (stripPrefix : string) (zf : zipFile) : string :=
  let name := normalizedZipEntryName zf in
  if (name =? "")%string then ""%string else
  if negb (stripPrefix =? "")%string && HasPrefix name stripPrefix then TrimPrefix name stripPrefix else name.

Section Extract.
Context `{GoUnicode}.
(** The world, and writing a file in it (making its directory first). *)
Variable World : Type.
Variable copyToFile : string -> bytes -> World -> option string * World.

(** quickstart_extract.go [copyZipEntry] *)
Definition copyZipEntry (zf : zipFile) (destPath : string) (w : World) : option string * World :=
  match zfContent zf with
  | Err e => (Some e, w)
  | Ok b => copyToFile destPath b w
  end.

(** quickstart_extract.go [extractZipGeneric]: its loop, *)
Fixpoint extractFiles (stripPrefix destRoot : string) (files : list zipFile) (w : World) : option string * World :=
  match files with
  | [] => (None, w)
  | zf :: files =>
      let name := extractedName stripPrefix zf in
      if (name =? "")%string then extractFiles stripPrefix destRoot files w else
      match safeJoin destRoot name with
      | Err e => (Some e, w)
      | Ok destPath =>
          match copyZipEntry zf destPath w with
          | (Some e, w) => (Some e, w)
          | (None, w) => extractFiles stripPrefix destRoot files w
          end
      end
  end.
(** and the whole. *)
Definition extractZipGeneric (files : list zipFile) (destRoot : string) (w : World) : option string * World :=
  extractFiles (zipSingleRootPrefix files) destRoot files w.
End Extract.

(** * The catalog *)

(** quickstart.go [gameDataEntry] *)
Record gameDataEntry := mkGameData {
  Game : string; Base : string; Server : list string; Common : list string; Client : list string; Force : bool;
}.

(** quickstart.go [catalogEntryName] *)
Definition catalogEntryName (ent : gameDataEntry) : string :=
  let base := TrimSpace (Base ent) in
  if negb (base =? "")%string then base else TrimSpace (Game ent).

(** quickstart.go [normalizeSource] *)
Definition normalizeSource (source cfgDir : string) : string :=
  let source := TrimSpace source in
  if (source =? "")%string then "" else
  if Contains source "://" then source
  else ("file://" ++ filepath_Clean (filepath_Join [cfgDir; source]))%string.

(** quickstart.go [loadGameCatalog], on the decoded file or the error of reading or parsing it *)
Definition loadGameCatalog (decoded : result string (list gameDataEntry)) (cfgDir : string)
    : result string (list gameDataEntry) :=
  match decoded with
  | Err e => Err e
  | Ok entries =>
      let norm := map (fun s => normalizeSource s cfgDir) in
      Ok (map (fun e => mkGameData (Game e) (Base e) (norm (Server e)) (norm (Common e)) (norm (Client e)) (Force e)) entries)
  end.

Section Quickstart.
Context `{GoUnicode}.

(** quickstart.go [selectGamesFromQuickstart]: the names of the catalog, each once, *)
Fixpoint catalogNames (entries : list gameDataEntry) (order : list string) : list string :=
  match entries with
  | [] => order
  | ent :: entries =>
      let name := TrimSpace (Game ent) in
      if negb (name =? "")%string && negb (bool_decide (name ∈ order))
      then catalogNames entries (order ++ [name]) else catalogNames entries order
  end.
(** the parts that name one, each once, *)
Fixpoint selectParts (order : list string) (parts : list string) (selected : list string) : list string :=
  match parts with
  | [] => selected
  | part :: parts =>
      let name := TrimSpace part in
      if (name =? "")%string then selectParts order parts selected
      else if negb (bool_decide (name ∈ order)) then selectParts order parts selected
      else if bool_decide (name ∈ selected) then selectParts order parts selected
      else selectParts order parts (selected ++ [name])
  end.
(** and the whole; [env] is the value of QUICKSTART. *)
Definition selectGamesFromQuickstart (entries : list gameDataEntry) (env : string) : list string :=
  let order := catalogNames entries [] in
  let raw := TrimSpace env in
  let raw := if (raw =? "")%string then "ffa"%string else raw in
  if EqualFold raw "all" then order else selectParts order (Split raw ","%char) [].

(** quickstart.go [createDefaultServersIni]: the content it writes *)
Definition defaultServersIni (base : bytes) (selected : list string) : bytes :=
  let nl : byte := byte_of 10 in
  base ++ (match rev base with [] => [] | c :: _ => if Ascii.eqb c nl then [] else [nl] end)
  ++ flat_map (fun game => blist "nqserver @def -game " ++ blist game ++ [nl]) selected.

Variable shlex_Split : string -> result string (list string).

(** quickstart.go [listGamesInServersIni]: the values of -game in a line, *)
Fixpoint gameValues (fields : list string) : list string :=
  match fields with
  | f :: ((v :: _) as rest) =>
      let game := TrimSpace v in
      (if (f =? "-game")%string && negb (game =? "")%string then [game] else []) ++ gameValues rest
  | _ => []
  end.
(** those of a line that launches a server, *)
Definition lineGames (raw : string) : list string :=
  let line := TrimSpace raw in
  if (line =? "")%string then [] else
  if HasPrefix line "#" || HasPrefix line "//" || HasPrefix line ";" then [] else
  match shlex_Split line with
  | Err _ | Ok [] => []
  | Ok ((f0 :: _) as fields) => if HasPrefix f0 "@" then [] else gameValues fields
  end.
(** and those of the file, as a set. *)
Definition listGamesInServersIni (content : bytes) : gset string :=
  list_to_set (flat_map lineGames (Split (btext content) (byte_of 10))).

(** * Installing *)

(** The world: whether a directory has entries, making one, and installing from a source. *)
Variable World : Type.
Variable dirHasEntries : World -> string -> bool.
Variable mkdirAll : string -> World -> option string * World.
Variable installFromSource : string -> string -> World -> option string * World.

(** quickstart.go [layerNeedsInstall], [gameNeedsQuickstartDownload] *)
Definition layerNeedsInstall (w : World) (gameDir game layer : string) (sources : list string) (force : bool) : bool :=
  match sources with
  | [] => false
  | _ => force || negb (dirHasEntries w (filepath_Join [gameDir; game; layer]))
  end.
Definition gameNeedsQuickstartDownload (w : World) (gameDir game : string) (ent : gameDataEntry) : bool :=
  layerNeedsInstall w gameDir game "common" (Common ent) (Force ent)
  || layerNeedsInstall w gameDir game "server" (Server ent) (Force ent)
  || layerNeedsInstall w gameDir game "client" (Client ent) (Force ent).

(** quickstart.go [quickstartInstall] *)
Record quickstartInstall := mkInstall { qiGame : string; qiEntry : gameDataEntry; qiPending : bool }.

(** quickstart.go [quickstartInstallPlan]: its loop, with the names seen, *)
Fixpoint planLoop (w : World) (gameDir : string) (games : gset string) (catalog : list gameDataEntry) (seen : list string)
    : list quickstartInstall :=
  match catalog with
  | [] => []
  | ent :: catalog =>
      let game := catalogEntryName ent in
      if (game =? "")%string then planLoop w gameDir games catalog seen
      else if bool_decide (game ∈ seen) then planLoop w gameDir games catalog seen
      else if negb (bool_decide (game ∈ games)) then planLoop w gameDir games catalog (seen ++ [game])
      else mkInstall game ent (gameNeedsQuickstartDownload w gameDir game ent)
           :: planLoop w gameDir games catalog (seen ++ [game])
  end.
(** and its count. *)
Definition quickstartInstallPlan (w : World) (gameDir : string) (catalog : list gameDataEntry) (games : gset string)
    : list quickstartInstall * Z :=
  let plan := planLoop w gameDir games catalog [] in
  (plan, Z.of_nat (length (List.filter qiPending plan))).

(** quickstart_install.go [installLayer]: its loop, *)
Fixpoint installSources (game layer destRoot : string) (sources : list string) (w : World) : option string * World :=
  match sources with
  | [] => (None, w)
  | urlStr :: sources =>
      let urlStr := TrimSpace urlStr in
      if (urlStr =? "")%string then (Some ("empty url for " ++ game ++ "/" ++ layer)%string, w) else
      match installFromSource urlStr destRoot w with
      | (Some e, w) => (Some ("failed to install " ++ game ++ "/" ++ layer ++ ": " ++ e)%string, w)
      | (None, w) => installSources game layer destRoot sources w
      end
  end.
(** and the whole. *)
Definition installLayer (gameDir game layer : string) (sources : list string) (force : bool) (w : World) : option string * World :=
  if negb (layerNeedsInstall w gameDir game layer sources force) then (None, w)
  else installSources game layer (filepath_Join [gameDir; game; layer]) sources w.

(** quickstart.go [QuickstartGame]: the layers of a game, the games of the plan, *)
Fixpoint installLayers (gameDir game : string) (layers : list (string * list string)) (force : bool) (w : World) : option string * World :=
  match layers with
  | [] => (None, w)
  | (name, sources) :: layers =>
      match installLayer gameDir game name sources force w with
      | (Some e, w) => (Some ("quickstart: " ++ e)%string, w)
      | (None, w) => installLayers gameDir game layers force w
      end
  end.
Fixpoint installPlan (gameDir : string) (plan : list quickstartInstall) (w : World) : option string * World :=
  match plan with
  | [] => (None, w)
  | item :: plan =>
      match mkdirAll (filepath_Join [gameDir; qiGame item]) w with
      | (Some e, w) => (Some ("mkdir mod dir: " ++ e)%string, w)
      | (None, w) =>
          let ent := qiEntry item in
          match installLayers gameDir (qiGame item)
                  [("common", Common ent); ("server", Server ent); ("client", Client ent)]%string (Force ent) w with
          | (Some e, w) => (Some e, w)
          | (None, w) => installPlan gameDir plan w
          end
      end
  end.

(** The file of servers, as the code finds it; and reading and writing it. *)
Inductive iniStatus := iniMissing | iniIsDir | iniFile | iniError (err : string).
Variable statIni : World -> string -> iniStatus.
Variable readFile : World -> string -> result string bytes.
Variable writeFile : string -> bytes -> World -> option string * World.

(** quickstart.go [createDefaultServersIni] *)
Definition createDefaultServersIni (gameDir cfgDir serversPath : string) (selected : list string) (w : World) : option string * World :=
  match mkdirAll gameDir w with
  | (Some e, w) => (Some ("mkdir GAME_DIR: " ++ e)%string, w)
  | (None, w) =>
      match readFile w (filepath_Join [cfgDir; "servers.ini"]%string) with
      | Err e => (Some e, w)
      | Ok base => writeFile serversPath (defaultServersIni base selected) w
      end
  end.

(** The games to install: those of the file, and the bases of the catalog. *)
Definition wantedGames (content : bytes) (catalog : list gameDataEntry) : gset string :=
  foldl (fun games ent => let base := TrimSpace (Base ent) in if negb (base =? "")%string then {[ base ]} ∪ games else games)
        (listGamesInServersIni content) catalog.

Definition QuickstartGame (gameDir cfgDir env : string) (decoded : result string (list gameDataEntry)) (w : World)
    : option string * World :=
  let gameDir := TrimSpace gameDir in
  let cfgDir := TrimSpace cfgDir in
  if (gameDir =? "")%string then (Some "GAME_DIR is empty"%string, w) else
  if (cfgDir =? "")%string then (Some "CFG_DIR is empty"%string, w) else
  match loadGameCatalog decoded cfgDir with
  | Err e => (Some e, w)
  | Ok catalog =>
      let serversPath := filepath_Join [gameDir; "servers.ini"]%string in
      let '(err, w) :=
        match statIni w serversPath with
        | iniFile => (None, w)
        | iniIsDir => (Some ("servers.ini path is a directory: " ++ serversPath)%string, w)
        | iniMissing => createDefaultServersIni gameDir cfgDir serversPath (selectGamesFromQuickstart catalog env) w
        | iniError e => (Some ("stat " ++ serversPath ++ ": " ++ e)%string, w)
        end in
      match err with
      | Some e => (Some e, w)
      | None =>
          match readFile w serversPath with
          | Err e => (Some e, w)
          | Ok content =>
              let '(plan, _) := quickstartInstallPlan w gameDir catalog (wantedGames content catalog) in
              installPlan gameDir plan w
          end
      end
  end.
End Quickstart.

(** * Installing from a source *)

(** The request fails, or there is a response: its code and status text, its body as far as it can
    be read, and the error of reading it. *)
Inductive fetched :=
  | noResponse (err : string)
  | responded (code : Z) (statusText : string) (body : bytes) (readErr : option string).

Section Source.
Context `{GoUnicode}.
Variable World : Type.
Variable copyToFile : string -> bytes -> World -> option string * World.
Variable mkdirAll : string -> World -> option string * World.
(** Temporary files: creating, writing to, closing and removing one. *)
Variable createTemp : World -> result string string * World.
Variable writeTemp : string -> bytes -> World -> option string * World.
Variable closeTemp : World -> string -> option string.
Variable removeTemp : string -> World -> World.
(** What a GET of an address comes to. *)
Variable httpGet : World -> string -> fetched.
(** A file as an archive, its digest, its content; and whether a file can be written. *)
Variable openZip : World -> string -> option (list zipFile).
Variable sha256FileHex : World -> string -> result string string.
Variable readAll : World -> string -> result string bytes.
Variable sha256Hex : bytes -> string.
Variable writeError : World -> string -> option string.
Variable written : World -> list (string * bytes) -> World.

Definition ZipSHA256 : string := "ec6c9d34b1ae0252ac0066045b6611a7919c2a0d78a3a66d9387a8f597553239".

(** quickstart_install.go [downloadToTemp]: the temporary file, removed when anything fails *)
Definition downloadToTemp (urlStr : string) (w : World) : result string string * World :=
  match createTemp w with
  | (Err e, w) => (Err e, w)
  | (Ok tmp, w) =>
      let fail e w := (Err e, removeTemp tmp w) in
      match httpGet w urlStr with
      | noResponse e => fail e w
      | responded code text body readErr =>
          if (code <? 200) || (300 <=? code) then fail ("status " ++ text)%string w else
          let '(writeErr, w) := writeTemp tmp body w in
          match writeErr, readErr with
          | Some e, _ | None, Some e => fail e w
          | None, None =>
              match closeTemp w tmp with
              | Some e => fail e w
              | None => (Ok tmp, w)
              end
          end
      end
  end.

(** quickstart_install.go [materializeSource]: the path, and whether it is temporary. *)
Definition materializeSource (urlStr : string) (w : World) : result string (string * bool) * World :=
  if HasPrefix urlStr "file://" then (Ok (TrimPrefix urlStr "file://", false), w) else
  match downloadToTemp urlStr w with
  | (Ok path, w) => (Ok (path, true), w)
  | (Err e, w) => (Err e, w)
  end.

(** quake106.go [ExtractPak0] in the world. *)
Definition extractShareware (files : list zipFile) (destRoot : string) (w : World) : outcome (option string * World) :=
  let '(mkdirErr, w') := mkdirAll destRoot w in
  let! (fs, err) := ExtractPak0 sha256Hex (writeError w') (map (fun zf => (zfName zf, zfContent zf)) files) mkdirErr destRoot in
  Done (err, written w' fs).

(** quickstart_install.go [installFromSource]; a panic of the decoder ends the program. *)
Definition installFromSource (urlStr destRoot : string) (w : World) : outcome (option string * World) :=
  match mkdirAll destRoot w with
  | (Some e, w) => Done (Some e, w)
  | (None, w) =>
      match materializeSource urlStr w with
      | (Err e, w) => Done (Some e, w)
      | (Ok (sourcePath, temporary), w) =>
          let! (err, w) :=
            match openZip w sourcePath with
            | None =>
                let destPath := filepath_Join [destRoot; filepath_Base (TrimSpace urlStr)] in
                match readAll w sourcePath with
                | Err e => Done (Some e, w)
                | Ok content => Done (copyToFile destPath content w)
                end
            | Some files =>
                match sha256FileHex w sourcePath with
                | Err e => Done (Some e, w)
                | Ok sum => if (sum =? ZipSHA256)%string then extractShareware files destRoot w
                            else Done (extractZipGeneric World copyToFile files destRoot w)
                end
            end in
          Done (err, if temporary then removeTemp sourcePath w else w)
      end
  end.

(** ** Temporary files

    [temps] are the temporary files of the world: creating makes one that was not there, removing
    takes it away, and nothing else touches them. *)
Record temps_ok (temps : World -> gset string) : Prop := {
  tp_create w : match createTemp w with
                | (Ok p, w') => p ∉ temps w /\ temps w' = {[p]} ∪ temps w
                | (Err _, w') => temps w' = temps w
                end;
  tp_write p b w : temps (snd (writeTemp p b w)) = temps w;
  tp_remove p w : temps (removeTemp p w) = temps w ∖ {[p]};
  tp_copy p b w : temps (snd (copyToFile p b w)) = temps w;
  tp_mkdir p w : temps (snd (mkdirAll p w)) = temps w;
  tp_written w fs : temps (written w fs) = temps w;
}.

Lemma downloadToTemp_temps temps urlStr w :
  temps_ok temps ->
  match downloadToTemp urlStr w with
  | (Ok p, w') => p ∉ temps w /\ temps w' = {[p]} ∪ temps w
  | (Err _, w') => temps w' = temps w
  end.
Proof.
  intros Ht. unfold downloadToTemp. pose proof (tp_create _ Ht w) as Hc. destruct (createTemp w) as [[p|e] w1]; [|done].
  destruct Hc as [Hp Hw]. assert (forall w2, temps w2 = temps w1 -> temps (removeTemp p w2) = temps w) as Hfail.
  { intros w2 He. rewrite (tp_remove _ Ht), He, Hw. set_solver. }
  destruct (httpGet w1 urlStr) as [e|code text body readErr]; [by apply Hfail|]. destruct (_ || _); [by apply Hfail|].
  pose proof (tp_write _ Ht p body w1) as Hwr. destruct (writeTemp p body w1) as [[e|] w2]; cbn [snd] in Hwr; [by apply Hfail|].
  destruct readErr; [by apply Hfail|]. destruct (closeTemp w2 p); [by apply Hfail|]. split; [done|congruence].
Qed.

(** A download that succeeded is the whole body of a response of the 200s. *)
Lemma downloadToTemp_whole urlStr w p w' :
  downloadToTemp urlStr w = (Ok p, w') ->
  exists w1 code text body, createTemp w = (Ok p, w1) /\ httpGet w1 urlStr = responded code text body None
    /\ 200 <= code < 300 /\ writeTemp p body w1 = (None, w') /\ closeTemp w' p = None.
Proof.
  unfold downloadToTemp. destruct (createTemp w) as [[q|e] w1]; [|done]. destruct (httpGet w1 urlStr) as [e|code text body readErr] eqn:Hg; [done|].
  destruct (_ || _) eqn:Hc; [done|]. destruct (writeTemp q body w1) as [[e|] w2] eqn:Hw; [done|]. destruct readErr; [done|].
  destruct (closeTemp w2 q) eqn:Hcl; [done|]. intros [= -> ->]. exists w1, code, text, body. split_and!; try done; lia.
Qed.

Lemma extractFiles_temps temps prefix destRoot files : temps_ok temps ->
  forall w, temps (snd (extractFiles World copyToFile prefix destRoot files w)) = temps w.
Proof.
  intros Ht. induction files as [|zf files IH]; intros w; [done|]. cbn [extractFiles]. cbv zeta.
  destruct (_ =? _)%string; [apply IH|]. destruct (safeJoin _ _) as [destPath|]; [|done].
  unfold copyZipEntry. destruct (zfContent zf) as [b|]; [|done]. pose proof (tp_copy _ Ht destPath b w) as Hc.
  destruct (copyToFile destPath b w) as [[e|] w1]; [done|]. cbn [snd] in Hc. by rewrite IH.
Qed.

(** C21.  Installing leaves no temporary file behind, whichever way it ends: the download fails, the
    archive cannot be read or written, or all goes well. *)
Theorem installFromSource_no_temps temps urlStr destRoot w err w' :
  temps_ok temps -> installFromSource urlStr destRoot w = Done (err, w') -> temps w' = temps w.
Proof.
  intros Ht. unfold installFromSource. pose proof (tp_mkdir _ Ht destRoot w) as Hm.
  destruct (mkdirAll destRoot w) as [[e|] w0]; cbn [snd] in Hm; [by intros [= _ <-]|]. rewrite <- Hm. clear Hm w.
  assert (match materializeSource urlStr w0 with
          | (Ok (p, true), w1) => p ∉ temps w0 /\ temps w1 = {[p]} ∪ temps w0
          | (_, w1) => temps w1 = temps w0
          end) as Hs.
  { unfold materializeSource. destruct (HasPrefix urlStr "file://"); [done|].
    pose proof (downloadToTemp_temps temps urlStr w0 Ht) as Hd. by destruct (downloadToTemp urlStr w0) as [[p|e] w1]. }
  destruct (materializeSource urlStr w0) as [[[p temporary]|e] w1]; [|by intros [= _ <-]].
  set (body := match openZip w1 p with Some _ => _ | None => _ end).
  assert (forall err2 w2, body = Done (err2, w2) -> temps w2 = temps w1) as Hbody.
  { unfold body. intros err2 w2. destruct (openZip w1 p) as [files|].
    - destruct (sha256FileHex w1 p) as [sum|]; [|by intros [= _ <-]]. destruct (_ =? _)%string.
      + unfold extractShareware. pose proof (tp_mkdir _ Ht destRoot w1) as Hm2. destruct (mkdirAll destRoot w1) as [e2 w3]. cbn [snd] in Hm2.
        destruct (ExtractPak0 _ _ _ _ _) as [[fs e3]| |]; [|done..]. intros [= _ <-]. by rewrite (tp_written _ Ht).
      + intros [= He]. pose proof (extractFiles_temps temps (zipSingleRootPrefix files) destRoot files Ht w1) as Hx.
        unfold extractZipGeneric in He. by rewrite He in Hx.
    - destruct (readAll w1 p) as [content|]; [|by intros [= _ <-]]. intros [= He].
      match type of He with copyToFile ?d ?c ?x = _ => pose proof (tp_copy _ Ht d c x) as Hx end. by rewrite He in Hx. }
  destruct body as [[err2 w2]| |]; [|done..]. intros [= _ <-]. specialize (Hbody err2 w2 eq_refl).
  destruct temporary; [|congruence]. destruct Hs as [Hp Hw]. rewrite (tp_remove _ Ht), Hbody, Hw. set_solver.
Qed.
End Source.

(** * Facts: extraction *)

Lemma has_prefix_self p l : has_prefix p (p ++ l) = true.
Proof. apply has_prefix_spec. by exists l. Qed.

(** A file inside a directory: a path of names after it. *)
Definition inside (root p : string) : Prop :=
  exists ns, ns <> [] /\ Forall name ns /\ p = (filepath_Clean root ++ "/" ++ Join ns "/")%string.

Lemma clean_cases p :
  filepath_Clean p = "."%string \/ HasPrefix (filepath_Clean p) "/" = true
  \/ exists ups ns, climbs ups /\ Forall name ns /\ ups ++ ns <> [] /\ filepath_Clean p = Join (ups ++ ns) "/".
Proof.
  destruct (decide (p = ""%string)) as [->|Hne]; [by left|]. destruct (HasPrefix p "/") eqn:Hp.
  - destruct (filepath_Clean_rooted p Hp) as (ns & _ & ->). right. left. apply HasPrefix_app.
  - destruct (filepath_Clean_relative p Hne Hp) as [?|?]; [by left|by right; right].
Qed.

(** What stays inside: a relative path of names. *)
Definition stays (rel : string) : Prop := exists ns, ns <> [] /\ Forall name ns /\ filepath_Clean rel = Join ns "/".

Lemma string_length_app (a b : string) : length (blist (a ++ b)%string) = (length (blist a) + length (blist b))%nat.
Proof. by rewrite blist_app, length_app. Qed.

Lemma Join_names_nonempty ns : ns <> [] -> Forall name ns -> Join ns "/" <> ""%string.
Proof.
  destruct ns as [|nm ns]; [done|]. intros _ [[Hn _] _]%List.Forall_cons_iff. by apply (Join_nonempty nm ns).
Qed.

(** A path of names under the current directory does not begin with its name, and one under the
    root does not begin with two slashes: [safeJoin] refuses everything there. *)
Lemma dot_root_prefix ns :
  ns <> [] -> Forall name ns -> HasPrefix (Join ns "/" ++ "/") ("." ++ "/") = false.
Proof.
  intros Hne Hn. apply not_true_iff_false. intros Hp. unfold HasPrefix in Hp. apply has_prefix_spec in Hp as [r Hr].
  pose proof (f_equal (split_byte "/"%char []) Hr) as Hs. rewrite blist_app in Hs. change (blist "/") with ["/"%char] in Hs.
  rewrite split_byte_app_sep in Hs. pose proof (Split_Join ns Hne (names_no_slash _ Hn)) as HJ. unfold Split in HJ.
  destruct (split_byte "/"%char [] (blist (Join ns "/"))) as [|x l] eqn:Hx; [by destruct ns|].
  cbn in Hs. injection Hs as Hxe _. rewrite Hxe in HJ. cbn [map] in HJ. destruct ns as [|nm ns']; [done|].
  injection HJ as Hnd _. apply List.Forall_cons_iff in Hn as [(_ & Hdot & _) _]. by apply Hdot.
Qed.

Lemma slash_root_prefix ns :
  ns <> [] -> Forall name ns -> HasPrefix (Join ns "/") "/" = false ->
  HasPrefix (("/" ++ Join ns "/") ++ "/") ("/" ++ "/") = false.
Proof.
  intros Hne Hn Hp. rewrite string_app_assoc. unfold HasPrefix in *. rewrite !blist_app.
  change (blist "/") with ["/"%char] in *. cbn [app has_prefix]. rewrite Ascii.eqb_refl.
  destruct (blist (Join ns "/")) as [|c l] eqn:Hb.
  - exfalso. apply (f_equal btext) in Hb. rewrite btext_blist in Hb. by apply (Join_names_nonempty ns).
  - cbn [has_prefix app] in *. by rewrite andb_true_r in *.
Qed.

Lemma safeJoin_cases `{GoUnicode} root rel :
  match safeJoin root rel with
  | Ok p => stays rel /\ filepath_Clean root <> "."%string /\ filepath_Clean root <> "/"%string
            /\ p = (filepath_Clean root ++ "/" ++ filepath_Clean rel)%string
  | Err _ => ~ stays rel \/ filepath_Clean root = "."%string \/ filepath_Clean root = "/"%string
  end.
Proof.
  unfold safeJoin. cbv zeta.
  destruct (clean_cases rel) as [Hc|[Hc|(ups & ns & Hu & Hn & Hne & Hc)]].
  - rewrite Hc. left. intros (ns & Hne & Hn & Hj). rewrite Hc in Hj. destruct (names_no_climb_prefix ns) as (_ & _ & ?); [done|done|congruence].
  - rewrite Hc. rewrite orb_true_r. cbn [orb]. left. intros (ns & Hne & Hn & Hj). rewrite Hj in Hc.
    destruct ns as [|n ns]; [done|]. apply List.Forall_cons_iff in Hn as [Hn _].
    destruct (Join_cons n ns "/") as [t Ht]. rewrite Ht, HasPrefix_slash_name in Hc; done.
  - destruct ups as [|u ups].
    2: { pose proof (climbs_rejected (u :: ups) ns Hu ltac:(done) Hn) as Hr. rewrite <- Hc in Hr.
         assert (forall a b, (a || b) || HasPrefix (filepath_Clean rel) "../" || (filepath_Clean rel =? "..")%string = true) as Hx.
         { intros a b. rewrite <- orb_assoc, Hr. apply orb_true_r. }
         rewrite (Hx (filepath_Clean rel =? ".")%string (HasPrefix (filepath_Clean rel) "/")).
         left. intros (ns' & Hne' & Hn' & Hj). destruct (names_no_climb_prefix ns') as (H1 & H2 & _); [done|done|].
         rewrite Hj, H1 in Hr. destruct (String.eqb_spec (Join ns' "/") ".."); done. }
    cbn [app] in *. destruct (names_no_climb_prefix ns) as (H1 & H2 & H3); [done|done|].
    assert (HasPrefix (Join ns "/") "/" = false) as H4.
    { destruct ns as [|nm ns]; [done|]. apply List.Forall_cons_iff in Hn as [Hn _].
      destruct (Join_cons nm ns "/") as [t ->]. by apply HasPrefix_slash_name. }
    rewrite Hc, H1, H4. destruct (String.eqb_spec (Join ns "/") "."), (String.eqb_spec (Join ns "/") ".."); try done. cbn [orb].
    rewrite filepath_Join_under by (done || apply filepath_Clean_nonempty). unfold under. rewrite filepath_Clean_idem.
    destruct (String.eqb_spec (filepath_Clean root) ".") as [Hd|Hd].
    { rewrite Hd. destruct (String.eqb_spec (Join ns "/") "."); [done|].
      rewrite dot_root_prefix by done. right; by left. }
    destruct (String.eqb_spec (filepath_Clean root) "/") as [Hs|Hs].
    { rewrite Hs. destruct (String.eqb_spec ("/" ++ Join ns "/") "/") as [Hx|_].
      - exfalso. injection Hx as Hx. by apply (Join_names_nonempty ns).
      - rewrite slash_root_prefix by done. right; by right. }
    assert (HasPrefix ((filepath_Clean root ++ "/" ++ Join ns "/") ++ "/") (filepath_Clean root ++ "/") = true) as ->.
    { rewrite !string_app_assoc, <- (string_app_assoc (filepath_Clean root)). apply HasPrefix_app. }
    cbn [negb]. rewrite andb_false_r. split_and!; [by exists ns|done|done|done].
Qed.

(** Joining is safe and complete: under a directory other than the current one and the root,
    a name is joined exactly when it is relative and does not climb above its start, and the
    result is the directory's clean path, a slash and the name's; every other name is refused. *)
Theorem safeJoin_spec `{GoUnicode} root rel :
  match safeJoin root rel with
  | Ok p => stays rel /\ filepath_Clean root <> "."%string /\ filepath_Clean root <> "/"%string
            /\ p = (filepath_Clean root ++ "/" ++ filepath_Clean rel)%string
  | Err _ => ~ stays rel \/ filepath_Clean root = "."%string \/ filepath_Clean root = "/"%string
  end.
Proof. apply safeJoin_cases. Qed.

(** A world that records the files written; [fails] is whether one cannot be. *)
Definition recording (fails : string -> option string) (p : string) (b : bytes) (w : list (string * bytes))
    : option string * list (string * bytes) := (fails p, w ++ [(p, b)]).
(** The files an archive holds, where they go. *)
Definition archived (destRoot stripPrefix : string) (zf : zipFile) : list (string * bytes) :=
  let name := extractedName stripPrefix zf in
  if (name =? "")%string then [] else
  match zfContent zf with
  | Ok b => [((filepath_Clean destRoot ++ "/" ++ filepath_Clean name)%string, b)]
  | Err _ => []
  end.

Lemma extractFiles_recorded `{GoUnicode} fails strip destRoot files : forall w,
  exists ws, snd (extractFiles _ (recording fails) strip destRoot files w) = w ++ ws
    /\ Forall (fun f => inside destRoot (fst f)) ws
    /\ match fst (extractFiles _ (recording fails) strip destRoot files w) with
       | None => ws = flat_map (archived destRoot strip) files
       | Some _ => True
       end.
Proof.
  induction files as [|zf files IH]; intros w; cbn [extractFiles flat_map].
  { exists []. by rewrite app_nil_r. }
  assert (archived destRoot strip zf = if (extractedName strip zf =? "")%string then [] else
    match zfContent zf with
    | Ok b => [((filepath_Clean destRoot ++ "/" ++ filepath_Clean (extractedName strip zf))%string, b)]
    | Err _ => [] end) as -> by done.
  cbv zeta. destruct (String.eqb_spec (extractedName strip zf) ""); [apply IH|].
  pose proof (safeJoin_cases destRoot (extractedName strip zf)) as Hj.
  destruct (safeJoin destRoot (extractedName strip zf)) as [p|e]; [|exists []; by rewrite app_nil_r].
  destruct Hj as ((ns & Hne & Hn & Hc) & _ & _ & ->). unfold copyZipEntry.
  destruct (zfContent zf) as [b|e]; [|exists []; by rewrite app_nil_r]. unfold recording at 1 3.
  set (p := (filepath_Clean destRoot ++ "/" ++ filepath_Clean (extractedName strip zf))%string).
  assert (inside destRoot p) as Hin by (exists ns; unfold p; rewrite Hc; done).
  destruct (fails p) as [e|].
  - exists [(p, b)]. split_and!; [done|by repeat constructor|done].
  - destruct (IH (w ++ [(p, b)])) as (ws & -> & Hws & Hr). exists ((p, b) :: ws).
    split_and!; [by rewrite <- app_assoc|by constructor|]. destruct (fst _); [done|]. cbn [app]. by rewrite Hr.
Qed.

(** C20.  An archive is extracted inside its directory: whatever the names of its entries, every
    file that is written lies under the destination; and without an error the files written are
    exactly the entries that are files, in order, each at its name without the common root. *)
Theorem extractZipGeneric_inside `{GoUnicode} fails files destRoot :
  let '(err, ws) := extractZipGeneric _ (recording fails) files destRoot [] in
  Forall (fun f => inside destRoot (fst f)) ws
  /\ match err with
     | None => ws = flat_map (archived destRoot (zipSingleRootPrefix files)) files
     | Some _ => True
     end.
Proof.
  unfold extractZipGeneric. destruct (extractFiles_recorded fails (zipSingleRootPrefix files) destRoot files []) as (ws & Hs & Hi & Hr).
  destruct (extractFiles _ _ _ _ _ _) as [err ws']. cbn [fst snd app] in *. by subst.
Qed.

(** ** The common root *)

Definition hasRoot (r : string) (zf : zipFile) : Prop :=
  normalizedZipEntryName zf = ""%string \/ exists x, normalizedZipEntryName zf = (r ++ "/" ++ x)%string.

Lemma cut_root r x : no_slash r -> r <> ""%string ->
  exists c l, cut_byte "/"%char (blist (r ++ "/" ++ x)) = Some (c :: l, blist x) /\ btext (c :: l) = r.
Proof.
  intros Hr Hne. rewrite !blist_app. change (blist "/") with ["/"%char]. cbn [app].
  rewrite cut_byte_app.
  - destruct (blist r) as [|c l] eqn:Hb; [by rewrite <- (btext_blist r), Hb in Hne|]. exists c, l. split; [done|]. by rewrite <- Hb, btext_blist.
  - intros Hin. unfold no_slash in Hr. rewrite Forall_forall in Hr. by apply (Hr _ Hin).
Qed.
Lemma cut_root_inv s c l y : cut_byte "/"%char (blist s) = Some (c :: l, y) ->
  s = (btext (c :: l) ++ "/" ++ btext y)%string /\ no_slash (btext (c :: l)) /\ btext (c :: l) <> ""%string.
Proof.
  intros Hc. apply cut_byte_spec in Hc as [Hs Hn]. split_and!.
  - apply blist_inj. rewrite !blist_app, !blist_btext. exact Hs.
  - unfold no_slash. rewrite blist_btext, Forall_forall. by intros x Hx ->.
  - done.
Qed.

Lemma singleRoot_fixed r files : r <> ""%string -> no_slash r ->
  match singleRoot files r with
  | Some r' => r' = r /\ Forall (hasRoot r) files
  | None => ~ Forall (hasRoot r) files
  end.
Proof.
  intros Hne Hs. induction files as [|zf files IH]; cbn [singleRoot]; [by split|]. cbv zeta.
  destruct (String.eqb_spec (normalizedZipEntryName zf) "") as [He|He].
  { destruct (singleRoot files r); [destruct IH as [-> ?]; split; [done|constructor; [by left|done]]|].
    intros [_ ?]%List.Forall_cons_iff. done. }
  destruct (cut_byte "/"%char (blist (normalizedZipEntryName zf))) as [[[|c l] y]|] eqn:Hc.
  - intros [[?|[x Hx]] _]%List.Forall_cons_iff; [done|]. destruct (cut_root r x Hs Hne) as (c & l & Hc' & _). rewrite <- Hx, Hc in Hc'. done.
  - destruct (String.eqb_spec r ""); [done|]. apply cut_root_inv in Hc as Hn. destruct Hn as (Hn & _ & _).
    destruct (String.eqb_spec (btext (c :: l)) r) as [Hr|Hr]; cbn [negb].
    + assert (hasRoot r zf) as Hz by (right; exists (btext y); by rewrite <- Hr).
      destruct (singleRoot files r); [destruct IH as [-> ?]; split; [done|by constructor]|].
      intros [_ ?]%List.Forall_cons_iff. done.
    + intros [[?|[x Hx]] _]%List.Forall_cons_iff; [done|]. destruct (cut_root r x Hs Hne) as (c' & l' & Hc' & Hb).
      rewrite <- Hx, Hc in Hc'. injection Hc' as -> -> _. done.
  - intros [[?|[x Hx]] _]%List.Forall_cons_iff; [done|]. destruct (cut_root r x Hs Hne) as (c & l & Hc' & _). rewrite <- Hx, Hc in Hc'. done.
Qed.

(** The root that is stripped is the common one: the prefix is a directory's name and a slash
    exactly when the archive has a file and all its files are under that directory. *)
Theorem zipSingleRootPrefix_spec files r :
  r <> ""%string -> no_slash r ->
  zipSingleRootPrefix files = (r ++ "/")%string
  <-> Exists (fun zf => normalizedZipEntryName zf <> ""%string) files /\ Forall (hasRoot r) files.
Proof.
  intros Hne Hs. unfold zipSingleRootPrefix. induction files as [|zf files IH]; cbn [singleRoot].
  { split; [intros H; by destruct r|]. by intros [H%Exists_nil _]. }
  cbv zeta. rewrite Exists_cons, List.Forall_cons_iff. destruct (String.eqb_spec (normalizedZipEntryName zf) "") as [He|He].
  { rewrite IH. unfold hasRoot at 2. naive_solver. }
  assert (forall r' : string, (r' ++ "/")%string = (r ++ "/")%string -> r' = r) as Hinj.
  { intros r' Hx. apply (f_equal blist) in Hx. rewrite !blist_app in Hx. apply app_inj_2 in Hx as [Hx _]; [|done].
    by apply blist_inj. }
  destruct (cut_byte "/"%char (blist (normalizedZipEntryName zf))) as [[[|c l] y]|] eqn:Hc.
  - split; [intros H; by destruct r|]. intros [_ [[?|[x Hx]] _]]; [done|].
    destruct (cut_root r x Hs Hne) as (c & l & Hc' & _). rewrite <- Hx, Hc in Hc'. done.
  - change (("" =? "")%string) with true. cbn iota. apply cut_root_inv in Hc as (Hn & Hns & Hnn).
    pose proof (singleRoot_fixed (btext (c :: l)) files Hnn Hns) as Hf.
    destruct (singleRoot files (btext (c :: l))) as [r'|].
    + destruct Hf as [-> Hf]. destruct (String.eqb_spec (btext (c :: l)) ""); [done|]. split.
      * intros Hx%Hinj. split; [by left|]. rewrite <- Hx. split; [|done]. right. by exists (btext y).
      * intros [_ [[?|[x Hx]] _]]; [done|]. f_equal.
        destruct (cut_root r x Hs Hne) as (c1 & l1 & Hc1 & Hb1).
        destruct (cut_root (btext (c :: l)) (btext y) Hns Hnn) as (c2 & l2 & Hc2 & Hb2).
        rewrite <- Hx, Hn in Hc1. rewrite Hc1 in Hc2. injection Hc2 as <- <- _. by rewrite <- Hb1, <- Hb2.
    + split; [intros H; by destruct r|]. intros [_ [[?|[x Hx]] Hall]]; [done|]. exfalso. apply Hf.
      destruct (cut_root r x Hs Hne) as (c1 & l1 & Hc1 & Hb1).
      destruct (cut_root (btext (c :: l)) (btext y) Hns Hnn) as (c2 & l2 & Hc2 & Hb2).
      rewrite <- Hx, Hn in Hc1. rewrite Hc1 in Hc2. injection Hc2 as <- <- _. congruence.
  - split; [intros H; by destruct r|]. intros [_ [[?|[x Hx]] _]]; [done|].
    destruct (cut_root r x Hs Hne) as (c & l & Hc' & _). rewrite <- Hx, Hc in Hc'. done.
Qed.

Lemma zipSingleRootPrefix_spec_witness :
  let files := [mkZipFile "ctf/" true (Ok []); mkZipFile "ctf\progs.dat" false (Ok (blist "x")); mkZipFile "/ctf/maps/a.bsp" false (Ok [])]%string in
  zipSingleRootPrefix files = "ctf/"%string.
Proof.
  intros files. apply (zipSingleRootPrefix_spec files "ctf"%string).
  - discriminate.
  - repeat constructor; discriminate.
  - split; [right; left; vm_compute; discriminate|].
    constructor; [left; reflexivity|]. constructor; [right; exists "progs.dat"%string; reflexivity|].
    constructor; [right; exists "maps/a.bsp"%string; reflexivity|constructor].
Defined.

(** * Facts: choosing games *)

Section Choosing.
Context `{GoUnicode}.

Lemma catalogNames_spec entries : forall order, NoDup order ->
  NoDup (catalogNames entries order)
  /\ forall g, g ∈ catalogNames entries order
       <-> g ∈ order \/ (g <> ""%string /\ exists ent, ent ∈ entries /\ TrimSpace (Game ent) = g).
Proof.
  induction entries as [|ent entries IH]; intros order Hnd; cbn [catalogNames].
  { split; [done|]. intros g. split; [by left|]. intros [?|(_ & ent & Hin & _)]; [done|]. by apply not_elem_of_nil in Hin. }
  cbv zeta. destruct (String.eqb_spec (TrimSpace (Game ent)) "") as [He|He]; cbn [negb andb].
  { destruct (IH order Hnd) as [Hn Hg]. split; [done|]. intros g. rewrite Hg. setoid_rewrite elem_of_cons.
    split; [intros [?|(? & e & ? & ?)]; [by left|right; split; [done|]; exists e; auto]|].
    intros [?|(? & e & [->|?] & ?)]; [by left|congruence|right; split; [done|]; exists e; auto]. }
  destruct (bool_decide (TrimSpace (Game ent) ∈ order)) eqn:Hb; cbn [negb].
  - apply bool_decide_eq_true in Hb. destruct (IH order Hnd) as [Hn Hg]. split; [done|]. intros g. rewrite Hg.
    setoid_rewrite elem_of_cons. split; [intros [?|(? & e & ? & ?)]; [by left|right; split; [done|]; exists e; auto]|].
    intros [?|(? & e & [->|?] & <-)]; [by left|by left|right; split; [done|]; exists e; auto].
  - apply bool_decide_eq_false in Hb. destruct (IH (order ++ [TrimSpace (Game ent)])) as [Hn Hg].
    { apply NoDup_app. split_and!; [done| |apply NoDup_singleton]. intros x Hx Hy%list_elem_of_singleton. by subst. }
    split; [done|]. intros g. rewrite Hg, elem_of_app, list_elem_of_singleton. setoid_rewrite elem_of_cons. split.
    + intros [[?| ->]|(? & e & ? & ?)]; [by left|right; split; [done|]; exists ent; auto|right; split; [done|]; exists e; auto].
    + intros [?|(? & e & [->|?] & <-)]; [by left; left|by left; right|right; split; [done|]; exists e; auto].
Qed.

Lemma selectParts_spec order parts : forall selected, NoDup selected ->
  NoDup (selectParts order parts selected)
  /\ forall g, g ∈ selectParts order parts selected
       <-> g ∈ selected \/ (g <> ""%string /\ g ∈ order /\ exists part, part ∈ parts /\ TrimSpace part = g).
Proof.
  induction parts as [|part parts IH]; intros selected Hnd; cbn [selectParts].
  { split; [done|]. intros g. split; [by left|]. intros [?|(_ & _ & p & Hin & _)]; [done|]. by apply not_elem_of_nil in Hin. }
  cbv zeta.
  assert (forall g, (exists p, p ∈ part :: parts /\ TrimSpace p = g) <-> TrimSpace part = g \/ exists p, p ∈ parts /\ TrimSpace p = g) as Hc.
  { intros g. setoid_rewrite elem_of_cons. naive_solver. }
  destruct (String.eqb_spec (TrimSpace part) "") as [He|He].
  { destruct (IH selected Hnd) as [Hn Hg]. split; [done|]. intros g. rewrite Hg, Hc. rewrite He. naive_solver. }
  destruct (bool_decide (TrimSpace part ∈ order)) eqn:Hb; cbn [negb].
  - apply bool_decide_eq_true in Hb. destruct (bool_decide (TrimSpace part ∈ selected)) eqn:Hb2.
    + apply bool_decide_eq_true in Hb2. destruct (IH selected Hnd) as [Hn Hg]. split; [done|]. intros g. rewrite Hg, Hc. naive_solver.
    + apply bool_decide_eq_false in Hb2. destruct (IH (selected ++ [TrimSpace part])) as [Hn Hg].
      { apply NoDup_app. split_and!; [done| |apply NoDup_singleton]. intros x Hx Hy%list_elem_of_singleton. by subst. }
      split; [done|]. intros g. rewrite Hg, Hc, elem_of_app, list_elem_of_singleton. naive_solver.
  - apply bool_decide_eq_false in Hb. destruct (IH selected Hnd) as [Hn Hg]. split; [done|]. intros g. rewrite Hg, Hc. naive_solver.
Qed.

(** QUICKSTART chooses from the catalog: the games selected are each a game of the catalog,
    none twice; with "all" every game is, and otherwise exactly those that a comma-separated
    part names, "ffa" when nothing is set. *)
Theorem selectGamesFromQuickstart_spec entries env :
  let selected := selectGamesFromQuickstart entries env in
  let raw := if (TrimSpace env =? "")%string then "ffa"%string else TrimSpace env in
  NoDup selected
  /\ forall g, g ∈ selected
       <-> g <> ""%string /\ (exists ent, ent ∈ entries /\ TrimSpace (Game ent) = g)
           /\ (EqualFold raw "all" = true \/ exists part, part ∈ Split raw ","%char /\ TrimSpace part = g).
Proof.
  cbv zeta. unfold selectGamesFromQuickstart. cbv zeta.
  set (raw := if (TrimSpace env =? "")%string then "ffa"%string else TrimSpace env).
  destruct (catalogNames_spec entries [] ltac:(constructor)) as [Hn Hg].
  destruct (EqualFold raw "all") eqn:Ha.
  - split; [done|]. intros g. rewrite Hg. split.
    + intros [Hx|(? & ?)]; [by apply not_elem_of_nil in Hx|]. split_and!; [done|done|by left].
    + intros (? & ? & _). by right.
  - destruct (selectParts_spec (catalogNames entries []) (Split raw ","%char) [] ltac:(constructor)) as [Hn2 Hg2].
    split; [done|]. intros g. rewrite Hg2, Hg. split.
    + intros [Hx|(? & [Hx|(_ & ?)] & ?)]; [by apply not_elem_of_nil in Hx..|]. split_and!; [done|done|by right].
    + intros (? & ? & [?|?]); [done|]. right. split_and!; [done| |done]. by right.
Qed.

(** * Facts: installing *)

Variable World : Type.
Variable dirHasEntries : World -> string -> bool.

Lemma planLoop_spec w gameDir games catalog : forall seen,
  NoDup (map qiGame (planLoop World dirHasEntries w gameDir games catalog seen))
  /\ Forall (fun item => qiGame item ∈ games /\ qiGame item <> ""%string /\ qiGame item ∉ seen
               /\ List.find (fun e => (catalogEntryName e =? qiGame item)%string) catalog = Some (qiEntry item)
               /\ qiPending item = gameNeedsQuickstartDownload World dirHasEntries w gameDir (qiGame item) (qiEntry item))
       (planLoop World dirHasEntries w gameDir games catalog seen)
  /\ forall g, g ∈ games -> g <> ""%string -> g ∉ seen -> g ∈ map catalogEntryName catalog ->
       g ∈ map qiGame (planLoop World dirHasEntries w gameDir games catalog seen).
Proof.
  induction catalog as [|ent catalog IH]; intros seen; cbn [planLoop].
  { split_and!; [constructor|constructor|]. intros g _ _ _ Hin. by apply not_elem_of_nil in Hin. }
  cbv zeta. cbn [List.find map].
  assert (forall l, Forall (fun item => qiGame item ∈ games /\ qiGame item <> ""%string /\ qiGame item ∉ seen
               /\ List.find (fun e => (catalogEntryName e =? qiGame item)%string) catalog = Some (qiEntry item)
               /\ qiPending item = gameNeedsQuickstartDownload World dirHasEntries w gameDir (qiGame item) (qiEntry item)) l ->
     (forall item, qiGame item ∈ games -> qiGame item <> ""%string -> qiGame item ∉ seen -> catalogEntryName ent <> qiGame item) ->
     Forall (fun item => qiGame item ∈ games /\ qiGame item <> ""%string /\ qiGame item ∉ seen
               /\ (if (catalogEntryName ent =? qiGame item)%string then Some ent
                   else List.find (fun e => (catalogEntryName e =? qiGame item)%string) catalog) = Some (qiEntry item)
               /\ qiPending item = gameNeedsQuickstartDownload World dirHasEntries w gameDir (qiGame item) (qiEntry item)) l) as Hlift.
  { intros l Hl Hne. eapply Forall_impl; [exact Hl|]. intros item (? & ? & ? & ? & ?). split_and!; try done.
    destruct (String.eqb_spec (catalogEntryName ent) (qiGame item)) as [He|]; [|done]. by destruct (Hne item). }
  destruct (String.eqb_spec (catalogEntryName ent) "") as [He|He].
  { destruct (IH seen) as (Hn & Hf & Hin). split_and!; [done|apply Hlift; [done|intros; congruence]|].
    intros g Hg Hg0 Hs [->|Hc]%elem_of_cons; [done|]. by apply Hin. }
  destruct (bool_decide (catalogEntryName ent ∈ seen)) eqn:Hb.
  { apply bool_decide_eq_true in Hb. destruct (IH seen) as (Hn & Hf & Hin). split_and!; [done|apply Hlift; [done|]|].
    - intros item _ _ Hs Heq. apply Hs. by rewrite <- Heq.
    - intros g Hg Hg0 Hs [->|Hc]%elem_of_cons; [done|]. by apply Hin. }
  apply bool_decide_eq_false in Hb. destruct (IH (seen ++ [catalogEntryName ent])) as (Hn & Hf & Hin).
  assert (forall g, g ∉ seen ++ [catalogEntryName ent] <-> g ∉ seen /\ g <> catalogEntryName ent) as Hseen.
  { intros g. rewrite not_elem_of_app, list_elem_of_singleton. done. }
  set (rest := planLoop World dirHasEntries w gameDir games catalog (seen ++ [catalogEntryName ent])) in *.
  assert (Forall (fun item => qiGame item ∈ games /\ qiGame item <> ""%string /\ qiGame item ∉ seen
               /\ (if (catalogEntryName ent =? qiGame item)%string then Some ent
                   else List.find (fun e => (catalogEntryName e =? qiGame item)%string) catalog) = Some (qiEntry item)
               /\ qiPending item = gameNeedsQuickstartDownload World dirHasEntries w gameDir (qiGame item) (qiEntry item)) rest) as Hrest.
  { eapply Forall_impl; [exact Hf|]. intros item (? & ? & [Hns Hne]%Hseen & ? & ?). split_and!; try done.
    destruct (String.eqb_spec (catalogEntryName ent) (qiGame item)); [congruence|done]. }
  destruct (bool_decide (catalogEntryName ent ∈ games)) eqn:Hg; cbn [negb].
  - apply bool_decide_eq_true in Hg. split_and!.
    + cbn [map qiGame]. constructor; [|done]. intros Hx. apply list_elem_of_fmap in Hx as (item & Heq & Hx).
      rewrite Forall_forall in Hf. destruct (Hf _ Hx) as (_ & _ & [_ Hne]%Hseen & _). by apply Hne.
    + constructor; [|done]. cbn. rewrite String.eqb_refl. done.
    + intros g Hgg Hg0 Hs Hc. cbn [map qiGame]. apply elem_of_cons in Hc. apply elem_of_cons.
      destruct (decide (g = catalogEntryName ent)) as [->|Hne]; [by left|right].
      destruct Hc as [?|Hc]; [done|]. apply Hin; [done|done|by apply Hseen|done].
  - apply bool_decide_eq_false in Hg. split_and!; [done|done|].
    intros g Hgg Hg0 Hs [->|Hc]%elem_of_cons; [done|]. apply Hin; [done|done| |done]. apply Hseen. split; [done|]. by intros ->.
Qed.

(** The plan is the games that are wanted: each game of the catalog that is among them once,
    with the first entry of the catalog for it, and marked pending exactly when one of its
    layers is to be installed; the count is that of the pending ones. *)
Theorem quickstartInstallPlan_spec w gameDir catalog games :
  let '(plan, pending) := quickstartInstallPlan World dirHasEntries w gameDir catalog games in
  NoDup (map qiGame plan)
  /\ (forall g, g ∈ map qiGame plan <-> g ∈ games /\ g <> ""%string /\ g ∈ map catalogEntryName catalog)
  /\ Forall (fun item => List.find (fun e => (catalogEntryName e =? qiGame item)%string) catalog = Some (qiEntry item)
               /\ qiPending item = gameNeedsQuickstartDownload World dirHasEntries w gameDir (qiGame item) (qiEntry item)) plan
  /\ pending = Z.of_nat (length (List.filter qiPending plan)).
Proof.
  unfold quickstartInstallPlan. destruct (planLoop_spec w gameDir games catalog []) as (Hn & Hf & Hin).
  split_and!; [done| | |done].
  - intros g. split.
    + intros Hg. apply list_elem_of_fmap in Hg as (item & -> & Hi). rewrite Forall_forall in Hf.
      destruct (Hf _ Hi) as (? & ? & _ & Hfind & _). split_and!; [done|done|]. apply find_some in Hfind as [Hx He].
      apply String.eqb_eq in He. apply list_elem_of_fmap. exists (qiEntry item). split; [done|]. by apply list_elem_of_In.
    + intros (? & ? & ?). apply Hin; [done|done|apply not_elem_of_nil|done].
  - eapply Forall_impl; [exact Hf|]. intros item (_ & _ & _ & ? & ?). done.
Qed.

Variable mkdirAll : string -> World -> option string * World.
Variable statIni : World -> string -> iniStatus.
Variable readFile : World -> string -> result string bytes.
Variable shlex_Split : string -> result string (list string).

(** The file of servers is the user's: when it exists, starting with other games selected and
    another way of writing files does the same, so it is neither written nor replaced. *)
Theorem QuickstartGame_user_owned install write1 write2 env1 env2 gameDir cfgDir decoded w :
  statIni w (filepath_Join [TrimSpace gameDir; "servers.ini"]%string) = iniFile ->
  QuickstartGame shlex_Split World dirHasEntries mkdirAll install statIni readFile write1 gameDir cfgDir env1 decoded w
  = QuickstartGame shlex_Split World dirHasEntries mkdirAll install statIni readFile write2 gameDir cfgDir env2 decoded w.
Proof.
  intros Hst. unfold QuickstartGame. cbv zeta. destruct (String.eqb (TrimSpace gameDir) ""); [done|].
  destruct (String.eqb (TrimSpace cfgDir) ""); [done|]. destruct (loadGameCatalog decoded (TrimSpace cfgDir)); [|done].
  by rewrite Hst.
Qed.

Lemma installLayers_complete install1 install2 gameDir game layers w :
  (forall w d, dirHasEntries w d = true) ->
  installLayers World dirHasEntries install1 gameDir game layers false w
  = installLayers World dirHasEntries install2 gameDir game layers false w.
Proof.
  intros Hd. revert w. induction layers as [|[name sources] layers IH]; intros w; [done|]. cbn [installLayers].
  assert (forall install, installLayer World dirHasEntries install gameDir game name sources false w = (None, w)) as Hi.
  { intros install. unfold installLayer, layerNeedsInstall. rewrite Hd. by destruct sources. }
  rewrite !Hi. apply IH.
Qed.

(** What is there is kept: when every layer's directory has something in it and no entry
    forces an installation, nothing is installed, whatever the catalog and the sources. *)
Theorem QuickstartGame_idempotent install1 install2 write gameDir cfgDir env entries w :
  (forall w d, dirHasEntries w d = true) -> Forall (fun e => Force e = false) entries ->
  QuickstartGame shlex_Split World dirHasEntries mkdirAll install1 statIni readFile write gameDir cfgDir env (Ok entries) w
  = QuickstartGame shlex_Split World dirHasEntries mkdirAll install2 statIni readFile write gameDir cfgDir env (Ok entries) w.
Proof.
  intros Hd Hf. unfold QuickstartGame. cbv zeta. destruct (String.eqb (TrimSpace gameDir) ""); [done|].
  destruct (String.eqb (TrimSpace cfgDir) ""); [done|]. cbn [loadGameCatalog]. set (catalog := map _ entries).
  assert (Forall (fun e => Force e = false) catalog) as Hc by (unfold catalog; by apply Forall_map).
  destruct (match statIni w _ with iniMissing => _ | _ => _ end) as [[e|] w1]; [done|].
  destruct (readFile w1 _) as [content|]; [|done].
  destruct (quickstartInstallPlan _ _ _ _ _ _) as [plan n] eqn:Hp.
  assert (Forall (fun item => Force (qiEntry item) = false) plan) as Hplan.
  { unfold quickstartInstallPlan in Hp. injection Hp as <- _.
    destruct (planLoop_spec w1 (TrimSpace gameDir) (wantedGames shlex_Split content catalog) catalog []) as (_ & Hpf & _).
    eapply Forall_impl; [exact Hpf|]. intros item (_ & _ & _ & Hfind & _). apply find_some in Hfind as [Hin _].
    rewrite Forall_forall in Hc. apply Hc. by apply list_elem_of_In. }
  clear Hp. revert w1. induction Hplan as [|item plan Hi _ IH]; intros w1; [done|]. cbn [installPlan].
  destruct (mkdirAll _ w1) as [[e|] w2]; [done|]. rewrite Hi. rewrite (installLayers_complete install1 install2) by done.
  destruct (installLayers _ _ _ _ _ _ _ w2) as [[e|] w3]; [done|]. apply IH.
Qed.
End Choosing.

(** * What the code does not do *)

(** A layer of two sources whose second cannot be fetched has an entry from the first: starting
    again, with the source back, leaves it as it is.  The world is the sources installed. *)
Example partial_install_stays :
  let has (w : list string) (_ : string) := negb (bool_decide (w = [])) in
  let fetch (down : list string) (u _ : string) (w : list string) :=
    if bool_decide (u ∈ down) then (Some "status 503"%string, w) else (None, w ++ [u]) in
  let first := installLayer _ has (fetch ["http://b"]%string) "/game" "ctf" "common" ["http://a"; "http://b"]%string false [] in
  let second := installLayer _ has (fetch []) "/game" "ctf" "common" ["http://a"; "http://b"]%string false (snd first) in
  first = (Some "failed to install ctf/common: status 503"%string, ["http://a"]%string) /\ second = (None, ["http://a"]%string).
Proof. vm_compute. split; reflexivity. Qed.

(** * Witnesses *)

Lemma QuickstartGame_user_owned_witness :
  let _ := plain_unicode in
  let run write env := QuickstartGame (fun s => Ok (Fields s)) (list string) (fun _ _ => false) (fun d w => (None, w ++ [d]))
     (fun u d w => (None, w ++ [u; d])) (fun _ _ => iniFile) (fun _ _ => Ok (blist "nqserver -game ctf")) write "/game" "/cfg" env
     (Ok [mkGameData "ctf" "" [] ["http://a"] [] false]%string) [] in
  run (fun _ _ w => (None, w)) "ctf"%string = run (fun _ _ w => (Some "read-only"%string, w)) "all"%string
  /\ run (fun _ _ w => (None, w)) "ctf"%string = (None, ["/game/ctf"; "http://a"; "/game/ctf/common"])%string.
Proof.
  intros u run. split; [|vm_compute; reflexivity].
  apply (QuickstartGame_user_owned (list string) (fun _ _ => false) (fun d w => (None, w ++ [d])) (fun _ _ => iniFile)
           (fun _ _ => Ok (blist "nqserver -game ctf")) (fun s => Ok (Fields s))).
  reflexivity.
Defined.

Lemma QuickstartGame_idempotent_witness :
  let _ := plain_unicode in
  let run install := QuickstartGame (fun s => Ok (Fields s)) (list string) (fun _ _ => true) (fun d w => (None, w ++ [d]))
     install (fun _ _ => iniFile) (fun _ _ => Ok (blist "nqserver -game ctf")) (fun _ _ w => (None, w)) "/game" "/cfg" "all"
     (Ok [mkGameData "ctf" "" [] ["http://a"] [] false]%string) [] in
  run (fun u d w => (None, w ++ [u; d])) = run (fun _ _ w => (Some "down"%string, w))
  /\ run (fun _ _ w => (Some "down"%string, w)) = (None, ["/game/ctf"]%string).
Proof.
  intros u run. split; [|vm_compute; reflexivity].
  apply (QuickstartGame_idempotent (list string) (fun _ _ => true) (fun d w => (None, w ++ [d])) (fun _ _ => iniFile)
           (fun _ _ => Ok (blist "nqserver -game ctf")) (fun s => Ok (Fields s))).
  - reflexivity.
  - repeat constructor.
Defined.

(** ** A download that breaks off *)

Definition oneTemp (w : gset string) : result string string * gset string :=
  if decide ("t"%string ∈ w) then (Err "exists"%string, w) else (Ok "t"%string, {["t"%string]} ∪ w).
Definition brokenInstall : outcome (option string * gset string) :=
  installFromSource (H := plain_unicode) (gset string) (fun _ _ w => (None, w)) (fun _ w => (None, w)) oneTemp (fun _ _ w => (None, w))
    (fun _ _ => None) (fun p w => w ∖ {[p]}) (fun _ _ => responded 200 "200 OK" ["x"%char] (Some "unexpected EOF"%string))
    (fun _ _ => None) (fun _ _ => Ok ""%string) (fun _ _ => Ok []) (fun _ => ""%string) (fun _ _ => None) (fun w _ => w)
    "https://example/pak.zip" "/game/id1" ∅.
Lemma installFromSource_no_temps_witness :
  exists w, brokenInstall = Done (Some "unexpected EOF"%string, w) /\ w = ∅.
Proof.
  assert (exists w, brokenInstall = Done (Some "unexpected EOF"%string, w)) as [w Hw] by (eexists; vm_compute; reflexivity).
  exists w. split; [exact Hw|].
  refine (installFromSource_no_temps (H := plain_unicode) (gset string) _ _ _ _ _ _ _ _ _ _ _ _ _ (fun w => w) _ _ _ _ _ _ Hw).
  constructor; [|set_solver..]. intros w1. unfold oneTemp. destruct (decide _); [done|]. by split.
Defined.
