(* ===== verification/Log.v ===== *)
(** Logging: log.go.

    A line of log goes to up to three sinks: the operator's console (stderr), the ring of the last
    2048 lines that [logs.tail] reads, and the file nexus.log.  The sinks are modelled by what is
    written to them, the results of the writes being ignored by the code; the wall clock of a call
    is an argument. *)
From S2P Require Import Prelude GoStrings.

(** * Levels *)

Abbreviation logLevel := Z (only parsing).
Definition logError : logLevel := 0.
Definition logWarn : logLevel := 1.
Definition logInfo : logLevel := 2.
Definition logDebug : logLevel := 3.
Definition nexusLogHistoryCap : Z := 2048.

(** log.go [slogToLogLevel], on slog's levels: Debug -4, Info 0, Warn 4, Error 8 *)
Definition slogToLogLevel (l : Z) : logLevel :=
  if 8 <=? l then logError else if 4 <=? l then logWarn else if 0 <=? l then logInfo else logDebug.

(** * Lines *)

(** log.go [logLineEndings]: the replacer of CR LF and CR by LF, the first that matches *)
Fixpoint normEOL (l : bytes) : bytes :=
  match l with
  | [] => []
  | c :: r =>
      if Ascii.eqb c crByte then
        lfByte :: match r with
                  | d :: r' => if Ascii.eqb d lfByte then normEOL r' else normEOL r
                  | [] => []
                  end
      else c :: normEOL r
  end.

(** log.go [splitLogLines] *)
Definition splitLogLines (msg : string) : list string :=
  let msg := TrimRight (btext (normEOL (blist msg))) lf in
  if (msg =? "")%string then [] else Split msg lfByte.

(** log.go [formatLogLines] *)
Definition formatLogLines (msg prefix : string) : string :=
  let lines := splitLogLines msg in
  match lines with
  | [] => ""%string
  | _ => foldl (fun b line => b ++ prefix ++ line ++ lf)%string ""%string lines
  end.

(** The fields of a wall clock, and its text in the layout 2006/01/02 15:04:05 (the year is of four
    digits). *)
Record wallClock := mkClock { tYear : Z; tMonth : Z; tDay : Z; tHour : Z; tMinute : Z; tSecond : Z }.
Definition digitOf (z : Z) : byte := byte_of (48 + z mod 10).
Definition twoDigits (z : Z) : bytes := [digitOf (z / 10); digitOf z].
Definition logTimestampLayout (t : wallClock) : string :=
  btext (twoDigits (tYear t / 100) ++ twoDigits (tYear t) ++ "/"%char :: twoDigits (tMonth t)
         ++ "/"%char :: twoDigits (tDay t) ++ " "%char :: twoDigits (tHour t)
         ++ ":"%char :: twoDigits (tMinute t) ++ ":"%char :: twoDigits (tSecond t)).

(** log.go [formatTimestampedLogText] *)
Definition formatTimestampedLogText (msg : string) (now : wallClock) : string :=
  formatLogLines msg (logTimestampLayout now ++ " ").

(** * The sinks *)

(** The variables of log.go, the contents of files, and what stderr was given. *)
Record Logs := mkLogs {
  currentLogLevel : logLevel;
  fileLogLevel : logLevel;
  operatorConsoleTimestamp : bool;
  nexusLogHistory : list string;
  nexusLogFile : option string;
  files : gmap string string;
  stderr : string
}.
#[export] Instance eta_logs : EtaRecord Logs := fun l =>
  mkLogs (currentLogLevel l) (fileLogLevel l) (operatorConsoleTimestamp l) (nexusLogHistory l)
         (nexusLogFile l) (files l) (stderr l).
Definition logsInit : Logs := mkLogs logInfo logDebug false [] None ∅ "".

(** log.go [configureNexusLogFile], with the errors of making the directory and of opening *)
Definition configureNexusLogFile (mkdir open : string -> option string) (logsDir : string) (st : Logs)
    : option string * Logs :=
  let logsDir := TrimSpace logsDir in
  if (logsDir =? "")%string then (Some "LOGS_DIR is empty"%string, st) else
  match mkdir logsDir with
  | Some err => (Some err, st)
  | None =>
      let path := filepath_Join [logsDir; "nexus.log"%string] in
      match open path with
      | Some err => (Some err, st)
      | None => (None, st <| nexusLogFile := Some path |>
                          <| files ::= fun m => <[path := default ""%string (m !! path)]> m |>)
      end
  end.

(** log.go [closeNexusLogFile] *)
Definition closeNexusLogFile (st : Logs) : Logs := st <| nexusLogFile := None |>.

(** log.go [writeOperatorConsoleText] *)
Definition writeOperatorConsoleText (timestamped msg : string) (st : Logs) : Logs :=
  let text := if negb (operatorConsoleTimestamp st) then formatLogLines msg "" else timestamped in
  if (text =? "")%string then st else st <| stderr ::= fun s => (s ++ text)%string |>.

(** log.go [writeNexusLogFile] *)
Definition writeNexusLogFile (text : string) (st : Logs) : Logs :=
  if (text =? "")%string then st else
  match nexusLogFile st with
  | None => st
  | Some path => st <| files ::= fun m => <[path := (default "" (m !! path) ++ text)%string]> m |>
  end.

(** log.go [recordNexusLogLine]: a full ring is shifted by one and its last place set *)
Definition recordLine (history : list string) (line : string) : list string :=
  if (line =? "")%string then history else
  if Z.of_nat (length history) <? nexusLogHistoryCap then history ++ [line]
  else take (length history - 1) (drop 1 history) ++ [line].
Definition recordNexusLogLine (text : string) (st : Logs) : Logs :=
  if (text =? "")%string then st
  else st <| nexusLogHistory ::= fun h => foldl recordLine h (splitLogLines text) |>.

(** log.go [tailNexusLogLines] *)
Definition tailNexusLogLines (n : Z) (st : Logs) : list string :=
  if n <=? 0 then [] else
  let h := nexusLogHistory st in
  match h with
  | [] => []
  | _ => let n := Z.min n (Z.of_nat (length h)) in drop (Z.to_nat (Z.of_nat (length h) - n)) h
  end.

(** log.go [maxLogVerbosity] *)
Definition maxLogVerbosity (st : Logs) : logLevel :=
  if fileLogLevel st <? currentLogLevel st then currentLogLevel st else fileLogLevel st.

(** log.go [logfSplit] *)
Definition logfSplit (level : logLevel) (now : wallClock) (consoleMsg fullMsg : string) (st : Logs) : Logs :=
  let toFile := level <=? fileLogLevel st in
  let toConsole := level <=? currentLogLevel st in
  if negb toFile && negb toConsole then st else
  let fullTimestamped := formatTimestampedLogText fullMsg now in
  let st := if toFile then writeNexusLogFile fullTimestamped st else st in
  if toConsole then
    let st := recordNexusLogLine fullTimestamped st in
    writeOperatorConsoleText (formatTimestampedLogText consoleMsg now) consoleMsg st
  else st.

(** log.go [logf], of a formatted message *)
Definition logf (level : logLevel) (now : wallClock) (msg : string) (st : Logs) : Logs :=
  if maxLogVerbosity st <? level then st else logfSplit level now msg msg st.

(** log.go [logfNoTail] and [infofNoTail] *)
Definition logfNoTail (level : logLevel) (now : wallClock) (msg : string) (st : Logs) : Logs :=
  if currentLogLevel st <? level then st
  else writeOperatorConsoleText (formatTimestampedLogText msg now) msg st.
Definition infofNoTail : wallClock -> string -> Logs -> Logs := logfNoTail logInfo.

(** log.go [auditfSplit] and [auditf] *)
Definition auditfSplit (now : wallClock) (consoleMsg fullMsg : string) (st : Logs) : Logs :=
  let fullTimestamped := formatTimestampedLogText fullMsg now in
  let st := recordNexusLogLine fullTimestamped st in
  let st := writeNexusLogFile fullTimestamped st in
  if logDebug <=? currentLogLevel st
  then writeOperatorConsoleText (formatTimestampedLogText consoleMsg now) consoleMsg st else st.
Definition auditf (now : wallClock) (msg : string) : Logs -> Logs := auditfSplit now msg msg.

(** * slog *)

(** A value of an attribute: the nil one, or one and its text as %v prints it. *)
Inductive attrValue := anyNil | shown (text : string).
Record slogAttr := mkAttr { Key : string; Value : attrValue }.
Definition attrText (v : attrValue) : string := match v with anyNil => "<nil>" | shown t => t end.

(** log.go [appendAttr]: the zero attribute is dropped *)
Definition appendAttr (groupPrefix b : string) (a : slogAttr) : string :=
  match Key a, Value a with
  | ""%string, anyNil => b
  | _, _ =>
      let b := (b ++ " ")%string in
      let b := if negb (groupPrefix =? "")%string then (b ++ groupPrefix ++ ".")%string else b in
      (b ++ Key a ++ "=" ++ attrText (Value a))%string
  end.

(** log.go [forwardHandler]: which of the two that [initSlog] builds, and what was added to it *)
Record forwardHandler := mkHandler { isAudit : bool; attrs : list slogAttr; groups : list string }.
#[export] Instance eta_handler : EtaRecord forwardHandler := fun h => mkHandler (isAudit h) (attrs h) (groups h).
Definition WithAttrs (more : list slogAttr) (h : forwardHandler) : forwardHandler :=
  h <| attrs ::= fun l => l ++ more |>.
Definition WithGroup (name : string) (h : forwardHandler) : forwardHandler :=
  h <| groups ::= fun l => l ++ [name] |>.

(** log.go [initSlog]: the default handler and that of the audit logger *)
Definition defaultHandler : forwardHandler := mkHandler false [] [].
Definition auditHandler : forwardHandler := mkHandler true [] [].
Definition Enabled (h : forwardHandler) (level : Z) (st : Logs) : bool :=
  isAudit h || (slogToLogLevel level <=? maxLogVerbosity st).
Definition emit (h : forwardHandler) (level : Z) (now : wallClock) (consoleMsg fullMsg : string) : Logs -> Logs :=
  if isAudit h then auditfSplit now consoleMsg fullMsg
  else logfSplit (slogToLogLevel level) now consoleMsg fullMsg.

(** log.go [Handle] *)
Definition renderRecord (h : forwardHandler) (msg : string) (recordAttrs : list slogAttr) : string :=
  let prefix := Join (groups h) "." in
  foldl (appendAttr prefix) (foldl (appendAttr prefix) msg (attrs h)) recordAttrs.
Definition Handle (h : forwardHandler) (level : Z) (now : wallClock) (msg : string) (recordAttrs : list slogAttr)
    : Logs -> Logs :=
  emit h level now msg (renderRecord h msg recordAttrs).

(** A call of a logger: what is not enabled is not handled. *)
Definition slogLog (h : forwardHandler) (level : Z) (now : wallClock) (msg : string) (recordAttrs : list slogAttr)
    (st : Logs) : Logs :=
  if Enabled h level st then Handle h level now msg recordAttrs st else st.

(** log.go [isBenignHandshakeNoise] *)
Definition isBenignHandshakeNoise (line : string) : bool :=
  if negb (Contains line "TLS handshake error") then false else
  if Contains line "missing server name" then true else
  if Contains line "not configured in HostWhitelist" then true else
  if Contains line "acme/autocert:" || Contains line "acme:error" || Contains line "rateLimited" then false
  else true.

(** log.go [slogErrorWriter.Write] *)
Definition slogErrorWrite (now : wallClock) (p : string) (st : Logs) : Logs :=
  let line := TrimRight p lf in
  if (line =? "")%string then st else
  slogLog defaultHandler (if isBenignHandshakeNoise line then -4 else 4) now line [] st.

(** * Configuration *)

Section Config.
Context `{GoUnicode}.

(** log.go [applyOperatorConsoleTimestampEnv] and [initLogging], of the two variables of the
    environment: the warnings go to slog's own default, [initSlog] is called later. *)
Definition applyOperatorConsoleTimestampEnv (env : string) (st : Logs) : list string * Logs :=
  let raw := TrimSpace env in
  if (raw =? "")%string then ([], st) else
  if (raw =? "1")%string then ([], st <| operatorConsoleTimestamp := true |>) else
  if (raw =? "0")%string then ([], st <| operatorConsoleTimestamp := false |>) else
  (["Unknown CONSOLE_TIMESTAMPS=" ++ Quote raw ++ " (expected: 0|1); defaulting to 1"]%string,
   st <| operatorConsoleTimestamp := true |>).
Definition parseLogLevel (env : string) : logLevel * list string :=
  let level := ToLower (TrimSpace env) in
  if (level =? "")%string || (level =? "info")%string then (logInfo, []) else
  if (level =? "debug")%string then (logDebug, []) else
  if (level =? "warn")%string || (level =? "warning")%string then (logWarn, []) else
  if (level =? "error")%string then (logError, []) else
  (logInfo, ["Unknown LOG_LEVEL=" ++ Quote level ++ " (expected: error|warn|info|debug); defaulting to info"]%string).
Definition initLogging (logLevelEnv timestampsEnv : string) (st : Logs) : list string * Logs :=
  let st := st <| operatorConsoleTimestamp := true |> in
  let '(warnings, st) := applyOperatorConsoleTimestampEnv timestampsEnv st in
  let '(level, more) := parseLogLevel logLevelEnv in
  (warnings ++ more, st <| currentLogLevel := level |>).
End Config.

(** * The specification

    What each call asks for, as lines, and the logs as what was asked for. *)

Definition stamp (now : wallClock) : string := (logTimestampLayout now ++ " ")%string.
Definition stamped (now : wallClock) (msg : string) : list string := map (String.append (stamp now)) (splitLogLines msg).

(** The calls of the logging functions, and a run of them. *)
Inductive logCall :=
  | callLog (level : logLevel) (now : wallClock) (consoleMsg fullMsg : string)
  | callNoTail (level : logLevel) (now : wallClock) (msg : string)
  | callAudit (now : wallClock) (consoleMsg fullMsg : string).
Definition runCall (st : Logs) (c : logCall) : Logs :=
  match c with
  | callLog level now consoleMsg fullMsg => logfSplit level now consoleMsg fullMsg st
  | callNoTail level now msg => logfNoTail level now msg st
  | callAudit now consoleMsg fullMsg => auditfSplit now consoleMsg fullMsg st
  end.

Definition tailLines (level : logLevel) (c : logCall) : list string :=
  match c with
  | callLog l now _ fullMsg => if l <=? level then stamped now fullMsg else []
  | callNoTail _ _ _ => []
  | callAudit now _ fullMsg => stamped now fullMsg
  end.
Definition consoleLines (level : logLevel) (timestamps : bool) (c : logCall) : list string :=
  let shownAs now msg := if timestamps then stamped now msg else splitLogLines msg in
  match c with
  | callLog l now consoleMsg _ => if l <=? level then shownAs now consoleMsg else []
  | callNoTail l now msg => if l <=? level then shownAs now msg else []
  | callAudit now consoleMsg _ => if logDebug <=? level then shownAs now consoleMsg else []
  end.

(** * Facts: lines *)

Lemma normEOL_no_cr l : Forall (fun c => c <> crByte) (normEOL l).
Proof.
  assert (lfByte <> crByte) by done.
  enough (Forall (fun c => c <> crByte) (normEOL l) /\ forall a, Forall (fun c => c <> crByte) (normEOL (a :: l))) by tauto.
  induction l as [|c l [IH1 IH2]].
  - split; [constructor|]. intros a. cbn. destruct (Ascii.eqb_spec a crByte); by repeat constructor.
  - split; [apply IH2|]. intros a. cbn [normEOL]. destruct (Ascii.eqb_spec a crByte).
    + constructor; [done|]. destruct (Ascii.eqb c lfByte); [done|apply IH2].
    + constructor; [done|apply IH2].
Qed.

Lemma normEOL_id l : Forall (fun c => c <> crByte) l -> normEOL l = l.
Proof. induction 1 as [|c l Hc _ IH]; cbn; [done|]. destruct (Ascii.eqb_spec c crByte); [done|by rewrite IH]. Qed.

(** What [splitLogLines] makes: lines without line ends, the last not empty. *)
Definition logLines (l : list string) : Prop :=
  Forall (fun s => lacks lfByte s /\ lacks crByte s) l /\ (l = [] \/ exists k x, l = k ++ [x] /\ x <> ""%string).

Lemma splitLogLines_ok msg : logLines (splitLogLines msg).
Proof.
  unfold splitLogLines. cbv zeta. set (t := TrimRight _ _). destruct (String.eqb_spec t "") as [Ht|Ht]; [split; [constructor|by left]|].
  assert (Forall (fun c => c <> crByte) (blist t)) as Hcr.
  { unfold t, TrimRight. rewrite !blist_btext. apply Forall_rev_iff, Forall_drop_chars, Forall_rev_iff, normEOL_no_cr. }
  split.
  - pose proof (Split_lacks lfByte t) as Hlf. assert (Forall (lacks crByte) (Split t lfByte)) as Hc.
    { unfold Split. apply Forall_map. eapply Forall_impl; [apply Forall_split_byte; [constructor|exact Hcr]|].
      intros l Hl. unfold lacks. cbn. by rewrite blist_btext. }
    rewrite Forall_forall in *. intros s Hs. split; auto.
  - right. destruct (@last_exists_or _ (Split t lfByte)) as [Hn|(k & x & Hk)].
    { exfalso. apply (Split_not_nil t lfByte Hn). }
    exists k, x. split; [done|]. intros ->. pose proof (Join_Split t lfByte) as HJ. rewrite Hk in HJ.
    destruct k as [|y k]; [done|].
    rewrite Join_snoc in HJ by done. rewrite string_app_nil in HJ.
    refine (TrimRight_end (btext (normEOL (blist msg))) lfByte (rev (blist (Join (y :: k) (btext [lfByte])))) _).
    change (TrimRight (btext (normEOL (blist msg))) (btext [lfByte])) with t. rewrite <- HJ, blist_app, blist_btext, rev_app_distr. done.
Qed.

(** Splitting undoes formatting. *)
Lemma TrimRight_one s c : TrimRight (s ++ btext [c]) (btext [c]) = TrimRight s (btext [c]).
Proof.
  unfold TrimRight. rewrite blist_app, !blist_btext, rev_app_distr. cbn [rev app drop_chars existsb].
  by rewrite Ascii.eqb_refl.
Qed.

Lemma TrimRight_keep y x c : x <> ""%string -> lacks c x -> TrimRight (y ++ x) (btext [c]) = (y ++ x)%string.
Proof.
  intros Hx Hc. unfold TrimRight. rewrite blist_app, blist_btext, rev_app_distr.
  destruct (rev (blist x)) as [|a l] eqn:Hr.
  { exfalso. apply Hx. apply (f_equal (@rev _)) in Hr. rewrite rev_involutive in Hr.
    rewrite <- (btext_blist x), Hr. done. }
  apply Forall_rev_iff in Hc. rewrite Hr in Hc. apply List.Forall_cons_iff in Hc as [Ha _].
  cbn [app drop_chars existsb]. destruct (Ascii.eqb_spec a c); [done|]. cbn [orb].
  apply blist_inj. rewrite blist_app, blist_btext.
  change (a :: l ++ rev (blist y)) with ((a :: l) ++ rev (blist y)). by rewrite <- Hr, rev_app_distr, !rev_involutive.
Qed.

Lemma formatLogLines_unlines msg prefix :
  formatLogLines msg prefix = unlines (map (String.append prefix) (splitLogLines msg)).
Proof.
  unfold formatLogLines. cbv zeta. enough (forall l s, foldl (fun b line => b ++ prefix ++ line ++ lf)%string s l
    = (s ++ unlines (map (String.append prefix) l))%string) as H.
  { destruct (splitLogLines msg) as [|x l]; [done|]. by rewrite H. }
  induction l as [|x l IH]; intros s; cbn [foldl map unlines foldr]; [by rewrite string_app_nil|].
  rewrite IH. by rewrite !string_app_assoc.
Qed.

Lemma splitLogLines_unlines l : logLines l -> splitLogLines (unlines l) = l.
Proof.
  intros [Hl Hend]. destruct Hend as [->|(k & x & -> & Hx)]; [done|].
  assert (k ++ [x] <> []) as Hne by (by destruct k).
  pose proof Hl as Hlx. apply Forall_app in Hlx as [_ [[Hxl _] _]%List.Forall_cons_iff].
  assert (Forall (fun c => c <> crByte) (blist (unlines (k ++ [x])))) as Hcr.
  { clear Hne. induction Hl as [|s l [_ Hs] _ IH]; [constructor|]. cbn [unlines foldr]. rewrite !blist_app.
    apply Forall_app. split; [done|]. apply Forall_app. split; [by repeat constructor|done]. }
  unfold splitLogLines. cbv zeta. rewrite normEOL_id, btext_blist, <- (Join_unlines (k ++ [x])) by done.
  change lf with (btext [lfByte]). rewrite TrimRight_one.
  assert (exists y, Join (k ++ [x]) (btext [lfByte]) = (y ++ x)%string) as [y Hy].
  { destruct k as [|z k]; [by exists ""%string|]. rewrite Join_snoc by done. exists (Join (z :: k) (btext [lfByte]) ++ btext [lfByte])%string.
    by rewrite string_app_assoc. }
  rewrite Hy, TrimRight_keep by done. destruct (String.eqb_spec (y ++ x) "") as [He|_].
  { exfalso. apply Hx. destruct y; [done|discriminate He]. }
  rewrite <- Hy. apply Split_Join_sep; [done|]. eapply Forall_impl; [exact Hl|]. by intros s [? _].
Qed.

(** The stamp has no line ends. *)
Lemma digitOf_plain z c : byteZ c < 48 -> digitOf z <> c.
Proof.
  intros Hc He. apply (f_equal byteZ) in He. unfold digitOf in He. rewrite byteZ_of in He. unfold wrap8 in He.
  pose proof (Z.mod_pos_bound z 10 ltac:(lia)). rewrite Z.mod_small in He by lia. lia.
Qed.

Lemma stamp_lacks now c : byteZ c = 10 \/ byteZ c = 13 -> lacks c (stamp now).
Proof.
  intros Hc. unfold lacks, stamp, logTimestampLayout. rewrite blist_app, blist_btext.
  assert (forall d, c = d -> byteZ d = 10 \/ byteZ d = 13) as Hd by (by intros d <-).
  assert (forall d, byteZ d <> 10 -> byteZ d <> 13 -> d <> c) as Hn by (intros d H1 H2 ->; lia).
  assert (forall z, Forall (fun b => b <> c) (twoDigits z)) as Ht.
  { intros z. repeat constructor; apply digitOf_plain; lia. }
  repeat first [apply Forall_app; split | apply Ht | apply List.Forall_cons; [by apply Hn|] | apply List.Forall_nil].
Qed.

Lemma stamp_nonempty now s : (stamp now ++ s)%string <> ""%string.
Proof. discriminate. Qed.

Lemma stamped_logLines now msg : logLines (stamped now msg).
Proof.
  unfold stamped. destruct (splitLogLines_ok msg) as [Hl Hend]. split.
  - apply Forall_map. eapply Forall_impl; [exact Hl|]. cbv beta. intros s [H1 H2].
    split; unfold lacks; rewrite blist_app; apply Forall_app; (split; [|done]); apply stamp_lacks; [by left|by right].
  - destruct Hend as [->|(k & x & -> & _)]; [by left|]. right. rewrite map_app. cbn [map].
    eexists _, _. split; [reflexivity|]. apply stamp_nonempty.
Qed.

(** * Facts: the sinks *)

Lemma recordLine_last h line :
  (length h <= 2048)%nat -> line <> ""%string -> recordLine h line = lastn 2048 (h ++ [line]).
Proof.
  intros Hlen Hne. unfold recordLine. destruct (String.eqb_spec line ""); [done|].
  destruct (Z.ltb_spec (Z.of_nat (length h)) nexusLogHistoryCap) as [Hlt|Hge]; unfold nexusLogHistoryCap in *.
  - rewrite lastn_all; [done|]. rewrite length_app. cbn. lia.
  - assert (length h = 2048%nat) as Hh by lia. rewrite take_ge by (rewrite length_drop; lia).
    rewrite lastn_snoc. unfold lastn. by rewrite Hh.
Qed.

Lemma recordLines_last lines : forall h,
  (length h <= 2048)%nat -> Forall (fun s => s <> ""%string) lines ->
  foldl recordLine h lines = lastn 2048 (h ++ lines).
Proof.
  induction lines as [|x lines IH] using rev_ind; intros h Hlen Hl.
  - rewrite app_nil_r. cbn [foldl]. by rewrite lastn_all.
  - apply Forall_app in Hl as [Hl [Hx _]%List.Forall_cons_iff]. rewrite foldl_snoc, IH by done.
    rewrite recordLine_last by (try done; rewrite lastn_length; apply Nat.le_min_l).
    rewrite lastn_lastn_snoc by apply Nat.lt_0_succ. by rewrite <- app_assoc.
Qed.

Lemma stamped_nonempty now msg : Forall (fun s => s <> ""%string) (stamped now msg).
Proof. unfold stamped. apply Forall_map, Forall_forall. intros s _. apply stamp_nonempty. Qed.

Lemma formatTimestamped_stamped msg now : formatTimestampedLogText msg now = unlines (stamped now msg).
Proof. apply formatLogLines_unlines. Qed.

(** What the log remembers of its configuration. *)
Definition sameSetup (st st' : Logs) : Prop :=
  currentLogLevel st' = currentLogLevel st /\ fileLogLevel st' = fileLogLevel st
  /\ operatorConsoleTimestamp st' = operatorConsoleTimestamp st /\ nexusLogFile st' = nexusLogFile st.
(** The content of the open file. *)
Definition fileText (st : Logs) : option string := nexusLogFile st ≫= fun path => files st !! path.

Lemma record_stamped now msg st :
  (length (nexusLogHistory st) <= 2048)%nat ->
  recordNexusLogLine (formatTimestampedLogText msg now) st
  = st <| nexusLogHistory := lastn 2048 (nexusLogHistory st ++ stamped now msg) |>.
Proof.
  intros Hlen. unfold recordNexusLogLine. rewrite formatTimestamped_stamped.
  destruct (String.eqb_spec (unlines (stamped now msg)) "") as [He|_].
  - rewrite (unlines_nil _ He), app_nil_r, lastn_all by done. by destruct st.
  - rewrite splitLogLines_unlines by apply stamped_logLines.
    rewrite <- recordLines_last by (done || apply stamped_nonempty). by destruct st.
Qed.

Lemma writeFile_stamped now msg st text :
  fileText st = Some text ->
  let st' := writeNexusLogFile (formatTimestampedLogText msg now) st in
  fileText st' = Some (text ++ unlines (stamped now msg))%string
  /\ sameSetup st st' /\ nexusLogHistory st' = nexusLogHistory st /\ stderr st' = stderr st.
Proof.
  intros Ht. cbv zeta. unfold writeNexusLogFile. rewrite formatTimestamped_stamped.
  destruct (String.eqb_spec (unlines (stamped now msg)) "") as [He|_].
  - rewrite He, string_app_nil. by repeat split.
  - unfold fileText in *. destruct (nexusLogFile st) as [path|] eqn:Hp; [|done]. cbn in Ht |- *. rewrite Hp. cbn.
    rewrite lookup_insert_eq, Ht. by repeat split.
Qed.

Lemma writeConsole_lines now msg st :
  writeOperatorConsoleText (formatTimestampedLogText msg now) msg st
  = st <| stderr := (stderr st ++ unlines (if operatorConsoleTimestamp st then stamped now msg
                                           else splitLogLines msg))%string |>.
Proof.
  unfold writeOperatorConsoleText. cbv zeta.
  assert (formatLogLines msg "" = unlines (splitLogLines msg)) as ->.
  { rewrite formatLogLines_unlines. f_equal. rewrite <- (map_id (splitLogLines msg)) at 2. by apply map_ext. }
  rewrite formatTimestamped_stamped. destruct (operatorConsoleTimestamp st); cbn [negb];
    match goal with |- context [String.eqb (unlines ?l) _] => destruct (String.eqb_spec (unlines l) "") as [He|_] end;
    rewrite ?He, ?string_app_nil; by destruct st.
Qed.

Definition openLog (st : Logs) (text : string) : Prop :=
  (length (nexusLogHistory st) <= 2048)%nat /\ fileText st = Some text.

Lemma runCall_spec st c text :
  openLog st text ->
  let st' := runCall st c in
  sameSetup st st'
  /\ nexusLogHistory st' = lastn 2048 (nexusLogHistory st ++ tailLines (currentLogLevel st) c)
  /\ fileText st' = Some (text ++ unlines (tailLines (fileLogLevel st) c))%string
  /\ stderr st' = (stderr st ++ unlines (consoleLines (currentLogLevel st) (operatorConsoleTimestamp st) c))%string.
Proof.
  intros [Hlen Ht]. cbv zeta. destruct c as [level now cm fm|level now msg|now cm fm]; cbn [runCall tailLines consoleLines].
  - unfold logfSplit. cbv zeta. destruct (writeFile_stamped now fm st text Ht) as (Hf & Hs & Hh & He).
    destruct (level <=? fileLogLevel st), (level <=? currentLogLevel st); cbn [negb andb].
    + destruct Hs as (H1 & H2 & H3 & H4). rewrite record_stamped by (by rewrite Hh). rewrite writeConsole_lines.
      unfold sameSetup, fileText in *. cbn. rewrite Hh, He, H3. by repeat split.
    + rewrite Hh, app_nil_r, lastn_all, He, string_app_nil by done. by repeat split; apply Hs || apply Hf.
    + rewrite record_stamped by done. rewrite writeConsole_lines. unfold sameSetup, fileText in *. cbn.
      rewrite string_app_nil. by repeat split.
    + rewrite app_nil_r, lastn_all, !string_app_nil by done. by repeat split.
  - unfold logfNoTail. rewrite app_nil_r, lastn_all by done. cbn [unlines foldr]. rewrite (string_app_nil text).
    rewrite Z.ltb_antisym. destruct (level <=? currentLogLevel st); cbn [negb].
    + rewrite writeConsole_lines. unfold sameSetup, fileText in *. cbn. by repeat split.
    + cbn [unlines foldr]. rewrite string_app_nil. by repeat split.
  - unfold auditfSplit. cbv zeta. rewrite record_stamped by done.
    match goal with |- context [writeNexusLogFile _ ?s] => set (st1 := s) end.
    assert (fileText st1 = Some text) as Ht1 by done.
    destruct (writeFile_stamped now fm st1 text Ht1) as (Hf & (H1 & H2 & H3 & H4) & Hh & He).
    rewrite H1. change (currentLogLevel st1) with (currentLogLevel st). destruct (logDebug <=? currentLogLevel st).
    + rewrite writeConsole_lines. unfold sameSetup, fileText in *. cbn. rewrite H1, H2, H3, H4, Hh, He.
      rewrite H4 in Hf. by repeat split.
    + rewrite Hh, He. cbn [unlines foldr]. rewrite string_app_nil. by repeat split.
Qed.

Lemma runCalls_spec calls : forall st text,
  openLog st text ->
  let st' := foldl runCall st calls in
  sameSetup st st'
  /\ nexusLogHistory st' = lastn 2048 (nexusLogHistory st ++ flat_map (tailLines (currentLogLevel st)) calls)
  /\ fileText st' = Some (text ++ unlines (flat_map (tailLines (fileLogLevel st)) calls))%string
  /\ stderr st' = (stderr st ++ unlines (flat_map (consoleLines (currentLogLevel st) (operatorConsoleTimestamp st)) calls))%string.
Proof.
  induction calls as [|c calls IH] using rev_ind; intros st text Ho; cbv zeta.
  - cbn [foldl flat_map]. rewrite app_nil_r, lastn_all by apply Ho. cbn [unlines foldr]. rewrite !string_app_nil.
    split; [by repeat split|]. split_and!; [done|apply Ho|done].
  - rewrite foldl_snoc. destruct (IH st text Ho) as ((H1 & H2 & H3 & H4) & Hh & Hf & He).
    assert (openLog (foldl runCall st calls) (text ++ unlines (flat_map (tailLines (fileLogLevel st)) calls))) as Ho'.
    { split; [|done]. rewrite Hh, lastn_length. apply Nat.le_min_l. }
    destruct (runCall_spec _ c _ Ho') as ((K1 & K2 & K3 & K4) & Kh & Kf & Ke).
    rewrite Kh, Kf, Ke, Hh, He, H1, H2, H3, !flat_map_app, !unlines_app. cbn [flat_map]. rewrite !app_nil_r.
    unfold sameSetup. rewrite K1, K2, K3, K4, H1, H2, H3, H4, !string_app_assoc, app_assoc.
    rewrite lastn_lastn_app. by repeat split.
Qed.

Lemma tail_lastn n st : tailNexusLogLines n st = lastn (Z.to_nat n) (nexusLogHistory st).
Proof.
  unfold tailNexusLogLines, lastn. cbv zeta. destruct (Z.leb_spec n 0).
  - replace (Z.to_nat n) with 0%nat by lia. by rewrite Nat.sub_0_r, drop_all.
  - destruct (nexusLogHistory st) as [|x h]; [done|]. f_equal. lia.
Qed.

(** [logf]'s guard only saves the formatting: no sink wanted the message. *)
Lemma logf_logfSplit level now msg st : logf level now msg st = logfSplit level now msg msg st.
Proof.
  unfold logf, maxLogVerbosity, logfSplit. cbv zeta.
  destruct (Z.ltb_spec (fileLogLevel st) (currentLogLevel st)), (Z.leb_spec level (fileLogLevel st)),
    (Z.leb_spec level (currentLogLevel st)); cbn [negb andb];
  match goal with |- context [Z.ltb ?a level] => destruct (Z.ltb_spec a level) end; done || lia.
Qed.

(** slog's calls are the others': one of a level that no sink wants changes nothing. *)
Lemma slogLog_call h level now msg recordAttrs st :
  slogLog h level now msg recordAttrs st
  = runCall st (if isAudit h then callAudit now msg (renderRecord h msg recordAttrs)
                else callLog (slogToLogLevel level) now msg (renderRecord h msg recordAttrs)).
Proof.
  unfold slogLog, Enabled, Handle, emit. destruct (isAudit h); cbn [orb runCall]; [done|].
  unfold maxLogVerbosity, logfSplit. cbv zeta.
  destruct (Z.ltb_spec (fileLogLevel st) (currentLogLevel st)), (Z.leb_spec (slogToLogLevel level) (fileLogLevel st)),
    (Z.leb_spec (slogToLogLevel level) (currentLogLevel st)); cbn [negb andb]; done || lia.
Qed.

(** * Properties *)

(** C16.  The logs are what was logged: after any sequence of calls, the ring that [logs.tail]
    reads is the last 2048 of the lines of the calls the operator's level lets through and of every
    audit, each line stamped; the file has, after what it had, the lines of the calls its own level
    lets through and of every audit; the console has those of its level, stamped if configured; and
    the tail of [n] is the last [n] of the ring. *)
Theorem logs_refine st text calls :
  openLog st text ->
  let st' := foldl runCall st calls in
  nexusLogHistory st' = lastn 2048 (nexusLogHistory st ++ flat_map (tailLines (currentLogLevel st)) calls)
  /\ (forall n, tailNexusLogLines n st' = lastn (Z.to_nat n) (nexusLogHistory st'))
  /\ fileText st' = Some (text ++ unlines (flat_map (tailLines (fileLogLevel st)) calls))%string
  /\ stderr st' = (stderr st
       ++ unlines (flat_map (consoleLines (currentLogLevel st) (operatorConsoleTimestamp st)) calls))%string.
Proof.
  intros Ho. cbv zeta. destruct (runCalls_spec calls st text Ho) as (_ & Hh & Hf & He).
  split_and!; [done| |done|done]. intros n. apply tail_lastn.
Qed.

Definition clockAt (second : Z) : wallClock := mkClock 2024 6 1 12 30 second.
Definition openedLogs : Logs :=
  snd (configureNexusLogFile (fun _ => None) (fun _ => None) "/app/logs" (snd (initLogging (H := plain_unicode) "warn" "0" logsInit))).
Definition someCalls : list logCall :=
  [callLog logInfo (clockAt 1) "started" "started port=26000";
   callAudit (clockAt 2) "ban" ("ban" ++ btext [crByte; lfByte] ++ "two" ++ lf);
   callLog logError (clockAt 3) "broken" "broken err=x"; callNoTail logWarn (clockAt 4) "map start"]%string.
Lemma logs_refine_witness :
  nexusLogHistory (foldl runCall openedLogs someCalls)
  = lastn 2048 (nexusLogHistory openedLogs ++ flat_map (tailLines (currentLogLevel openedLogs)) someCalls)
  /\ tailNexusLogLines 2 (foldl runCall openedLogs someCalls) = ["2024/06/01 12:30:02 two"; "2024/06/01 12:30:03 broken err=x"]%string
  /\ stderr (foldl runCall openedLogs someCalls) = ("broken" ++ lf ++ "map start" ++ lf)%string.
Proof.
  assert (openLog openedLogs "") as Ho by (split; [apply Nat.le_0_l|vm_compute; reflexivity]).
  destruct (logs_refine openedLogs "" someCalls Ho) as (Hh & _ & _ & _).
  split; [exact Hh|]. split; vm_compute; reflexivity.
Defined.

(** The handler gives the attributes added before a group the prefix of the group, which slog's
    contract reserves for those added after. *)
Example group_after_attrs :
  renderRecord (WithGroup "g" (WithAttrs [mkAttr "a" (shown "1")] defaultHandler)) "m" [mkAttr "b" (shown "2")]
  = "m g.a=1 g.b=2"%string.
Proof. reflexivity. Qed.

(** Probes are noise; a certificate that could not be issued is not. *)
Example noise_examples :
  map isBenignHandshakeNoise
    ["http: TLS handshake error from 1.2.3.4:5: EOF";
     "http: TLS handshake error from 1.2.3.4:5: acme/autocert: missing server name";
     "http: TLS handshake error from 1.2.3.4:5: acme/autocert: host x not configured in HostWhitelist";
     "http: TLS handshake error from 1.2.3.4:5: 429 urn:ietf:params:acme:error:rateLimited";
     "http: panic serving 1.2.3.4:5"]%string
  = [true; true; true; false; false].
Proof. reflexivity. Qed.
