(* ===== verification/Hub.v ===== *)
(** The state channel: sse.go.

    One loop polls a builder and signals every subscriber when what it built changed; each
    subscriber, a request of /events, re-reads the snapshot when it is signalled.  The loop and the
    handlers interleave: each critical section is a step.  What the builder would return at a moment
    is a part of the state that changes by itself. *)
From S2P Require Import Prelude GoStrings.

(** * The stream of a subscriber *)

(** sse.go [writeStateEvent], and the heartbeat of [handleEvents] *)
Definition writeStateEvent (data : string) : string := ("event: state" ++ lf ++ "data: " ++ data ++ lf ++ lf)%string.
Definition pingEvent : string := (": ping" ++ lf ++ lf)%string.

(** * Subscribers and the hub *)

(** Where a handler is in [handleEvents]: about to take the snapshot, about to build one because
    the hub had none, about to write one, waiting in the select. *)
Inductive subPhase := toLoad | toBuild | toWrite (data : string) | waiting.

(** A subscriber: its channel of capacity 1, and what it wrote. *)
Record subscriber := mkSub { pending : bool; phase : subPhase; painted : option string; sent : string }.
#[export] Instance eta_subscriber : EtaRecord subscriber := fun s =>
  mkSub (pending s) (phase s) (painted s) (sent s).

(** Where the loop of [run] is: at the ticker, about to build, about to commit what it built,
    returned. *)
Inductive runPhase := runTick | runBuild | runCommit (snap : string) | runDone.

(** sse.go [stateHub]; [current] is what the builder would return now. *)
Record stateHub := mkHub { last : option string; subs : gmap Z subscriber; loop : runPhase; current : string }.
#[export] Instance eta_hub : EtaRecord stateHub := fun h => mkHub (last h) (subs h) (loop h) (current h).
Definition newStateHub (current : string) : stateHub := mkHub None ∅ runTick current.

(** sse.go [subscribe]: a new channel *)
Definition subscribe (ch : Z) (h : stateHub) : stateHub :=
  h <| subs ::= <[ch := mkSub false toLoad None ""]> |>.
(** and the function that it returns. *)
Definition unsubscribe (ch : Z) (h : stateHub) : stateHub := h <| subs ::= delete ch |>.

Definition onSub (ch : Z) (f : subscriber -> subscriber) (h : stateHub) : stateHub :=
  h <| subs ::= alter f ch |>.

(** sse.go [snapshot]: under the lock, *)
Definition snapshotRead (h : stateHub) (s : subscriber) : subscriber :=
  s <| phase := match last h with None => toBuild | Some data => toWrite data end |>.
(** and after it. *)
Definition snapshotBuild (h : stateHub) (s : subscriber) : subscriber := s <| phase := toWrite (current h) |>.

(** sse.go [handleEvents]: writing a snapshot, receiving a signal, the heartbeat *)
Definition writeSnapshot (data : string) (s : subscriber) : subscriber :=
  s <| phase := waiting |> <| painted := Some data |> <| sent ::= fun t => (t ++ writeStateEvent data)%string |>.
Definition receive (s : subscriber) : subscriber := s <| pending := false |> <| phase := toLoad |>.
Definition heartbeat (s : subscriber) : subscriber := s <| sent ::= fun t => (t ++ pingEvent)%string |>.

(** sse.go [run]: a tick looks for subscribers, builds, and commits *)
Definition tick (h : stateHub) : stateHub :=
  if 0 <? Z.of_nat (size (subs h)) then h <| loop := runBuild |> else h.
Definition build (h : stateHub) : stateHub := h <| loop := runCommit (current h) |>.
(** a signal that finds the channel full is coalesced with the one in it *)
Definition signal (s : subscriber) : subscriber := s <| pending := true |>.
Definition commit (snap : string) (h : stateHub) : stateHub :=
  let changed := negb (snap =? default ""%string (last h))%string in
  let h := h <| last := Some snap |> in
  let h := if changed then h <| subs ::= fmap signal |> else h in
  h <| loop := runTick |>.

(** What the builder returns is the text of a JSON object: it has no line ends. *)
Definition snapshotText (v : string) : Prop := v <> ""%string /\ lacks lfByte v /\ lacks crByte v.
#[export] Instance snapshotText_dec v : Decision (snapshotText v).
Proof. unfold snapshotText, lacks. apply _. Defined.

(** What happens: a step of a handler, of the loop, or of the world; none when it cannot happen. *)
Inductive event :=
  | evChange (v : string)
  | evSubscribe (ch : Z) | evGone (ch : Z)
  | evRead (ch : Z) | evBuild (ch : Z) | evWrite (ch : Z) | evReceive (ch : Z) | evHeartbeat (ch : Z)
  | evTick | evHubBuild | evCommit | evStop.
Definition step (e : event) (h : stateHub) : option stateHub :=
  match e with
  | evChange v => if bool_decide (snapshotText v) then Some (h <| current := v |>) else None
  | evSubscribe ch => match subs h !! ch with None => Some (subscribe ch h) | Some _ => None end
  | evTick => match loop h with runTick => Some (tick h) | _ => None end
  | evHubBuild => match loop h with runBuild => Some (build h) | _ => None end
  | evCommit => match loop h with runCommit snap => Some (commit snap h) | _ => None end
  | evStop => match loop h with runTick => Some (h <| loop := runDone |>) | _ => None end
  | evGone ch | evRead ch | evBuild ch | evWrite ch | evReceive ch | evHeartbeat ch =>
      match subs h !! ch with
      | None => None
      | Some s =>
          match e, phase s with
          | evGone _, waiting => Some (unsubscribe ch h)
          | evRead _, toLoad => Some (onSub ch (snapshotRead h) h)
          | evBuild _, toBuild => Some (onSub ch (snapshotBuild h) h)
          | evWrite _, toWrite data => Some (onSub ch (writeSnapshot data) h)
          | evReceive _, waiting => if pending s then Some (onSub ch receive h) else None
          | evHeartbeat _, waiting => Some (onSub ch heartbeat h)
          | _, _ => None
          end
      end
  end.
Fixpoint steps (es : list event) (h : stateHub) : option stateHub :=
  match es with
  | [] => Some h
  | e :: es => match step e h with Some h => steps es h | None => None end
  end.
Inductive hreachable : stateHub -> Prop :=
  | hreach_init v : snapshotText v -> hreachable (newStateHub v)
  | hreach_step h e h' : hreachable h -> step e h = Some h' -> hreachable h'.

(** What a handler does when nothing else moves, until it waits with nothing to read. *)
Definition serveStep (ch : Z) (h : stateHub) : stateHub :=
  match subs h !! ch with
  | None => h
  | Some s =>
      match phase s with
      | toLoad => onSub ch (snapshotRead h) h
      | toBuild => onSub ch (snapshotBuild h) h
      | toWrite data => onSub ch (writeSnapshot data) h
      | waiting => if pending s then onSub ch receive h else h
      end
  end.
Definition serve (ch : Z) (h : stateHub) : stateHub := Nat.iter 6 (serveStep ch) h.

(** * What a browser makes of the stream

    The lines of the stream up to the last line end: fields, comments, and empty lines that end an
    event; an event without data is none. *)
Fixpoint sseLines (type : string) (data : option string) (lines : list string) : list (string * string) :=
  match lines with
  | [] => []
  | line :: lines =>
      if (line =? "")%string then
        match data with Some d => [(type, d)] | None => [] end ++ sseLines "message" None lines
      else if HasPrefix line ":" then sseLines type data lines
      else if HasPrefix line "event: " then sseLines (TrimPrefix line "event: ") data lines
      else if HasPrefix line "data: " then
        let d := TrimPrefix line "data: " in
        sseLines type (Some match data with Some p => (p ++ lf ++ d)%string | None => d end) lines
      else sseLines type data lines
  end.
Definition sseParse (s : string) : list (string * string) := sseLines "message" None (removelast (Split s lfByte)).

(** * Facts *)

(** What was written, piece by piece: a snapshot, or a ping. *)
Definition sentLines (o : option string) : list string :=
  match o with
  | Some d => ["event: state"; "data: " ++ d; ""]
  | None => [": ping"; ""]
  end%string.
Definition sentOf (outs : list (option string)) : string := unlines (flat_map sentLines outs).

Lemma sentOf_snoc outs o :
  sentOf (outs ++ [o]) = (sentOf outs ++ match o with Some d => writeStateEvent d | None => pingEvent end)%string.
Proof.
  unfold sentOf. rewrite flat_map_app, unlines_app. f_equal. cbn [flat_map]. rewrite app_nil_r.
  destruct o; cbn [sentLines unlines foldr]; unfold writeStateEvent, pingEvent; rewrite ?string_app_assoc, ?string_app_nil; done.
Qed.

Lemma Split_unlines l : Forall (lacks lfByte) l -> Split (unlines l) lfByte = l ++ [""%string].
Proof.
  induction 1 as [|s l Hs _ IH]; [done|]. cbn [unlines foldr]. change lf with (btext [lfByte]).
  rewrite Split_app_sep, Split_whole by done. cbn [app]. f_equal. exact IH.
Qed.

Lemma TrimPrefix_app p s : TrimPrefix (p ++ s) p = s.
Proof.
  unfold TrimPrefix. rewrite HasPrefix_app, blist_app, drop_app_length. apply btext_blist.
Qed.

Lemma sseLines_sent outs :
  sseLines "message" None (flat_map sentLines outs) = map (pair "state"%string) (omap (fun o => o) outs).
Proof.
  induction outs as [|[d|] outs IH]; [done| |done]. cbn [flat_map sentLines app]. cbn [sseLines].
  change (String.eqb "event: state" "") with false. change (HasPrefix "event: state" ":") with false.
  change (HasPrefix "event: state" "event: ") with true. change (TrimPrefix "event: state" "event: ") with "state"%string.
  cbv iota. change (String.eqb ("data: " ++ d) "") with false. change (HasPrefix ("data: " ++ d) ":") with false.
  change (HasPrefix ("data: " ++ d) "event: ") with false. rewrite HasPrefix_app, TrimPrefix_app. cbv iota zeta.
  change (String.eqb "" "") with true. cbv iota. cbn [app omap list_omap map]. by rewrite IH.
Qed.

Lemma sseParse_sent outs :
  Forall (fun o => match o with Some d => lacks lfByte d | None => True end) outs ->
  sseParse (sentOf outs) = map (pair "state"%string) (omap (fun o => o) outs).
Proof.
  intros Ho. unfold sseParse, sentOf. rewrite Split_unlines.
  - rewrite removelast_app by done. cbn [removelast]. rewrite app_nil_r. apply sseLines_sent.
  - induction Ho as [|o outs Hd _ IH]; [constructor|]. cbn [flat_map]. apply Forall_app. split; [|done].
    destruct o as [d|]; cbn [sentLines]; repeat (apply List.Forall_cons || apply List.Forall_nil);
      try (unfold lacks; cbn; by repeat constructor).
Qed.

(** ** The invariant *)

(** What a subscriber has, unless it has a signal to receive; and what it wrote. *)
Definition upToDate (h : stateHub) (s : subscriber) : Prop :=
  match phase s with
  | toLoad => True
  | toBuild => last h = None
  | toWrite v => last h = None \/ last h = Some v
  | waiting => last h = None \/ last h = painted s
  end.
Definition sentOK (s : subscriber) : Prop :=
  exists outs, sent s = sentOf outs /\ Forall (fun o => match o with Some d => snapshotText d | None => True end) outs
    /\ List.last (omap (fun o => o) outs) ""%string = default ""%string (painted s)
    /\ match phase s with
       | toWrite v => snapshotText v
       | waiting => is_Some (painted s)
       | _ => True
       end.
Definition sub_ok (h : stateHub) (s : subscriber) : Prop := (pending s = true \/ upToDate h s) /\ sentOK s.
Definition hub_ok (h : stateHub) : Prop :=
  snapshotText (current h)
  /\ (forall v, last h = Some v -> snapshotText v)
  /\ (forall v, loop h = runCommit v -> snapshotText v)
  /\ map_Forall (fun _ s => sub_ok h s) (subs h).

Lemma last_snoc_some {A} (l : list A) x d : List.last (l ++ [x]) d = x.
Proof. apply last_last. Qed.

Lemma sentOK_write data s : snapshotText data -> sentOK s -> sentOK (writeSnapshot data s).
Proof.
  intros Hd (outs & Hs & Hf & Hl & Hp). exists (outs ++ [Some data]). unfold writeSnapshot. cbn.
  rewrite sentOf_snoc, Hs, omap_app. cbn. rewrite last_snoc_some. split_and!; [done| |done|by eexists].
  apply Forall_app. split; [done|]. constructor; [done|constructor].
Qed.

Lemma sentOK_ping s : sentOK s -> sentOK (heartbeat s).
Proof.
  intros (outs & Hs & Hf & Hl & Hp). exists (outs ++ [None]). unfold heartbeat. cbn.
  rewrite sentOf_snoc, Hs, omap_app. cbn. rewrite app_nil_r. split_and!; [done| |done|done].
  apply Forall_app. split; [done|]. constructor; [done|constructor].
Qed.

Lemma sentOK_phase s (f : subscriber -> subscriber) :
  sent (f s) = sent s -> painted (f s) = painted s ->
  match phase (f s) with toWrite v => snapshotText v | waiting => is_Some (painted s) | _ => True end ->
  sentOK s -> sentOK (f s).
Proof.
  intros Hs Hp Hph (outs & H1 & H2 & H3 & _). exists outs. rewrite Hs, Hp. split_and!; try done.
Qed.

(** A step of one subscriber. *)
Lemma onSub_ok ch f h s :
  hub_ok h -> subs h !! ch = Some s -> sub_ok h (f s) -> hub_ok (onSub ch f h).
Proof.
  intros (H1 & H2 & H3 & H4) Hs Hf. unfold onSub. unfold hub_ok; split_and!; cbn; try (apply H1 || apply H2 || apply H3).
  intros ch' s' Hl. destruct (decide (ch = ch')) as [<-|Hne].
  - rewrite lookup_alter_eq, Hs in Hl. cbn in Hl. injection Hl as <-. exact Hf.
  - rewrite lookup_alter_ne in Hl by done. exact (H4 _ _ Hl).
Qed.

Lemma serve_sub_ok h s :
  hub_ok h -> sub_ok h s ->
  sub_ok h (match phase s with
            | toLoad => snapshotRead h s
            | toBuild => snapshotBuild h s
            | toWrite data => writeSnapshot data s
            | waiting => if pending s then receive s else s
            end).
Proof.
  intros (H1 & H2 & _ & _) [Hp Hs]. destruct (phase s) as [| |data|] eqn:Hph.
  - split; [right|].
    + unfold upToDate, snapshotRead. cbn. destruct (last h) as [v|] eqn:Hl; [by right|done].
    + apply (sentOK_phase s (snapshotRead h)); try done. cbn. destruct (last h); auto.
  - split.
    + destruct Hp as [Hp|Hp]; [by left|]. right. unfold upToDate in *. rewrite Hph in Hp. cbn. by left.
    + by apply (sentOK_phase s (snapshotBuild h)).
  - assert (snapshotText data) as Hd by (destruct Hs as (? & _ & _ & _ & Hd); by rewrite Hph in Hd).
    split; [|by apply sentOK_write]. destruct Hp as [Hp|Hp]; [by left|]. right.
    unfold upToDate in *. rewrite Hph in Hp. cbn. by destruct Hp; [left|right].
  - destruct (pending s) eqn:Hpe; [|by split; [right; destruct Hp|]]. split; [by right|].
    by apply (sentOK_phase s receive).
Qed.

Lemma sub_ok_hub h h' s : last h' = last h -> sub_ok h s -> sub_ok h' s.
Proof. intros Hl [Hp Hs]. split; [|done]. unfold upToDate in *. by rewrite Hl. Qed.

Lemma commit_ok snap h : loop h = runCommit snap -> hub_ok h -> hub_ok (commit snap h).
Proof.
  intros Hloop (H1 & H2 & H3 & H4). assert (snapshotText snap) as Hs by by apply H3.
  unfold commit. cbv zeta. destruct (String.eqb_spec snap (default ""%string (last h))) as [He|Hne]; cbn [negb].
  - assert (last h = Some snap) as Hl.
    { destruct (last h) as [v|]; cbn in He; [by subst|]. by destruct Hs as [Hs _]. }
    unfold hub_ok; split_and!; cbn; try (apply H1 || done).
    + by intros v [= <-].
    + intros ch s Hch. eapply sub_ok_hub; [|by eapply H4]. done.
  - unfold hub_ok; split_and!; cbn; try (apply H1 || done).
    + by intros v [= <-].
    + intros ch s Hch. rewrite lookup_fmap in Hch. destruct (subs h !! ch) as [s0|] eqn:H0; [|done].
      injection Hch as <-. destruct (H4 _ _ H0) as [_ Hok]. split; [by left|]. apply (sentOK_phase s0 signal); try done.
      cbn. by destruct Hok as (? & _ & _ & _ & ?).
Qed.

Lemma step_ok h e h' : hub_ok h -> step e h = Some h' -> hub_ok h'.
Proof.
  intros Hok. assert (forall ch s, subs h !! ch = Some s -> sub_ok h s) as Hsub by apply Hok.
  destruct e as [v|ch|ch|ch|ch|ch|ch|ch| | | |]; cbn [step];
    try (destruct (subs h !! ch) as [s|] eqn:Hs; [|done]; destruct (phase s) as [| |data|] eqn:Hph; try done;
         pose proof (serve_sub_ok h s Hok (Hsub _ _ Hs)) as Hserve; rewrite Hph in Hserve);
    try (intros [= <-]; by eapply onSub_ok).
  - destruct (bool_decide_reflect (snapshotText v)); [|done]. intros [= <-]. destruct Hok as (_ & H2 & H3 & H4).
    by unfold hub_ok; split_and!.
  - destruct (subs h !! ch) eqn:Hs; [done|]. intros [= <-]. destruct Hok as (H1 & H2 & H3 & H4).
    unfold hub_ok; split_and!; cbn; try (apply H1 || done). apply map_Forall_insert_2; [|done]. split; [by right|].
    exists []. by repeat split.
  - intros [= <-]. destruct Hok as (H1 & H2 & H3 & H4). unfold hub_ok; split_and!; cbn; try (apply H1 || done).
    by apply map_Forall_delete.
  - destruct (pending s); [|done]. intros [= <-]. by eapply onSub_ok.
  - intros [= <-]. eapply onSub_ok; [done..|]. destruct (Hsub _ _ Hs) as [Hp Hse]. split; [|by apply sentOK_ping].
    destruct Hp; [by left|by right].
  - destruct (loop h) eqn:Hl; try done. intros [= <-]. unfold tick. destruct (0 <? _); [|done].
    destruct Hok as (H1 & H2 & H3 & H4). by unfold hub_ok; split_and!.
  - destruct (loop h) eqn:Hl; try done. intros [= <-]. destruct Hok as (H1 & H2 & H3 & H4). unfold hub_ok; split_and!; cbn; try (apply H1 || done).
    intros v [= <-]. done.
  - destruct (loop h) eqn:Hl; try done. intros [= <-]. by apply commit_ok.
  - destruct (loop h) eqn:Hl; try done. intros [= <-]. destruct Hok as (H1 & H2 & H3 & H4). by unfold hub_ok; split_and!.
Qed.

Lemma hreachable_ok h : hreachable h -> hub_ok h.
Proof.
  induction 1 as [v Hv|h e h' _ IH Hs]; [|by eapply step_ok]. by unfold hub_ok; split_and!.
Qed.

(** ** Serving a subscriber *)

Lemma serveStep_hub ch h : last (serveStep ch h) = last h /\ current (serveStep ch h) = current h /\ loop (serveStep ch h) = loop h.
Proof.
  unfold serveStep. destruct (subs h !! ch) as [s|]; [|done].
  destruct (phase s); try done. by destruct (pending s).
Qed.

Lemma serveStep_ok ch h : hub_ok h -> hub_ok (serveStep ch h).
Proof.
  intros Hok. unfold serveStep. destruct (subs h !! ch) as [s|] eqn:Hs; [|done].
  pose proof (serve_sub_ok h s Hok ltac:(by eapply Hok)) as Hserve.
  destruct (phase s); try by eapply onSub_ok. destruct (pending s); [|done]. by eapply onSub_ok.
Qed.

(** What a step makes of the subscriber, when the hub has a snapshot. *)
Definition serveSub (v cur : string) (s : subscriber) : subscriber :=
  match phase s with
  | toLoad => s <| phase := toWrite v |>
  | toBuild => s <| phase := toWrite cur |>
  | toWrite data => writeSnapshot data s
  | waiting => if pending s then receive s else s
  end.

Lemma serveStep_lookup ch h v s :
  last h = Some v -> subs h !! ch = Some s ->
  subs (serveStep ch h) !! ch = Some (serveSub v (current h) s).
Proof.
  intros Hl Hs. unfold serveStep, serveSub. rewrite Hs.
  destruct (phase s) eqn:Hp; try (unfold onSub; cbn; rewrite lookup_alter_eq, Hs; cbn; try done).
  - unfold snapshotRead. by rewrite Hl.
  - destruct (pending s); [|done]. unfold onSub. cbn. by rewrite lookup_alter_eq, Hs.
Qed.

Lemma serve_lookup ch h v s :
  last h = Some v -> subs h !! ch = Some s ->
  subs (serve ch h) !! ch = Some (Nat.iter 6 (serveSub v (current h)) s).
Proof.
  intros Hl Hs. unfold serve. generalize 6%nat as n. intros n.
  enough (subs (Nat.iter n (serveStep ch) h) !! ch = Some (Nat.iter n (serveSub v (current h)) s)
          /\ last (Nat.iter n (serveStep ch) h) = Some v
          /\ current (Nat.iter n (serveStep ch) h) = current h) by tauto.
  induction n as [|n (IH1 & IH2 & IH3)]; [done|]. rewrite !Nat.iter_succ.
  destruct (serveStep_hub ch (Nat.iter n (serveStep ch) h)) as (H1 & H2 & _).
  rewrite H1, H2. split_and!; [|done|done]. by rewrite <- IH3, (serveStep_lookup ch _ v _ IH2 IH1), IH3.
Qed.

(** Six steps are enough to wait with no signal. *)
Lemma serveSub_waits v cur s :
  let s' := Nat.iter 6 (serveSub v cur) s in phase s' = waiting /\ pending s' = false.
Proof. destruct s as [p ph pa se]. destruct p, ph; vm_compute; done. Qed.

Lemma serve_ok ch h : hub_ok h -> hub_ok (serve ch h).
Proof. intros Hok. unfold serve. generalize 6%nat as n. induction n; [done|]. by apply serveStep_ok. Qed.

(** The stream of a subscriber that has written ends with what it painted last. *)
Lemma sentOK_parse s v :
  sentOK s -> painted s = Some v -> v <> ""%string -> List.last (sseParse (sent s)) ("", "")%string = ("state", v)%string.
Proof.
  intros (outs & Hs & Hf & Hl & _) Hp Hv. rewrite Hs, sseParse_sent.
  - rewrite Hp in Hl. cbn in Hl. destruct (last_exists_or (omap (fun o => o) outs)) as [He|(k & x & He)]; rewrite He in *.
    + cbn in Hl. congruence.
    + rewrite last_last in Hl. subst x. rewrite map_app. cbn [map]. apply last_last.
  - eapply Forall_impl; [exact Hf|]. cbv beta. intros [d|]; [|done]. by intros (_ & ? & _).
Qed.

(** * Properties *)

(** No change is missed: at any moment of any interleaving of the loop, the handlers and the
    changes, a subscriber that waits and has no signal to receive last wrote, and its browser last
    parsed, exactly the snapshot the hub committed last. *)
Theorem hub_no_missed_change h ch s v :
  hreachable h -> subs h !! ch = Some s -> phase s = waiting -> pending s = false -> last h = Some v ->
  painted s = Some v /\ List.last (sseParse (sent s)) ("", "")%string = ("state", v)%string.
Proof.
  intros Hr Hs Hph Hp Hl. destruct (hreachable_ok h Hr) as (_ & Hv & _ & Hsub).
  destruct (Hsub _ _ Hs) as [Hu Hse]. assert (painted s = Some v) as Hpa.
  { destruct Hu as [?|Hu]; [congruence|]. unfold upToDate in Hu. rewrite Hph, Hl in Hu. by destruct Hu. }
  split; [done|]. apply sentOK_parse; [done..|]. by destruct (Hv v Hl).
Qed.

(** C19.  Everyone converges: from any reachable moment, one round of the loop and then the steps
    of a subscriber's own handler leave it waiting, without a signal, having delivered what the
    builder returns. *)
Theorem hub_converges h ch s :
  hreachable h -> loop h = runTick -> subs h !! ch = Some s ->
  exists h1 s',
    steps [evTick; evHubBuild; evCommit] h = Some h1
    /\ subs (serve ch h1) !! ch = Some s' /\ phase s' = waiting /\ pending s' = false
    /\ painted s' = Some (current h)
    /\ List.last (sseParse (sent s')) ("", "")%string = ("state"%string, current h).
Proof.
  intros Hr Hloop Hs. pose proof (hreachable_ok h Hr) as Hok.
  assert (tick h = h <| loop := runBuild |>) as Htick.
  { unfold tick. destruct (Z.ltb_spec 0 (Z.of_nat (size (subs h)))) as [|Hsz]; [done|]. exfalso.
    assert (size (subs h) <> 0%nat) as Hn; [|lia]. intros H0%map_size_empty_iff. by rewrite H0, lookup_empty in Hs. }
  set (h1 := commit (current h) (build (tick h))).
  assert (steps [evTick; evHubBuild; evCommit] h = Some h1) as Hsteps.
  { unfold h1. cbn [steps step]. by rewrite Hloop, Htick. }
  assert (hub_ok h1 /\ last h1 = Some (current h) /\ current h1 = current h) as (Hok1 & Hl1 & Hc1).
  { split.
    - unfold h1. rewrite Htick. apply commit_ok; [done|]. destruct Hok as (H1 & H2 & H3 & H4). unfold hub_ok. split_and!; cbn; try done.
      by intros v [= <-].
    - unfold h1, commit. rewrite Htick. cbv zeta. by destruct (negb _). }
  assert (exists s1, subs h1 !! ch = Some s1) as [s1 Hs1].
  { unfold h1, commit. rewrite Htick. cbv zeta. destruct (negb _); cbn; [|by exists s].
    exists (signal s). by rewrite lookup_fmap, Hs. }
  pose proof (serve_lookup ch h1 _ s1 Hl1 Hs1) as Hserve. destruct (serveSub_waits (current h) (current h1) s1) as [Hw Hnp].
  pose proof (serve_ok ch h1 Hok1) as (_ & _ & _ & Hsub). destruct (Hsub _ _ Hserve) as [Hu Hse].
  assert (last (serve ch h1) = Some (current h)) as Hlast.
  { unfold serve. generalize 6%nat as n. induction n as [|n IH]; [done|]. rewrite !Nat.iter_succ. by rewrite (proj1 (serveStep_hub _ _)). }
  assert (painted (Nat.iter 6 (serveSub (current h) (current h1)) s1) = Some (current h)) as Hpa.
  { destruct Hu as [?|Hu]; [congruence|]. unfold upToDate in Hu. rewrite Hw, Hlast in Hu. by destruct Hu. }
  eexists h1, _. split_and!; [exact Hsteps|exact Hserve|exact Hw|exact Hnp|exact Hpa|].
  apply sentOK_parse; [done..|]. by destruct Hok as [[? _] _].
Qed.

(** ** Runs *)

Lemma steps_reachable es : forall h h', hreachable h -> steps es h = Some h' -> hreachable h'.
Proof.
  induction es as [|e es IH]; intros h h' Hr; cbn [steps]; [by intros [= <-]|].
  destruct (step e h) as [h1|] eqn:Hs; [|done]. apply IH. by eapply hreach_step.
Qed.

Definition runFrom (v : string) (es : list event) : stateHub := default (newStateHub v) (steps es (newStateHub v)).
Lemma runFrom_reachable v es :
  snapshotText v -> is_Some (steps es (newStateHub v)) -> hreachable (runFrom v es).
Proof.
  intros Hv [h Hh]. unfold runFrom. rewrite Hh. eapply steps_reachable; [|exact Hh]. by apply hreach_init.
Qed.

(** A first page, served while the loop makes its first round, and a change. *)
Definition boot : list event :=
  [evSubscribe 1; evRead 1; evTick; evHubBuild; evBuild 1; evChange "{v2}"; evCommit; evWrite 1; evHeartbeat 1]%string.
Definition bootServed : list event := boot ++ [evTick; evHubBuild; evCommit; evReceive 1; evRead 1; evWrite 1].
Definition subOf (h : stateHub) (ch : Z) : subscriber := default (mkSub false toLoad None "") (subs h !! ch).
Lemma hub_no_missed_change_witness :
  painted (subOf (runFrom "{v1}" bootServed) 1) = Some "{v2}"%string
  /\ sseParse (sent (subOf (runFrom "{v1}" bootServed) 1)) = [("state", "{v1}"); ("state", "{v2}")]%string.
Proof.
  assert (hreachable (runFrom "{v1}" bootServed)) as Hr.
  { apply runFrom_reachable; [apply (bool_decide_eq_true_1 _); vm_compute; reflexivity|vm_compute; by eexists]. }
  assert (subs (runFrom "{v1}" bootServed) !! 1 = Some (subOf (runFrom "{v1}" bootServed) 1)) as Hs by (vm_compute; reflexivity).
  destruct (hub_no_missed_change _ 1 _ "{v2}" Hr Hs) as [Hp _]; [vm_compute; reflexivity..|].
  split; [exact Hp|vm_compute; reflexivity].
Defined.

Lemma hub_converges_witness :
  exists h1 s', steps [evTick; evHubBuild; evCommit] (runFrom "{v1}" boot) = Some h1
  /\ subs (serve 1 h1) !! 1 = Some s' /\ painted s' = Some "{v2}"%string.
Proof.
  assert (hreachable (runFrom "{v1}" boot)) as Hr.
  { apply runFrom_reachable; [apply (bool_decide_eq_true_1 _); vm_compute; reflexivity|vm_compute; by eexists]. }
  assert (subs (runFrom "{v1}" boot) !! 1 = Some (subOf (runFrom "{v1}" boot) 1)) as Hs by (vm_compute; reflexivity).
  destruct (hub_converges (runFrom "{v1}" boot) 1 (subOf (runFrom "{v1}" boot) 1) Hr) as (h1 & s' & H1 & H2 & _ & _ & H3 & _); [vm_compute; reflexivity|exact Hs|].
  exists h1, s'. split; [exact H1|]. split; [exact H2|]. rewrite H3. vm_compute. reflexivity.
Defined.

(** The first snapshot of a page that comes when no other is there is the one committed when the
    last page left, not the current state: it is right from the next round on. *)
Example stale_first_paint :
  let es := [evSubscribe 1; evTick; evHubBuild; evCommit; evRead 1; evWrite 1; evReceive 1; evRead 1; evWrite 1; evGone 1;
             evChange "{v2}"; evTick; evSubscribe 2; evRead 2; evWrite 2]%string in
  let h := runFrom "{v1}" es in
  is_Some (steps es (newStateHub "{v1}")) /\ painted (subOf h 2) = Some "{v1}"%string /\ current h = "{v2}"%string
  /\ loop h = runTick /\ pending (subOf h 2) = false.
Proof. vm_compute. split; [by eexists|done]. Qed.
