(* ===== verification/Json.v ===== *)
(** JSON values: what the program uses of encoding/json.

    Reading a text into a value and writing a value as text are the library's; how a value is stored
    into a struct of strings, integers and lists of strings, and how a struct is made a value, are
    defined here as encoding/json documents them. *)
From S2P Require Import Prelude GoStrings.

Inductive json :=
  | JNull | JBool (b : bool) | JNumber (text : string) | JString (s : string)
  | JArray (l : list json) | JObject (fields : list (string * json)).

(** The library: a text's value if it is valid, a value's text, the error of a value that does not
    fit the field it is stored in, and a time's text. *)
Class GoJSON := {
  json_parse : string -> option json;
  json_text : json -> string;
  json_misfit : string -> json -> string;
  json_time : Z -> string;
}.

(** * Storing a value

    A value that does not fit leaves the field as it was, and the first misfit is the error; null
    changes nothing. *)
Definition setString {T} (put : string -> T -> T) (j : json) (v : T) : option T :=
  match j with JString s => Some (put s v) | JNull => Some v | _ => None end.
Definition setInt {T} (put : Z -> T -> T) (j : json) (v : T) : option T :=
  match j with
  | JNumber t => match Atoi t with Some n => Some (put n v) | None => None end
  | JNull => Some v
  | _ => None
  end.
Fixpoint stringsOf (l : list json) : option (list string) :=
  match l with
  | [] => Some []
  | JString s :: l => match stringsOf l with Some r => Some (s :: r) | None => None end
  | JNull :: l => match stringsOf l with Some r => Some (""%string :: r) | None => None end
  | _ :: _ => None
  end.
Definition setStrings {T} (put : list string -> T -> T) (j : json) (v : T) : option T :=
  match j with
  | JArray l => match stringsOf l with Some r => Some (put r v) | None => None end
  | JNull => Some (put [] v)
  | _ => None
  end.
(** json.RawMessage keeps any value, null too. *)
Definition setRaw {T} (put : json -> T -> T) (j : json) (v : T) : option T := Some (put j v).

Section Decode.
Context `{GoUnicode} `{GoJSON}.

(** A key is a field's when it is its name up to case. *)
Definition fieldOf {T} (fields : list (string * (json -> T -> option T))) (key : string)
    : option (json -> T -> option T) :=
  match List.find (fun f => (key =? fst f)%string || EqualFold key (fst f)) fields with
  | Some f => Some (snd f)
  | None => None
  end.
Definition storeField {T} (fields : list (string * (json -> T -> option T))) (acc : T * option string)
    (kv : string * json) : T * option string :=
  match fieldOf fields (fst kv) with
  | None => acc
  | Some set =>
      match set (snd kv) (fst acc) with
      | Some v => (v, snd acc)
      | None => (fst acc, match snd acc with None => Some (json_misfit (fst kv) (snd kv)) | e => e end)
      end
  end.
(** json.Unmarshal into a struct, of a value. *)
Definition storeObject {T} (fields : list (string * (json -> T -> option T))) (zero : T) (j : json) : result string T :=
  match j with
  | JNull => Ok zero
  | JObject kvs =>
      match foldl (storeField fields) (zero, None) kvs with
      | (v, None) => Ok v
      | (_, Some e) => Err e
      end
  | _ => Err (json_misfit "" j)
  end.
End Decode.

(** * Making a value *)

Definition jsonField (name : string) (v : json) : list (string * json) := [(name, v)].
(** omitempty, for strings, integers and lists *)
Definition jsonIfString (name s : string) : list (string * json) := if (s =? "")%string then [] else [(name, JString s)].
Definition jsonInt (z : Z) : json := JNumber (Itoa z).
Definition jsonIfInt (name : string) (z : Z) : list (string * json) := if z =? 0 then [] else [(name, jsonInt z)].
Definition jsonIfStrings (name : string) (l : list string) : list (string * json) :=
  match l with [] => [] | _ => [(name, JArray (map JString l))] end.
Definition jsonArray {A} (f : A -> json) (l : list A) : json := JArray (map f l).
