(* ===== verification/Admin.v ===== *)
(** The admin protocol: internal/admin (admin.go, rpc.go, cmds.go, server.go, client.go).

    A request is a JSON-RPC envelope; its method selects a command, whose parser makes the
    parameters and whose handler acts on the server manager, the client registry, the gate and the
    log.  Every leg is audited.  The manager is used through an interface, which the orchestrator
    implements. *)
From S2P Require Import Prelude GoStrings LaunchPlan Registry Snapshot Lifecycle Console Netip Trunk Access Clients Log Json.

(** * Codes and messages (rpc.go) *)

Definition ErrCodeParseError : Z := -32700.
Definition ErrCodeInvalidReq : Z := -32600.
Definition ErrCodeMethodNotFound : Z := -32601.
Definition ErrCodeInvalidParams : Z := -32602.
Definition ErrCodeInternal : Z := -32603.
Definition ErrCodeUnauthorized : Z := -32000.
Definition ErrCodeNotFound : Z := -32001.
Definition ErrCodeConflict : Z := -32002.
Definition ErrCodeDispatch : Z := -32003.
Definition ErrCodeUnavailable : Z := -32004.

(** rpc.go [Request]; a raw message is its value, if there. *)
Record rpcRequest := mkRpcRequest { Jsonrpc : string; Method : string; Params : option json; reqID : option json }.
#[export] Instance eta_rpcRequest : EtaRecord rpcRequest := fun r =>
  mkRpcRequest (Jsonrpc r) (Method r) (Params r) (reqID r).

(** rpc.go [MethodError], the only errors that handlers return. *)
Record MethodError := mkMethodError { errCode : Z; errMessage : string }.

(** * Parameters and results *)

(** What the parsers return: the parameter structs. *)
Inductive rpcParams :=
  | noParams
  | ServerInstancesParams (Index : Z)
  | ServerTargetParams (Target : string)
  | ServerStopParams (Target : string) (GraceSeconds : Z)
  | IndexParams (Index : Z)
  | ServerLaunchParams (Binary : string) (Args : list string)
  | InstanceCommandParams (Port : Z) (Cmd : string)
  | ClientLookup (VirtualAddr : string)
  | LogsTailParams (Lines : Z).

(** server.go [ServerInfo] *)
Record ServerInfo := mkServerInfo {
  siLine : Z; siHostname : string; siMapName : string; siCandidatePort : Z; siListenPort : Z;
  siGameDir : string; siPlayers : Z; siMaxPlayers : Z; siInstances : Z; siState : string;
}.
Definition toServerInfo (s : ServerSnapshot) : ServerInfo :=
  mkServerInfo (snLine s) (snHostname s) (snMapName s) (CandidatePort s) (snListenPort s) (GameDir s)
    (snPlayers s) (snMaxPlayers s) (Instances s) (State s).
Definition toServerInfos (snaps : list ServerSnapshot) : list ServerInfo := map toServerInfo snaps.

(** server.go [ServerWithInstances] *)
Record ServerWithInstances := mkWithInstances {
  wiIndex : Z; wiHostname : string; wiGameDir : string; wiState : string; wiCandidatePort : Z;
  wiPlayers : Z; wiMaxPlayers : Z; wiInstances : list ServerInfo;
}.

(** What the handlers return: the result structs. *)
Inductive rpcResult :=
  | ServerListResult (servers : list ServerInfo)
  | ServerInstancesResult (servers : list ServerWithInstances)
  | ServerLifecycleResult (OK : bool)
  | ServerRemoveResult (Removed : bool)
  | ServerLaunchResult (OK : bool)
  | InstanceCommandResult (Reply : string)
  | ClientListResult (clients : list Connection)
  | ClientInfoResult (client : Connection)
  | ClientBanned (ban : ClientBanResult)
  | LogsTailResult (Lines : list string)
  | RconHelpResult (Text : string)
  | RPCDiscoverResult (methods : list (string * string)).

(** rpc.go [Response] *)
Inductive rpcAnswer := rpcOK (r : rpcResult) | rpcError (code : Z) (message : string).
Record rpcResponse := mkResponse { answer : rpcAnswer; respID : option json }.
Definition errorResponse (id : option json) (code : Z) (message : string) : rpcResponse :=
  mkResponse (rpcError code message) id.

(** * The server manager, as admin needs it (admin.go [serverManager])

    Each operation's error and the manager after; the stopping ones also take the time limit of
    their context; a command's reply may be still awaited. *)
Class serverManager (S : Type) := {
  smSnapshots : S -> list ServerSnapshot;
  smInstanceSnapshots : Z -> S -> result string (list ServerSnapshot);
  smStartServer : Z -> S -> option string * S;
  smStartServersAll : S -> option string * S;
  smStopServer : Z -> Z -> Z -> S -> option string * S;
  smStopServersAll : Z -> Z -> S -> option string * S;
  smRestartServer : Z -> Z -> Z -> S -> option string * S;
  smRestartServersAll : Z -> Z -> S -> option string * S;
  smRemoveServer : Z -> S -> option string * S;
  smLaunchServer : string -> list string -> S -> option string * S;
  smDispatchInstanceCmd : Z -> string -> string -> S -> option (result string string);
}.
(** What it promises: each operation is steps of the manager. *)
Class serverManagerSteps (S : Type) `{serverManager S} (stepR : S -> S -> Prop) := {
  sms_start t m : rtc stepR m (snd (smStartServer t m));
  sms_start_all m : rtc stepR m (snd (smStartServersAll m));
  sms_stop limit t grace m : rtc stepR m (snd (smStopServer limit t grace m));
  sms_stop_all limit grace m : rtc stepR m (snd (smStopServersAll limit grace m));
  sms_restart limit t grace m : rtc stepR m (snd (smRestartServer limit t grace m));
  sms_restart_all limit grace m : rtc stepR m (snd (smRestartServersAll limit grace m));
  sms_remove t m : rtc stepR m (snd (smRemoveServer t m));
  sms_launch b args m : rtc stepR m (snd (smLaunchServer b args m));
}.

(** A manager about which nothing is promised. *)
Lemma any_steps (S : Type) `{serverManager S} : serverManagerSteps S (fun _ _ => True).
Proof. split; intros; by apply rtc_once. Qed.

(** What the handlers act on; admin.go [Admin]: which of its collaborators are there. *)
Record World (S : Type) := mkWorld {
  wServers : S; wTrunk : Trunk; wClients : clientMap; wGate : Gate; wLogs : Logs;
}.
Arguments mkWorld {S}. Arguments wServers {S}. Arguments wTrunk {S}. Arguments wClients {S}.
Arguments wGate {S}. Arguments wLogs {S}.
#[export] Instance eta_world {S} : EtaRecord (World S) := fun w =>
  mkWorld (wServers w) (wTrunk w) (wClients w) (wGate w) (wLogs w).
Record Admin := mkAdmin { hasRegistry : bool; hasOrch : bool; hasAudit : bool; hasTailLog : bool; hasBlocker : bool }.

(** A handler returns; panics, when its parameters are not of the type that it asserts; or still
    waits for a server's reply. *)
Inductive handled (S : Type) :=
  | returned (r : result MethodError rpcResult) (w : World S)
  | panics
  | awaiting.
Arguments returned {S}. Arguments panics {S}. Arguments awaiting {S}.

(** * Values for the audit (the json tags of the structs) *)

Section Values.
Context `{GoJSON}.

Definition serverInfoJSON (s : ServerInfo) : json :=
  JObject (jsonField "line" (jsonInt (siLine s)) ++ jsonField "hostname" (JString (siHostname s))
    ++ jsonIfString "map_name" (siMapName s) ++ jsonIfInt "candidate_port" (siCandidatePort s)
    ++ jsonIfInt "listen_port" (siListenPort s) ++ jsonIfString "game_dir" (siGameDir s)
    ++ jsonField "players" (jsonInt (siPlayers s)) ++ jsonField "max_players" (jsonInt (siMaxPlayers s))
    ++ jsonIfInt "instances" (siInstances s) ++ jsonField "state" (JString (siState s))).
(** A nil slice is null: the instances of a line without any. *)
Definition withInstancesJSON (s : ServerWithInstances) : json :=
  JObject (jsonField "index" (jsonInt (wiIndex s)) ++ jsonField "hostname" (JString (wiHostname s))
    ++ jsonIfString "game_dir" (wiGameDir s) ++ jsonField "state" (JString (wiState s))
    ++ jsonIfInt "candidate_port" (wiCandidatePort s) ++ jsonField "players" (jsonInt (wiPlayers s))
    ++ jsonField "max_players" (jsonInt (wiMaxPlayers s))
    ++ jsonField "instances" match wiInstances s with [] => JNull | l => jsonArray serverInfoJSON l end).
(** clients.go [Connection], the client's fields among its own; nothing sets the server's host *)
Definition connectionJSON (c : Connection) : json :=
  JObject (jsonIfString "identity" (ID (connClient c)) ++ jsonIfString "source_ip" (SourceIP (connClient c))
    ++ jsonField "nqip" (JString (VirtualAddr c)) ++ jsonIfString "transport" (connTransport c)
    ++ jsonIfInt "server_port" (connActiveServerPort c)
    ++ jsonField "connected_at" (JString (json_time (connConnectedAt c)))).
Definition paramsJSON (p : rpcParams) : json :=
  JObject match p with
  | noParams => []
  | ServerInstancesParams i => jsonIfInt "index" i
  | ServerTargetParams t => jsonField "target" (JString t)
  | ServerStopParams t g => jsonField "target" (JString t) ++ jsonIfInt "grace_seconds" g
  | IndexParams i => jsonField "index" (jsonInt i)
  | ServerLaunchParams b args => jsonField "binary" (JString b) ++ jsonIfStrings "args" args
  | InstanceCommandParams port cmd => jsonField "port" (jsonInt port) ++ jsonField "cmd" (JString cmd)
  | ClientLookup a => jsonField "nqip" (JString a)
  | LogsTailParams n => jsonIfInt "lines" n
  end.
Definition resultJSON (r : rpcResult) : json :=
  JObject match r with
  | ServerListResult l => jsonField "servers" (jsonArray serverInfoJSON l)
  | ServerInstancesResult l => jsonField "servers" (jsonArray withInstancesJSON l)
  | ServerLifecycleResult ok | ServerLaunchResult ok => jsonField "ok" (JBool ok)
  | ServerRemoveResult b => jsonField "removed" (JBool b)
  | InstanceCommandResult reply => jsonField "reply" (JString reply)
  | ClientListResult l => jsonField "clients" (jsonArray connectionJSON l)
  | ClientInfoResult c => jsonField "client" (connectionJSON c)
  | ClientBanned b => jsonField "nqip" (JString (banVirtualAddr b)) ++ jsonIfStrings "source_ips" (banSourceIPs b)
                      ++ jsonField "disconnected" (jsonInt (banDisconnected b))
  | LogsTailResult l => jsonField "lines" (jsonArray JString l)
  | RconHelpResult t => jsonField "text" (JString t)
  | RPCDiscoverResult l =>
      jsonField "methods" (jsonArray (fun m => JObject (jsonField "name" (JString (fst m)) ++ jsonIfString "description" (snd m))) l)
  end.
End Values.

(** * The audit (rpc.go) *)

Section Audit.
Context `{GoUnicode} `{GoJSON}.

Definition auditTextMax : Z := 512.
Definition sanitizeAuditText (text : string) : string :=
  let text := Join (Fields text) " " in
  if (text =? "")%string then "<empty>"%string else
  if auditTextMax <? len text
  then (btext (take (Z.to_nat (auditTextMax - 3)) (blist text)) ++ "...")%string else text.

(** rpc.go [auditRPC]: the text given to the audit logger, and giving it *)
Definition auditText (client : Client) (method direction : string) (payload : json) : string :=
  ("admin-rcon " ++ direction ++ " actor=" ++ Quote (ID client) ++ " method=" ++ method ++ " "
   ++ direction ++ "=" ++ sanitizeAuditText (json_text payload))%string.
Definition auditRPC {S} (a : Admin) (now : wallClock) (client : Client) (method direction : string) (payload : json)
    (w : World S) : World S :=
  if negb (hasAudit a) then w
  else w <| wLogs ::= slogLog auditHandler 0 now (auditText client method direction payload) [] |>.

(** rpc.go [AuditUnauthorized] *)
Definition AuditUnauthorized {S} (a : Admin) (now : wallClock) (client : Client) (method : string) : World S -> World S :=
  auditRPC a now client method "error" (JString "unauthorized").

(** rpc.go [ParseRequest] *)
Definition requestFields : list (string * (json -> rpcRequest -> option rpcRequest)) :=
  [("jsonrpc", setString (fun s r => r <| Jsonrpc := s |>)); ("method", setString (fun s r => r <| Method := s |>));
   ("params", setRaw (fun j r => r <| Params := Some j |>)); ("id", setRaw (fun j r => r <| reqID := Some j |>))]%string.
Definition ParseRequest (body : string) : result rpcResponse rpcRequest :=
  let body := TrimSpace body in
  if (body =? "")%string then Err (errorResponse None ErrCodeInvalidReq "empty request") else
  match json_parse body with
  | None => Err (errorResponse None ErrCodeParseError "invalid JSON")
  | Some j =>
      match storeObject requestFields (mkRpcRequest "" "" None None) j with
      | Err _ => Err (errorResponse None ErrCodeParseError "invalid JSON")
      | Ok req =>
          if negb (Jsonrpc req =? "2.0")%string
          then Err (errorResponse (reqID req) ErrCodeInvalidReq ("jsonrpc must be " ++ btext [quoteByte] ++ "2.0" ++ btext [quoteByte])) else
          if (TrimSpace (Method req) =? "")%string
          then Err (errorResponse (reqID req) ErrCodeInvalidReq "method is required") else Ok req
      end
  end.

(** * The parsers of parameters *)

(** cmds.go [unmarshalParams] *)
Definition unmarshalParams {T} (fields : list (string * (json -> T -> option T))) (zero : T) (raw : option json)
    : result string T :=
  match raw with
  | None | Some JNull => Ok zero
  | Some j => match storeObject fields zero j with
              | Ok v => Ok v
              | Err e => Err ("invalid params: " ++ e)%string
              end
  end.
Definition parseEmpty (raw : option json) : result string rpcParams := Ok noParams.
Definition parseServerInstances (raw : option json) : result string rpcParams :=
  let* index := unmarshalParams [("index", setInt (fun n _ => n))]%string 0 raw in
  if index <? 0 then Err ("invalid index " ++ Itoa index ++ ": must be positive or omitted")%string
  else Ok (ServerInstancesParams index).
Definition parseServerTarget (raw : option json) : result string rpcParams :=
  let* target := unmarshalParams [("target", setString (fun s _ => s))]%string ""%string raw in
  Ok (ServerTargetParams target).
Definition parseServerStop (raw : option json) : result string rpcParams :=
  let* p := unmarshalParams [("target", setString (fun s p => (s, snd p)));
                             ("grace_seconds", setInt (fun n p => (fst p, n)))]%string (""%string, 0) raw in
  Ok (ServerStopParams (fst p) (snd p)).
Definition parseIndexOnly (raw : option json) : result string rpcParams :=
  let* index := unmarshalParams [("index", setInt (fun n _ => n))]%string 0 raw in
  if index <=? 0 then Err "server index is required (positive 1-based)"%string else Ok (IndexParams index).
Definition parseServerLaunch (raw : option json) : result string rpcParams :=
  let* p := unmarshalParams [("binary", setString (fun s p => (s, snd p)));
                             ("args", setStrings (fun l p => (fst p, l)))]%string (""%string, []) raw in
  if (TrimSpace (fst p) =? "")%string then Err "binary is required"%string else Ok (ServerLaunchParams (fst p) (snd p)).
Definition parseInstanceCommand (raw : option json) : result string rpcParams :=
  let* p := unmarshalParams [("port", setInt (fun n p => (n, snd p)));
                             ("cmd", setString (fun s p => (fst p, s)))]%string (0, ""%string) raw in
  if (fst p <=? 0) || (65535 <? fst p) then Err "port is required (1..65535)"%string else
  if (TrimSpace (snd p) =? "")%string then Err "cmd is required"%string else Ok (InstanceCommandParams (fst p) (snd p)).
Definition parseClientLookupParams (raw : option json) : result string rpcParams :=
  let* addr := unmarshalParams [("nqip", setString (fun s _ => s))]%string ""%string raw in
  let* addr := parseClientLookup addr in Ok (ClientLookup addr).
Definition parseLogsTail (raw : option json) : result string rpcParams :=
  let* n := unmarshalParams [("lines", setInt (fun n _ => n))]%string 0 raw in Ok (LogsTailParams n).
End Audit.

(** * The handlers *)

Section Handlers.
Context `{GoUnicode} `{GoNetip} `{GoJSON} {S : Type} `{serverManager S}.

(** admin.go [requireOrch], [requireRegistry], [dispatchErr] *)
Definition unavailable (what : string) : MethodError := mkMethodError ErrCodeUnavailable (what ++ " unavailable").
Definition requireOrch (a : Admin) : option MethodError :=
  if hasOrch a then None else Some (unavailable "server manager").
Definition requireRegistry (a : Admin) : option MethodError :=
  if hasRegistry a then None else Some (unavailable "client registry").
Definition dispatchErr (err : string) : MethodError := mkMethodError ErrCodeDispatch err.

Definition failed (e : MethodError) (w : World S) : handled S := returned (Err e) w.
(** What an operation of the manager returned: its error, or this result. *)
Definition afterOp (r : rpcResult) (w : World S) (res : option string * S) : handled S :=
  let w := w <| wServers := snd res |> in
  match fst res with
  | Some err => failed (dispatchErr err) w
  | None => returned (Ok r) w
  end.

(** server.go [parseServerTargetToken]: all, or an index *)
Definition parseServerTargetToken (target : string) : result MethodError (Z * bool) :=
  let target := TrimSpace target in
  if (target =? "")%string then Err (mkMethodError ErrCodeInvalidParams "target is required") else
  if EqualFold target "all" then Ok (0, true) else
  let invalid := mkMethodError ErrCodeInvalidParams
    ("invalid target " ++ Quote target ++ ": expected 1-based server index or " ++ btext [quoteByte] ++ "all" ++ btext [quoteByte]) in
  match Atoi target with
  | None => Err invalid
  | Some idx => if idx <=? 0 then Err invalid else Ok (idx, false)
  end.

Definition serverListHandler (a : Admin) (client : Client) (p : rpcParams) (w : World S) : handled S :=
  match requireOrch a with
  | Some e => failed e w
  | None => returned (Ok (ServerListResult (toServerInfos (smSnapshots (wServers w))))) w
  end.

(** server.go [serverInstancesHandler], and its loop over the servers *)
Definition nestInstances (index : Z) (instances : list ServerInfo) (i : Z) (s : ServerInfo) : list ServerWithInstances :=
  let idx := i + 1 in
  if (0 <? index) && negb (idx =? index) then [] else
  [mkWithInstances idx (siHostname s) (siGameDir s) (siState s) (siCandidatePort s) (siPlayers s) (siMaxPlayers s)
     (List.filter (fun b => siLine b =? siLine s) instances)].
Fixpoint nestAll (index : Z) (instances : list ServerInfo) (i : Z) (servers : list ServerInfo) : list ServerWithInstances :=
  match servers with
  | [] => []
  | s :: servers => nestInstances index instances i s ++ nestAll index instances (i + 1) servers
  end.
Definition serverInstancesHandler (a : Admin) (client : Client) (p : rpcParams) (w : World S) : handled S :=
  match requireOrch a with
  | Some e => failed e w
  | None =>
      match p with
      | ServerInstancesParams index =>
          let servers := toServerInfos (smSnapshots (wServers w)) in
          match smInstanceSnapshots index (wServers w) with
          | Err err => failed (dispatchErr err) w
          | Ok rawInst => returned (Ok (ServerInstancesResult (nestAll index (toServerInfos rawInst) 0 servers))) w
          end
      | _ => panics
      end
  end.

Definition serverStartHandler (a : Admin) (client : Client) (p : rpcParams) (w : World S) : handled S :=
  match p with
  | ServerTargetParams target =>
      match parseServerTargetToken target with
      | Err e => failed e w
      | Ok (idx, all) =>
          match requireOrch a with
          | Some e => failed e w
          | None => afterOp (ServerLifecycleResult true) w
                      (if all then smStartServersAll (wServers w) else smStartServer idx (wServers w))
          end
      end
  | _ => panics
  end.

(** server.go [graceDuration]: a time.Duration is an int64 of nanoseconds *)
Definition int64 (z : Z) : Z := let u := wrap64 z in if u <? 2 ^ 63 then u else u - 2 ^ 64.
Definition graceDuration (seconds : Z) : Z :=
  if seconds <=? 0 then 2 * second else int64 (int64 seconds * second).

Definition serverStopHandler (a : Admin) (client : Client) (p : rpcParams) (w : World S) : handled S :=
  match p with
  | ServerStopParams target graceSeconds =>
      match parseServerTargetToken target with
      | Err e => failed e w
      | Ok (idx, all) =>
          match requireOrch a with
          | Some e => failed e w
          | None =>
              let grace := graceDuration graceSeconds in
              let limit := int64 (grace + second) in
              afterOp (ServerLifecycleResult true) w
                (if all then smStopServersAll limit grace (wServers w) else smStopServer limit idx grace (wServers w))
          end
      end
  | _ => panics
  end.
Definition serverRestartHandler (a : Admin) (client : Client) (p : rpcParams) (w : World S) : handled S :=
  match p with
  | ServerStopParams target graceSeconds =>
      match parseServerTargetToken target with
      | Err e => failed e w
      | Ok (idx, all) =>
          match requireOrch a with
          | Some e => failed e w
          | None =>
              let grace := graceDuration graceSeconds in
              let limit := int64 (grace + 3 * second) in
              afterOp (ServerLifecycleResult true) w
                (if all then smRestartServersAll limit grace (wServers w)
                 else smRestartServer limit idx grace (wServers w))
          end
      end
  | _ => panics
  end.

Definition serverRemoveHandler (a : Admin) (client : Client) (p : rpcParams) (w : World S) : handled S :=
  match p with
  | IndexParams index =>
      match requireOrch a with
      | Some e => failed e w
      | None => afterOp (ServerRemoveResult true) w (smRemoveServer index (wServers w))
      end
  | _ => panics
  end.
Definition serverLaunchHandler (a : Admin) (client : Client) (p : rpcParams) (w : World S) : handled S :=
  match p with
  | ServerLaunchParams binary args =>
      match requireOrch a with
      | Some e => failed e w
      | None => afterOp (ServerLaunchResult true) w (smLaunchServer binary args (wServers w))
      end
  | _ => panics
  end.
Definition instanceCommandHandler (a : Admin) (client : Client) (p : rpcParams) (w : World S) : handled S :=
  match p with
  | InstanceCommandParams port cmd =>
      match requireOrch a with
      | Some e => failed e w
      | None =>
          match smDispatchInstanceCmd port cmd (ID client) (wServers w) with
          | None => awaiting
          | Some (Err err) => failed (dispatchErr err) w
          | Some (Ok reply) => returned (Ok (InstanceCommandResult reply)) w
          end
      end
  | _ => panics
  end.

(** client.go [clientListHandler], [clientInfoHandler] and [clientBanHandler], guards included; what
    they do is in Clients *)
Definition clientListCommand (a : Admin) (client : Client) (p : rpcParams) (w : World S) : handled S :=
  match requireRegistry a with
  | Some e => failed e w
  | None => returned (Ok (ClientListResult (clientListHandler (wClients w) (wTrunk w)))) w
  end.
Definition clientInfoCommand (a : Admin) (client : Client) (p : rpcParams) (w : World S) : handled S :=
  match p with
  | ClientLookup addr =>
      match requireRegistry a with
      | Some e => failed e w
      | None =>
          match clientInfoHandler addr (wClients w) (wTrunk w) with
          | None => failed (mkMethodError ErrCodeNotFound ("no client with nqip " ++ Quote addr)) w
          | Some c => returned (Ok (ClientInfoResult c)) w
          end
      end
  | _ => panics
  end.
Definition clientBanCommand (a : Admin) (client : Client) (p : rpcParams) (w : World S) : handled S :=
  match p with
  | ClientLookup addr =>
      match requireRegistry a with
      | Some e => failed e w
      | None =>
          match clientBanHandler addr (wGate w) (wClients w) (wTrunk w) with
          | (Err e, _, _) => failed (mkMethodError ErrCodeNotFound e) w
          | (Ok ban, g, t) =>
              let w := if hasBlocker a then w <| wGate := g |> else w in
              returned (Ok (ClientBanned ban)) (w <| wTrunk := t |>)
          end
      end
  | _ => panics
  end.

(** cmds.go [logsTailHandler] *)
Definition defaultTail : Z := 10.
Definition tailLine (line : string) : list string :=
  let line := ReplaceByte line crByte "" in
  let line := TrimRight line lf in
  if (line =? "")%string then [] else [line].
Definition logsTailHandler (a : Admin) (client : Client) (p : rpcParams) (w : World S) : handled S :=
  if negb (hasTailLog a) then failed (unavailable "log tail") w else
  match p with
  | LogsTailParams n =>
      let n := if n <=? 0 then defaultTail else n in
      returned (Ok (LogsTailResult (flat_map tailLine (tailNexusLogLines n (wLogs w))))) w
  | _ => panics
  end.

(** * The commands (cmds.go) *)

Record Command := mkCommand {
  cmdMethod : string; HelpForm : string; Description : string;
  ParseParams : option json -> result string rpcParams;
  Handler : Admin -> Client -> rpcParams -> World S -> handled S;
}.

(** The method, help form and description of each command, in order. *)
Definition commandTexts : list (string * string * string) :=
  [("rcon.help", "help", "show in-game rcon command help");
   ("rpc.discover", "", "list all RPC methods with descriptions");
   ("client.list", "client list", "list active clients");
   ("client.info", "client info <nqip>", "detail for one client");
   ("client.ban", "client ban <nqip>", "ban client at nqip until Nexus restart");
   ("server.instance.command", "", "forward command to a specific instance");
   ("server.list", "server list", "list managed servers");
   ("server.instances", "server list <idx|all>", "list instances of one or all servers");
   ("server.start", "server start <idx|all>", "start one or all servers");
   ("server.stop", "server stop <idx|all> [secs]", "stop one or all servers");
   ("server.restart", "server restart <idx|all> [secs]", "restart one or all servers");
   ("server.remove", "server remove <idx>", "remove a stopped server");
   ("server.launch", "server launch <binary> [args...]", "launch and register a new server");
   ("logs.tail", "tail [N]", "last N (default 10) Nexus log lines")]%string.

(** cmds.go [buildHelpText]: the forms padded to the longest *)
Definition padRight (width : Z) (s : string) : string :=
  (s ++ btext (repeat " "%char (Z.to_nat (width - len s))))%string.
Definition buildHelpText : string :=
  let forms := List.filter (fun c => negb (snd (fst c) =? "")%string) commandTexts in
  let formWidth := foldl (fun m c => Z.max m (len (snd (fst c)))) 0 forms in
  let lines := map (fun c => "  rcon " ++ padRight formWidth (snd (fst c)) ++ "  " ++ snd c ++ lf)%string forms in
  (lf ++ "NexQuake commands:" ++ lf ++ foldr String.append ""%string lines
   ++ lf ++ "instance console forms (target one server's console):" ++ lf
   ++ "  rcon <port> <cmd...>" ++ lf
   ++ "  rcon <cmd...>             when connected, uses the current listen port" ++ lf
   ++ lf ++ "prefix any admin command with `nexus` while connected (e.g. `rcon nexus server list`)." ++ lf ++ lf)%string.
(** cmds.go [buildDiscoverMethods] *)
Definition buildDiscoverMethods : list (string * string) := map (fun c => (fst (fst c), snd c)) commandTexts.

Definition rconHelpHandler (a : Admin) (client : Client) (p : rpcParams) (w : World S) : handled S :=
  returned (Ok (RconHelpResult buildHelpText)) w.
Definition rpcDiscoverHandler (a : Admin) (client : Client) (p : rpcParams) (w : World S) : handled S :=
  returned (Ok (RPCDiscoverResult buildDiscoverMethods)) w.

(** cmds.go [adminCommands] *)
Definition commandBodies : list ((option json -> result string rpcParams) * (Admin -> Client -> rpcParams -> World S -> handled S)) :=
  [(parseEmpty, rconHelpHandler); (parseEmpty, rpcDiscoverHandler); (parseEmpty, clientListCommand);
   (parseClientLookupParams, clientInfoCommand); (parseClientLookupParams, clientBanCommand);
   (parseInstanceCommand, instanceCommandHandler); (parseEmpty, serverListHandler);
   (parseServerInstances, serverInstancesHandler); (parseServerTarget, serverStartHandler);
   (parseServerStop, serverStopHandler); (parseServerStop, serverRestartHandler);
   (parseIndexOnly, serverRemoveHandler); (parseServerLaunch, serverLaunchHandler); (parseLogsTail, logsTailHandler)].
Definition adminCommands : list Command :=
  zip_with (fun t b => mkCommand (fst (fst t)) (snd (fst t)) (snd t) (fst b) (snd b)) commandTexts commandBodies.

(** cmds.go [lookupCommand], in the map that [init] makes *)
Definition commandByMethod : gmap string Command :=
  foldl (fun m c => <[cmdMethod c := c]> m) ∅ adminCommands.
Definition lookupCommand (method : string) : option Command := commandByMethod !! method.

(** What is logged between the two legs of a request, before the handler looks at the log and after:
    by the operations it runs (the start of a server, the end of a session) and by the program's
    other goroutines. *)
Definition logMeanwhile (calls : list logCall) (w : World S) : World S := w <| wLogs ::= fun st => foldl runCall st calls |>.

(** rpc.go [Dispatch]: the response and the world after; the two audited legs have each its time *)
Inductive dispatched :=
  | answered (r : rpcResponse) (w : World S)
  | stillAwaiting (w : World S)
  | dispatchPanics.
Definition Dispatch (a : Admin) (now1 now2 : wallClock) (meanwhile : list logCall * list logCall) (req : rpcRequest)
    (client : Client) (w : World S) : dispatched :=
  match lookupCommand (Method req) with
  | None =>
      let msg := ("method " ++ Quote (Method req) ++ " not found")%string in
      answered (errorResponse (reqID req) ErrCodeMethodNotFound msg)
        (auditRPC a now1 client (Method req) "error" (JString msg) w)
  | Some cmd =>
      match ParseParams cmd (Params req) with
      | Err err => answered (errorResponse (reqID req) ErrCodeInvalidParams err)
                     (auditRPC a now1 client (Method req) "error" (JString err) w)
      | Ok params =>
          let w := auditRPC a now1 client (Method req) "request" (paramsJSON params) w in
          let w := logMeanwhile (fst meanwhile) w in
          match Handler cmd a client params w with
          | panics => dispatchPanics
          | awaiting => stillAwaiting (logMeanwhile (snd meanwhile) w)
          | returned (Err e) w =>
              let w := logMeanwhile (snd meanwhile) w in
              answered (errorResponse (reqID req) (errCode e) (errMessage e))
                (auditRPC a now2 client (Method req) "error" (JString (errMessage e)) w)
          | returned (Ok r) w =>
              let w := logMeanwhile (snd meanwhile) w in
              answered (mkResponse (rpcOK r) (reqID req))
                (auditRPC a now2 client (Method req) "result" (resultJSON r) w)
          end
      end
  end.
End Handlers.
Arguments answered {S}. Arguments stillAwaiting {S}. Arguments dispatchPanics {S}.

(** * The orchestrator as the server manager

    What happens outside is given: the processes alive, the outcomes of starting and stopping, and
    the consoles. *)
Record orchEnv := mkOrchEnv {
  oeLogsDir : string;
  oeAlive : Z -> bool;
  oeStarts : Z -> startEnv;
  oeStops : Z -> Z -> stopEnv;
  oeLaunch : startEnv;
  oeStamp : string;
  oeConsoles : Z -> serverConsole;
  oeCapture : captureEnv;
}.

(** The texts of the orchestrator's errors *)
Fixpoint errorText (e : opError) : string :=
  match e with
  | errText msg => msg
  | errAlreadyRunning => "already running"
  | errAlreadyStopped => "already stopped"
  | errTarget target e => ("target " ++ Itoa target ++ ": " ++ errorText e)%string
  | errJoin es => Join (map errorText es) lf
  end.
Definition withText (res : option opError * ServerManager) : option string * ServerManager :=
  (errorText <$> fst res, snd res).

Section Orch.
Context `{GoUnicode} (env : orchEnv).
Definition orchestrator : serverManager ServerManager := {|
  smSnapshots := Snapshots (oeAlive env);
  smInstanceSnapshots := InstanceSnapshots (oeAlive env);
  smStartServer t m := withText (StartServer (oeLogsDir env) (oeAlive env) (oeStarts env) t m);
  smStartServersAll m := withText (StartServersAll (oeLogsDir env) (oeAlive env) (oeStarts env) m);
  smStopServer limit t grace m := withText (StopServer (oeAlive env) (oeStops env limit) grace t m);
  smStopServersAll limit grace m := withText (StopServersAll (oeAlive env) (oeStops env limit) grace m);
  smRestartServer limit t grace m :=
    withText (RestartServer (oeLogsDir env) (oeAlive env) (oeStops env limit) (oeStarts env) grace t m);
  smRestartServersAll limit grace m :=
    withText (RestartServersAll (oeLogsDir env) (oeAlive env) (oeStops env limit) (oeStarts env) grace m);
  smRemoveServer t m := withText (RemoveServer (oeAlive env) t m);
  smLaunchServer binary args m :=
    withText (LaunchServer (oeLogsDir env) (oeAlive env) binary args (oeStamp env) (oeLaunch env) m);
  smDispatchInstanceCmd port cmd actorID m :=
    snd (DispatchInstanceCmd (oeAlive env) (oeConsoles env) port cmd actorID (oeCapture env) m);
|}.
Lemma orchestrator_steps : serverManagerSteps (H := orchestrator) ServerManager mstep.
Proof.
  split; intros; unfold smStartServer, smStartServersAll, smStopServer, smStopServersAll, smRestartServer,
    smRestartServersAll, smRemoveServer, smLaunchServer, orchestrator, withText; cbn [snd].
  - apply StartServer_steps.
  - apply runServersAll_steps. intros. apply StartServer_steps.
  - apply StopServer_steps.
  - apply runServersAll_steps. intros. apply StopServer_steps.
  - apply RestartServer_steps.
  - apply runServersAll_steps. intros. apply RestartServer_steps.
  - apply rtc_once, step_remove_server.
  - apply LaunchServer_steps.
Qed.
End Orch.

(** * Facts: the commands *)

Section CommandFacts.
Context `{GoUnicode} `{GoNetip} `{GoJSON} {S : Type} `{serverManager S} (stepR : S -> S -> Prop)
  `{!serverManagerSteps S stepR}.

(** What a command that returned has left of the world. *)
Definition keepsRest (method : string) (w w' : World S) : Prop :=
  rtc stepR (wServers w) (wServers w') /\ wClients w' = wClients w /\ wLogs w' = wLogs w
  /\ (method <> "client.ban"%string -> wTrunk w' = wTrunk w /\ wGate w' = wGate w)
  /\ (trunk_ok (wTrunk w) -> rtc tstep (wTrunk w) (wTrunk w')).
(** The codes handlers answer with. *)
Definition handlerCode (code : Z) : bool :=
  existsb (Z.eqb code) [ErrCodeInvalidParams; ErrCodeNotFound; ErrCodeDispatch; ErrCodeUnavailable].
(** A command whose handler fits its parser. *)
Definition command_ok (c : Command) : Prop :=
  forall raw p, ParseParams c raw = Ok p -> forall a client w,
  match Handler c a client p w with
  | panics => False
  | awaiting => cmdMethod c = "server.instance.command"%string
  | returned (Err e) w' => handlerCode (errCode e) = true /\ keepsRest (cmdMethod c) w w'
  | returned (Ok r) w' => keepsRest (cmdMethod c) w w'
  end.

Lemma keepsRest_refl method w : keepsRest method w w.
Proof. by repeat split. Qed.

Lemma afterOp_ok method r w (res : option string * S) :
  rtc stepR (wServers w) (snd res) ->
  match afterOp r w res with
  | panics => False
  | awaiting => method = "server.instance.command"%string
  | returned (Err e) w' => handlerCode (errCode e) = true /\ keepsRest method w w'
  | returned (Ok r) w' => keepsRest method w w'
  end.
Proof. intros Hr. unfold afterOp. destruct (fst res); [split; [done|]|]; by repeat split. Qed.

Lemma parseServerTargetToken_code target e :
  parseServerTargetToken target = Err e -> errCode e = ErrCodeInvalidParams.
Proof.
  unfold parseServerTargetToken. cbv zeta. destruct (_ =? _)%string; [by intros [= <-]|].
  destruct (EqualFold _ _); [done|]. destruct (Atoi _) as [i|]; [|by intros [= <-]].
  destruct (i <=? 0); [by intros [= <-]|done].
Qed.

(** The handlers that parse a target, then need the manager, then run an operation. *)
Lemma targeted_ok method target a r w (op : Z -> bool -> option string * S) :
  (forall idx all, rtc stepR (wServers w) (snd (op idx all))) ->
  match (match parseServerTargetToken target with
         | Err e => failed e w
         | Ok (idx, all) => match requireOrch a with Some e => failed e w | None => afterOp r w (op idx all) end
         end) with
  | panics => False
  | awaiting => method = "server.instance.command"%string
  | returned (Err e) w' => handlerCode (errCode e) = true /\ keepsRest method w w'
  | returned (Ok r) w' => keepsRest method w w'
  end.
Proof.
  intros Hop. destruct (parseServerTargetToken target) as [[idx all]|e] eqn:Ht.
  - unfold requireOrch. destruct (hasOrch a); [by apply afterOp_ok|]. by repeat split.
  - split; [by rewrite (parseServerTargetToken_code _ _ Ht)|apply keepsRest_refl].
Qed.

Lemma parsed_index raw p : parseIndexOnly raw = Ok p -> exists i, p = IndexParams i /\ 0 < i.
Proof.
  unfold parseIndexOnly. destruct (unmarshalParams _ _ _) as [i|]; [|done].
  destruct (Z.leb_spec i 0); [done|]. intros [= <-]. by exists i.
Qed.
Lemma parsed_lookup raw p : parseClientLookupParams raw = Ok p -> exists a, p = ClientLookup a.
Proof.
  unfold parseClientLookupParams. destruct (unmarshalParams _ _ _) as [a|]; [|done].
  destruct (parseClientLookup a) as [a'|]; [|done]. intros [= <-]. by exists a'.
Qed.
Lemma parsed_command raw p :
  parseInstanceCommand raw = Ok p -> exists port cmd, p = InstanceCommandParams port cmd /\ 1 <= port <= 65535.
Proof.
  unfold parseInstanceCommand. destruct (unmarshalParams _ _ _) as [[port cmd]|]; [|done]. cbn [fst snd].
  destruct (Z.leb_spec port 0), (Z.ltb_spec 65535 port); try done. cbn [orb].
  destruct (_ =? _)%string; [done|]. intros [= <-]. eexists _, _. split; [done|lia].
Qed.
Lemma parsed_launch raw p : parseServerLaunch raw = Ok p -> exists b args, p = ServerLaunchParams b args.
Proof.
  unfold parseServerLaunch. destruct (unmarshalParams _ _ _) as [[b args]|]; [|done]. cbn [fst snd].
  destruct (_ =? _)%string; [done|]. intros [= <-]. by eexists _, _.
Qed.
Lemma parsed_instances raw p : parseServerInstances raw = Ok p -> exists i, p = ServerInstancesParams i /\ 0 <= i.
Proof.
  unfold parseServerInstances. destruct (unmarshalParams _ _ _) as [i|]; [|done].
  destruct (Z.ltb_spec i 0); [done|]. intros [= <-]. by exists i.
Qed.

Ltac handler_cases :=
  unfold requireOrch, requireRegistry, failed;
  repeat match goal with
  | |- context [if ?b then _ else _] => destruct b
  | |- context [match clientInfoHandler ?x ?y ?z with _ => _ end] => destruct (clientInfoHandler x y z)
  | |- context [match clientBanHandler ?x ?y ?z ?t with _ => _ end] =>
      pose proof (clientBanHandler_steps x y z t); destruct (clientBanHandler x y z t) as [[[]]]
  | |- context [match smDispatchInstanceCmd ?x ?y ?z ?t with _ => _ end] => destruct (smDispatchInstanceCmd x y z t) as [[]|]
  | |- context [match smInstanceSnapshots ?x ?y with _ => _ end] => destruct (smInstanceSnapshots x y)
  end; try done; try (by repeat split); apply keepsRest_refl.

Lemma adminCommands_ok : Forall command_ok adminCommands.
Proof.
  unfold adminCommands, commandTexts, commandBodies. cbn [zip_with fst snd].
  repeat (apply List.Forall_cons; [|]); [..|apply List.Forall_nil];
    intros raw p Hp a client w; cbn [ParseParams Handler cmdMethod] in *.
  - apply keepsRest_refl.
  - apply keepsRest_refl.
  - unfold clientListCommand. handler_cases.
  - destruct (parsed_lookup _ _ Hp) as [addr ->]. unfold clientInfoCommand. handler_cases.
  - destruct (parsed_lookup _ _ Hp) as [addr ->]. unfold clientBanCommand. handler_cases.
  - destruct (parsed_command _ _ Hp) as (port & cmd & -> & _). unfold instanceCommandHandler. handler_cases.
  - unfold serverListHandler. handler_cases.
  - destruct (parsed_instances _ _ Hp) as (i & -> & _). unfold serverInstancesHandler. handler_cases.
  - unfold parseServerTarget in Hp. destruct (unmarshalParams _ _ _) as [t|]; [|done]. injection Hp as <-.
    apply (targeted_ok _ t a _ w (fun idx (all : bool) => if all then _ else _)). intros idx [].
    + apply sms_start_all.
    + apply sms_start.
  - unfold parseServerStop in Hp. destruct (unmarshalParams _ _ _) as [t|]; [|done]. injection Hp as <-.
    apply (targeted_ok _ (fst t) a _ w (fun idx (all : bool) => if all then _ else _)). intros idx [].
    + apply sms_stop_all.
    + apply sms_stop.
  - unfold parseServerStop in Hp. destruct (unmarshalParams _ _ _) as [t|]; [|done]. injection Hp as <-.
    apply (targeted_ok _ (fst t) a _ w (fun idx (all : bool) => if all then _ else _)). intros idx [].
    + apply sms_restart_all.
    + apply sms_restart.
  - destruct (parsed_index _ _ Hp) as (i & -> & _). unfold serverRemoveHandler, requireOrch.
    destruct (hasOrch a); [apply afterOp_ok, sms_remove|by repeat split].
  - destruct (parsed_launch _ _ Hp) as (b & args & ->). unfold serverLaunchHandler, requireOrch.
    destruct (hasOrch a); [apply afterOp_ok, sms_launch|by repeat split].
  - unfold parseLogsTail in Hp. destruct (unmarshalParams _ _ _) as [n|]; [|done]. injection Hp as <-.
    unfold logsTailHandler. handler_cases.
Qed.

(** The map of commands is the list's. *)
Lemma lookupCommand_Some method c :
  lookupCommand method = Some c -> In c adminCommands /\ cmdMethod c = method.
Proof.
  unfold lookupCommand, commandByMethod.
  enough (forall l (m : gmap string Command), foldl (fun m c => <[cmdMethod c := c]> m) m l !! method = Some c ->
    (In c l /\ cmdMethod c = method) \/ m !! method = Some c) as Hx.
  { intros Hc. destruct (Hx _ _ Hc) as [?|Hn]; [done|by rewrite lookup_empty in Hn]. }
  induction l as [|d l IH]; intros m Hm; cbn [foldl] in *; [by right|].
  destruct (IH _ Hm) as [[Hin Hmeth]|Hd]; [left; split; [by right|done]|].
  destruct (decide (cmdMethod d = method)) as [Hdm|Hdm].
  - rewrite Hdm, lookup_insert_eq in Hd. injection Hd as ->. left. split; [by left|done].
  - right. by rewrite lookup_insert_ne in Hd.
Qed.
Lemma lookupCommand_iff method :
  is_Some (lookupCommand (S := S) method) <-> In method (map (fun t => fst (fst t)) commandTexts).
Proof.
  change (map (fun t => fst (fst t)) commandTexts) with (map cmdMethod (adminCommands (S := S))). split.
  - intros [c Hc]. destruct (lookupCommand_Some _ _ Hc) as [Hin <-]. by apply in_map.
  - unfold lookupCommand, commandByMethod. generalize (adminCommands (S := S)) as l, (∅ : gmap string (Command (S := S))) as m.
    assert (forall l (m : gmap string (Command (S := S))), is_Some (m !! method) ->
      is_Some (foldl (fun m c => <[cmdMethod c := c]> m) m l !! method)) as Hkeep.
    { induction l as [|c l IH]; intros m Hm; [done|]. cbn [foldl]. apply IH.
      destruct (decide (cmdMethod c = method)) as [<-|]; [rewrite lookup_insert_eq; by eexists|by rewrite lookup_insert_ne]. }
    induction l as [|c l IH]; intros m Hin; [done|]. cbn [foldl map] in *. destruct Hin as [<-|Hin]; [|by apply IH].
    apply Hkeep. rewrite lookup_insert_eq. by eexists.
Qed.
End CommandFacts.

(** * Facts: the audit *)

#[local] Opaque lookupCommand.

Section AuditFacts.
Context `{GoUnicode} `{GoNetip} `{GoJSON} {S : Type} `{serverManager S} (stepR : S -> S -> Prop)
  `{!serverManagerSteps S stepR}.

(** A leg of a request in the audit: when, which way, and what. *)
Definition auditLeg (client : Client) (method : string) (leg : wallClock * string * json) : logCall :=
  let text := auditText client method (snd (fst leg)) (snd leg) in callAudit (fst (fst leg)) text text.

(** Nothing is audited without an audit log. *)
Definition audited (a : Admin) (calls : list logCall) : list logCall := if hasAudit a then calls else [].

Lemma auditRPC_call a now client method direction payload (w : World S) :
  auditRPC a now client method direction payload w
  = w <| wLogs := foldl runCall (wLogs w) (audited a [auditLeg client method (now, direction, payload)]) |>.
Proof.
  unfold auditRPC, audited. destruct (hasAudit a); cbn [negb foldl]; [|by destruct w]. set (text := auditText _ _ _ _).
  transitivity (w <| wLogs := slogLog auditHandler 0 now text [] (wLogs w) |>); [by destruct w|].
  by rewrite slogLog_call.
Qed.

(** The legs of a request that is answered so. *)
Definition outcomeLeg (ans : rpcAnswer) : string * json :=
  match ans with
  | rpcOK r => ("result"%string, resultJSON r)
  | rpcError _ message => ("error"%string, JString message)
  end.
Definition legs (now1 now2 : wallClock) (req : rpcRequest) (ans : rpcAnswer) : list (wallClock * string * json) :=
  match lookupCommand (S := S) (Method req) with
  | None => [(now1, fst (outcomeLeg ans), snd (outcomeLeg ans))]
  | Some cmd =>
      match ParseParams cmd (Params req) with
      | Err _ => [(now1, fst (outcomeLeg ans), snd (outcomeLeg ans))]
      | Ok params => [(now1, "request"%string, paramsJSON params); (now2, fst (outcomeLeg ans), snd (outcomeLeg ans))]
      end
  end.

(** What is logged for legs, with what is logged between two of them. *)
Definition dispatchCalls (a : Admin) (client : Client) (method : string) (meanwhile : list logCall * list logCall)
    (ls : list (wallClock * string * json)) : list logCall :=
  match ls with
  | [] => []
  | [leg] => audited a [auditLeg client method leg]
  | leg :: ls => audited a [auditLeg client method leg] ++ fst meanwhile ++ snd meanwhile ++ audited a (map (auditLeg client method) ls)
  end.

(** What a dispatch leaves, all at once. *)
Lemma Dispatch_all a now1 now2 meanwhile req client (w : World S) :
  match Dispatch a now1 now2 meanwhile req client w with
  | dispatchPanics => False
  | stillAwaiting w' => Method req = "server.instance.command"%string
  | answered r w' =>
      respID r = reqID req
      /\ wLogs w' = foldl runCall (wLogs w) (dispatchCalls a client (Method req) meanwhile (legs now1 now2 req (answer r)))
      /\ keepsRest stepR (Method req) w (w' <| wLogs := wLogs w |>)
      /\ match lookupCommand (S := S) (Method req) with
         | None => (exists msg, answer r = rpcError ErrCodeMethodNotFound msg) /\ wServers w' = wServers w
         | Some cmd =>
             match ParseParams cmd (Params req) with
             | Err e => answer r = rpcError ErrCodeInvalidParams e /\ wServers w' = wServers w
             | Ok _ => match answer r with rpcOK _ => True | rpcError code _ => handlerCode code = true end
             end
         end
  end.
Proof.
  unfold Dispatch, legs. destruct (lookupCommand (Method req)) as [cmd|] eqn:Hl.
  2: { rewrite auditRPC_call. split_and!; [done..|by repeat split|by eexists|done]. }
  destruct (ParseParams cmd (Params req)) as [params|err] eqn:Hp.
  2: { rewrite auditRPC_call. split_and!; [done..|by repeat split|done|done]. }
  destruct (lookupCommand_Some _ _ Hl) as [Hin Hm]. pose proof (adminCommands_ok stepR) as Hok.
  rewrite List.Forall_forall in Hok. specialize (Hok _ Hin _ _ Hp a client). rewrite Hm in Hok.
  rewrite auditRPC_call. set (w1 := logMeanwhile _ _). specialize (Hok w1).
  assert (forall leg (w2 : World S), wLogs w2 = wLogs w1 ->
    wLogs (auditRPC a (fst (fst leg)) client (Method req) (snd (fst leg)) (snd leg) (logMeanwhile (snd meanwhile) w2))
    = foldl runCall (wLogs w) (dispatchCalls a client (Method req) meanwhile [(now1, "request"%string, paramsJSON params); leg])) as Hlogs.
  { intros [[now dir] payload] w2 Hw2. rewrite auditRPC_call. cbn [map fst snd dispatchCalls]. rewrite !foldl_app.
    change (wLogs (logMeanwhile (snd meanwhile) w2)) with (foldl runCall (wLogs w2) (snd meanwhile)). rewrite Hw2. reflexivity. }
  destruct (Handler cmd a client params w1) as [[r|e] w2| |]; [| |done|done].
  - destruct Hok as (K1 & K2 & K3 & K4). split_and!; [done|exact (Hlogs (now2, _, _) w2 K3)| |done].
    rewrite auditRPC_call. split_and!; [exact K1|exact K2|done|exact (proj1 K4)|exact (proj2 K4)].
  - destruct Hok as (Hc & K1 & K2 & K3 & K4). split_and!; [done|exact (Hlogs (now2, _, _) w2 K3)| |done].
    rewrite auditRPC_call. split_and!; [exact K1|exact K2|done|exact (proj1 K4)|exact (proj2 K4)].
Qed.

(** Text between white space has none. *)
Lemma lacks_no_space c s : is_space1 c = true -> Forall (fun b => is_space1 b = false) (blist s) -> lacks c s.
Proof. intros Hc Hs. eapply Forall_impl; [exact Hs|]. intros b Hb ->. congruence. Qed.

Lemma sanitizeAuditText_lacks c text : c = lfByte \/ c = crByte -> lacks c (sanitizeAuditText text).
Proof.
  intros Hc. assert (is_space1 c = true) as Hsp by by destruct Hc as [->| ->].
  assert (lacks c (Join (Fields text) " ")) as Hj.
  { apply Forall_Join.
    - eapply Forall_impl; [apply Fields_no_space|]. intros s. by apply lacks_no_space.
    - repeat constructor. by destruct Hc as [->| ->]. }
  unfold sanitizeAuditText. cbv zeta. destruct (_ =? _)%string.
  { unfold lacks. cbn. repeat constructor; by destruct Hc as [->| ->]. }
  destruct (_ <? _); [|done]. unfold lacks. rewrite blist_app, blist_btext. apply Forall_app. split.
  - by apply Forall_take.
  - cbn. repeat constructor; by destruct Hc as [->| ->].
Qed.

Lemma Quote_lacks c s : isASCII s = true -> c = lfByte \/ c = crByte -> lacks c (Quote s).
Proof.
  intros Ha Hc. unfold Quote. rewrite Ha. unfold lacks. rewrite blist_btext.
  assert (Forall (fun b => b <> c) [byte_of 34]) as Hq by (repeat constructor; by destruct Hc as [->| ->]).
  apply Forall_app. split; [done|]. apply Forall_app. split; [|done].
  induction (blist s) as [|b l IH]; [constructor|]. cbn [flat_map]. apply Forall_app. split; [|done].
  clear -Hc. destruct Hc as [->| ->]; destruct b as [[] [] [] [] [] [] [] []]; vm_compute; repeat constructor; by intros.
Qed.

Lemma splitLogLines_one s : s <> ""%string -> lacks lfByte s -> lacks crByte s -> splitLogLines s = [s].
Proof.
  intros Hne Hlf Hcr. unfold splitLogLines. cbv zeta. rewrite normEOL_id, btext_blist by done.
  change lf with (btext [lfByte]). pose proof (TrimRight_keep "" s lfByte Hne Hlf) as Ht.
  change ("" ++ s)%string with s in Ht. rewrite Ht.
  destruct (String.eqb_spec s ""); [done|]. by apply Split_whole.
Qed.

(** The text of a leg is one line when the method is. *)
Lemma auditText_line client method direction payload :
  isASCII (ID client) = true -> lacks lfByte method -> lacks crByte method ->
  lacks lfByte direction -> lacks crByte direction ->
  splitLogLines (auditText client method direction payload) = [auditText client method direction payload].
Proof.
  intros Ha Hm1 Hm2 Hd1 Hd2. assert (forall c, c = lfByte \/ c = crByte -> lacks c (auditText client method direction payload)) as Hl.
  { intros c Hc. assert (lacks c direction /\ lacks c method) as [Hd Hm] by by destruct Hc as [->| ->].
    assert (forall s, forallb (fun b => negb (Ascii.eqb b lfByte || Ascii.eqb b crByte)) (blist s) = true -> lacks c s) as Hs.
    { intros s Hs. rewrite forallb_forall in Hs. apply Forall_forall. intros b Hb ->.
      specialize (Hs c (proj1 (list_elem_of_In _ _) Hb)). by destruct Hc as [->| ->]. }
    pose proof (Quote_lacks c (ID client) Ha Hc). pose proof (sanitizeAuditText_lacks c (json_text payload) Hc).
    unfold auditText, lacks in *. rewrite !blist_app. repeat (apply Forall_app; split); try done; by apply Hs. }
  apply splitLogLines_one; [|apply Hl; by left|apply Hl; by right]. discriminate.
Qed.
End AuditFacts.

(** * Properties *)

Section Properties.
Context `{GoUnicode} `{GoNetip} `{GoJSON} {S : Type} `{serverManager S} (stepR : S -> S -> Prop)
  `{!serverManagerSteps S stepR}.

Definition methods : list string := map (fun t => fst (fst t)) commandTexts.

(** ** The codes, as a table *)

(** The subsystem of a method is there. *)
Definition subsystemThere (a : Admin) (method : string) : bool :=
  if HasPrefix method "server." then hasOrch a else if HasPrefix method "client." then hasRegistry a
  else if HasPrefix method "logs." then hasTailLog a else true.
(** The target of a lifecycle method names no server. *)
Definition badTarget (p : rpcParams) : bool :=
  match p with
  | ServerTargetParams t | ServerStopParams t _ => match parseServerTargetToken t with Ok _ => false | Err _ => true end
  | _ => false
  end.
(** Nobody is at the address of a lookup. *)
Definition noSuchClient (p : rpcParams) (w : World S) : bool :=
  match p with
  | ClientLookup addr => match ByVirtualAddr addr (wClients w) (wTrunk w) with Some _ => false | None => true end
  | _ => false
  end.
(** The error of the manager's operation. *)
Definition operationError (method : string) (client : Client) (p : rpcParams) (w : World S) : option string :=
  let m := wServers w in
  let onTarget t (all : option string * S) (one : Z -> option string * S) :=
    match parseServerTargetToken t with
    | Ok (_, true) => fst all
    | Ok (idx, false) => fst (one idx)
    | Err _ => None
    end in
  match p with
  | ServerTargetParams t => onTarget t (smStartServersAll m) (fun idx => smStartServer idx m)
  | ServerStopParams t secs =>
      let grace := graceDuration secs in
      if (method =? "server.stop")%string
      then onTarget t (smStopServersAll (int64 (grace + second)) grace m) (fun idx => smStopServer (int64 (grace + second)) idx grace m)
      else onTarget t (smRestartServersAll (int64 (grace + 3 * second)) grace m)
             (fun idx => smRestartServer (int64 (grace + 3 * second)) idx grace m)
  | IndexParams index => fst (smRemoveServer index m)
  | ServerLaunchParams binary args => fst (smLaunchServer binary args m)
  | ServerInstancesParams index => match smInstanceSnapshots index m with Err e => Some e | Ok _ => None end
  | InstanceCommandParams port cmd => match smDispatchInstanceCmd port cmd (ID client) m with Some (Err e) => Some e | _ => None end
  | _ => None
  end.
(** The code that parsed parameters are refused with, if any. *)
Definition refusal (a : Admin) (method : string) (client : Client) (p : rpcParams) (w : World S) : option Z :=
  if badTarget p then Some ErrCodeInvalidParams else
  if negb (subsystemThere a method) then Some ErrCodeUnavailable else
  if noSuchClient p w then Some ErrCodeNotFound else
  match operationError method client p w with Some _ => Some ErrCodeDispatch | None => None end.
Definition parsedParams (req : rpcRequest) : option rpcParams :=
  match lookupCommand (S := S) (Method req) with
  | Some cmd => match ParseParams cmd (Params req) with Ok p => Some p | Err _ => None end
  | None => None
  end.
Definition codeOf (ans : rpcAnswer) : option Z := match ans with rpcOK _ => None | rpcError code _ => Some code end.
(** The type of a method's results. *)
Definition resultOf (method : string) (r : rpcResult) : bool :=
  bool_decide (method ∈ match r with
    | RconHelpResult _ => ["rcon.help"]
    | RPCDiscoverResult _ => ["rpc.discover"]
    | ClientListResult _ => ["client.list"]
    | ClientInfoResult _ => ["client.info"]
    | ClientBanned _ => ["client.ban"]
    | InstanceCommandResult _ => ["server.instance.command"]
    | ServerListResult _ => ["server.list"]
    | ServerInstancesResult _ => ["server.instances"]
    | ServerLifecycleResult ok => if ok then ["server.start"; "server.stop"; "server.restart"] else []
    | ServerRemoveResult ok => if ok then ["server.remove"] else []
    | ServerLaunchResult ok => if ok then ["server.launch"] else []
    | LogsTailResult _ => ["logs.tail"]
    end%string).

(** What a handler that returned says, by the table. *)
Definition codesBy (method : string) (a : Admin) (client : Client) (p : rpcParams) (w : World S) (h : handled S) : Prop :=
  match h with
  | returned (Ok r) _ => refusal a method client p w = None /\ resultOf method r = true
  | returned (Err e) _ => refusal a method client p w = Some (errCode e)
                          /\ (errCode e = ErrCodeDispatch -> operationError method client p w = Some (errMessage e))
  | _ => True
  end.

(** An operation of the manager, past the guards. *)
Lemma afterOp_codes method a client p w r (res : option string * S) :
  badTarget p = false -> subsystemThere a method = true -> noSuchClient p w = false ->
  operationError method client p w = fst res -> resultOf method r = true ->
  codesBy method a client p w (afterOp r w res).
Proof.
  intros H1' H2' H3' Hop Hr. unfold afterOp, codesBy, refusal. rewrite H1', H2', H3'. cbn [negb].
  destruct (fst res) as [e|]; cbn; rewrite Hop; by split.
Qed.
Lemma refused_codes method a client p w code message w' :
  refusal a method client p w = Some code -> code <> ErrCodeDispatch ->
  codesBy method a client p w (failed (mkMethodError code message) w').
Proof. intros Hr Hne. split; [exact Hr|]. intros He. by destruct Hne. Qed.

Lemma subsystem_server a m : HasPrefix m "server." = true -> subsystemThere a m = hasOrch a.
Proof. unfold subsystemThere. by intros ->. Qed.
Lemma subsystem_client a m : HasPrefix m "server." = false -> HasPrefix m "client." = true -> subsystemThere a m = hasRegistry a.
Proof. unfold subsystemThere. by intros -> ->. Qed.

(** The handlers of one guard, of the orchestrator and of a target. *)
Lemma guarded_codes method a client p w r (res : option string * S) :
  HasPrefix method "server." = true -> badTarget p = false -> noSuchClient p w = false ->
  operationError method client p w = fst res -> resultOf method r = true ->
  codesBy method a client p w (match requireOrch a with Some e => failed e w | None => afterOp r w res end).
Proof.
  intros Hm H1' H2' Hop Hr. unfold requireOrch. pose proof (subsystem_server a method Hm) as Hs. destruct (hasOrch a).
  - by apply afterOp_codes.
  - apply refused_codes; [|done]. unfold refusal. by rewrite H1', Hs.
Qed.
Lemma targeted_codes method a client p target w r (op : Z -> bool -> option string * S) :
  HasPrefix method "server." = true -> noSuchClient p w = false -> resultOf method r = true ->
  badTarget p = match parseServerTargetToken target with Ok _ => false | Err _ => true end ->
  (forall idx all, parseServerTargetToken target = Ok (idx, all) -> operationError method client p w = fst (op idx all)) ->
  codesBy method a client p w
    (match parseServerTargetToken target with
     | Err e => failed e w
     | Ok (idx, all) => match requireOrch a with Some e => failed e w | None => afterOp r w (op idx all) end
     end).
Proof.
  intros Hm Hn Hr Hb Hop. destruct (parseServerTargetToken target) as [[idx all]|e] eqn:Ht.
  - apply guarded_codes; auto.
  - destruct e as [code message]. pose proof (parseServerTargetToken_code _ _ Ht) as Hc. cbn in Hc. subst code.
    apply refused_codes; [|done]. unfold refusal. by rewrite Hb.
Qed.

Lemma adminCommands_codes : Forall (fun c => forall raw p, ParseParams c raw = Ok p ->
  forall a client w, codesBy (cmdMethod c) a client p w (Handler c a client p w)) (adminCommands (S := S)).
Proof.
  unfold adminCommands, commandTexts, commandBodies. cbn [zip_with fst snd].
  repeat (apply List.Forall_cons; [|]); [..|apply List.Forall_nil];
    intros raw p Hp a client w; cbn [ParseParams Handler cmdMethod] in *.
  - injection Hp as <-. by split.
  - injection Hp as <-. by split.
  - injection Hp as <-. unfold clientListCommand, requireRegistry. pose proof (subsystem_client a "client.list" eq_refl eq_refl) as Hs.
    destruct (hasRegistry a); [split; [|done]|apply refused_codes; [|done]]; unfold refusal; by rewrite Hs.
  - destruct (parsed_lookup _ _ Hp) as [addr ->]. unfold clientInfoCommand, clientInfoHandler, requireRegistry.
    pose proof (subsystem_client a "client.info" eq_refl eq_refl) as Hs.
    destruct (hasRegistry a); [|apply refused_codes; [|done]; unfold refusal; by rewrite Hs].
    destruct (ByVirtualAddr _ _ _) as [c|] eqn:Hc; [split; [|done]|apply refused_codes; [|done]];
      unfold refusal; rewrite Hs; cbn [badTarget negb noSuchClient]; by rewrite Hc.
  - destruct (parsed_lookup _ _ Hp) as [addr ->]. unfold clientBanCommand, clientBanHandler, requireRegistry.
    pose proof (subsystem_client a "client.ban" eq_refl eq_refl) as Hs.
    destruct (hasRegistry a); [|apply refused_codes; [|done]; unfold refusal; by rewrite Hs].
    destruct (ByVirtualAddr _ _ _) as [c|] eqn:Hc; [|apply refused_codes; [|done]];
      [destruct (Disconnect _ _ _) as [d t]; split; [|done]|]; unfold refusal; rewrite Hs; cbn [badTarget negb noSuchClient]; by rewrite Hc.
  - destruct (parsed_command _ _ Hp) as (port & cmd & -> & _). unfold instanceCommandHandler, requireOrch.
    pose proof (subsystem_server a "server.instance.command" eq_refl) as Hs.
    destruct (hasOrch a); [|apply refused_codes; [|done]; unfold refusal; by rewrite Hs].
    destruct (smDispatchInstanceCmd _ _ _ _) as [[reply|e]|] eqn:Hd; [| |done]; unfold failed, codesBy, refusal;
      rewrite Hs; cbn [badTarget negb noSuchClient operationError]; rewrite Hd; by split.
  - injection Hp as <-. unfold serverListHandler, requireOrch. pose proof (subsystem_server a "server.list" eq_refl) as Hs.
    destruct (hasOrch a); [split; [|done]|apply refused_codes; [|done]]; unfold refusal; by rewrite Hs.
  - destruct (parsed_instances _ _ Hp) as (i & -> & _). unfold serverInstancesHandler, requireOrch.
    pose proof (subsystem_server a "server.instances" eq_refl) as Hs.
    destruct (hasOrch a); [|apply refused_codes; [|done]; unfold refusal; by rewrite Hs]. cbv zeta.
    destruct (smInstanceSnapshots _ _) as [l|e] eqn:Hd; unfold failed, codesBy, refusal;
      rewrite Hs; cbn [badTarget negb noSuchClient operationError]; rewrite Hd; by split.
  - unfold parseServerTarget in Hp. destruct (unmarshalParams _ _ _) as [t|]; [|done]. injection Hp as <-.
    apply (targeted_codes _ a client _ t w _ (fun idx (all : bool) => if all then _ else _)); try done.
    intros idx all Ht. cbn [operationError]. rewrite Ht. by destruct all.
  - unfold parseServerStop in Hp. destruct (unmarshalParams _ _ _) as [t|]; [|done]. injection Hp as <-.
    apply (targeted_codes _ a client _ (fst t) w _ (fun idx (all : bool) => if all then _ else _)); try done.
    intros idx all Ht. cbn [operationError]. rewrite Ht. by destruct all.
  - unfold parseServerStop in Hp. destruct (unmarshalParams _ _ _) as [t|]; [|done]. injection Hp as <-.
    apply (targeted_codes _ a client _ (fst t) w _ (fun idx (all : bool) => if all then _ else _)); try done.
    intros idx all Ht. cbn [operationError]. rewrite Ht. by destruct all.
  - destruct (parsed_index _ _ Hp) as (i & -> & _). by apply guarded_codes.
  - destruct (parsed_launch _ _ Hp) as (b & args & ->). by apply guarded_codes.
  - unfold parseLogsTail in Hp. destruct (unmarshalParams _ _ _) as [n|]; [|done]. injection Hp as <-.
    unfold logsTailHandler. assert (subsystemThere a "logs.tail" = hasTailLog a) as Hs by reflexivity.
    destruct (hasTailLog a); cbn [negb]; [split; [|done]|apply refused_codes; [|done]]; unfold refusal; by rewrite Hs.
Qed.

(** The answer's code, by the table. *)
Lemma Dispatch_codes a now1 now2 meanwhile req client (w : World S) :
  match Dispatch a now1 now2 meanwhile req client w with
  | answered r _ =>
      codeOf (answer r)
      = (if bool_decide (In (Method req) methods)
         then match parsedParams req with
              | Some p => refusal a (Method req) client p w
              | None => Some ErrCodeInvalidParams
              end
         else Some ErrCodeMethodNotFound)
      /\ (forall res, answer r = rpcOK res -> resultOf (Method req) res = true)
      /\ (forall message, answer r = rpcError ErrCodeDispatch message ->
            exists p, parsedParams req = Some p /\ operationError (Method req) client p w = Some message)
  | _ => True
  end.
Proof.
  pose proof (lookupCommand_iff (S := S) (Method req)) as Hiff. fold methods in Hiff. unfold Dispatch, parsedParams.
  destruct (lookupCommand (Method req)) as [cmd|] eqn:Hl.
  2: { split; [|done]. rewrite bool_decide_eq_false_2; [done|]. intros Hin. by apply Hiff in Hin as [? ?]. }
  rewrite bool_decide_eq_true_2 by (apply Hiff; by eexists).
  destruct (ParseParams cmd (Params req)) as [p|err] eqn:Hp; [|by split].
  destruct (lookupCommand_Some _ _ Hl) as [Hin Hm]. pose proof adminCommands_codes as Hok.
  rewrite List.Forall_forall in Hok. specialize (Hok _ Hin _ _ Hp a client). rewrite Hm in Hok. cbv zeta.
  rewrite auditRPC_call. set (w1 := logMeanwhile _ _). specialize (Hok w1).
  destruct (Handler cmd a client p w1) as [[r|e] w2| |]; [| |done|done]; cbn [answer codeOf errorResponse].
  - destruct Hok as [Hr Ht]. split; [exact (eq_sym Hr)|]. split; [by intros res [= <-]|done].
  - destruct Hok as [Hr Ht]. split; [exact (eq_sym Hr)|]. split; [done|]. intros message [= Hc <-]. exists p. split; [done|]. by apply Ht.
Qed.

(** C17.  Dispatch is well typed and its codes say what failed, for any request.  No handler is given
    parameters of another type than the one it asserts, so none panics; only a console command can
    still be waiting; the response carries the request's id; a result is of its method's type.  And
    the code of the answer is determined: method not found for an unknown method; invalid params
    when the parser refuses the parameters or the target of a start, stop or restart is neither "all"
    nor an index; otherwise unavailable when the method's subsystem is missing; not found when the
    registry knows no client at the address; dispatch, with the operation's error, when the
    operation fails; and no error in every other case.  No method answers internal or conflict. *)
Theorem Dispatch_typed a now1 now2 meanwhile req client (w : World S) :
  match Dispatch a now1 now2 meanwhile req client w with
  | dispatchPanics => False
  | stillAwaiting _ => Method req = "server.instance.command"%string
  | answered r _ =>
      respID r = reqID req
      /\ codeOf (answer r)
         = (if bool_decide (In (Method req) methods)
            then match parsedParams req with
                 | Some p => refusal a (Method req) client p w
                 | None => Some ErrCodeInvalidParams
                 end
            else Some ErrCodeMethodNotFound)
      /\ codeOf (answer r) <> Some ErrCodeInternal /\ codeOf (answer r) <> Some ErrCodeConflict
      /\ (forall res, answer r = rpcOK res -> resultOf (Method req) res = true)
      /\ (forall message, answer r = rpcError ErrCodeDispatch message ->
            exists p, parsedParams req = Some p /\ operationError (Method req) client p w = Some message)
  end.
Proof.
  pose proof (Dispatch_all (fun _ _ => True) (serverManagerSteps0 := any_steps S) a now1 now2 meanwhile req client w) as Hd.
  pose proof (Dispatch_codes a now1 now2 meanwhile req client w) as Hc.
  destruct (Dispatch a now1 now2 meanwhile req client w) as [r w'| |]; [|exact Hd|exact Hd]. destruct Hd as (Hid & _).
  destruct Hc as (Hc & Hres & Hop). split_and!; [done|exact Hc| | |exact Hres|exact Hop]; rewrite Hc;
    (destruct (bool_decide _); [destruct (parsedParams req) as [p|]; [|done]|done]);
    unfold refusal; destruct (badTarget p), (subsystemThere a (Method req)), (noSuchClient p w), (operationError (Method req) client p w); done.
Qed.

(** C18.  Every request is audited, on a line for each leg: with an audit log, an identity in
    ASCII, a method without line ends and the log file open, answering adds to the file and to the ring,
    whatever the level, the stamped request, if it was accepted, and the stamped result or error,
    and between the two just the lines of what the operations and the other goroutines
    logged meanwhile at their levels. *)
Theorem Dispatch_audited a now1 now2 meanwhile req client (w w' : World S) text r :
  hasAudit a = true -> openLog (wLogs w) text ->
  isASCII (ID client) = true -> lacks lfByte (Method req) -> lacks crByte (Method req) ->
  Dispatch a now1 now2 meanwhile req client w = answered r w' ->
  let line leg := (stamp (fst (fst leg)) ++ auditText client (Method req) (snd (fst leg)) (snd leg))%string in
  let lines level := match legs (S := S) now1 now2 req (answer r) with
                     | [] => []
                     | [leg] => [line leg]
                     | leg :: ls => line leg :: flat_map (tailLines level) (fst meanwhile ++ snd meanwhile) ++ map line ls
                     end in
  fileText (wLogs w') = Some (text ++ unlines (lines (fileLogLevel (wLogs w))))%string
  /\ nexusLogHistory (wLogs w') = lastn 2048 (nexusLogHistory (wLogs w) ++ lines (currentLogLevel (wLogs w))).
Proof.
  intros Ha Ho Hid Hlf Hcr Hd line lines.
  pose proof (Dispatch_all (fun _ _ => True) (serverManagerSteps0 := any_steps S) a now1 now2 meanwhile req client w) as Hall.
  rewrite Hd in Hall. destruct Hall as (_ & Hlog & _).
  set (calls := dispatchCalls _ _ _ _ _) in Hlog.
  assert (forall lvl, flat_map (tailLines lvl) calls = lines lvl) as Hlines.
  { intros lvl. assert (Forall (fun leg => lacks lfByte (snd (fst leg)) /\ lacks crByte (snd (fst leg)))
      (legs (S := S) now1 now2 req (answer r))) as Hdir.
    { unfold legs, outcomeLeg. destruct (answer r), (lookupCommand _) as [cmd|]; try destruct (ParseParams cmd _); by repeat constructor. }
    assert (forall leg, lacks lfByte (snd (fst leg)) /\ lacks crByte (snd (fst leg)) ->
      tailLines lvl (auditLeg client (Method req) leg) = [line leg]) as Hleg.
    { intros leg [Hd1 Hd2]. unfold auditLeg. cbn [tailLines]. unfold stamped. by rewrite auditText_line. }
    unfold calls, lines, dispatchCalls, audited. rewrite Ha. clear Hlog calls.
    destruct (legs _ _ _ _) as [|leg [|leg' ls]]; [done| |]; apply List.Forall_cons_iff in Hdir as [Hl Hls].
    - cbn [flat_map]. by rewrite Hleg.
    - rewrite !flat_map_app. cbn [flat_map]. rewrite Hleg by done. cbn [app]. rewrite app_assoc, <- flat_map_app. do 2 f_equal.
      induction Hls as [|l k Hl' _ IH]; [done|]. cbn [map flat_map]. by rewrite IH, Hleg. }
  destruct (runCalls_spec calls (wLogs w) text Ho) as (_ & Hh & Hf & _).
  rewrite Hlines in Hf, Hh. rewrite Hlog. split; [exact Hf|exact Hh].
Qed.

(** What a request can change: whatever it is, the servers go through steps of the
    manager only, which are none for an unknown method or bad parameters; the clients' records never
    change; the trunk and the gate only by a ban; and the log only by the audit and by what is
    logged while a handler runs. *)
Theorem Dispatch_changes a now1 now2 meanwhile req client (w w' : World S) r :
  Dispatch a now1 now2 meanwhile req client w = answered r w' ->
  rtc stepR (wServers w) (wServers w')
  /\ (match answer r with rpcError code _ => code = ErrCodeMethodNotFound | _ => False end -> wServers w' = wServers w)
  /\ (forall cmd e, lookupCommand (S := S) (Method req) = Some cmd -> ParseParams cmd (Params req) = Err e -> wServers w' = wServers w)
  /\ wClients w' = wClients w
  /\ (Method req <> "client.ban"%string -> wTrunk w' = wTrunk w /\ wGate w' = wGate w)
  /\ (hasAudit a = false -> wLogs w' = wLogs w \/ wLogs w' = foldl runCall (wLogs w) (fst meanwhile ++ snd meanwhile)).
Proof.
  intros Hd. pose proof (Dispatch_all stepR a now1 now2 meanwhile req client w) as Hall. rewrite Hd in Hall.
  destruct Hall as (_ & Hlog & (K1 & K2 & _ & K4) & Hans). split_and!; [exact K1| | |exact K2|exact (proj1 K4)|].
  - destruct (answer r) as [|code msg]; [intros []|]. intros ->. destruct (lookupCommand _) as [cmd|]; [|apply Hans].
    destruct (ParseParams cmd _); [done|]. apply Hans.
  - intros cmd e Hl Hp. rewrite Hl, Hp in Hans. apply Hans.
  - intros Ha. rewrite Hlog. unfold dispatchCalls, audited. rewrite Ha. destruct (legs _ _ _ _) as [|leg [|leg' ls]]; [by left|by left|].
    right. cbn [app]. by rewrite app_nil_r.
Qed.

(** The targets of the lifecycle methods. *)
Lemma parseServerTargetToken_Ok target idx all :
  parseServerTargetToken target = Ok (idx, all) ->
  if all then EqualFold (TrimSpace target) "all" = true /\ idx = 0
  else EqualFold (TrimSpace target) "all" = false /\ Atoi (TrimSpace target) = Some idx /\ 0 < idx.
Proof.
  unfold parseServerTargetToken. cbv zeta. destruct (_ =? _)%string; [done|].
  destruct (EqualFold _ _) eqn:He; [by intros [= <- <-]|].
  destruct (Atoi _) as [i|] eqn:Hi; [|done]. destruct (Z.leb_spec i 0); [done|]. intros [= <- <-]. done.
Qed.

(** The grace period is the seconds asked for, exactly for those whose nanoseconds fit in
    an int64, and two seconds for none asked. *)
Theorem graceDuration_exact seconds :
  min_int <= seconds <= max_int ->
  (seconds <= 0 -> graceDuration seconds = 2 * second)
  /\ (0 < seconds -> (graceDuration seconds = seconds * second <-> seconds <= 9223372036)).
Proof.
  intros Hr. unfold graceDuration, min_int, max_int, second in *. split; intros Hs.
  - by destruct (Z.leb_spec seconds 0); [|lia].
  - destruct (Z.leb_spec seconds 0); [lia|]. unfold int64, wrap64.
    rewrite (Z.mod_small seconds) by lia. destruct (Z.ltb_spec seconds (2 ^ 63)); [|lia].
    change (10 ^ 9) with 1000000000. change (2 ^ 64) with 18446744073709551616. change (2 ^ 63) with 9223372036854775808 in *.
    pose proof (Z.mod_pos_bound (seconds * 1000000000) 18446744073709551616 ltac:(lia)) as Hm.
    split.
    + intros He. destruct (Z.ltb_spec ((seconds * 1000000000) mod 18446744073709551616) 9223372036854775808); lia.
    + intros Hle. rewrite Z.mod_small by lia. destruct (Z.ltb_spec (seconds * 1000000000) 9223372036854775808); lia.
Qed.

(** What the log holds are lines, so [logs.tail] filters nothing out of them. *)
Lemma tailLine_line s : s <> ""%string -> lacks lfByte s -> lacks crByte s -> tailLine s = [s].
Proof.
  intros Hne Hlf Hcr. unfold tailLine. cbv zeta. assert (ReplaceByte s crByte "" = s) as ->.
  { unfold ReplaceByte. rewrite <- (btext_blist s) at 2. f_equal. unfold lacks in Hcr. induction Hcr as [|b l Hb _ IH]; [done|].
    cbn [flat_map]. rewrite IH. by destruct (Ascii.eqb_spec b crByte). }
  pose proof (TrimRight_keep "" s lfByte Hne Hlf) as Ht. change ("" ++ s)%string with s in Ht. change lf with (btext [lfByte]).
  rewrite Ht. by destruct (String.eqb_spec s "").
Qed.

(** [logs.tail] is the log: on the logs of any calls since an empty ring, it answers with
    the last lines recorded, as many as asked for, ten if none, at most 2048, none dropped. *)
Theorem logsTailHandler_tail a client n (w : World S) st0 text calls :
  hasTailLog a = true -> openLog st0 text -> nexusLogHistory st0 = [] -> wLogs w = foldl runCall st0 calls ->
  logsTailHandler a client (LogsTailParams n) w
  = returned (Ok (LogsTailResult
      (lastn (Z.to_nat (if n <=? 0 then 10 else n)) (lastn 2048 (flat_map (tailLines (currentLogLevel st0)) calls))))) w.
Proof.
  intros Ha Ho Hnil Hw. unfold logsTailHandler. rewrite Ha. cbn [negb]. cbv zeta. do 3 f_equal.
  rewrite tail_lastn, Hw. destruct (runCalls_spec calls st0 text Ho) as (_ & Hh & _). rewrite Hh, Hnil. cbn [app].
  change defaultTail with 10. set (k := Z.to_nat _).
  assert (Forall (fun s => tailLine s = [s]) (flat_map (tailLines (currentLogLevel st0)) calls)) as Hl.
  { apply Forall_flat_map, Forall_forall. intros c _.
    assert (forall now msg, Forall (fun s => tailLine s = [s]) (stamped now msg)) as Hst.
    { intros now msg. pose proof (stamped_logLines now msg) as [Hl _]. pose proof (stamped_nonempty now msg) as Hne.
      rewrite Forall_forall in *. intros s Hs. destruct (Hl s Hs). apply tailLine_line; auto. }
    destruct c as [l now cm fm|l now msg|now cm fm]; cbn [tailLines]; [destruct (l <=? _)| |]; try apply Hst; constructor. }
  assert (Forall (fun s => tailLine s = [s]) (lastn k (lastn 2048 (flat_map (tailLines (currentLogLevel st0)) calls)))) as Hk.
  { unfold lastn. by apply Forall_drop, Forall_drop. }
  induction Hk as [|s l Hs _ IH]; [done|]. cbn [flat_map]. by rewrite Hs, IH.
Qed.
End Properties.

Section OrchestratorProperties.
Context `{GoUnicode} `{GoNetip} `{GoJSON} (env : orchEnv).

(** No admin request corrupts the registry: with the orchestrator behind it, whatever the
    request, a registry that satisfies the invariant satisfies it after. *)
Theorem Dispatch_consistent a now1 now2 meanwhile req client (w w' : World ServerManager) r :
  reg_ok (wServers w) -> Dispatch (H2 := orchestrator env) a now1 now2 meanwhile req client w = answered r w' ->
  reg_ok (wServers w').
Proof.
  intros Hok Hd. pose proof (Dispatch_all (H2 := orchestrator env) mstep (serverManagerSteps0 := orchestrator_steps env)
    a now1 now2 meanwhile req client w) as Hall. rewrite Hd in Hall.
  destruct Hall as (_ & _ & (Hsteps & _) & _). exact (steps_ok _ _ Hsteps Hok).
Qed.
End OrchestratorProperties.

(** * Runs *)

(** A library that reads the texts of a table and writes values plainly. *)
Definition dquote (s : string) : string := (btext [quoteByte] ++ s ++ btext [quoteByte])%string.
Fixpoint plainText (j : json) : string :=
  match j with
  | JNull => "null" | JBool true => "true" | JBool false => "false" | JNumber t => t
  | JString s => dquote s
  | JArray l => "[" ++ Join (map plainText l) "," ++ "]"
  | JObject fields => "{" ++ Join (map (fun f => dquote (fst f) ++ ":" ++ plainText (snd f)) fields) "," ++ "}"
  end%string.
Definition plainJSON (table : list (string * json)) : GoJSON := {|
  json_parse s := snd <$> List.find (fun e => (fst e =? s)%string) table;
  json_text := plainText;
  json_misfit key _ := ("cannot store " ++ key)%string;
  json_time := Itoa;
|}.

Definition demoEnv : orchEnv :=
  mkOrchEnv "/logs" lifeAlive (fun _ => lifeStart) (fun _ _ => mkStopEnv (processDone None) true (processDone None) false (processDone None)) lifeStart "t0"
    (fun _ => newServerConsole true) (mkCapture "id" None []).
Definition demoAdmin : Admin := mkAdmin true true true true true.
Definition boss : Client := mkClient "boss" "10.0.0.1".
Definition demoWorld : World ServerManager := mkWorld lifeManager life2 lifeClients lifeGate openedLogs.
Definition stopRequest : rpcRequest :=
  mkRpcRequest "2.0" "server.stop" (Some (JObject [("Target", JString "all"); ("grace_seconds", JNumber "3")]%string)) (Some (JNumber "7")).
(** Another goroutine's line, and one of the operation. *)
Definition demoMeanwhile : list logCall * list logCall :=
  ([callLog logWarn (clockAt 5) "slow" "slow"], [callLog logError (clockAt 6) "stopped" "stopped server=0"])%string.
Definition dispatchDemo (req : rpcRequest) (client : Client) : dispatched (S := ServerManager) :=
  Dispatch (H := plain_unicode) (H0 := no_ipv6) (H1 := plainJSON []) (H2 := orchestrator (H := plain_unicode) demoEnv)
    demoAdmin (clockAt 5) (clockAt 6) demoMeanwhile req client demoWorld.
Definition answerOf {S} (d : dispatched (S := S)) : option rpcAnswer := match d with answered r _ => Some (answer r) | _ => None end.
Definition worldAfter {S} (w : World S) (d : dispatched (S := S)) : World S :=
  match d with answered _ w' | stillAwaiting w' => w' | dispatchPanics => w end.

#[local] Transparent lookupCommand.

Lemma openedLogs_open : openLog openedLogs "".
Proof. split; [apply Nat.le_0_l|vm_compute; reflexivity]. Qed.

Lemma Dispatch_audited_witness :
  let answered_with := rpcOK (ServerLifecycleResult true) in
  answerOf (dispatchDemo stopRequest boss) = Some answered_with
  /\ nexusLogHistory (wLogs (worldAfter demoWorld (dispatchDemo stopRequest boss)))
     = nexusLogHistory openedLogs
       ++ [stamp (clockAt 5) ++ auditText (H := plain_unicode) (H0 := plainJSON []) boss "server.stop" "request" (paramsJSON (ServerStopParams "all" 3));
           stamp (clockAt 5) ++ "slow"; stamp (clockAt 6) ++ "stopped server=0";
           stamp (clockAt 6) ++ auditText (H := plain_unicode) (H0 := plainJSON []) boss "server.stop" "result" (resultJSON (H := plainJSON []) (ServerLifecycleResult true))]%string.
Proof.
  cbv zeta. destruct (dispatchDemo stopRequest boss) as [r w'| |] eqn:Hd; [|vm_compute in Hd; discriminate Hd..].
  assert (answer r = rpcOK (ServerLifecycleResult true)) as Hr.
  { assert (Some (answer r) = answerOf (dispatchDemo stopRequest boss)) as Ha by (rewrite Hd; reflexivity).
    vm_compute in Ha. by injection Ha. }
  cbn [answerOf worldAfter]. split; [by rewrite Hr|].
  refine (eq_trans (proj2 (Dispatch_audited (H := plain_unicode) (H0 := no_ipv6) (H1 := plainJSON [])
    (H2 := orchestrator (H := plain_unicode) demoEnv)
    demoAdmin (clockAt 5) (clockAt 6) demoMeanwhile stopRequest boss demoWorld w' "" r _ openedLogs_open _ _ _ Hd)) _).
  - reflexivity.
  - reflexivity.
  - apply Forall_forall. intros c Hc ->. revert Hc. apply (bool_decide_eq_false_1 _). vm_compute. reflexivity.
  - apply Forall_forall. intros c Hc ->. revert Hc. apply (bool_decide_eq_false_1 _). vm_compute. reflexivity.
  - rewrite Hr. vm_compute. reflexivity.
Defined.

Lemma Dispatch_changes_witness :
  let req := mkRpcRequest "2.0" "server.halt" None None in
  answerOf (dispatchDemo req boss)
    = Some (rpcError ErrCodeMethodNotFound ("method " ++ dquote "server.halt" ++ " not found")%string)
  /\ wServers (worldAfter demoWorld (dispatchDemo req boss)) = wServers demoWorld.
Proof.
  cbv zeta. set (req := mkRpcRequest _ _ _ _). set (msg := ("method " ++ _)%string).
  assert (answerOf (dispatchDemo req boss) = Some (rpcError ErrCodeMethodNotFound msg)) as Ha by (vm_compute; reflexivity).
  split; [exact Ha|]. destruct (dispatchDemo req boss) as [r w'| |] eqn:Hd; [|discriminate Ha..]. cbn [answerOf] in Ha.
  injection Ha as Ha.
  destruct (Dispatch_changes (H := plain_unicode) (H0 := no_ipv6) (H1 := plainJSON [])
    (H2 := orchestrator (H := plain_unicode) demoEnv) mstep (serverManagerSteps0 := orchestrator_steps (H := plain_unicode) demoEnv)
    demoAdmin (clockAt 5) (clockAt 6) demoMeanwhile req boss demoWorld w' r Hd) as (_ & Hp & _).
  cbn [worldAfter]. apply Hp. rewrite Ha. reflexivity.
Defined.

Lemma Dispatch_consistent_witness : reg_ok (wServers (worldAfter demoWorld (dispatchDemo stopRequest boss))).
Proof.
  destruct (dispatchDemo stopRequest boss) as [r w'| |] eqn:Hd; [|vm_compute in Hd; discriminate Hd..].
  cbn [worldAfter]. exact (Dispatch_consistent (H := plain_unicode) (H0 := no_ipv6) (H1 := plainJSON []) demoEnv
    demoAdmin (clockAt 5) (clockAt 6) demoMeanwhile stopRequest boss demoWorld w' r lifeManager_ok Hd).
Defined.

Lemma graceDuration_exact_witness : graceDuration 9223372036 = 9223372036 * second.
Proof.
  destruct (graceDuration_exact 9223372036 ltac:(unfold min_int, max_int; lia)) as [_ Hg].
  apply (proj2 (Hg ltac:(lia))). lia.
Defined.

(** A second more than fits makes the period negative: an operator who asks for the longest wait
    gets none. *)
Example graceDuration_wraps : graceDuration 9223372037 = -9223372036709551616.
Proof. reflexivity. Qed.

Definition tailWorld : World ServerManager :=
  mkWorld lifeManager life2 lifeClients lifeGate (foldl runCall openedLogs someCalls).
Lemma logsTailHandler_tail_witness :
  logsTailHandler demoAdmin boss (LogsTailParams 1) tailWorld
  = returned (Ok (LogsTailResult ["2024/06/01 12:30:03 broken err=x"%string])) tailWorld.
Proof.
  rewrite (logsTailHandler_tail demoAdmin boss 1 tailWorld openedLogs "" someCalls eq_refl openedLogs_open eq_refl eq_refl).
  vm_compute. reflexivity.
Defined.

(** docs/ADMIN.md answers a ban of an administrator with a conflict; nothing checks who is banned:
    here an administrator bans its own address, and is barred. *)
Example administrator_banned :
  let ban := mkRpcRequest "2.0" "client.ban" (Some (JObject [("nqip", JString (ip4String lifeAddr))]%string)) None in
  answerOf (dispatchDemo ban ann) = Some (rpcOK (ClientBanned (mkBan (ip4String lifeAddr) [SourceIP ann] 1)))
  /\ HTTPGate (H := plain_unicode) (H0 := no_ipv6) noVerify (Some (wGate (worldAfter demoWorld (dispatchDemo ban ann)))) fromAnn = forbidden.
Proof. vm_compute. split; reflexivity. Qed.

(** The method of a refused request goes into the audit as it is: a caller without credentials
    writes, in the ring and in the file, any audit line, here that of another's request. *)
Example forged_audit_line :
  let genuine := auditText (H := plain_unicode) (H0 := plainJSON []) boss "server.stop" "request" (paramsJSON (ServerStopParams "all" 3)) in
  let w := AuditUnauthorized (H := plain_unicode) (H0 := plainJSON []) demoAdmin (clockAt 5) (mkClient "1.2.3.4" "1.2.3.4")
             ("x" ++ lf ++ genuine ++ lf) demoWorld in
  nth_error (nexusLogHistory (wLogs w)) 1 = Some (stamp (clockAt 5) ++ genuine)%string.
Proof. vm_compute. reflexivity. Qed.
