(* ===== verification/Config.v ===== *)
(** Configuration and certificates: env.go, cert.go, and the sub-commands of version.go.

    The environment is a function from names to values, empty when unset; the warnings that the code
    logs are returned in order.  Splitting shell words (shlex), parsing URLs, obtaining certificates
    and the file system are arguments. *)
From S2P Require Import Prelude GoStrings.

(** * The environment (env.go) *)

Section Env.
Context `{GoUnicode}.
Variable getenv : string -> string.
(** github.com/google/shlex, Split *)
Variable shlex : string -> option (list string).

Definition getEnv (key defaultValue : string) : string :=
  let value := getenv key in if negb (value =? "")%string then value else defaultValue.

Definition getEnvIntMin (key : string) (defaultValue minValue : Z) : Z * list string :=
  let raw := TrimSpace (getenv key) in
  if (raw =? "")%string then (defaultValue, []) else
  let invalid := (defaultValue, ["Invalid " ++ key ++ "=" ++ Quote raw ++ " (expected integer >= " ++ Itoa minValue ++ "); using "
                                 ++ Itoa defaultValue]%string) in
  match Atoi raw with
  | None => invalid
  | Some value => if value <? minValue then invalid else (value, [])
  end.

Definition boolText (b : bool) : string := if b then "true" else "false".
Definition getEnvBool01 (key : string) (defaultValue : bool) : bool * list string :=
  let raw := TrimSpace (getenv key) in
  if (raw =? "")%string then (defaultValue, []) else
  if (raw =? "1")%string then (true, []) else
  if (raw =? "0")%string then (false, []) else
  (defaultValue, ["Invalid " ++ key ++ "=" ++ Quote raw ++ " (expected 0|1); using default (" ++ boolText defaultValue ++ ")"]%string).

Definition getEnvArgs (key : string) (defaultValue : list string) : list string * list string :=
  let raw := TrimSpace (getenv key) in
  if (raw =? "")%string then (defaultValue, []) else
  match shlex raw with
  | None => (defaultValue, ["Invalid " ++ key ++ "=" ++ Quote raw ++ " (expected shell-style args); using default"]%string)
  | Some parsed => (parsed, [])
  end.

(** env.go [runtimeConfig] *)
Record runtimeConfig := mkRuntimeConfig {
  httpPort : string; gameDir : string; cfgDir : string; cdDir : string; logsDir : string; binDir : string;
  serverBinDir : string; clientDir : string; vfsPrefetchConcurrency : Z; clientAutoSMenu : bool;
  clientSendArgs : list string; clientURLArgs : bool; serverMaxInstances : Z;
}.
Definition loadRuntimeConfig : runtimeConfig * list string :=
  let '(concurrency, w1) := getEnvIntMin "CL_CONCURRENCY" 16 0 in
  let '(smenu, w2) := getEnvBool01 "CL_SMENU" false in
  let '(sendArgs, w3) := getEnvArgs "CL_ARGS" [] in
  let '(urlArgs, w4) := getEnvBool01 "CL_URL_ARGS" true in
  let '(maxInstances, w5) := getEnvIntMin "SV_MAX_INSTANCES" 1 1 in
  (mkRuntimeConfig (getEnv "HTTP_PORT" "1337") (getEnv "GAME_DIR" "/app/game") (getEnv "CFG_DIR" "/app/etc")
     (getEnv "CD_DIR" "/app/cd") (getEnv "LOGS_DIR" "/app/logs") (getEnv "BIN_DIR" "/app/bin")
     (getEnv "SERVER_DIR" "/app/server") (getEnv "CLIENT_DIR" "/app/bin/nqwasm")
     concurrency smenu sendArgs urlArgs maxInstances, w1 ++ w2 ++ w3 ++ w4 ++ w5).
End Env.

(** env.go [prependPath]: the value of PATH after, on Unix *)
Definition prependPath (binDir existing : string) : string :=
  let dir := TrimSpace binDir in
  if (dir =? "")%string then existing else
  if bool_decide (dir ∈ Split existing ":"%char) then existing else
  if (existing =? "")%string then dir else (dir ++ ":" ++ existing)%string.

(** * Certificates (cert.go) *)

(** A certificate, and the end of its leaf when the leaf can be read. *)
Record certificate := mkCert { certID : Z; leafNotAfter : option Z }.

(** What a URL parses to. *)
Record parsedURL := mkURL {
  urlScheme : string; urlHostname : string; urlPort : string; urlPath : string; urlRawQuery : string; urlFragment : string;
  urlUser : bool;
}.

Section Cert.
Context `{GoUnicode}.
(** net/url, Parse *)
Variable urlParse : string -> result string parsedURL.

Definition parseExternalURL (raw : string) : result string string :=
  let bad why := Err ("invalid EXTERNAL_URL " ++ Quote raw ++ ": " ++ why)%string in
  match urlParse (TrimSuffix raw "/") with
  | Err perr => bad perr
  | Ok u =>
      if negb (urlScheme u =? "https")%string then bad "must be an https:// URL"%string else
      if (urlHostname u =? "")%string || negb (urlPort u =? "")%string || negb (urlPath u =? "")%string
         || negb (urlRawQuery u =? "")%string || negb (urlFragment u =? "")%string || urlUser u
      then bad "expected https://host with nothing else (no port — the public port is wherever the page is reached)"%string
      else Ok (urlHostname u)
  end.

(** cert.go [tlsRuntime]: how certificates are resolved, if they are; which certificates the TCP
    listener serves: none, the resolved one, or those of ACME; whether there is a WebTransport
    listener; and the resolved certificate. *)
Inductive resolver := fromPair (cert : certificate) | fromACME (host cache : string).
Inductive tlsSource := servesResolved | servesACME.
Record tlsRuntime := mkTLS {
  serverTLS : option tlsSource; getWTCert : bool; certHost : string; resolveCert : option resolver; wtCert : option certificate;
}.
#[export] Instance eta_tls : EtaRecord tlsRuntime := fun t =>
  mkTLS (serverTLS t) (getWTCert t) (certHost t) (resolveCert t) (wtCert t).

Definition resolvedCert (rt : tlsRuntime) : result string certificate :=
  match wtCert rt with
  | Some c => Ok c
  | None => Err ("TLS certificate for " ++ certHost rt ++ " not resolved yet")%string
  end.

(** cert.go [setupTLS], with the regular files there are and the pair they hold *)
Definition setupTLS (getenv : string -> string) (fileExists : string -> bool)
    (loadPair : string -> string -> result string certificate) : result string tlsRuntime :=
  let origin := TrimSpace (getenv "EXTERNAL_URL"%string) in
  if (origin =? "")%string then Ok (mkTLS None false "" None None) else
  let* host := parseExternalURL origin in
  let certDir := getEnv getenv "CERT_DIR" "/app/cert" in
  let certPath := filepath_Join [certDir; "cert.pem"%string] in
  let keyPath := filepath_Join [certDir; "key.pem"%string] in
  if fileExists certPath && fileExists keyPath then
    match loadPair certPath keyPath with
    | Err err => Err ("load BYO cert from " ++ certDir ++ ": " ++ err)%string
    | Ok cert => Ok (mkTLS (Some servesResolved) true host (Some (fromPair cert)) (Some cert))
    end
  else Ok (mkTLS (Some servesACME) true host (Some (fromACME host (filepath_Join [certDir; "acme"%string]))) None).

(** cert.go [activateTLSCert]: what each attempt to resolve gives, and the error of the context if
    it is cancelled during the wait after an attempt.  The error, the runtime after, and the waits. *)
Definition activateBackoffs : list Z := [2; 5; 10].
Fixpoint activateLoop (resolve : nat -> result string certificate) (cancelled : nat -> option string) (attempt : nat)
    (backoffs : list Z) (rt : tlsRuntime) : option string * tlsRuntime * list Z :=
  match resolve attempt with
  | Ok cert => (None, rt <| wtCert := Some cert |>, [])
  | Err err =>
      match backoffs with
      | [] => (Some (certHost rt ++ ": " ++ err)%string, rt, [])
      | delay :: backoffs =>
          match cancelled attempt with
          | Some e => (Some e, rt, [delay])
          | None => let '(res, waits) := activateLoop resolve cancelled (S attempt) backoffs rt in (res, delay :: waits)
          end
      end
  end.
Definition activateTLSCert (resolve : nat -> result string certificate) (cancelled : nat -> option string) (rt : tlsRuntime)
    : option string * tlsRuntime * list Z :=
  match resolveCert rt with
  | None => (None, rt, [])
  | Some _ => activateLoop resolve cancelled 0 activateBackoffs rt
  end.

(** cert.go [certNewer] *)
Definition certNewer (leaf : Z) (prev : option certificate) : bool :=
  match prev with
  | None => true
  | Some p => match leafNotAfter p with None => true | Some pl => pl <? leaf end
  end.

(** cert.go [refreshTLSCert], on a tick: the message logged, at warn or at info, and the runtime *)
Inductive refreshMessage := refreshFailed (err : string) | renewed (notAfter : Z).
Definition refreshTick (res : result string certificate) (rt : tlsRuntime) : option refreshMessage * tlsRuntime :=
  match res with
  | Err err => (Some (refreshFailed err), rt)
  | Ok cert =>
      let prev := wtCert rt in
      let rt := rt <| wtCert := Some cert |> in
      match leafNotAfter cert with
      | Some leaf => if certNewer leaf prev then (Some (renewed leaf), rt) else (None, rt)
      | None => (None, rt)
      end
  end.
Definition refreshTLSCert (ticks : list (result string certificate)) (rt : tlsRuntime) : tlsRuntime :=
  match resolveCert rt with
  | None => rt
  | Some _ => foldl (fun rt res => snd (refreshTick res rt)) rt ticks
  end.
End Cert.

(** * Sub-commands (version.go) *)

(** version.go [runHealthcheck]: the URL and the server name asked for, and the verdict on the
    answer: an error, or a status with its text and the end of the peer's certificate; [dateText]
    formats a time *)
Definition healthURL (external port : string) : string :=
  ((if (TrimSpace external =? "")%string then "http" else "https") ++ "://127.0.0.1:" ++ port ++ "/health")%string.
Definition healthServerName `{GoUnicode} (urlParse : string -> result string parsedURL) (external : string) : string :=
  let external := TrimSpace external in
  if (external =? "")%string then "" else
  match parseExternalURL urlParse external with Ok host => host | Err _ => "" end.
Definition healthVerdict (dateText : Z -> string) (now : Z) (answer : result string (Z * string * option Z)) : option string :=
  match answer with
  | Err err => Some err
  | Ok (status, text, notAfter) =>
      if negb (status =? 200) then Some text else
      match notAfter with
      | Some t => if t <? now then Some ("TLS certificate expired " ++ dateText t)%string else None
      | None => None
      end
  end.

(** version.go [handleCLI]: the sub-command, if any *)
Inductive cliCommand := cliVersion | cliHealthcheck.
Definition handleCLI (args : list string) : option cliCommand :=
  match args with
  | [] => None
  | a :: _ =>
      if (a =? "--version")%string || (a =? "version")%string then Some cliVersion else
      if (a =? "--healthcheck")%string || (a =? "healthcheck")%string then Some cliHealthcheck else None
  end.
Definition cliExitCode (c : cliCommand) (verdict : option string) : Z :=
  match c with cliVersion => 0 | cliHealthcheck => match verdict with None => 0 | Some _ => 1 end end.

(** * Facts *)

Section ConfigFacts.
Context `{GoUnicode}.

(** Integers are never below their minimum, whatever the environment says. *)
Lemma getEnvIntMin_min getenv key d m : m <= d -> m <= fst (getEnvIntMin getenv key d m).
Proof.
  intros Hd. unfold getEnvIntMin. cbv zeta. destruct (_ =? _)%string; [done|].
  destruct (Atoi _) as [v|]; [|done]. destruct (Z.ltb_spec v m); [done|]. cbn. lia.
Qed.

(** The configuration is in bounds whatever the environment holds: no negative concurrency,
    at least one instance, and no directory or port is empty. *)
Theorem loadRuntimeConfig_bounds getenv shlex :
  let cfg := fst (loadRuntimeConfig getenv shlex) in
  0 <= vfsPrefetchConcurrency cfg /\ 1 <= serverMaxInstances cfg
  /\ Forall (fun s => s <> ""%string) [httpPort cfg; gameDir cfg; cfgDir cfg; cdDir cfg; logsDir cfg; binDir cfg; serverBinDir cfg; clientDir cfg].
Proof.
  unfold loadRuntimeConfig. pose proof (getEnvIntMin_min getenv "CL_CONCURRENCY" 16 0 ltac:(lia)) as H1.
  pose proof (getEnvIntMin_min getenv "SV_MAX_INSTANCES" 1 1 ltac:(lia)) as H2.
  destruct (getEnvIntMin getenv "CL_CONCURRENCY" 16 0), (getEnvBool01 getenv "CL_SMENU" false), (getEnvArgs getenv shlex "CL_ARGS" []),
    (getEnvBool01 getenv "CL_URL_ARGS" true), (getEnvIntMin getenv "SV_MAX_INSTANCES" 1 1). cbn in *. split_and!; [done|done|].
  assert (forall key d, d <> ""%string -> getEnv getenv key d <> ""%string) as Hne.
  { intros key d Hd. unfold getEnv. cbv zeta. by destruct (String.eqb_spec (getenv key) ""). }
  repeat (apply List.Forall_cons; [by apply Hne|]). apply List.Forall_nil.
Qed.

(** The path is only ever extended in front, and once. *)
Lemma prependPath_spec binDir existing :
  let dir := TrimSpace binDir in
  let path := prependPath binDir existing in
  (dir = ""%string -> path = existing)
  /\ (dir <> ""%string -> lacks ":"%char dir ->
      dir ∈ Split path ":"%char
      /\ (path = existing \/ path = dir \/ path = (dir ++ ":" ++ existing)%string)
      /\ prependPath binDir path = path).
Proof.
  cbv zeta. unfold prependPath. cbv zeta. set (dir := TrimSpace binDir). split; [by intros ->|]. intros Hne Hl.
  destruct (String.eqb_spec dir ""); [done|].
  assert (forall p, dir ∈ Split p ":"%char -> (if bool_decide (dir ∈ Split p ":"%char) then p else
    if (p =? "")%string then dir else (dir ++ ":" ++ p)%string) = p) as Hfix.
  { intros p Hp. by rewrite bool_decide_eq_true_2. }
  destruct (bool_decide_reflect (dir ∈ Split existing ":"%char)) as [Hin|Hin]; [by split_and!; [| left |apply Hfix]|].
  destruct (String.eqb_spec existing "") as [He|He].
  - assert (dir ∈ Split dir ":"%char) as Hd by (rewrite Split_whole by done; by left). split_and!; [done|by right; left|by apply Hfix].
  - assert (dir ∈ Split (dir ++ ":" ++ existing)%string ":"%char) as Hd.
    { change ":"%string with (btext [":"%char]). rewrite Split_app_sep, Split_whole by done. by left. }
    split_and!; [done|by right; right|by apply Hfix].
Qed.

(** ** Activation *)

Lemma activateLoop_spec resolve cancelled rt backoffs : forall attempt,
  match activateLoop resolve cancelled attempt backoffs rt with
  | (None, rt', waits) =>
      exists n cert, (n <= length backoffs)%nat /\ resolve (attempt + n)%nat = Ok cert
        /\ (forall k, (k < n)%nat -> (exists e, resolve (attempt + k)%nat = Err e) /\ cancelled (attempt + k)%nat = None)
        /\ rt' = rt <| wtCert := Some cert |> /\ waits = take n backoffs
  | (Some e, rt', waits) =>
      rt' = rt /\
      ((exists err, e = (certHost rt ++ ": " ++ err)%string /\ resolve (attempt + length backoffs)%nat = Err err
          /\ (forall k, (k <= length backoffs)%nat -> exists e, resolve (attempt + k)%nat = Err e) /\ waits = backoffs)
       \/ (exists n, (n < length backoffs)%nat /\ cancelled (attempt + n)%nat = Some e
            /\ (forall k, (k <= n)%nat -> exists e, resolve (attempt + k)%nat = Err e) /\ waits = take (S n) backoffs))
  end.
Proof.
  induction backoffs as [|d bs IH]; intros attempt; cbn [activateLoop]; destruct (resolve attempt) as [cert|err] eqn:Hr.
  - exists 0%nat, cert. rewrite Nat.add_0_r. split_and!; [cbn; lia|done|lia|done|done].
  - split; [done|]. left. exists err. cbn [length]. rewrite Nat.add_0_r. split_and!; [done|done| |done].
    intros k Hk. replace (attempt + k)%nat with attempt by lia. by exists err.
  - exists 0%nat, cert. rewrite Nat.add_0_r. split_and!; [cbn; lia|done|lia|done|done].
  - destruct (cancelled attempt) as [e|] eqn:Hc.
    { split; [done|]. right. exists 0%nat. rewrite Nat.add_0_r. split_and!; [cbn; lia|done| |done].
      intros k Hk. replace (attempt + k)%nat with attempt by lia. by exists err. }
    specialize (IH (S attempt)). destruct (activateLoop resolve cancelled (S attempt) bs rt) as [[[e|] rt'] waits].
    + destruct IH as [-> IH]. split; [done|]. destruct IH as [(err' & -> & H1 & H2 & ->)|(n & Hn & H1 & H2 & ->)]; [left|right].
      * exists err'. cbn [length]. rewrite Nat.add_succ_r, <- Nat.add_succ_l. split_and!; [done|done| |done].
        intros [|k] Hk; [rewrite Nat.add_0_r; by exists err|]. rewrite Nat.add_succ_r, <- Nat.add_succ_l. apply H2. lia.
      * exists (S n). cbn [length]. rewrite Nat.add_succ_r, <- Nat.add_succ_l. split_and!; [lia|done| |done].
        intros [|k] Hk; [rewrite Nat.add_0_r; by exists err|]. rewrite Nat.add_succ_r, <- Nat.add_succ_l. apply H2. lia.
    + destruct IH as (n & cert & Hn & H1 & H2 & -> & ->). exists (S n), cert. cbn [length].
      rewrite Nat.add_succ_r, <- Nat.add_succ_l. split_and!; [lia|done| |done|done].
      intros [|k] Hk; [rewrite Nat.add_0_r; by split; [exists err|]|]. rewrite Nat.add_succ_r, <- Nat.add_succ_l. apply H2. lia.
Qed.

(** What the refreshes obtained, the last of them first. *)
Definition obtained (ticks : list (result string certificate)) : list certificate :=
  omap (fun r => match r with Ok c => Some c | Err _ => None end) ticks.

Lemma last_cons_default {A} (l : list A) : forall c d, List.last (c :: l) d = List.last l c.
Proof. induction l as [|x l IH]; intros c d; [done|]. change (List.last (x :: l) d = List.last (x :: l) c). by rewrite !IH. Qed.

Lemma refresh_fold ticks : forall rt,
  let rt' := foldl (fun rt res => snd (refreshTick res rt)) rt ticks in
  wtCert rt' = match obtained ticks with [] => wtCert rt | c :: l => Some (List.last l c) end
  /\ serverTLS rt' = serverTLS rt /\ getWTCert rt' = getWTCert rt /\ resolveCert rt' = resolveCert rt.
Proof.
  induction ticks as [|r ticks IH]; intros rt; [done|]. cbn [foldl]. destruct (IH (snd (refreshTick r rt))) as (H1 & H2 & H3 & H4).
  rewrite H1, H2, H3, H4. unfold refreshTick. destruct r as [cert|err]; cbn [obtained omap list_omap]; [|done].
  cbv zeta. assert (forall o, wtCert (snd (match leafNotAfter cert with
    | Some leaf => if certNewer leaf o then (Some (renewed leaf), rt <| wtCert := Some cert |>) else (None, rt <| wtCert := Some cert |>)
    | None => (None, rt <| wtCert := Some cert |>) end)) = Some cert) as Hw.
  { intros o. destruct (leafNotAfter cert); [destruct (certNewer _ _)|]; done. }
  split; [|destruct (leafNotAfter cert); [destruct (certNewer _ _)|]; done].
  fold (obtained ticks). destruct (obtained ticks) as [|c l]; [apply Hw|]. by rewrite last_cons_default.
Qed.

(** C40.  The TLS gate: starting up makes at most four attempts to resolve the certificate, waits 2,
    5 and 10 seconds between them and always ends; it succeeds exactly with the first attempt that
    does, before any cancellation, and otherwise reports the last failure and serves nothing new;
    and after it succeeded there is at every moment a certificate to serve, the last one obtained,
    however many refreshes fail. *)
Theorem activateTLSCert_gate resolve cancelled rt :
  is_Some (resolveCert rt) ->
  match activateTLSCert resolve cancelled rt with
  | (None, rt', waits) =>
      exists n cert, (n <= 3)%nat /\ resolve n = Ok cert /\ (forall k, (k < n)%nat -> exists e, resolve k = Err e)
        /\ waits = take n [2; 5; 10]
        /\ forall ticks, resolvedCert (refreshTLSCert ticks rt') = Ok (List.last (obtained ticks) cert)
  | (Some e, rt', waits) =>
      rt' = rt
      /\ ((exists err, e = (certHost rt ++ ": " ++ err)%string /\ resolve 3%nat = Err err
              /\ (forall k, (k <= 3)%nat -> exists e, resolve k = Err e) /\ waits = [2; 5; 10])
          \/ (exists n, (n < 3)%nat /\ cancelled n = Some e /\ waits = take (S n) [2; 5; 10]))
  end.
Proof.
  intros [rs Hrs]. unfold activateTLSCert. rewrite Hrs. pose proof (activateLoop_spec resolve cancelled rt activateBackoffs 0) as Hs.
  destruct (activateLoop _ _ _ _ _) as [[[e|] rt'] waits].
  - destruct Hs as [-> Hs]. split; [done|]. destruct Hs as [(err & -> & H1 & H2 & ->)|(n & Hn & H1 & _ & ->)].
    + left. exists err. by split_and!.
    + right. by exists n.
  - destruct Hs as (n & cert & Hn & H1 & H2 & -> & ->). exists n, cert. split_and!; [done|done| |done|].
    + intros k Hk. by apply H2.
    + intros ticks. unfold refreshTLSCert. change (resolveCert (rt <| wtCert := Some cert |>)) with (resolveCert rt).
      rewrite Hrs. unfold resolvedCert. destruct (refresh_fold ticks (rt <| wtCert := Some cert |>)) as [-> _].
      destruct (obtained ticks) as [|c l]; [done|]. by rewrite last_cons_default.
Qed.

(** What EXTERNAL_URL may be. *)
Lemma parseExternalURL_iff urlParse raw host :
  parseExternalURL urlParse raw = Ok host
  <-> exists u, urlParse (TrimSuffix raw "/") = Ok u /\ host = urlHostname u /\ host <> ""%string
        /\ u = mkURL "https" host "" "" "" "" false.
Proof.
  unfold parseExternalURL. cbv zeta. split.
  - destruct (urlParse _) as [u|] eqn:Hu; [|done]. destruct (String.eqb_spec (urlScheme u) "https") as [Hs|]; [|done]. cbn [negb].
    destruct (_ || urlUser u) eqn:Ho; [done|]. intros [= <-]. exists u. bool_prop. destruct u as [s h p pa q f us]. cbn in *.
    repeat match goal with Hx : _ || _ = false |- _ => apply orb_false_iff in Hx as [? ?] end. bool_prop. subst. by split_and!.
  - intros (u & -> & Hh & Hne & ->). cbn in *. destruct (String.eqb_spec host ""); [done|]. done.
Qed.
End ConfigFacts.

Definition demoTLS : tlsRuntime := mkTLS (Some servesACME) true "nexus.example" (Some (fromACME "nexus.example" "/app/cert/acme")) None.
Definition demoResolve (n : nat) : result string certificate :=
  if (n <? 2)%nat then Err "rate limited"%string else Ok (mkCert 7 (Some 100)).
Lemma activateTLSCert_gate_witness :
  exists rt', activateTLSCert demoResolve (fun _ => None) demoTLS = (None, rt', [2; 5])
  /\ resolvedCert (refreshTLSCert [Err "down"%string; Ok (mkCert 8 (Some 200)); Err "down"%string] rt') = Ok (mkCert 8 (Some 200)).
Proof.
  pose proof (activateTLSCert_gate demoResolve (fun _ => None) demoTLS ltac:(by eexists)) as Hg.
  destruct (activateTLSCert demoResolve (fun _ => None) demoTLS) as [[[e|] rt'] waits] eqn:Ha; [vm_compute in Ha; discriminate Ha|].
  assert (waits = [2; 5]) as -> by (vm_compute in Ha; by injection Ha). exists rt'. split; [reflexivity|].
  destruct Hg as (n & cert & _ & _ & _ & _ & Ht). rewrite Ht. reflexivity.
Defined.
