(* ===== verification/Endpoint.v ===== *)
(** The HTTP endpoint: connect.go, and the route of ws.go.

    A request is its method, host, path, body and what the access gate reads of it; a handler makes
    a status, headers and a body, and the world after. *)
From S2P Require Import Prelude GoStrings LaunchPlan Registry Lifecycle Netip Trunk Access Clients Log Config Json Admin AssetServer.

(** * Requests and responses *)

(** No body: reading it failed. *)
Record webRequest := mkWeb { wrHTTP : httpRequest; wrMethod : string; wrHost : string; wrPath : string; wrBody : option string }.
(** http.MaxBytesReader: a longer body is an error. *)
Definition readBody (limit : Z) (r : webRequest) : option string :=
  match wrBody r with
  | Some b => if limit <? len b then None else Some b
  | None => None
  end.
Record webResponse := mkWebResponse { status : Z; header : list (string * string); content : string }.
(** http.Error, http.NotFound *)
Definition httpError (message : string) (code : Z) : webResponse :=
  mkWebResponse code [("Content-Type", "text/plain; charset=utf-8"); ("X-Content-Type-Options", "nosniff")]%string (message ++ lf).
Definition notFound : webResponse := httpError "404 page not found" 404.
Definition noStore : string * string := ("Cache-Control", "no-store")%string.
Definition jsonType : string * string := ("Content-Type", "application/json; charset=utf-8")%string.

(** * Routes (connect.go [newMux], ws.go [setupWebSocket])

    On a clean path, the most specific pattern that accepts the method; a pattern for GET also
    accepts HEAD; the rest are the client's files. *)
Inductive route :=
  | toHealth | toRconLanding | toRcon | toRconSession | toEvents | toGamedir | toPak | toConnect | toFiles.
Definition isGet (m : string) : bool := (m =? "GET")%string || (m =? "HEAD")%string.
Definition newMux (method path : string) : route :=
  if isGet method && (path =? "/health")%string then toHealth else
  if isGet method && (path =? "/rcon")%string then toRconLanding else
  if (method =? "POST")%string && (path =? "/rcon")%string then toRcon else
  if (method =? "POST")%string && (path =? "/rcon/session")%string then toRconSession else
  if isGet method && (path =? "/events")%string then toEvents else
  if (path =? "/gamedir")%string then toGamedir else
  if HasPrefix path "/pak/" then toPak else
  if isGet method && (path =? "/connect")%string then toConnect else toFiles.

(** connect.go [addIsolationHeaders], and [cacheControlClient] of the headers set before *)
Definition addIsolationHeaders (h : list (string * string)) : list (string * string) :=
  h ++ [("Cross-Origin-Opener-Policy", "same-origin"); ("Cross-Origin-Embedder-Policy", "require-corp");
        ("Cross-Origin-Resource-Policy", "same-origin")]%string.
Definition headerValue (name : string) (h : list (string * string)) : string :=
  match List.find (fun f => (fst f =? name)%string) h with Some f => snd f | None => "" end.
Definition cacheControlClient (path : string) (h : list (string * string)) : list (string * string) :=
  if (headerValue "Cache-Control" h =? "")%string then
    let isHTML := (path =? "/")%string || HasSuffix path ".html" in
    let isAsset := HasSuffix path ".js" || HasSuffix path ".wasm" || HasSuffix path ".css" in
    let h := if isHTML || isAsset then h ++ [noStore] else h in
    if isAsset then h ++ [("Pragma", "no-cache"); ("Expires", "0")]%string else h
  else h.

(** * The landing page *)

(** connect.go [rconLoginLandingTmpl], [renderRconLanding] *)
Definition rconLoginLandingTmpl : string :=
  Join ["<!doctype html>"; "<html><head><meta charset=" ++ btext [quoteByte] ++ "utf-8" ++ btext [quoteByte] ++ "><title>rcon</title></head>";
        "<body><script>"; "(function(){"; "  try {"; "    var p = new URLSearchParams(location.search);";
        "    var code = p.get('code'), state = p.get('state'), error = p.get('error');"; "    if (code || error) {";
        "      localStorage.setItem('nq_rcon_oidc_cb', JSON.stringify({"; "        code: code || '', state: state || '', error: error || ''";
        "      }));"; "    } else {"; "      localStorage.setItem('nq_rcon_oidc_cb', JSON.stringify({ authorized: %t }));"; "    }";
        "  } catch (e) {}"; "  window.close();"; "})();"; "</script>"; "<p>Authenticated. You can close this window.</p>";
        "</body></html>"; ""]%string lf.
Definition renderRconLanding (authorized : bool) : string :=
  ReplaceAll rconLoginLandingTmpl "%t" (if authorized then "true" else "false").
(** connect.go [newMux], the handler of GET /rcon *)
Definition rconLanding (authorized : bool) : webResponse :=
  mkWebResponse 200 [("Content-Type", "text/html; charset=utf-8"); noStore]%string (renderRconLanding authorized).
(** The page says what the gate said, once, and has no verb left. *)
Example renderRconLanding_says :
  forallb (fun b => Contains (renderRconLanding b) ("{ authorized: " ++ (if b then "true" else "false") ++ " }")
                    && negb (Contains (renderRconLanding b) "%t")
                    && negb (Contains (renderRconLanding b) ("authorized: " ++ (if b then "false" else "true")))) [true; false] = true.
Proof. by vm_compute. Qed.

(** * The admin endpoint *)

Section Rcon.
Context `{GoUnicode} `{GoNetip} `{GoJSON} {S : Type} `{serverManager S}.
Variable verify : string -> option claims.

Definition rconMaxBody : Z := 8192.

(** rpc.go [Response] as JSON, with the optional data of its error *)
Definition responseJSON (data : list (string * json)) (r : rpcResponse) : json :=
  JObject (jsonField "jsonrpc" (JString "2.0")
    ++ match answer r with
       | rpcOK res => jsonField "result" (resultJSON res)
       | rpcError code message =>
           jsonField "error" (JObject (jsonField "code" (jsonInt code) ++ jsonField "message" (JString message) ++ data))
       end
    ++ jsonField "id" match respID r with Some j => j | None => JNull end).
(** connect.go [writeResponse], [writeRPC] *)
Definition writeJSON (j : json) : webResponse := mkWebResponse 200 [jsonType; noStore] (json_text j ++ lf).
Definition writeResponse (r : rpcResponse) : webResponse := writeJSON (responseJSON [] r).
Definition writeRPC (id : option json) (code : Z) (message : string) : webResponse :=
  writeResponse (errorResponse id code message).

(** connect.go [logUnauthorizedClaimKeys]: the keys in order, at debug *)
Definition claimKeys (c : claims) : list string := merge_sort strLe (map fst (map_to_list c)).
Definition logUnauthorizedClaimKeys (now : wallClock) (reason : string) (c : option claims) (st : Logs) : Logs :=
  match c with
  | None => st
  | Some c =>
      if bool_decide (c = ∅) then st else
      slogLog defaultHandler (-4) now
        ("rcon: " ++ reason ++ "; claims present: [" ++ Join (claimKeys c) " " ++ "]")%string [] st
  end.

(** connect.go [handleRcon]: the reply and the world after *)
Inductive rconOutcome :=
  | replied (resp : webResponse) (w : World S)
  | rconAwaiting (w : World S)
  | rconPanics.
Definition handleRcon (a : Admin) (now1 now2 : wallClock) (meanwhile : list logCall * list logCall) (r : webRequest)
    (w : World S) : rconOutcome :=
  let reqCtx := Resolve verify (Some (wGate w)) (wrHTTP r) in
  let client := reqClient reqCtx in
  match readBody rconMaxBody r with
  | None => replied (writeRPC None ErrCodeInvalidReq "request body too large or unreadable") w
  | Some body =>
      match ParseRequest body with
      | Err errResp => replied (writeResponse errResp) w
      | Ok req =>
          if negb (AuthorizeAdmin (Some (wGate w)) reqCtx (wrHTTP r)) then
            let w := AuditUnauthorized a now1 client (Method req) w in
            let w := w <| wLogs ::= logUnauthorizedClaimKeys now2 "login verified but no admin rule matched" (Claims reqCtx) |> in
            replied (writeJSON (responseJSON
              (jsonField "data" (JObject (jsonField "hint" (JString (UnauthorizedHint (Some (wGate w)))))))
              (errorResponse (reqID req) ErrCodeUnauthorized "unauthorized"))) w
          else
            match Dispatch a now1 now2 meanwhile req client w with
            | answered resp w => replied (writeResponse resp) w
            | stillAwaiting w => rconAwaiting w
            | dispatchPanics => rconPanics
            end
      end
  end.
End Rcon.
Arguments replied {S}. Arguments rconAwaiting {S}. Arguments rconPanics {S}.

(** * Login sessions *)

(** The cookie that holds a token. *)
Record httpCookie := mkCookie {
  ckName : string; ckValue : string; ckPath : string; ckMaxAge : Z; ckHttpOnly : bool; ckSecure : bool; ckSameSiteStrict : bool;
}.
Definition SessionCookieName : string := "nq_session".

Section Session.
Context `{GoUnicode} `{GoJSON}.
Variable verify : string -> option claims.

Definition rconSessionMaxBody : Z := 8192.
(** connect.go [handleRconSession]: what the token endpoint answers to a code, a verifier and a
    redirect address is given, and the seconds until the token expires, if it does. The reply, the
    cookie if it is set, and the logs after. *)
Definition sessionFields : list (string * (json -> string * string -> option (string * string))) :=
  [("code", setString (fun s p => (s, snd p))); ("code_verifier", setString (fun s p => (fst p, s)))]%string.
Definition sessionMaxAge (expirySecs : option Z) : Z :=
  match expirySecs with Some secs => if 0 <? secs then secs else 0 | None => 0 end.
Definition handleRconSession (g : Gate) (exchange : tokenEndpoint)
    (expirySecs : option Z) (now : wallClock) (r : webRequest) (st : Logs) : webResponse * option httpCookie * Logs :=
  if negb (PKCEEnabled (Some g)) then (notFound, None, st) else
  match readBody rconSessionMaxBody r with
  | None => (httpError "request body too large" 400, None, st)
  | Some body =>
      let missing := (httpError "code and code_verifier are required" 400, None, st) in
      match json_parse body with
      | None => missing
      | Some j =>
          match storeObject sessionFields (""%string, ""%string) j with
          | Err _ => missing
          | Ok (code, verifier) =>
              if (code =? "")%string || (verifier =? "")%string then missing else
              let redirectURI := ("https://" ++ wrHost r ++ "/rcon")%string in
              match gateExchangeCode verify (Some g) exchange code verifier redirectURI with
              | Err err =>
                  (httpError "token exchange failed" 502, None,
                   slogLog defaultHandler (-4) now ("rcon: PKCE token exchange failed: " ++ err) [] st)
              | Ok (idToken, c) =>
                  if SessionCookieMaxLen <? len idToken
                  then (httpError "id_token too large for cookie session" 413, None, st) else
                  let cookie := mkCookie SessionCookieName idToken "/" (sessionMaxAge expirySecs) true true true in
                  let authorized := AuthorizeClaims (Some g) (Some c) in
                  let st := if authorized then st
                            else logUnauthorizedClaimKeys now "PKCE login verified but not an admin" (Some c) st in
                  (writeJSON (JObject (jsonField "authorized" (JBool authorized))), Some cookie, st)
              end
          end
      end
  end.
End Session.

(** * The manifest *)

(** base64.StdEncoding.EncodeToString *)
Definition b64Char (z : Z) : byte :=
  if z <? 26 then byte_of (65 + z) else if z <? 52 then byte_of (71 + z)
  else if z <? 62 then byte_of (z - 4) else if z =? 62 then "+"%char else "/"%char.
Fixpoint base64 (l : bytes) : bytes :=
  match l with
  | a :: b :: c :: l =>
      let n := byteZ a * 65536 + byteZ b * 256 + byteZ c in
      b64Char (n / 262144) :: b64Char (n / 4096 mod 64) :: b64Char (n / 64 mod 64) :: b64Char (n mod 64) :: base64 l
  | [a; b] =>
      let n := byteZ a * 65536 + byteZ b * 256 in
      [b64Char (n / 262144); b64Char (n / 4096 mod 64); b64Char (n / 64 mod 64); "="%char]
  | [a] =>
      let n := byteZ a * 65536 in [b64Char (n / 262144); b64Char (n / 4096 mod 64); "="%char; "="%char]
  | [] => []
  end.

Section Gamedir.
Context `{GoJSON}.

(** connect.go [handleGamedir]: the client's fields, a later one over an earlier of its name *)
Definition clientFields (cfg : runtimeConfig) (bootstrap : list (webRequest -> list (string * json))) (r : webRequest)
    : gmap string json :=
  let client : gmap string json :=
    <["prefetchConcurrency" := jsonInt (vfsPrefetchConcurrency cfg)]>
      (<["smenuOnFirstLoad" := JBool (clientAutoSMenu cfg)]> (<["urlArgs" := JBool (clientURLArgs cfg)]> ∅))%string in
  let client := match clientSendArgs cfg with
                | [] => client
                | args => <["sendArgs"%string := jsonArray JString args]> client
                end in
  foldl (fun client p => foldl (fun client kv => <[fst kv := snd kv]> client) client (p r)) client bootstrap.
(** a map is written in the order of its keys *)
Definition mapJSON (m : gmap string json) : json :=
  JObject (omap (fun k => pair k <$> (m !! k)) (merge_sort strLe (map fst (map_to_list m)))).
Definition entryJSON (path : string) : json := JObject (jsonField "path" (JString path)).
Definition bundleJSON (client : gmap string json) (game : gmap string (list string)) (cd : list string) : json :=
  JObject (jsonField "client" (mapJSON client) ++ jsonField "game" (mapJSON (jsonArray entryJSON <$> game))
    ++ match cd with [] => [] | _ => jsonField "cd" (jsonArray entryJSON cd) end).
Definition handleGamedir (cfg : runtimeConfig) (bootstrap : list (webRequest -> list (string * json)))
    (order1 order2 : list string) (ref : string) (now : Z) (sn : result string snapshot) (r : webRequest)
    (assets : HashedAssetServer) : webResponse * HashedAssetServer :=
  if negb (wrMethod r =? "GET")%string then (mkWebResponse 405 [] "", assets) else
  match IssueManifest order1 order2 ref now sn assets with
  | (Err err, assets) => (httpError err 500, assets)
  | (Ok (game, cd, ref), assets) =>
      if Z.of_nat (size game) =? 0 then (notFound, assets) else
      let bundle := json_text (bundleJSON (clientFields cfg bootstrap r) game cd) in
      (mkWebResponse 200 [("Content-Type", "text/plain; charset=utf-8"); ("Cache-Control", "private, no-store");
                          ("X-NexQuake-Ref", ref)]%string (btext (base64 (blist bundle))), assets)
  end.
End Gamedir.

(** * Tunnels *)

(** net.JoinHostPort *)
Definition JoinHostPort (host port : string) : string :=
  if Contains host ":" then ("[" ++ host ++ "]:" ++ port)%string else (host ++ ":" ++ port)%string.
(** connect.go [trunkSession]: the address shown in the log *)
Definition displayAddr (client : Client) (r : httpRequest) : string :=
  if (SourceIP client =? "")%string then RemoteAddr r else
  match SplitHostPort (RemoteAddr r) with
  | Some (_, port) => JoinHostPort (SourceIP client) port
  | None => SourceIP client
  end.
(** and its log lines: the upgrade that failed, the session that could not be made, and the two of
    a session, before and after it runs. *)
Definition upgradeFailed (now : wallClock) (transportName err : string) : Logs -> Logs :=
  slogLog defaultHandler (-4) now (transportName ++ " upgrade failed: " ++ err) [].
Definition sessionFailed (now : wallClock) (err : string) : Logs -> Logs :=
  slogLog defaultHandler 8 now ("Failed to create trunk session: " ++ err) [].
Definition sessionLog (verb : string) (now : wallClock) (client : Client) (transportName addr : string) (vip : ip4) : Logs -> Logs :=
  slogLog defaultHandler 0 now (ID client ++ " " ++ verb ++ " (" ++ transportName ++ ")")
    [mkAttr "addr" (shown addr); mkAttr "vip" (shown (ip4String vip))].

(** * Facts *)

Section RconFacts.
Context `{GoUnicode} `{GoNetip} `{GoJSON} {S : Type} `{serverManager S}.
Variable verify : string -> option claims.

(** Whether the gate of a world lets a request use the admin commands. *)
Definition authorizedFor (w : World S) (r : webRequest) : bool :=
  AuthorizeAdmin (Some (wGate w)) (Resolve verify (Some (wGate w)) (wrHTTP r)) (wrHTTP r).
(** The same but for the log. *)
Definition sameButLogs (w w' : World S) : Prop :=
  wServers w' = wServers w /\ wTrunk w' = wTrunk w /\ wClients w' = wClients w /\ wGate w' = wGate w.

Lemma handleRcon_cases a now1 now2 meanwhile r (w : World S) :
  match handleRcon verify a now1 now2 meanwhile r w with
  | rconPanics => False
  | rconAwaiting _ => authorizedFor w r = true
  | replied resp w' =>
      status resp = 200
      /\ (sameButLogs w w'
          \/ authorizedFor w r = true /\ exists body req rsp,
               readBody rconMaxBody r = Some body /\ ParseRequest body = Ok req
               /\ Dispatch a now1 now2 meanwhile req (reqClient (Resolve verify (Some (wGate w)) (wrHTTP r))) w = answered rsp w'
               /\ resp = writeResponse rsp)
  end.
Proof.
  unfold handleRcon. cbv zeta. destruct (readBody rconMaxBody r) as [body|] eqn:Hb; [|by split; [|left]].
  destruct (ParseRequest body) as [req|e] eqn:Hp; [|by split; [|left]].
  fold (authorizedFor w r). destruct (authorizedFor w r) eqn:Hauth; cbn [negb].
  - pose proof (Dispatch_all (fun _ _ => True) (serverManagerSteps0 := any_steps S) a now1 now2 meanwhile req (reqClient (Resolve verify (Some (wGate w)) (wrHTTP r))) w) as Hd.
    destruct (Dispatch _ _ _ _ _ _ w) as [rsp w'|w'|] eqn:HD; [|reflexivity|exact Hd].
    split; [reflexivity|]. right. split; [reflexivity|]. exists body, req, rsp. by repeat split.
  - split; [reflexivity|]. left. unfold AuditUnauthorized. rewrite auditRPC_call. by repeat split.
Qed.

(** The world after requests, one after the other; one that waits for its reply is at the world
    it waits in. *)
Definition rconWorld (w : World S) (o : rconOutcome (S := S)) : World S :=
  match o with replied _ w' | rconAwaiting w' => w' | rconPanics => w end.
Definition rconRequests (a : Admin) (meanwhile : list logCall * list logCall) (l : list (webRequest * wallClock * wallClock)) (w : World S) : World S :=
  foldl (fun w r => rconWorld w (handleRcon verify a (snd (fst r)) (snd r) meanwhile (fst (fst r)) w)) w l.

(** Strangers change nothing: whatever POSTs to /rcon arrive, valid or not, if the gate
    authorizes none of them then the servers, the tunnels, the clients and the gate are as before:
    only the log may have grown. *)
Theorem strangers_change_nothing a meanwhile l (w : World S) :
  Forall (fun r => authorizedFor w (fst (fst r)) = false) l -> sameButLogs w (rconRequests a meanwhile l w).
Proof.
  intros Hl. induction l as [|[[r now1] now2] l IH] using rev_ind; [by repeat split|].
  apply Forall_app in Hl as [Hl [Hr _]%List.Forall_cons_iff]. cbn [fst] in Hr. specialize (IH Hl).
  unfold rconRequests in *. rewrite foldl_snoc. cbn [fst snd]. set (w1 := foldl _ w l) in *.
  destruct IH as (I1 & I2 & I3 & I4). assert (authorizedFor w1 r = false) as Hr1 by (unfold authorizedFor in *; by rewrite I4).
  pose proof (handleRcon_cases a now1 now2 meanwhile r w1) as Hc.
  destruct (handleRcon verify a now1 now2 meanwhile r w1) as [resp w'|w'|]; cbn [rconWorld]; [|congruence|by repeat split].
  destruct Hc as [_ [(K1 & K2 & K3 & K4)|[Hauth _]]]; [|congruence].
  unfold sameButLogs. by rewrite K1, K2, K3, K4.
Qed.
End RconFacts.

Section SessionFacts.
Context `{GoUnicode} `{GoNetip} `{GoJSON}.
Variable verify : string -> option claims.

Lemma no_header_no_token r scheme :
  HeaderGet r "Authorization" = ""%string -> AuthorizationToken r scheme = ""%string.
Proof.
  intros Hr. unfold AuthorizationToken. rewrite Hr. cbv zeta.
  destruct (Z.leb_spec (len (TrimSpace "")) (len (scheme ++ " "))) as [|Hlt]; [done|].
  exfalso. unfold len in Hlt. change (blist (TrimSpace "")) with (@nil ascii) in Hlt. cbn [length] in Hlt. lia.
Qed.

(** What a cookie that was set says. *)
Lemma handleRconSession_cookie g exchange expirySecs now r st resp ck st' :
  handleRconSession verify g exchange expirySecs now r st = (resp, Some ck, st') ->
  exists c, verify (ckValue ck) = Some c /\ ckValue ck <> ""%string /\ PKCEEnabled (Some g) = true
    /\ ck = mkCookie SessionCookieName (ckValue ck) "/" (sessionMaxAge expirySecs) true true true
    /\ len (ckValue ck) <= SessionCookieMaxLen
    /\ resp = writeJSON (JObject (jsonField "authorized" (JBool (AuthorizeClaims (Some g) (Some c))))).
Proof.
  unfold handleRconSession. cbv zeta. destruct (PKCEEnabled (Some g)) eqn:Hp; cbn [negb]; [|done].
  destruct (readBody _ _) as [body|]; [|done]. destruct (json_parse body) as [j|]; [|done].
  destruct (storeObject _ _ _) as [[code verifier]|]; [|done]. destruct (_ || _); [done|].
  destruct (gateExchangeCode _ _ _ _ _ _) as [[idToken c]|] eqn:Hx; [|done].
  destruct (Z.ltb_spec SessionCookieMaxLen (len idToken)); [done|].
  apply ExchangeCode_Ok in Hx as (_ & _ & _ & _ & _ & Hne & Hv).
  intros [= <- <- _]. exists c. cbn [ckValue]. by split_and!.
Qed.

(** C25.  Logging in works and means what it says: a session cookie is set only with a verified
    token that fits, out of scripts' reach and only over TLS; and a later request with that cookie
    and no credentials of its own is known as the token's identity and may use the admin commands
    exactly if the login's reply said so. *)
Theorem handleRconSession_login g exchange expirySecs now r st resp ck st' later :
  handleRconSession verify g exchange expirySecs now r st = (resp, Some ck, st') ->
  sessionCookie later = Some (ckValue ck) -> HeaderGet later "Authorization" = ""%string ->
  exists c, verify (ckValue ck) = Some c
    /\ len (ckValue ck) <= 3800 /\ ckHttpOnly ck = true /\ ckSecure ck = true /\ ckSameSiteStrict ck = true /\ 0 <= ckMaxAge ck
    /\ Claims (Resolve verify (Some g) later) = Some c
    /\ resp = writeJSON (JObject (jsonField "authorized"
                 (JBool (AuthorizeAdmin (Some g) (Resolve verify (Some g) later) later)))).
Proof.
  intros Hs Hck Hno. destruct (handleRconSession_cookie _ _ _ _ _ _ _ _ _ Hs) as (c & Hv & Hne & Hp & Hform & Hlen & ->).
  assert (Claims (Resolve verify (Some g) later) = Some c) as Hc.
  { unfold Resolve, Parse. cbn [Claims]. unfold PKCEEnabled, pkceEnabled in Hp. destruct (jwt g) as [j|]; [|done].
    apply andb_true_iff in Hp as [_ Hh]. rewrite Hh, no_header_no_token by done. cbv zeta.
    change (negb ("" =? "")%string) with false. cbv iota. rewrite Hck.
    destruct (String.eqb_spec (ckValue ck) "") as [|_]; [done|]. cbn [negb].
    destruct (String.eqb_spec (ckValue ck) "") as [|_]; [done|]. exact Hv. }
  exists c. rewrite Hform. cbn [ckHttpOnly ckSecure ckSameSiteStrict ckMaxAge ckValue]. split_and!; try done.
  - unfold sessionMaxAge. destruct expirySecs as [secs|]; [|done]. destruct (Z.ltb_spec 0 secs); lia.
  - unfold AuthorizeAdmin. rewrite Hc, no_header_no_token by done. reflexivity.
Qed.
End SessionFacts.

(** A manifest that was sent is live: the reference in its header is that of the manifest just
    registered, with the assets of its snapshot. *)
Lemma handleGamedir_live `{GoJSON} cfg bootstrap order1 order2 ref now sn r assets resp assets' :
  handleGamedir cfg bootstrap order1 order2 ref now sn r assets = (resp, assets') -> status resp = 200 ->
  exists s, sn = Ok s /\ headerValue "X-NexQuake-Ref" (header resp) = ref
    /\ manifests assets' !! ref = Some (mkIssued now (snAssets s)).
Proof.
  unfold handleGamedir. destruct (negb _); [by intros [= <- <-]|]. unfold IssueManifest.
  destruct sn as [s|e]; [|by intros [= <- <-]]. destruct (Z.of_nat (size (snGame s)) =? 0) eqn:Hz; [by intros [= <- <-]|].
  rewrite Hz. intros [= <- <-] _. exists s. split_and!; [done|done|]. unfold registerManifest. cbn.
  by rewrite lookup_insert_eq.
Qed.

(** * Runs *)

(** A request of a stranger, without credentials, in a world whose gate asks for a password. *)
Definition guardedGate : Gate :=
  NewGate (Some (mkJWT "Authorization" "https://idp" "nq" "https://idp/token" true)) None
    (Some (mkAuth "secret" adminMatch (<["groups" := ["admins"]]> ∅))) (Some NewBlocklist).
Definition guardedWorld : World ServerManager := mkWorld lifeManager life2 lifeClients guardedGate openedLogs.
Definition fromStranger : httpRequest := mkHTTP (fun _ => ""%string) "10.9.9.9:4000" None.
Definition post (path body : string) (r : httpRequest) : webRequest := mkWeb r "POST" "nexus.example" path (Some body).
Definition genuineText : string :=
  auditText (H := plain_unicode) (H0 := plainJSON []) boss "server.stop" "request" (paramsJSON (ServerStopParams "all" 3)).
Definition table : list (string * json) :=
  [("stop", JObject [("jsonrpc", JString "2.0"); ("method", JString "server.stop"); ("id", JNumber "1");
                     ("params", JObject [("target", JString "all")])]);
   ("forge", JObject [("jsonrpc", JString "2.0"); ("method", JString ("x" ++ lf ++ genuineText ++ lf))]);
   ("login", JObject [("code", JString "c0de"); ("code_verifier", JString "v")])]%string.
Definition strangerRequests : list (webRequest * wallClock * wallClock) :=
  [(post "/rcon" "stop" fromStranger, clockAt 5, clockAt 6); (post "/rcon" "nonsense" fromStranger, clockAt 7, clockAt 8);
   (post "/rcon" "forge" fromStranger, clockAt 9, clockAt 9)].
Definition verifyDemo (raw : string) : option claims :=
  if (raw =? "token")%string
  then Some (<["email" := claimString "ann@example.com"]> (<["groups" := claimList [claimString "admins"]]> ∅))%string else None.
Definition afterStrangers : World ServerManager :=
  rconRequests (H := plain_unicode) (H0 := no_ipv6) (H1 := plainJSON table) (H2 := orchestrator (H := plain_unicode) demoEnv)
    verifyDemo demoAdmin ([], []) strangerRequests guardedWorld.
Lemma strangers_change_nothing_witness :
  sameButLogs guardedWorld afterStrangers /\ length (nexusLogHistory (wLogs afterStrangers)) = 4%nat.
Proof.
  split; [|vm_compute; reflexivity].
  apply (strangers_change_nothing (H := plain_unicode) (H0 := no_ipv6) (H1 := plainJSON table)
    (H2 := orchestrator (H := plain_unicode) demoEnv) verifyDemo demoAdmin ([], []) strangerRequests guardedWorld).
  repeat (apply List.Forall_cons; [vm_compute; reflexivity|]). apply List.Forall_nil.
Defined.

(** The stranger's third request wrote into the audit, as a line of its own, the request of a boss
    that was never made. *)
Example stranger_forges_audit :
  In (stamp (clockAt 9) ++ genuineText)%string (nexusLogHistory (wLogs afterStrangers)).
Proof. vm_compute. right; right; by left. Qed.

Definition loginReply : webResponse * option httpCookie * Logs :=
  handleRconSession (H := plain_unicode) (H0 := plainJSON table) verifyDemo guardedGate
    (fun _ => Ok (200, Some ("token", "", "")%string)) (Some 3600) (clockAt 1) (post "/rcon/session" "login" fromStranger) openedLogs.
Definition loginCookie : httpCookie := mkCookie SessionCookieName "token" "/" 3600 true true true.
Definition laterRequest : httpRequest := mkHTTP (fun _ => ""%string) "10.9.9.9:4001" (Some "token"%string).
Lemma handleRconSession_login_witness :
  AuthorizeAdmin (H := plain_unicode) (Some guardedGate)
    (Resolve (H := plain_unicode) (H0 := no_ipv6) verifyDemo (Some guardedGate) laterRequest) laterRequest = true
  /\ content (fst (fst loginReply)) = ("{" ++ dquote "authorized" ++ ":true}" ++ lf)%string.
Proof.
  assert (loginReply = (fst (fst loginReply), Some loginCookie, snd loginReply)) as Hr by (vm_compute; reflexivity).
  destruct (handleRconSession_login (H := plain_unicode) (H0 := no_ipv6) (H1 := plainJSON table) verifyDemo guardedGate
    (fun _ => Ok (200, Some ("token", "", "")%string)) (Some 3600) (clockAt 1) (post "/rcon/session" "login" fromStranger) openedLogs
    (fst (fst loginReply)) loginCookie (snd loginReply) laterRequest Hr eq_refl eq_refl) as (c & _ & _ & _ & _ & _ & _ & _ & Hresp).
  split; [vm_compute; reflexivity|]. rewrite Hresp. vm_compute. reflexivity.
Defined.
