(* ===== verification/Tunnel.v ===== *)
(** Opening and closing a tunnel: connect.go [trunkSession], which ws.go [handleWebSocket] and wt.go
    [handleWebTransport] call with their own upgrade, over trunk/session.go [newSession] and
    clients/clients.go [Attach].

    The handler runs here with nothing in between its sections; each is a step of the system of
    Clients.v, in which all handlers interleave. *)
From S2P Require Import Prelude GoStrings Netip Trunk Transport Access Clients Log Endpoint.

(** session.go [newSession]: the error, if any, and the trunk *)
Definition newSession `{GoUnicode} (p : Z) (xport key : string) (now : Z) (listenErr : option string) (t : Trunk)
    : option string * Trunk :=
  match newSessionAlloc p xport key now t with
  | None => (Some ("failed to allocate VirtualIP for " ++ Quote key)%string, t)
  | Some t =>
      match heap t !! p with
      | None => (None, t)
      | Some s =>
          match listenErr with
          | Some e => (Some ("listen udp: " ++ e)%string, newSessionListen false p s t)
          | None => (None, newSessionListen true p s t)
          end
      end
  end.

(** What is answered to a handler: the clocks, the pointer of its session, and the errors of the
    upgrade and of binding the socket. *)
Record tunnelEnv := mkTunnelEnv {
  teClock : wallClock; teNow : Z; tePtr : Z; teUpgradeErr : option string; teListenErr : option string;
}.

(** connect.go [trunkSession], until it runs the session: whether there is one, the connections and
    the logs *)
Definition openTunnel `{GoUnicode} `{GoNetip} (e : tunnelEnv) (transportName : string) (client : Client) (r : httpRequest)
    (c : connections) (logs : Logs) : bool * connections * Logs :=
  match teUpgradeErr e with
  | Some err => (false, c, upgradeFailed (teClock e) transportName err logs)
  | None =>
      match newSession (tePtr e) transportName (SourceIP client) (teNow e) (teListenErr e) (cTrunk c) with
      | (Some err, t) => (false, c <| cTrunk := t |>, sessionFailed (teClock e) err logs)
      | (None, t) =>
          match heap t !! tePtr e with
          | None => (false, c <| cTrunk := t |>, logs)
          | Some s =>
              let vip := virtualIP s in
              let t := match SendControl true (nqipPayload vip) s with
                       | Some (_, s) => setSession (tePtr e) s t
                       | None => t
                       end in
              let logs := sessionLog "connected" (teClock e) client transportName (displayAddr client r) vip logs in
              (true, c <| cTrunk := t |> <| cClients ::= clientsAdd vip client |> <| cAttached ::= <[tePtr e := vip]> |>, logs)
          end
      end
  end.
(** and once it has run: the detachment and the last line of log. *)
Definition closeTunnel `{GoNetip} (now : wallClock) (p : Z) (transportName : string) (client : Client) (r : httpRequest)
    (c : connections) (logs : Logs) : connections * Logs :=
  match cAttached c !! p with
  | None => (c, logs)
  | Some vip =>
      (c <| cClients ::= clientsRemove vip |> <| cAttached ::= delete p |>,
       sessionLog "disconnected" now client transportName (displayAddr client r) vip logs)
  end.

(** * Facts *)

(** The address is new, in 127/8, and the session not yet live. *)
Lemma newSessionAlloc_spec p xport key now t t' :
  newSessionAlloc p xport key now t = Some t' ->
  exists ip, firstByte ip = 127 /\ ipKey ip ∉ used (allocator t)
    /\ t' = t <| allocator ::= fun a => a <| used ::= union {[ipKey ip]} |> |>
              <| heap ::= <[p := mkSession xport ip (TrimSpace key) now 0 0 [] false false false Binding false notStarted [] [] [] []]> |>.
Proof.
  unfold newSessionAlloc, alloc. pose proof (allocProbe_spec (allocator t) (allocKey key) maxVirtualIPProbeAttempts 0) as Hs.
  destruct (allocProbe _ _ _ _) as [[ip a]|]; [|done]. destruct Hs as (j & _ & Hip & [_ Hnew]%freeIP_true & _ & ->).
  intros [= <-]. exists ip. split_and!; [|done|done]. rewrite Hip. cbn. by rewrite byteZ_of.
Qed.

Lemma release_union a ip :
  firstByte ip = 127 -> ipKey ip ∉ used a -> release ip (a <| used ::= union {[ipKey ip]} |>) = a.
Proof.
  intros H127 Hn. unfold release. rewrite H127. destruct a as [srv u]. cbn in *. unfold field_update. cbn. f_equal. set_solver.
Qed.

(** A new session: live, at a new address, with nothing queued; or the trunk is as it was. *)
Lemma newSession_spec `{GoUnicode} p xport key now listenErr t :
  heap t !! p = None ->
  match newSession p xport key now listenErr t with
  | (None, t') =>
      exists s, heap t' = <[p := s]> (heap t) /\ phase s = Live /\ firstByte (virtualIP s) = 127 /\ ipKey (virtualIP s) ∉ used (allocator t)
        /\ tx s = [] /\ ctxDone s = false /\ xportName s = xport /\ sourceKey s = TrimSpace key /\ listenErr = None
  | (Some _, t') => t' = t
  end /\ rtc tstep t (snd (newSession p xport key now listenErr t)).
Proof.
  intros Hp. unfold newSession. destruct (newSessionAlloc p xport key now t) as [t1|] eqn:Ha; [|done].
  pose proof (step_alloc p xport key now t t1 Hp Ha) as Hstep.
  destruct (newSessionAlloc_spec _ _ _ _ _ _ Ha) as (ip & H127 & Hnew & ->). cbn [heap]. set (t1 := t <| allocator ::= _ |> <| heap ::= _ |>) in *.
  set (s0 := mkSession _ _ _ _ _ _ _ _ _ _ _ _ _ _ _ _ _) in *.
  assert (heap t1 !! p = Some s0) as Hs by (by unfold t1; cbn; rewrite lookup_insert_eq). rewrite Hs.
  destruct listenErr as [e|].
  - split; [|eapply rtc_l; [exact Hstep|]; apply rtc_once, step_listen; done].
    unfold t1. cbn. destruct t as [al rg hp ap]. unfold field_update. cbn in *.
    pose proof (release_union al ip H127 Hnew) as Hrel. unfold field_update in Hrel. rewrite Hrel.
    f_equal. change (delete p (<[p := s0]> hp) = hp). by apply delete_insert_id.
  - split; [|eapply rtc_l; [exact Hstep|]; apply rtc_once, step_listen; done].
    exists (s0 <| phase := Live |>). split_and!; try done. unfold t1. cbn.
    change (<[p := s0 <| phase := Live |>]> (<[p := s0]> (heap t)) = <[p := s0 <| phase := Live |>]> (heap t)). by rewrite insert_insert_eq.
Qed.

(** A tunnel was opened: from the connections [c] to [c'], for a client. *)
Record tunnelOpened `{GoUnicode} `{GoNetip} (e : tunnelEnv) (transportName : string) (client : Client) (c c' : connections) (s : Session) : Prop := {
  to_heap : heap (cTrunk c') = <[tePtr e := s]> (heap (cTrunk c));
  to_live : phase s = Live /\ ctxDone s = false;
  to_address : firstByte (virtualIP s) = 127 /\ ipKey (virtualIP s) ∉ used (allocator (cTrunk c));
  to_announced : tx s = [buildFrame controlPort (nqipPayload (virtualIP s))];
  to_info : sessionInfoOf s = mkInfo (TrimSpace (SourceIP client)) (virtualIP s) transportName (infoConnectedAt (sessionInfoOf s))
                                (infoActiveServerPort (sessionInfoOf s));
  to_client : cClients c' = <[ipKey (virtualIP s) := client]> (cClients c);
  to_attached : cAttached c' = <[tePtr e := virtualIP s]> (cAttached c) }.

Lemma openTunnel_cases `{GoUnicode} `{GoNetip} e transportName client r c logs :
  heap (cTrunk c) !! tePtr e = None -> cAttached c !! tePtr e = None ->
  let '(ok, c', logs') := openTunnel e transportName client r c logs in
  rtc cstep c c'
  /\ if ok then
       exists s, tunnelOpened e transportName client c c' s
         /\ logs' = sessionLog "connected" (teClock e) client transportName (displayAddr client r) (virtualIP s) logs
     else c' = c /\ exists text, logs' = upgradeFailed (teClock e) transportName text logs \/ logs' = sessionFailed (teClock e) text logs.
Proof.
  intros Hp Hat. unfold openTunnel. destruct (teUpgradeErr e) as [err|]; [split; [done|]; split; [done|]; exists err; by left|].
  destruct (newSession_spec (tePtr e) transportName (SourceIP client) (teNow e) (teListenErr e) (cTrunk c) Hp) as [Hs Hr].
  destruct (newSession _ _ _ _ _ _) as [[err|] t]; cbn [snd] in Hr.
  { subst t. split; [by apply ctrunk_steps|]. split; [by destruct c|]. exists err. by right. }
  destruct Hs as (s & Hheap & Hl & H127 & Hnew & Htx & Hc & Hx & Hk & _). rewrite Hheap, lookup_insert_eq. cbv zeta.
  unfold SendControl. rewrite Hc. unfold SendControlSelect, enqueue. rewrite Htx. cbn [length Nat.ltb Nat.leb txCap].
  change (0 <? txCap)%nat with true. cbv iota. rewrite Hc. cbn [andb].
  set (frame := buildFrame controlPort (nqipPayload (virtualIP s))).
  set (s' := s <| tx ::= fun q => q ++ [frame] |> <| queued ::= fun q => q ++ [frame] |>).
  assert (SendControlSelect true (nqipPayload (virtualIP s)) s = Some (true, s')) as Hsend.
  { unfold SendControlSelect, enqueue. rewrite Htx. change (length [] <? txCap)%nat with true. cbv iota. by rewrite Hc. }
  assert (heap t !! tePtr e = Some s) as Hlook by (by rewrite Hheap, lookup_insert_eq).
  assert (phase s <> Binding) as Hb by congruence.
  assert (clientsAdd (virtualIP s) client (cClients c) = <[ipKey (virtualIP s) := client]> (cClients c)) as Hadd
    by (unfold clientsAdd; by rewrite H127).
  split.
  - etrans; [apply (ctrunk_steps c t Hr)|]. eapply rtc_l; [apply cstep_trunk; eapply (step_control (tePtr e) s true s'); done|].
    apply rtc_once. set (c2 := c <| cTrunk := t |> <| cTrunk := _ |>).
    apply (cstep_attach (tePtr e) s' client c2); [|done|done]. by unfold c2; cbn; rewrite lookup_insert_eq.
  - exists s'. split; [|done]. constructor; try done.
    + unfold setSession. cbn. change (<[tePtr e := s']> (heap t) = <[tePtr e := s']> (heap (cTrunk c))). by rewrite Hheap, insert_insert_eq.
    + change (tx s' = [frame]). unfold s'. cbn. by rewrite Htx.
    + unfold sessionInfoOf. cbn. by rewrite Hx, Hk.
Qed.

(** C31.  What opening a tunnel comes to.  When it succeeds, there is a live session at a loopback address
    that nobody has, the first frame to its client is the announcement of that address, and under
    it the registry knows who the client is; when the upgrade, the allocation or the socket fails,
    the trunk and the registry are as before: no address is lost.  Either way the handler makes
    steps of the system only, and one line of log. *)
Theorem openTunnel_announces `{GoUnicode} `{GoNetip} e transportName client r c logs :
  heap (cTrunk c) !! tePtr e = None -> cAttached c !! tePtr e = None ->
  let '(ok, c', logs') := openTunnel e transportName client r c logs in
  rtc cstep c c'
  /\ if ok then
       exists s, heap (cTrunk c') = <[tePtr e := s]> (heap (cTrunk c)) /\ phase s = Live /\ ctxDone s = false
         /\ firstByte (virtualIP s) = 127 /\ ipKey (virtualIP s) ∉ used (allocator (cTrunk c))
         /\ tx s = [buildFrame controlPort (nqipPayload (virtualIP s))]
         /\ sessionInfoOf s = mkInfo (TrimSpace (SourceIP client)) (virtualIP s) transportName (infoConnectedAt (sessionInfoOf s))
                                (infoActiveServerPort (sessionInfoOf s))
         /\ cClients c' = <[ipKey (virtualIP s) := client]> (cClients c) /\ cAttached c' = <[tePtr e := virtualIP s]> (cAttached c)
         /\ logs' = sessionLog "connected" (teClock e) client transportName (displayAddr client r) (virtualIP s) logs
     else c' = c /\ exists text, logs' = upgradeFailed (teClock e) transportName text logs \/ logs' = sessionFailed (teClock e) text logs.
Proof.
  intros Hp Hat. pose proof (openTunnel_cases e transportName client r c logs Hp Hat) as Hc.
  destruct (openTunnel _ _ _ _ _ _) as [[ok c'] logs']. destruct Hc as [Hs Hc]. split; [exact Hs|].
  destruct ok; [|exact Hc]. destruct Hc as (s & [H1 [H2 H2'] [H3 H3'] H4 H5 H6 H7] & H8). exists s. by split_and!.
Qed.

(** Closing one is a step, once its session has ended. *)
Lemma closeTunnel_step `{GoNetip} now p transportName client r c logs s :
  heap (cTrunk c) !! p = Some s -> phase s = Ended -> rtc cstep c (fst (closeTunnel now p transportName client r c logs)).
Proof.
  intros Hs He. unfold closeTunnel. destruct (cAttached c !! p) as [vip|] eqn:Hv; [|done].
  by eapply rtc_once, cstep_detach.
Qed.

(** * Runs *)

Definition demoEnv (listenErr : option string) : tunnelEnv := mkTunnelEnv (clockAt 1) 5 1 None listenErr.
Abbreviation tunnelDemo listenErr c :=
  (openTunnel (H := plain_unicode) (H0 := no_ipv6) (demoEnv listenErr) "WebTransport" ann fromAnn c openedLogs).
Definition noTunnels : connections := freshConnections (Some (byte_of 127, byte_of 0, byte_of 0, byte_of 1)) None.
Lemma openTunnel_announces_witness :
  (exists s, heap (cTrunk (snd (fst (tunnelDemo None noTunnels)))) = <[1 := s]> ∅
     /\ tx s = [buildFrame controlPort (nqipPayload (virtualIP s))])
  /\ snd (fst (tunnelDemo (Some "no buffer space"%string) noTunnels)) = noTunnels.
Proof.
  assert (fst (fst (tunnelDemo None noTunnels)) = true) as Ht by (vm_compute; reflexivity).
  assert (fst (fst (tunnelDemo (Some "no buffer space"%string) noTunnels)) = false) as Hf by (vm_compute; reflexivity).
  split.
  - pose proof (openTunnel_announces (H := plain_unicode) (H0 := no_ipv6) (demoEnv None) "WebTransport" ann fromAnn
      noTunnels openedLogs eq_refl eq_refl) as Hok.
    destruct (tunnelDemo None noTunnels) as [[ok c'] logs']. cbn [fst snd] in *. subst ok.
    destruct Hok as (_ & s & Hh & _ & _ & _ & _ & Htx & _). exists s. split; [exact Hh|exact Htx].
  - pose proof (openTunnel_announces (H := plain_unicode) (H0 := no_ipv6) (demoEnv (Some "no buffer space"%string))
      "WebTransport" ann fromAnn noTunnels openedLogs eq_refl eq_refl) as Hbad.
    destruct (tunnelDemo (Some _) noTunnels) as [[ok c'] logs']. cbn [fst snd] in *. subst ok. exact (proj1 (proj2 Hbad)).
Defined.
