(* ===== verification/Main.v ===== *)
(** The process: main.go, wt.go and the mounting of ws.go.

    [main] is a program over what the system answers ([bootEnv]): it makes visible effects in order
    and either returns or exits with a code.  It puts the components together: the configuration,
    the certificates, the gate, the quickstart, the server manager, the trunk, the asset server and
    the state hub. *)
From S2P Require Import Prelude GoStrings LaunchPlan Registry Autoscale Lifecycle Netip Trunk Transport Access Clients AssetServer Hub Log Json Admin Config Endpoint.

(** * Programs *)

(** What the process does that others see, in the code's order; durations are nanoseconds. *)
Inductive effect :=
  | logged (level : Z) (msg : string)
  | listens (port : string)
  | serves (tls : bool)
  | servesWT
  | startsServers (ok : bool)
  | startsPoller
  | startsHub (interval : Z)
  | startsRefresh
  | cancelsRun
  | stopsPoller
  | shutsDown (timeout : Z) (ok : bool)
  | closesWT
  | stopsServers (killAfter : Z)
  | closesLog.

Definition program (A : Type) : Type := list effect * result Z A.
Definition ret {A} (a : A) : program A := ([], Ok a).
Definition bind {A B} (p : program A) (k : A -> program B) : program B :=
  match p with
  | (es, Ok a) => let '(es', r) := k a in (es ++ es', r)
  | (es, Err code) => (es, Err code)
  end.
Definition emitE (e : effect) : program unit := ([e], Ok tt).
Definition exitWith {A} (code : Z) : program A := ([], Err code).
#[local] Notation "'do*' x ':=' c 'in' k" := (bind c (fun x => k))
  (at level 10, x pattern, c at level 100, k at level 200).
#[local] Notation "e ';;;' k" := (bind (emitE e) (fun _ => k)) (at level 60, right associativity).

(** log.go [fatalf]: os.Exit runs no deferred call. *)
Definition fatalf {A} (msg : string) : program A := ([logged 8 msg], Err 1).
(** [if err != nil { fatalf(...) }] *)
Definition orFatal {E A} (message : E -> string) (r : result E A) : program A :=
  match r with Ok a => ret a | Err e => fatalf (message e) end.
Definition noErr (err : option string) : result string unit :=
  match err with None => Ok tt | Some e => Err e end.
Definition slogInfo (msg : string) : effect := logged 0 msg.

(** * What the system answers *)

(** What the server's shutdown finds each time it looks: what the streams of events did since, and
    whether another request over TCP is being served. *)
Record shutdownLook := mkLook { lookEvents : list Hub.event; lookBusy : bool }.

(** [beHub] is what the streams did until the signal, [beTCP] those of them over TCP, and
    [beListenerErr] and [beLooks] what the server's shutdown meets. *)
Record bootEnv := mkBoot {
  beArgs : list string;
  beVerdict : option string;
  beGetenv : string -> string;
  beShlex : string -> option (list string);
  beLogFile : string -> option string;
  beParseURL : string -> result string parsedURL;
  beFileExists : string -> bool;
  beLoadPair : string -> string -> result string certificate;
  beListen : string -> option string;
  beProvider : string -> result string string;
  beSetenv : string -> option string;
  beClientIndex : string -> bool;
  beQuickstart : string -> string -> option string;
  beResolve : nat -> result string certificate;
  beCancelled : nat -> option string;
  beStart : runtimeConfig -> startAllEnv;
  beAlive : Z -> bool;
  beRuns : ServerManager -> ServerManager;
  beHub : list Hub.event;
  beTCP : gset Z;
  beListenerErr : option string;
  beLooks : list shutdownLook;
  beAliveEnd : Z -> bool;
  beStop : Z -> stopEnv;
}.

(** * The application (main.go [nexusApp]) *)

Record nexusApp := mkApp {
  appCfg : runtimeConfig;
  appAccess : Gate;
  appClients : clientMap;
  appTrunk : Trunk;
  appServerMgr : ServerManager;
  appStateHub : stateHub;
  appAssets : HashedAssetServer;
  bootstrapClientFields : list (webRequest -> list (string * json));
}.
#[export] Instance eta_app : EtaRecord nexusApp := fun a =>
  mkApp (appCfg a) (appAccess a) (appClients a) (appTrunk a) (appServerMgr a) (appStateHub a)
        (appAssets a) (bootstrapClientFields a).
(** connect.go [AddBootstrapClientFields] *)
Definition AddBootstrapClientFields (fn : webRequest -> list (string * json)) (app : nexusApp) : nexusApp :=
  app <| bootstrapClientFields ::= fun l => l ++ [fn] |>.

(** main.go: the fields of the OIDC login, and wt.go [setupWebTransport]: those of the listener,
    the URL being under the host that the request names. *)
Definition oidcFields (oidc : list (string * string)) (_ : webRequest) : list (string * json) :=
  [("oidc"%string, JObject (map (fun kv => (fst kv, JString (snd kv))) oidc))].
Definition wtFields (r : webRequest) : list (string * json) :=
  [("transports"%string,
    JObject (jsonField "webtransport" (JObject (jsonField "url" (JString ("https://" ++ wrHost r ++ "/connect"))))))].

Section Main.
Context `{GoUnicode} `{GoNetip}.
Variable env : bootEnv.
Let getenv := beGetenv env.

(** main.go: the application, up to the mounting of the routes *)
Definition newApp (cfg : runtimeConfig) (jwt : option JWTVerifier) (auth : Auth) (current : string) : nexusApp :=
  mkApp cfg (NewGate jwt (Some (NewIdentity getenv)) (Some auth) (Some NewBlocklist)) NewRegistry
        (Trunk.New (Some (byte_of 127, byte_of 0, byte_of 0, byte_of 1)) None)
        (SetServerMaxInstances (serverMaxInstances cfg) NewServerManager)
        (newStateHub current) NewHashedAssetServer [].
Definition withOIDC (app : nexusApp) : nexusApp :=
  match OIDCBrowserConfig (Some (appAccess app)) with
  | Some oidc => AddBootstrapClientFields (oidcFields oidc) app
  | None => app
  end.
(** wt.go [setupWebTransport]: the application, and whether there is a listener *)
Definition setupWebTransport (rt : tlsRuntime) (app : nexusApp) : nexusApp * bool :=
  if getWTCert rt then (AddBootstrapClientFields wtFields app, true) else (app, false).

(** wt.go: the routes over HTTP/3 *)
Inductive h3route := toWebTransport | overHTTP (r : route).
Definition h3mux (method path : string) : h3route :=
  if (path =? "/connect")%string then toWebTransport else overHTTP (newMux method path).

(** * main *)

(** env.go [prependPath]: PATH is only set when it changes. *)
Definition prependPaths (path : string) (dirs : list string) : program string :=
  foldl (fun p dir =>
    do* path := p in
    let path' := prependPath dir path in
    if (path' =? path)%string then ret path else
    do* _ := orFatal (fun e => "Failed to configure PATH: " ++ e)%string (noErr (beSetenv env path')) in
    ret path') (ret path) dirs.

(** main.go, to the quickstart *)
Definition preflight : program (runtimeConfig * tlsRuntime * option JWTVerifier * Auth) :=
  match handleCLI (beArgs env) with
  | Some c => exitWith (cliExitCode c (beVerdict env))
  | None =>
      do* _ := orFatal (fun e => "Failed to initialize Nexus log file: " ++ e)%string
                 (noErr (beLogFile env (getEnv getenv "LOGS_DIR" "/app/logs"))) in
      slogInfo "== Welcome to NexQuake! ==" ;;;
      let '(cfg, warnings) := loadRuntimeConfig getenv (beShlex env) in
      do* _ := (map (logged 4) warnings, Ok tt) in
      do* rt := orFatal (fun e => "TLS setup: " ++ e)%string
                  (setupTLS (beParseURL env) getenv (beFileExists env) (beLoadPair env)) in
      do* _ := orFatal (fun e => "Failed to listen on port " ++ httpPort cfg ++ ": " ++ e)%string
                 (noErr (beListen env (httpPort cfg))) in
      listens (httpPort cfg) ;;;
      do* jwt := orFatal (fun e => "Failed to initialize OIDC: " ++ e)%string (InitJWT getenv (beProvider env)) in
      do* auth := orFatal (fun e => e) (InitAuth getenv) in
      do* _ := prependPaths (getenv "PATH"%string) [binDir cfg; serverBinDir cfg] in
      do* _ := if beClientIndex env (filepath_Join [clientDir cfg; "index.html"%string]) then ret tt
               else fatalf ("WASM client not found: " ++ clientDir cfg)%string in
      do* _ := orFatal (fun e => "Quickstart failed: " ++ e)%string (noErr (beQuickstart env (gameDir cfg) (cfgDir cfg))) in
      ret (cfg, rt, jwt, auth)
  end.

(** main.go: the ways to be an administrator, as announced *)
Definition adminMethods (jwt : option JWTVerifier) (auth : Auth) : list string :=
  (if HasRconPassword (Some auth) then ["password"%string] else [])
  ++ (match jwt with Some _ => if AllowsJWTAdmin (Some auth) then ["SSO"%string] else [] | None => [] end).
Definition announceAdmin (methods : list string) : effect :=
  match methods with
  | [] => slogInfo "Admin access disabled"
  | _ => slogInfo ("Admin access by " ++ Join methods ", ")%string
  end.

(** main.go: [StartAll] is of the manager that was given the configured directory. *)
Definition startFor (cfg : runtimeConfig) : startAllEnv :=
  let e := beStart env cfg in
  mkStartAllEnv (gameDir cfg) (saGameDirIsDir e) (saMkdirLogs e) (saPlan e) (saBasedir e) (saStart e) (saStop e).

(** main.go, from serving to the signal: the runtime's certificate, the manager once started. *)
Definition bringUp (rt : tlsRuntime) (jwt : option JWTVerifier) (auth : Auth) (wt : bool) (app : nexusApp)
    : program (tlsRuntime * nexusApp) :=
  let tls := match serverTLS rt with Some _ => true | None => false end in
  serves tls ;;;
  do* rt := (if tls then
               let '(err, rt, _) := activateTLSCert (beResolve env) (beCancelled env) rt in
               do* _ := orFatal (fun e => "TLS activation failed: " ++ e)%string (noErr err) in ret rt
             else ret rt) in
  slogInfo ("Nexus listening on port " ++ httpPort (appCfg app) ++ (if tls then " with TLS" else ""))%string ;;;
  announceAdmin (adminMethods jwt auth) ;;;
  do* _ := (if wt then emitE servesWT else ret tt) in
  let '(err, mgr) := StartAll (logsDir (appCfg app)) (beAlive env) (startFor (appCfg app)) (appServerMgr app) in
  startsServers (match err with None => true | Some _ => false end) ;;;
  do* _ := orFatal (fun e => "Failed to start servers: " ++ e)%string (noErr (errorText <$> err)) in
  startsPoller ;;;
  startsHub 500000000 ;;;
  startsRefresh ;;;
  ret (rt, app <| appServerMgr := mgr |>).

(** What the streams did, an event that cannot happen left out. *)
Definition hubAfter (es : list Hub.event) (h : stateHub) : stateHub := foldl (fun h e => default h (step e h)) h es.

(** The standard library's [http.Server.Shutdown], of the server that listens over TCP: the listeners
    are closed; and then it looks, again and again until the deadline of its context, whether its
    connections are idle, which those of requests being served are not.  A stream of events is such
    a request while it is subscribed; those over HTTP/3 are another server's. *)
Definition deadlineExceeded : string := "context deadline exceeded".
Fixpoint serverShutdown (tcp : gset Z) (listenerErr : option string) (looks : list shutdownLook) (h : stateHub)
    : option string * stateHub :=
  match looks with
  | [] => (Some deadlineExceeded, h)
  | k :: looks =>
      let h := hubAfter (lookEvents k) h in
      if negb (lookBusy k) && bool_decide (dom (subs h) ∩ tcp = ∅) then (listenerErr, h)
      else serverShutdown tcp listenerErr looks h
  end.

(** main.go, after the signal, with the deferred close of the log *)
Definition shutdownTimeout : Z := 15000000000.
Definition stopGrace : Z := 2000000000.
Definition shutdown (wt : bool) (app : nexusApp) : program nexusApp :=
  slogInfo "Shutting down gracefully..." ;;;
  cancelsRun ;;;
  stopsPoller ;;;
  let '(err, hub) := serverShutdown (beTCP env) (beListenerErr env) (beLooks env) (appStateHub app) in
  shutsDown shutdownTimeout (match err with None => true | Some _ => false end) ;;;
  do* _ := orFatal (fun e => "Server shutdown failed: " ++ e)%string (noErr err) in
  do* _ := (if wt then emitE closesWT else ret tt) in
  let '(_, _, mgr) := StopAll (beAliveEnd env) (beStop env) stopGrace (appServerMgr app) in
  stopsServers stopGrace ;;;
  slogInfo "Nexus stopped" ;;;
  closesLog ;;;
  ret (app <| appStateHub := hub |> <| appServerMgr := mgr |>).

(** main.go [main]; [current] is what the state hub would build first, and [beRuns] and [beHub] what
    became of the manager and of the streams when the signal comes. *)
Definition assemble (current : string) (cfg : runtimeConfig) (rt : tlsRuntime) (jwt : option JWTVerifier) (auth : Auth)
    : nexusApp * bool :=
  setupWebTransport rt (withOIDC (newApp cfg jwt auth current)).
Definition main (current : string) : program nexusApp :=
  do* (cfg, rt, jwt, auth) := preflight in
  let '(app, wt) := assemble current cfg rt jwt auth in
  do* (rt, app) := bringUp rt jwt auth wt app in
  shutdown wt (app <| appServerMgr ::= beRuns env |> <| appStateHub ::= hubAfter (beHub env) |>).

(** The goroutine that serves HTTP exits the process when serving fails, at any moment after it
    was started, the exit included: the runs of the process. *)
Inductive mainRun (current : string) : list effect -> result Z nexusApp -> Prop :=
  | run_whole : mainRun current (fst (main current)) (snd (main current))
  | run_interrupted n tls err :
      serves tls ∈ take n (fst (main current)) ->
      mainRun current (take n (fst (main current)) ++ [logged 8 ("Server error: " ++ err)%string]) (Err 1).
End Main.

(** * The specification

    What a run that ends normally shows, but for its log: every other run shows a beginning of it. *)
Definition visible (e : effect) : bool := match e with logged _ _ => false | _ => true end.
Definition attempted (e : effect) : effect :=
  match e with startsServers _ => startsServers true | shutsDown t _ => shutsDown t true | e => e end.
Definition shown (es : list effect) : list effect := map attempted (List.filter visible es).
Definition lifecycle (port : string) (tls wt : bool) : list effect :=
  [listens port; serves tls] ++ (if wt then [servesWT] else [])
  ++ [startsServers true; startsPoller; startsHub 500000000; startsRefresh; cancelsRun; stopsPoller; shutsDown shutdownTimeout true]
  ++ (if wt then [closesWT] else []) ++ [stopsServers stopGrace; closesLog].

(** What was established before anything of the application runs. *)
Record established `{GoUnicode} (env : bootEnv) (cfg : runtimeConfig) (rt : tlsRuntime) (jwt : option JWTVerifier) (auth : Auth)
    : Prop := {
  est_cli : handleCLI (beArgs env) = None;
  est_cfg : cfg = fst (loadRuntimeConfig (beGetenv env) (beShlex env));
  est_tls : setupTLS (beParseURL env) (beGetenv env) (beFileExists env) (beLoadPair env) = Ok rt;
  est_port : beListen env (httpPort cfg) = None;
  est_jwt : InitJWT (beGetenv env) (beProvider env) = Ok jwt;
  est_auth : InitAuth (beGetenv env) = Ok auth;
  est_client : beClientIndex env (filepath_Join [clientDir cfg; "index.html"%string]) = true;
  est_game : beQuickstart env (gameDir cfg) (cfgDir cfg) = None;
}.

(** * Facts: programs

    [shows p L G Q]: a run of [p] shows a beginning of [L], each of its effects satisfies [G], and
    when it returns it has shown all of [L] and its result satisfies [Q]. *)
Definition shows {A} (p : program A) (L : list effect) (G : effect -> Prop) (Q : A -> Prop) : Prop :=
  shown (fst p) `prefix_of` L /\ Forall G (fst p)
  /\ forall a, snd p = Ok a -> List.filter visible (fst p) = L /\ Q a.

Lemma shown_app es1 es2 : shown (es1 ++ es2) = shown es1 ++ shown es2.
Proof. unfold shown. by rewrite List.filter_app, map_app. Qed.

Section Shows.
Variable G : effect -> Prop.
Hypothesis logs_free : forall level msg, G (logged level msg).

Lemma shows_ret {A} (a : A) (Q : A -> Prop) : Q a -> shows (ret a) [] G Q.
Proof. intros Hq. split_and!; [done|by apply List.Forall_nil|]. by intros ? [= <-]. Qed.

Lemma shows_bind {A B} (p : program A) (k : A -> program B) L1 L2 Q R :
  shows p L1 G Q -> (map attempted L1 = L1) -> (forall a, Q a -> shows (k a) L2 G R) -> shows (bind p k) (L1 ++ L2) G R.
Proof.
  intros (Hp & Hg & Hok) Hl Hk. destruct p as [es [a|code]]; cbn [fst snd bind] in *.
  - destruct (Hok a eq_refl) as [He Hq]. destruct (Hk a Hq) as (Hp2 & Hg2 & Hok2). destruct (k a) as [es2 r].
    cbn [fst snd] in *. unfold shows. cbn [fst snd]. split_and!.
    + rewrite shown_app. unfold shown at 1. rewrite He, Hl. by apply prefix_app.
    + by apply Forall_app.
    + intros b Hb. destruct (Hok2 b Hb) as [He2 Hr]. by rewrite List.filter_app, He, He2.
  - unfold shows. cbn [fst snd]. split_and!; [by apply prefix_app_r|done|done].
Qed.

Lemma shows_seq {A} e (k : program A) L2 R : attempted e = e -> visible e = true -> G e -> shows k L2 G R ->
  shows (bind (emitE e) (fun _ => k)) (e :: L2) G R.
Proof.
  intros Ha Hv Hg Hk. apply (shows_bind (emitE e) (fun _ => k) [e] L2 (fun _ => True)); [|by cbn; rewrite Ha|done].
  unfold shows, shown, emitE. cbn. rewrite Hv. cbn. rewrite Ha. split_and!; [done|by repeat constructor|done].
Qed.
Lemma shows_log {A} level msg (k : program A) L R : shows k L G R -> shows (bind (emitE (logged level msg)) (fun _ => k)) L G R.
Proof.
  intros Hk. apply (shows_bind _ (fun _ => k) [] L (fun _ => True)); [|done|done].
  split_and!; [done|by repeat constructor|done].
Qed.
Lemma shows_logs {A} level l (k : program A) L R :
  shows k L G R -> shows (bind (map (logged level) l, Ok tt) (fun _ => k)) L G R.
Proof.
  intros Hk. apply (shows_bind _ (fun _ => k) [] L (fun _ => True)); [|done|done].
  assert (List.filter visible (map (logged level) l) = []) as Hf by (by induction l).
  split_and!; [unfold shown; cbn; by rewrite Hf| |by intros; split]. cbn [fst]. apply Forall_forall. intros e He.
  apply list_elem_of_In, in_map_iff in He as (msg & <- & _). apply logs_free.
Qed.
Lemma shows_fatal {E A B} (message : E -> string) (r : result E A) (k : A -> program B) L R :
  (forall a, r = Ok a -> shows (k a) L G R) -> shows (bind (orFatal message r) k) L G R.
Proof.
  intros Hk. apply (shows_bind _ k [] L (fun a => r = Ok a)); [|done|done].
  destruct r as [a|e]; cbn; (split_and!; [done|by repeat constructor|]); [by intros ? [= ->]|done].
Qed.
Lemma shows_weaken {A} (p : program A) L L' (Q Q' : A -> Prop) :
  shows p L G Q -> L = L' -> (forall a, Q a -> Q' a) -> shows p L' G Q'.
Proof. intros (H1 & H2 & H3) <- HQ. split_and!; [done..|]. intros a Ha. destruct (H3 a Ha). auto. Qed.
(** An effect with its outcome, and the exit when it failed. *)
Lemma shows_attempt {A} (e : bool -> effect) ok err message (k : unit -> program A) L R :
  attempted (e ok) = e true -> visible (e ok) = true -> visible (e true) = true -> G (e ok) -> attempted (e true) = e true ->
  ok = match err with None => true | Some _ => false end ->
  (err = None -> shows (k tt) L G R) ->
  shows (bind (emitE (e ok)) (fun _ => bind (orFatal message (noErr err)) k)) (e true :: L) G R.
Proof.
  intros Ha Hv Hv1 Hg Ha1 Hok Hk. destruct err as [err|].
  - subst ok. unfold shows, shown. cbn. rewrite Hv. cbn. rewrite Ha. split_and!; [by apply prefix_cons, prefix_nil| |done].
    by repeat constructor.
  - subst ok. apply shows_seq; [done..|]. apply shows_fatal. intros [] _. by apply Hk.
Qed.
End Shows.

(** * Facts: the manager that [StartAll] makes *)

Section Started.
Context `{GoUnicode} `{GoNetip}.
Variable logsDir : string.

Lemma startLaunches_steps alive env launches m m' :
  startLaunches logsDir alive env launches m = (None, m') -> rtc mstep m m'.
Proof.
  revert m. induction launches as [|l ls IH]; intros m; cbn [startLaunches]; [by intros [= <-]|].
  pose proof (step_register m alive l) as Hr.
  destruct (registerServerLaunch alive l m) as [i m1]. pose proof (startRecord_steps logsDir alive i (saStart env l) m1) as Hs.
  destruct (startRecord logsDir alive i (saStart env l) m1) as [[e|] m2]; [done|]. intros He.
  eapply rtc_l; [exact Hr|]. etrans; [exact Hs|]. by apply IH.
Qed.

Lemma StartAll_reachable alive env m m' : StartAll logsDir alive env m = (None, m') -> reachable m'.
Proof.
  unfold StartAll. destruct (saGameDir env =? "")%string; [done|]. destruct (negb _); [done|].
  destruct (logsDir =? "")%string; [done|].
  destruct (saMkdirLogs env); [done|]. destruct (saPlan env) as [launches|]; [|done].
  destruct (saBasedir env) as [basedir|]; [|done]. intros Hs%startLaunches_steps. by exists (Registry.serverMaxInstances m), basedir.
Qed.
End Started.

(** * Facts: starting up *)

Section MainFacts.
Context `{GoUnicode} `{GoNetip}.
Variable env : bootEnv.

(** What holds when the servers are started: the checks passed and there is a certificate. *)
Definition gated (rt : tlsRuntime) : Prop :=
  is_Some (serverTLS rt) -> exists n cert, (n <= 3)%nat /\ beResolve env n = Ok cert.
Definition startGate (e : effect) : Prop :=
  match e with
  | startsServers _ => exists cfg rt jwt auth, established env cfg rt jwt auth /\ gated rt
  | _ => True
  end.

Lemma setupTLS_resolver parse getenv fileExists loadPair rt :
  setupTLS parse getenv fileExists loadPair = Ok rt -> is_Some (serverTLS rt) -> is_Some (resolveCert rt).
Proof.
  unfold setupTLS. cbv zeta. destruct (_ =? _)%string; [by intros [= <-] [? ?]|].
  destruct (parseExternalURL _ _); [|done]. destruct (_ && _); [|by intros [= <-]].
  destruct (loadPair _ _); [by intros [= <-]|done].
Qed.

Lemma prependPaths_shows path dirs : shows (prependPaths env path dirs) [] startGate (fun _ => True).
Proof.
  unfold prependPaths. assert (shows (ret path) [] startGate (fun _ => True)) as Hr by (by apply shows_ret).
  revert Hr. generalize (ret path). induction dirs as [|d dirs IH]; intros p Hp; [done|]. cbn [foldl]. apply IH.
  apply (shows_bind _ p _ [] [] (fun _ => True)); [done|done|]. intros path' _. cbv zeta.
  destruct (_ =? _)%string; [by apply shows_ret|]. apply shows_fatal; [done|]. intros ? _. by apply shows_ret.
Qed.

Lemma preflight_shows :
  exists port, shows (preflight env) [listens port] startGate
    (fun '(cfg, rt, jwt, auth) => established env cfg rt jwt auth).
Proof.
  exists (httpPort (fst (loadRuntimeConfig (beGetenv env) (beShlex env)))).
  unfold preflight. destruct (handleCLI (beArgs env)) eqn:Hcli.
  { split_and!; [by apply prefix_nil|by apply List.Forall_nil|done]. }
  apply shows_fatal; [done|]. intros _ _. apply shows_log; [done|].
  destruct (loadRuntimeConfig (beGetenv env) (beShlex env)) as [cfg warnings] eqn:Hcfg. apply shows_logs; [done|].
  apply shows_fatal; [done|]. intros rt Hrt. apply shows_fatal; [done|]. intros [] Hport. apply shows_seq; [done..|].
  apply shows_fatal; [done|]. intros jwt Hjwt. apply shows_fatal; [done|]. intros auth Hauth.
  apply (shows_bind _ _ _ [] [] (fun _ => True)); [apply prependPaths_shows|done|]. intros _ _.
  apply (shows_bind _ _ _ [] [] (fun _ => beClientIndex env (filepath_Join [clientDir cfg; "index.html"%string]) = true)).
  { destruct (beClientIndex _ _) eqn:Hi; [by apply shows_ret|]. split_and!; [done|by repeat constructor|done]. }
  { done. }
  intros _ Hi. apply shows_fatal; [done|]. intros [] Hq. apply shows_ret.
  constructor; try done; [by rewrite Hcfg| |].
  - by destruct (beListen _ _).
  - by destruct (beQuickstart _ _ _).
Qed.

Lemma certificate_shows (rt : tlsRuntime) (tls : bool) (k : tlsRuntime -> program (tlsRuntime * nexusApp)) L Q :
  tls = match serverTLS rt with Some _ => true | None => false end ->
  (is_Some (serverTLS rt) -> is_Some (resolveCert rt)) ->
  (forall rt', gated rt -> shows (k rt') L startGate Q) ->
  shows (bind (if tls then
                 let '(err, rt, _) := activateTLSCert (beResolve env) (beCancelled env) rt in
                 bind (orFatal (fun e => "TLS activation failed: " ++ e)%string (noErr err)) (fun _ => ret rt)
               else ret rt) k) L startGate Q.
Proof.
  intros Htls Hres Hk. apply (shows_bind _ _ k [] L (fun _ => gated rt)); [|done|done].
  destruct (serverTLS rt) as [src|] eqn:Hs; rewrite Htls.
  - destruct (Hres ltac:(done)) as [rs Hrs]. unfold activateTLSCert. rewrite Hrs.
    pose proof (activateLoop_spec (beResolve env) (beCancelled env) rt activateBackoffs 0) as Ha.
    destruct (activateLoop _ _ _ _ _) as [[[e|] rt'] waits].
    + split_and!; [done|by repeat constructor|done].
    + destruct Ha as (n & cert & Hn & Hr & _). apply shows_ret. intros _. by exists n, cert.
  - apply shows_ret. unfold gated. rewrite Hs. by intros [? ?].
Qed.

Lemma optional_shows {A} (b : bool) e (k : unit -> program A) L Q :
  attempted e = e -> visible e = true -> startGate e -> shows (k tt) L startGate Q ->
  shows (bind (if b then emitE e else ret tt) k) ((if b then [e] else []) ++ L) startGate Q.
Proof.
  intros Ha Hv Hg Hk. destruct b; [|apply (shows_bind _ _ k [] L (fun _ => True)); [by apply shows_ret|done|by intros []]].
  assert (shows (bind (emitE e) (fun _ => k tt)) ([e] ++ L) startGate Q) as Hs by (by apply shows_seq).
  unfold bind in *. cbn in *. exact Hs.
Qed.

Lemma bringUp_shows cfg rt jwt auth wt app :
  established env cfg rt jwt auth ->
  exists tls, shows (bringUp env rt jwt auth wt app)
    ([serves tls] ++ (if wt then [servesWT] else []) ++ [startsServers true; startsPoller; startsHub 500000000; startsRefresh])
    startGate (fun '(_, app') => exists mgr, reachable mgr /\ app' = app <| appServerMgr := mgr |>).
Proof.
  intros He. unfold bringUp. cbv zeta. eexists. apply shows_seq; [done..|].
  apply certificate_shows; [done| |].
  { apply (setupTLS_resolver _ _ _ _ _ (est_tls _ _ _ _ _ He)). }
  intros rt' Hg. apply shows_log; [done|].
  assert (exists msg, announceAdmin (adminMethods jwt auth) = slogInfo msg) as [msg Hm]
    by (unfold announceAdmin; destruct (adminMethods _ _); eauto).
  rewrite Hm. apply shows_log; [done|].
  apply optional_shows; [done..|]. destruct (StartAll _ _ _ _) as [err mgr] eqn:Hmgr.
  apply (shows_attempt startGate ltac:(done) startsServers); [done|done|done| |done|by destruct err|].
  { exists cfg, rt, jwt, auth. by split. }
  intros Herr. repeat (apply shows_seq; [done..|]). apply shows_ret. exists mgr. split; [|done].
  destruct err; [done|]. by apply StartAll_reachable in Hmgr.
Qed.

Lemma shutdown_shows wt app :
  shows (shutdown env wt app)
    ([cancelsRun; stopsPoller; shutsDown shutdownTimeout true] ++ (if wt then [closesWT] else []) ++ [stopsServers stopGrace; closesLog])
    startGate (fun app => serversByID (appServerMgr app) = ∅ /\ serverByInstanceID (appServerMgr app) = ∅).
Proof.
  unfold shutdown. apply shows_log; [done|]. do 2 (apply shows_seq; [done..|]).
  destruct (serverShutdown _ _ _ _) as [err hub].
  apply (shows_attempt startGate ltac:(done) (shutsDown shutdownTimeout)); [done..|]. intros _.
  apply optional_shows; [done..|]. unfold StopAll. destruct (stopEntries _ _ _ _ _ _) as [errs m].
  apply shows_seq; [done..|]. apply shows_log; [done|]. apply shows_seq; [done..|]. by apply shows_ret.
Qed.

Lemma main_shows current :
  exists port tls wt, shows (main env current) (lifecycle port tls wt) startGate
    (fun app => serversByID (appServerMgr app) = ∅ /\ serverByInstanceID (appServerMgr app) = ∅).
Proof.
  destruct preflight_shows as [port Hp]. exists port. unfold main.
  destruct (preflight env) as [es [[[[cfg rt] jwt] auth]|code]] eqn:Hpre.
  - assert (established env cfg rt jwt auth) as He by (by apply (proj2 (proj2 Hp) _ eq_refl)).
    destruct (assemble env current cfg rt jwt auth) as [app wt] eqn:Has.
    destruct (bringUp_shows cfg rt jwt auth wt app He) as [tls Hb]. exists tls, wt.
    eapply shows_weaken.
    + eapply (shows_bind _ _ _ [listens port] _ (fun x => x = (cfg, rt, jwt, auth))).
      * destruct Hp as (H1 & H2 & H3). split_and!; [done|done|]. intros a Ha. split; [by apply (H3 a Ha)|by injection Ha as <-].
      * done.
      * intros ? ->. cbv iota beta. rewrite Has. eapply (shows_bind _ _ _ _ _ _ _ Hb); [by destruct wt|].
        intros [rt' app'] _. apply shutdown_shows.
    + unfold lifecycle. destruct wt; reflexivity.
    + done.
  - exists true, true. destruct Hp as (H1 & H2 & _). split_and!; [|done|done]. etrans; [exact H1|]. apply prefix_cons, prefix_nil.
Qed.

(** C7.  The life of the process.  Whatever the system answers, and whether or not
    serving fails in between, the effects of a run come in one order:
    the port is bound, it is served, the servers are started and then polled, and after the signal
    the polling, the HTTP server and the servers are stopped; a run shows a beginning of this, and
    one that returns all of it, each step having succeeded, with no server left registered.  And
    no server is ever started, whether that succeeds or not, unless the sub-commands, the
    configuration of TLS, the port, OIDC, the administrators' policy, the client's files and the
    game data were all in order and, with TLS, one of the four attempts gave a certificate. *)
Theorem main_lifecycle current es r :
  mainRun env current es r ->
  exists port tls wt,
    shown es `prefix_of` lifecycle port tls wt
    /\ (forall app, r = Ok app ->
          List.filter visible es = lifecycle port tls wt
          /\ serversByID (appServerMgr app) = ∅ /\ serverByInstanceID (appServerMgr app) = ∅)
    /\ (forall ok, startsServers ok ∈ es ->
          exists cfg rt jwt auth, established env cfg rt jwt auth
            /\ (is_Some (serverTLS rt) -> exists n cert, (n <= 3)%nat /\ beResolve env n = Ok cert)).
Proof.
  intros Hrun. destruct (main_shows current) as (port & tls & wt & H1 & H2 & H3). exists port, tls, wt.
  destruct Hrun as [|n tls' err _]; split_and!; try done.
  - intros ok Hok. apply (proj1 (Forall_forall _ _) H2 _ Hok).
  - rewrite shown_app. cbn. rewrite app_nil_r. etrans; [|exact H1].
    rewrite <- (take_drop n (fst (main env current))) at 2. rewrite shown_app. by apply prefix_app_r.
  - intros ok [Hok|Hok]%elem_of_app; [|by apply list_elem_of_singleton in Hok].
    apply (proj1 (Forall_forall _ _) H2 (startsServers ok)). rewrite <- (take_drop n). apply elem_of_app. by left.
Qed.
End MainFacts.

(** * Facts: the components after starting up *)

Section AppFacts.
Context `{GoUnicode} `{GoNetip}.
Variable env : bootEnv.

(** The application, but for what its routes add to the client's manifest. *)
Lemma assemble_newApp current cfg rt jwt auth :
  exists fields, fst (assemble env current cfg rt jwt auth) = (newApp env cfg jwt auth current) <| bootstrapClientFields := fields |>.
Proof.
  unfold assemble, setupWebTransport, withOIDC. destruct (OIDCBrowserConfig _), (getWTCert rt); by eexists.
Qed.

(** When the servers are started, every component is in a state that its own invariants are
    about: the manager is one that its operations reach, with a consistent registry, the trunk, the
    asset server and the state hub are those that their transitions start from, no client is
    known and nobody is blocked. *)
Theorem started_components current cfg rt jwt auth :
  snapshotText current -> established env cfg rt jwt auth ->
  let '(app0, wt) := assemble env current cfg rt jwt auth in
  forall rt' app, snd (bringUp env rt jwt auth wt app0) = Ok (rt', app) ->
  reachable (appServerMgr app) /\ reg_ok (appServerMgr app) /\ treachable (appTrunk app)
  /\ areachable ∅ (appAssets app) /\ hreachable (appStateHub app) /\ appClients app = ∅
  /\ (forall verify r, IsBlocked (Some (appAccess app)) (Resolve verify (Some (appAccess app)) r) = false).
Proof.
  intros Hc He. destruct (assemble_newApp current cfg rt jwt auth) as [fields Hf].
  destruct (assemble env current cfg rt jwt auth) as [app0 wt]. cbn in Hf. subst app0. intros rt' app Hb.
  destruct (bringUp_shows env cfg rt jwt auth wt ((newApp env cfg jwt auth current) <| bootstrapClientFields := fields |>) He) as (tls & _ & _ & Hok).
  destruct (Hok _ Hb) as [_ (mgr & Hm & ->)]. split_and!.
  - exact Hm.
  - destruct Hm as (max & basedir & Hsteps). eapply steps_ok; [exact Hsteps|apply freshManager_ok].
  - eexists _, _. apply rtc_refl.
  - apply areach_new.
  - by apply hreach_init.
  - done.
  - intros verify r. unfold IsBlocked. cbn. unfold blocklistIsBlocked, NewBlocklist. rewrite bool_decide_eq_false_2 by set_solver.
    apply andb_false_r.
Qed.

Lemma password_announced j a : "password"%string ∈ adminMethods j a <-> rconPassword a <> ""%string.
Proof.
  unfold adminMethods, HasRconPassword. destruct (String.eqb_spec (rconPassword a) ""), j, (AllowsJWTAdmin (Some a)); set_solver.
Qed.
Lemma sso_announced j a : "SSO"%string ∈ adminMethods j a <-> is_Some j /\ authMode a <> adminDeny.
Proof.
  unfold adminMethods, AllowsJWTAdmin. destruct j, (authMode a), (HasRconPassword (Some a)); cbn;
    (split; [intros Hin; split; first [done|set_solver]|intros [[? Hs] Hd]; first [done|set_solver]]).
Qed.

(** C24.  The announcement of admin access is true: a caller is an administrator exactly when it gives
    the password and the password is announced, or it comes with a verified login that the policy
    admits and SSO is announced; when nothing is announced nobody is one. *)
Theorem announcement_true cfg rt jwt auth current verify r :
  let g := Some (appAccess (fst (assemble env current cfg rt jwt auth))) in
  let methods := adminMethods jwt auth in
  let authorized := AuthorizeAdmin g (Resolve verify g r) r in
  (authorized = true <->
     "password"%string ∈ methods /\ AuthorizationToken r "Rcon" = rconPassword auth
     \/ "SSO"%string ∈ methods /\ exists c, Parse verify jwt r = Some c /\ AuthorizeClaims g (Some c) = true)
  /\ (methods = [] -> authorized = false).
Proof.
  destruct (assemble_newApp current cfg rt jwt auth) as [fields ->]. cbv zeta. rewrite password_announced, sso_announced.
  set (g := Some _). set (authorized := AuthorizeAdmin _ _ _).
  assert (authorized = true <-> rconPassword auth <> ""%string /\ AuthorizationToken r "Rcon" = rconPassword auth
     \/ (is_Some jwt /\ authMode auth <> adminDeny) /\ exists c, Parse verify jwt r = Some c /\ AuthorizeClaims g (Some c) = true) as Hiff.
  { subst authorized g. unfold AuthorizeAdmin, AuthorizeClaims, Resolve, Authorize. cbn. rewrite andb_false_r. cbn.
    destruct (String.eqb_spec (rconPassword auth) "") as [Hp|Hp]; cbn.
    - destruct (Parse verify jwt r) as [c|] eqn:Hc.
      + assert (is_Some jwt) by (destruct jwt; [done|by cbn in Hc]).
        destruct (authMode auth) eqn:Hm; naive_solver.
      + naive_solver.
    - destruct (String.eqb_spec (AuthorizationToken r "Rcon") (rconPassword auth)) as [Ht|Ht].
      + destruct (String.eqb_spec (AuthorizationToken r "Rcon") ""); [congruence|]. cbn. naive_solver.
      + rewrite andb_false_r. destruct (Parse verify jwt r) as [c|] eqn:Hc; [|naive_solver].
        assert (is_Some jwt) by (destruct jwt; [done|by cbn in Hc]).
        destruct (authMode auth) eqn:Hm; naive_solver. }
  split; [exact Hiff|]. intros Hnil. destruct authorized; [|done]. exfalso.
  pose proof (password_announced jwt auth) as H1. pose proof (sso_announced jwt auth) as H2. rewrite Hnil in H1, H2.
  destruct (proj1 Hiff eq_refl) as [[Hp _]|[Hs _]]; [apply H1 in Hp|apply H2 in Hs]; set_solver.
Qed.

(** What the client is told of logins and transports, over its configuration: the parameters of
    OIDC exactly when the shell may run the login itself, and the URL of WebTransport, under the
    host that it reached, exactly when there is a listener. *)
Theorem assembled_fields cfg rt jwt auth current r :
  let app := fst (assemble env current cfg rt jwt auth) in
  let fields := clientFields cfg (bootstrapClientFields app) r in
  fields !! "oidc"%string
    = (fun kvs => JObject (map (fun kv => (fst kv, JString (snd kv))) kvs)) <$> OIDCBrowserConfig (Some (appAccess app))
  /\ fields !! "transports"%string = (if getWTCert rt then snd <$> head (wtFields r) else None)
  /\ (forall k, k <> "oidc"%string -> k <> "transports"%string -> fields !! k = clientFields cfg [] r !! k).
Proof.
  unfold assemble, setupWebTransport, withOIDC. cbv zeta.
  set (app0 := newApp _ _ _ _ _). change (appAccess app0) with (NewGate jwt (Some (NewIdentity (beGetenv env))) (Some auth) (Some NewBlocklist)).
  assert (clientFields cfg [] r !! "oidc"%string = None /\ clientFields cfg [] r !! "transports"%string = None) as [Ho Ht].
  { unfold clientFields. cbn. destruct (clientSendArgs cfg); split; by rewrite !lookup_insert_ne. }
  assert (forall bs, clientFields cfg bs r = foldl (fun client p => foldl (fun client kv => <[fst kv := snd kv]> client) client (p r))
            (clientFields cfg [] r) bs) as Hfold by done.
  rewrite (Hfold (bootstrapClientFields _)). revert Ho Ht. generalize (clientFields cfg [] r). intros base Ho Ht.
  destruct (OIDCBrowserConfig _) as [oidc|] eqn:Hoidc; destruct (getWTCert rt); cbn;
    cbn in Hoidc; rewrite Hoidc; cbn; split_and!; try intros k Hk1 Hk2; by simplify_map_eq.
Qed.
End AppFacts.

(** * Facts: shutting down *)

Section Shutdown.
Context `{GoUnicode} `{GoNetip}.
Variable env : bootEnv.

(** A stream of /events is ended by its client and nothing else, the end of the loop included. *)
Lemma stream_stays e ch h : e <> evGone ch -> is_Some (subs h !! ch) -> is_Some (subs (default h (step e h)) !! ch).
Proof.
  intros Hne Hin. destruct (step e h) as [h1|] eqn:Hs; [|exact Hin]. cbn [default].
  assert (forall f c, is_Some (subs (onSub c f h) !! ch)) as Hon.
  { intros f c. change (is_Some (alter f c (subs h) !! ch)). rewrite lookup_alter_is_Some. exact Hin. }
  assert (forall f, is_Some (subs (h <| subs ::= fmap f |>) !! ch)) as Hmap.
  { intros f. change (is_Some ((f <$> subs h) !! ch)). rewrite lookup_fmap. by apply fmap_is_Some. }
  destruct e as [v|c|c|c|c|c|c|c| | | |]; cbn [step] in Hs.
  1: { destruct (bool_decide _); [|done]. by injection Hs as <-. }
  1: { destruct (subs h !! c) eqn:Hc; [done|]. injection Hs as <-. unfold subscribe.
       change (is_Some (<[c := mkSub false toLoad None ""]> (subs h) !! ch)). apply lookup_insert_is_Some. destruct (decide (c = ch)); auto. }
  1-6: destruct (subs h !! c) as [s|] eqn:Hc; [|done]; destruct (phase s); try destruct (pending s); try discriminate Hs;
       injection Hs as <-;
       first [apply Hon|change (is_Some (delete c (subs h) !! ch)); rewrite lookup_delete_ne; [done|by intros ->]].
  all: destruct (loop h); try discriminate Hs; injection Hs as <-.
  - unfold tick. by destruct (_ <? _).
  - done.
  - unfold commit. cbv zeta. destruct (negb _); [apply Hmap|done].
  - done.
Qed.
Lemma streams_stay es ch : forall h, evGone ch ∉ es -> is_Some (subs h !! ch) -> is_Some (subs (hubAfter es h) !! ch).
Proof.
  unfold hubAfter. induction es as [|e es IH]; intros h Hes Hin; [done|]. cbn [foldl].
  apply not_elem_of_cons in Hes as [Hne Hes]. apply IH; [done|]. apply stream_stays; [by intros ->|done].
Qed.

(** A stream over TCP that stays keeps [serverShutdown] until its deadline. *)
Lemma serverShutdown_waits tcp err ch looks : forall h,
  ch ∈ tcp -> is_Some (subs h !! ch) -> Forall (fun k => evGone ch ∉ lookEvents k) looks ->
  fst (serverShutdown tcp err looks h) = Some deadlineExceeded.
Proof.
  induction looks as [|k looks IH]; intros h Ht Hin Hall; [done|]. cbn [serverShutdown].
  apply List.Forall_cons_iff in Hall as [Hk Hall]. pose proof (streams_stay _ ch h Hk Hin) as Hin'.
  rewrite bool_decide_eq_false_2, andb_false_r by (apply elem_of_dom in Hin'; set_solver). by apply IH.
Qed.
(** It ends at the first look that finds no request over TCP. *)
Lemma serverShutdown_ends tcp err k looks2 looks1 : forall h,
  lookBusy k = false -> dom (subs (hubAfter (flat_map lookEvents (looks1 ++ [k])) h)) ∩ tcp = ∅ ->
  fst (serverShutdown tcp err (looks1 ++ k :: looks2) h) = err.
Proof.
  induction looks1 as [|k1 looks1 IH]; intros h Hk Hd; cbn [app serverShutdown flat_map] in *.
  - rewrite app_nil_r in Hd. by rewrite Hk, bool_decide_eq_true_2.
  - destruct (_ && _); [done|]. apply IH; [done|]. unfold hubAfter in *. by rewrite foldl_app in Hd.
Qed.

(** C8.  A browser that stays keeps the servers from being stopped.  Each page holds a stream of
    /events, which neither the signal nor the end of the state hub's loop ends, and the shutdown of
    the HTTP server waits for its requests; so when a stream over TCP that was open at the signal is not
    closed by its browser before the deadline, the process exits with code 1, having stopped no
    server and with its log not closed.  When the listeners close without error and at some look
    no request over TCP is being served, the servers are stopped and the log is closed, whatever streams
    there are over HTTP/3. *)
Theorem shutdown_abandons wt app :
  let '(effects, r) := shutdown env wt app in
  (forall ch, ch ∈ beTCP env -> is_Some (subs (appStateHub app) !! ch) ->
     (forall k, k ∈ beLooks env -> evGone ch ∉ lookEvents k) ->
     r = Err 1 /\ (forall d, stopsServers d ∉ effects) /\ closesLog ∉ effects /\ cancelsRun ∈ effects)
  /\ (forall looks1 k looks2, beListenerErr env = None -> beLooks env = looks1 ++ k :: looks2 -> lookBusy k = false ->
     dom (subs (hubAfter (flat_map lookEvents (looks1 ++ [k])) (appStateHub app))) ∩ beTCP env = ∅ ->
     (exists app', r = Ok app') /\ stopsServers stopGrace ∈ effects /\ closesLog ∈ effects).
Proof.
  pose proof (fun ch => serverShutdown_waits (beTCP env) (beListenerErr env) ch (beLooks env) (appStateHub app)) as Hwait.
  pose proof (fun k looks2 looks1 => serverShutdown_ends (beTCP env) (beListenerErr env) k looks2 looks1 (appStateHub app)) as Hend.
  unfold shutdown, StopAll. destruct (serverShutdown _ _ (beLooks env) _) as [err hub] eqn:Hs.
  destruct (stopEntries _ _ _ _ _ _) as [errs m].
  assert (forall looks1 k looks2, beListenerErr env = None -> beLooks env = looks1 ++ k :: looks2 -> lookBusy k = false ->
     dom (subs (hubAfter (flat_map lookEvents (looks1 ++ [k])) (appStateHub app))) ∩ beTCP env = ∅ -> err = None) as Hnone.
  { intros looks1 k looks2 Hl Hlooks Hb Hd. specialize (Hend k looks2 looks1 Hb Hd).
    rewrite <- Hlooks, Hs, Hl in Hend. exact Hend. }
  destruct err as [e|]; cbn.
  - split; [intros ch _ _ _; split_and!; [done|intros d| |]; set_solver|]. intros looks1 k looks2 Hl Hlooks Hb Hd.
    by specialize (Hnone looks1 k looks2 Hl Hlooks Hb Hd).
  - assert (forall ch, ch ∈ beTCP env -> is_Some (subs (appStateHub app) !! ch) ->
      (forall k, k ∈ beLooks env -> evGone ch ∉ lookEvents k) -> False) as Hno.
    { intros ch Ht Hin Hall. assert (Forall (fun k => evGone ch ∉ lookEvents k) (beLooks env)) as Hf by (by apply Forall_forall).
      specialize (Hwait ch Ht Hin Hf). discriminate Hwait. }
    destruct wt; cbn; (split; [intros ch Ht Hin Hall; by destruct (Hno ch Ht Hin Hall)|]);
      intros _ _ _ _ _ _ _; (split; [by eexists|set_solver]).
Qed.
End Shutdown.

(** * Examples *)

(** The page with channel 1 is open over TCP, or the one with channel 2 over HTTP/3, or none is. *)
Definition exampleEnv (external : string) (page : option Z) : bootEnv := {|
  beArgs := []; beVerdict := None;
  beGetenv := fun k => if (k =? "EXTERNAL_URL")%string then external
                       else if (k =? "AUTH_RCON_PASSWORD")%string then "pw"%string else ""%string;
  beShlex := fun _ => None; beLogFile := fun _ => None;
  beParseURL := fun _ => Ok (mkURL "https" "play.example" "" "" "" "" false);
  beFileExists := fun _ => false; beLoadPair := fun _ _ => Err ""%string;
  beListen := fun _ => None; beProvider := fun _ => Err ""%string; beSetenv := fun _ => None;
  beClientIndex := fun _ => true; beQuickstart := fun _ _ => None;
  beResolve := fun n => match n with O => Err "acme"%string | S _ => Ok (mkCert 1 None) end;
  beCancelled := fun _ => None;
  beStart := fun _ => mkStartAllEnv "" true None (Ok [mkLaunch 0 "0-nq" "nq" []]) (Ok "/run"%string) (fun _ => lifeStart) (fun _ => stubborn);
  beAlive := fun _ => true; beRuns := fun m => m; beHub := match page with Some ch => [evSubscribe ch; evRead ch; evBuild ch; evWrite ch] | None => [] end;
  beTCP := {[1]}; beListenerErr := None; beLooks := [mkLook [] false; mkLook [evStop; evHeartbeat 1] false]; beAliveEnd := fun _ => true;
  beStop := fun _ => stubborn;
|}.
Definition exampleRun (external : string) (page : option Z) : program nexusApp :=
  main (H := plain_unicode) (exampleEnv external page) "{}".

(** A whole run, over plain HTTP and over HTTPS with a certificate at the second attempt. *)
Example plain_run :
  List.filter visible (fst (exampleRun "" None)) = lifecycle "1337" false false
  /\ match snd (exampleRun "" None) with Ok _ => true | Err _ => false end = true.
Proof. by vm_compute. Qed.
Example tls_run :
  List.filter visible (fst (exampleRun "https://play.example" None)) = lifecycle "1337" true true
  /\ fst (exampleRun "ftp://play.example" None) <> [].
Proof. by vm_compute. Qed.
Lemma main_lifecycle_witness :
  let es := take 7 (fst (exampleRun "https://play.example" None)) ++ [logged 8 "Server error: accept"] in
  exists port tls wt, shown es `prefix_of` lifecycle port tls wt /\ shown es = [listens "1337"; serves true; servesWT; startsServers true].
Proof.
  assert (mainRun (H := plain_unicode) (exampleEnv "https://play.example" None) "{}"
            (take 7 (fst (exampleRun "https://play.example" None)) ++ [logged 8 "Server error: accept"]) (Err 1)) as Hrun.
  { apply (run_interrupted (H := plain_unicode) _ _ 7 true "accept"). vm_compute. right. right. left. }
  destruct (main_lifecycle (H := plain_unicode) _ _ _ _ Hrun) as (port & tls & wt & Hp & _).
  exists port, tls, wt. split; [exact Hp|vm_compute; reflexivity].
Defined.
(** With a page open over TCP it ends there; with one over HTTP/3 it is whole. *)
Example abandoned_run :
  snd (exampleRun "" (Some 1)) = Err 1
  /\ List.last (fst (exampleRun "" (Some 1))) closesLog = logged 8 "Server shutdown failed: context deadline exceeded"
  /\ List.filter visible (fst (exampleRun "" (Some 2))) = lifecycle "1337" false false.
Proof. by vm_compute. Qed.

Lemma example_established :
  established (H := plain_unicode) (exampleEnv "" None) (fst (loadRuntimeConfig (H := plain_unicode) (beGetenv (exampleEnv "" None)) (fun _ => None)))
    (mkTLS None false "" None None) None (mkAuth "pw" adminDeny ∅).
Proof. constructor; by vm_compute. Qed.

(** A browser opens its stream before the signal and keeps it: over TCP, and over HTTP/3. *)
Definition watchedApp (page : Z) : nexusApp :=
  (newApp (exampleEnv "" None) (fst (loadRuntimeConfig (H := plain_unicode) (fun _ => ""%string) (fun _ => None)))
    None (mkAuth "pw" adminDeny ∅) "{}") <| appStateHub ::= hubAfter (beHub (exampleEnv "" (Some page))) |>.

Lemma shutdown_abandons_witness :
  (let '(effects, r) := shutdown (H := plain_unicode) (exampleEnv "" (Some 1)) false (watchedApp 1) in
   r = Err 1 /\ forall d, stopsServers d ∉ effects)
  /\ (let '(effects, r) := shutdown (H := plain_unicode) (exampleEnv "" (Some 2)) true (watchedApp 2) in
      stopsServers stopGrace ∈ effects /\ size (subs (appStateHub (watchedApp 2))) = 1%nat).
Proof.
  split.
  - pose proof (shutdown_abandons (H := plain_unicode) (exampleEnv "" (Some 1)) false (watchedApp 1)) as Hs.
    destruct (shutdown _ _ _) as [effects r]. destruct Hs as [Hs _].
    destruct (Hs 1) as (Hr & Hno & _); [set_solver|by vm_compute; eexists| |by split].
    intros k [->|[->|Hk%elem_of_nil]%elem_of_cons]%elem_of_cons; [| |done]; cbn [lookEvents]; [apply not_elem_of_nil|].
    rewrite !elem_of_cons, elem_of_nil. intros [Hx|[Hx|[]]]; discriminate Hx.
  - pose proof (shutdown_abandons (H := plain_unicode) (exampleEnv "" (Some 2)) true (watchedApp 2)) as Hs.
    destruct (shutdown _ _ _) as [effects r]. destruct Hs as [_ Hs].
    destruct (Hs [] (mkLook [] false) [mkLook [evStop; evHeartbeat 1] false] eq_refl eq_refl eq_refl) as (_ & Hst & _).
    + apply (bool_decide_unpack _). vm_compute. exact I.
    + split; [exact Hst|vm_compute; reflexivity].
Defined.

Lemma started_components_witness :
  let env := exampleEnv "" None in
  let cfg := fst (loadRuntimeConfig (H := plain_unicode) (beGetenv env) (fun _ => None)) in
  exists es rt app, bringUp (H := plain_unicode) env (mkTLS None false "" None None) None (mkAuth "pw" adminDeny ∅) false
      (newApp env cfg None (mkAuth "pw" adminDeny ∅) "{}") = (es, Ok (rt, app))
    /\ reachable (H := plain_unicode) (appServerMgr app) /\ treachable (appTrunk app).
Proof.
  cbv zeta. set (res := bringUp _ _ _ _ _ _).
  assert (exists es rt app, res = (es, Ok (rt, app))) as (es & rt & app & Hr) by (vm_compute; repeat eexists).
  exists es, rt, app. split; [exact Hr|].
  assert (snapshotText "{}") as Hc by (apply (bool_decide_unpack _); vm_compute; exact I).
  pose proof (started_components (H := plain_unicode) (H0 := no_ipv6) (exampleEnv "" None) "{}" _ _ _ _ Hc example_established) as Hs.
  hnf in Hs. assert (snd res = Ok (rt, app)) as Hok by (by rewrite Hr). destruct (Hs rt app Hok) as (H1 & _ & H2 & _). split; [exact H1|exact H2].
Defined.
