(* ===== verification/Site.v ===== *)
(** The whole site: what a request does, from the listener to the handlers (the composition of
    access/gate.go, connect.go, sse.go, ws.go, wt.go and assets/manifest.go), and the system that the
    requests and the goroutines of all components make together. *)
From S2P Require Import Prelude GoStrings LaunchPlan Registry Lifecycle Poller Netip Trunk Transport Access Clients AssetServer Hub Log Json Admin Config Endpoint Tunnel Main.

(** * A request *)

(** What the handlers share, and for each handler of a tunnel the address it will detach. *)
Record site (S : Type) := mkSite {
  siteWorld : World S; siteAssets : HashedAssetServer; siteHub : stateHub; siteAttached : gmap Z ip4 }.
Arguments mkSite {S}. Arguments siteWorld {S}. Arguments siteAssets {S}. Arguments siteHub {S}. Arguments siteAttached {S}.
#[export] Instance eta_site {S} : EtaRecord (site S) := fun s =>
  mkSite (siteWorld s) (siteAssets s) (siteHub s) (siteAttached s).
Definition onWorld {S} (f : World S -> World S) (s : site S) : site S := s <| siteWorld ::= f |>.
(** The part of it that the tunnels change. *)
Definition siteConnections {S} (s : site S) : connections :=
  mkConnections (wTrunk (siteWorld s)) (wClients (siteWorld s)) (siteAttached s).
Definition setConnections {S} (c : connections) (s : site S) : site S :=
  onWorld (fun w => w <| wTrunk := cTrunk c |> <| wClients := cClients c |>) s <| siteAttached := cAttached c |>.

(** What is answered to the handlers during a request: the clocks; what is logged while an admin
    command runs; the orders, the reference and the files of the asset server; the token endpoint;
    the channel of a new stream; what a new tunnel is given; the static file server; and the build's
    metadata. *)
Record requestEnv := mkRequestEnv {
  reNow1 : wallClock; reNow2 : wallClock; reNow : Z;
  reMeanwhile : list logCall * list logCall;
  reOrder1 : list string; reOrder2 : list string; reRef : string; reSnapshot : result string snapshot; reOpens : opened -> bool;
  reExchange : tokenEndpoint; reExpiry : option Z;
  reStream : Z;
  reTunnel : tunnelEnv;
  reFiles : webRequest -> webResponse;
  reVersion : string * string;
}.

(** What the client gets: a response, with a cookie; an asset; a stream of events; a tunnel, or what
    the transport answers when it cannot be made; a response that still waits for a game server;
    or a connection that a panic closed. *)
Inductive siteReply :=
  | httpReply (resp : webResponse) (ck : option httpCookie)
  | assetReply (headers : list (string * string)) (resp : assetResponse)
  | eventStream (ch : Z) (headers : list (string * string))
  | tunnel (transport : string) (client : Client)
  | noTunnel (transport : string)
  | waiting
  | panicked.

Definition withHeaders (h : list (string * string)) (r : webResponse) : webResponse :=
  mkWebResponse (status r) (h ++ header r) (content r).
(** connect.go [newMux], the handler of GET /health *)
Definition healthResponse (version : string * string) : webResponse :=
  mkWebResponse 200 [("X-NexQuake-Nexus-GitSHA", fst version); ("X-NexQuake-Nexus-BuildTime", snd version)]%string "OK".
(** sse.go [handleEvents], its headers *)
Definition eventHeaders : list (string * string) :=
  [("Content-Type", "text/event-stream"); ("Cache-Control", "no-cache"); ("Connection", "keep-alive"); ("X-Accel-Buffering", "no")]%string.

Section Serve.
Context `{GoUnicode} `{GoNetip} `{GoJSON} {S : Type} `{serverManager S}.
Variable verify : string -> option claims.
Variable a : Admin.
Variable cfg : runtimeConfig.
Variable bootstrap : list (webRequest -> list (string * json)).

(** gate.go [HTTPGate], the log of a refusal *)
Definition logRejected (now : wallClock) (req : Request) (r : webRequest) : Logs -> Logs :=
  slogLog defaultHandler 4 now ("Rejected blocked client source=" ++ Quote (SourceIP (reqClient req)) ++ " remote=" ++ RemoteAddr (wrHTTP r))%string [].

(** connect.go [trunkSession], until its session runs; what the tunnels do from there on are steps
    of the connections. *)
Definition handleConnect (transportName : string) (e : requestEnv) (req : Request) (r : webRequest) (s : site S) : siteReply * site S :=
  let '(ok, c, logs) := openTunnel (reTunnel e) transportName (reqClient req) (wrHTTP r) (siteConnections s) (wLogs (siteWorld s)) in
  (if ok then tunnel transportName (reqClient req) else noTunnel transportName,
   onWorld (fun w => w <| wLogs := logs |>) (setConnections c s)).

(** The handlers, by route. *)
Definition handleRoute (e : requestEnv) (rt : route) (req : Request) (r : webRequest) (s : site S) : siteReply * site S :=
  let w := siteWorld s in
  let g := wGate w in
  match rt with
  | toHealth => (httpReply (healthResponse (reVersion e)) None, s)
  | toRconLanding => (httpReply (rconLanding (AuthorizeAdmin (Some g) req (wrHTTP r))) None, s)
  | toRcon =>
      match handleRcon verify a (reNow1 e) (reNow2 e) (reMeanwhile e) r w with
      | replied resp w => (httpReply resp None, s <| siteWorld := w |>)
      | rconAwaiting w => (waiting, s <| siteWorld := w |>)
      | rconPanics => (panicked, s)
      end
  | toRconSession =>
      let '(resp, ck, logs) := handleRconSession verify g (reExchange e) (reExpiry e) (reNow1 e) r (wLogs w) in
      (httpReply resp ck, s <| siteWorld := w <| wLogs := logs |> |>)
  | toEvents => (eventStream (reStream e) eventHeaders, s <| siteHub ::= subscribe (reStream e) |>)
  | toGamedir =>
      let '(resp, assets) := handleGamedir cfg bootstrap (reOrder1 e) (reOrder2 e) (reRef e) (reNow e) (reSnapshot e) r (siteAssets s) in
      (httpReply (withHeaders (addIsolationHeaders []) resp) None, s <| siteAssets := assets |>)
  | toPak =>
      let '(resp, assets) := AssetHandler (reOpens e) (reOrder1 e) (reNow e) (wrMethod r) (wrPath r) (siteAssets s) in
      (assetReply (addIsolationHeaders []) resp, s <| siteAssets := assets |>)
  | toConnect => handleConnect TransportWebSocket e req r s
  | toFiles =>
      (httpReply (withHeaders (cacheControlClient (wrPath r) (addIsolationHeaders [])) (reFiles e r)) None, s)
  end.

(** main.go and wt.go: the gate, then the routes of the listener, over TCP or over HTTP/3. *)
Definition serveHTTP (h3 : bool) (e : requestEnv) (r : webRequest) (s : site S) : siteReply * site S :=
  let g := wGate (siteWorld s) in
  match HTTPGate verify (Some g) (wrHTTP r) with
  | forbidden =>
      (httpReply (httpError "forbidden" 403) None,
       s <| siteWorld ::= fun w => w <| wLogs ::= logRejected (reNow1 e) (Resolve verify (Some g) (wrHTTP r)) r |> |>)
  | served req =>
      if h3 then
        match h3mux (wrMethod r) (wrPath r) with
        | toWebTransport => handleConnect TransportWebTransport e req r s
        | overHTTP rt => handleRoute e rt req r s
        end
      else handleRoute e (newMux (wrMethod r) (wrPath r)) req r s
  end.

(** A request to the admin endpoint that it lets use the commands. *)
Definition adminRequest (r : webRequest) (s : site S) : bool :=
  (wrMethod r =? "POST")%string && (wrPath r =? "/rcon")%string
  && negb (IsBlocked (Some (wGate (siteWorld s))) (Resolve verify (Some (wGate (siteWorld s))) (wrHTTP r)))
  && authorizedFor verify (siteWorld s) r.

(** The transport of the tunnels of each listener. *)
Definition listenerTransport (h3 : bool) : string := if h3 then TransportWebTransport else TransportWebSocket.
(** A request for a tunnel, of a source that is not blocked. *)
Definition connectRequest (h3 : bool) (r : webRequest) (s : site S) : bool :=
  (h3 || isGet (wrMethod r)) && (wrPath r =? "/connect")%string
  && negb (IsBlocked (Some (wGate (siteWorld s))) (Resolve verify (Some (wGate (siteWorld s))) (wrHTTP r))).

(** The same but for the log, the assets issued and the streams. *)
Definition untouched (s s' : site S) : Prop := sameButLogs (siteWorld s) (siteWorld s') /\ siteAttached s' = siteAttached s.
(** Nothing but a tunnel was made: no server and no gate changed. *)
Definition tunnelOnly (transportName : string) (e : requestEnv) (r : webRequest) (s s' : site S) : Prop :=
  let client := reqClient (Resolve verify (Some (wGate (siteWorld s))) (wrHTTP r)) in
  wServers (siteWorld s') = wServers (siteWorld s) /\ wGate (siteWorld s') = wGate (siteWorld s)
  /\ siteAssets s' = siteAssets s /\ siteHub s' = siteHub s
  /\ exists sess, tunnelOpened (reTunnel e) transportName client (siteConnections s) (siteConnections s') sess.
(** The pointer of a new session is new. *)
Definition freshPointer (e : requestEnv) (s : site S) : Prop :=
  heap (wTrunk (siteWorld s)) !! tePtr (reTunnel e) = None /\ siteAttached s !! tePtr (reTunnel e) = None.

Lemma untouched_refl s : untouched s s.
Proof. by repeat split. Qed.

(** Which route makes which change. *)
Lemma newMux_rcon method path : newMux method path = toRcon -> method = "POST"%string /\ path = "/rcon"%string.
Proof.
  unfold newMux, isGet. intros Hm.
  repeat match type of Hm with context [if ?b then _ else _] => destruct b eqn:?; try discriminate Hm end.
  match goal with E : (method =? "POST")%string && _ = true |- _ => apply andb_true_iff in E as [Hpost Hpath] end.
  split; by apply String.eqb_eq.
Qed.
Lemma newMux_connect method path : newMux method path = toConnect -> isGet method && (path =? "/connect")%string = true.
Proof.
  unfold newMux. intros Hm.
  repeat match type of Hm with context [if ?b then _ else _] => destruct b eqn:?; try discriminate Hm end. done.
Qed.

Lemma handleConnect_cases transportName e req r s : freshPointer e s ->
  req = Resolve verify (Some (wGate (siteWorld s))) (wrHTTP r) ->
  let '(reply, s') := handleConnect transportName e req r s in
  rtc cstep (siteConnections s) (siteConnections s')
  /\ (reply = noTunnel transportName /\ untouched s s' /\ siteAssets s' = siteAssets s /\ siteHub s' = siteHub s
      \/ reply = tunnel transportName (reqClient req) /\ tunnelOnly transportName e r s s')
  /\ siteAssets s' = siteAssets s /\ siteHub s' = siteHub s /\ wServers (siteWorld s') = wServers (siteWorld s).
Proof.
  intros [Hp Ha] Hreq. unfold handleConnect.
  pose proof (openTunnel_cases (reTunnel e) transportName (reqClient req) (wrHTTP r) (siteConnections s) (wLogs (siteWorld s)) Hp Ha) as Hc.
  destruct (openTunnel _ _ _ _ _ _) as [[ok c] logs]. destruct Hc as [Hsteps Hc].
  assert (siteConnections (onWorld (fun w => w <| wLogs := logs |>) (setConnections c s)) = c) as Heq by (by destruct c).
  rewrite Heq. split; [exact Hsteps|]. split; [|done]. destruct ok.
  - right. destruct Hc as (sess & Hopen & _). split; [done|]. split_and!; try done. exists sess. by rewrite Heq, <- Hreq.
  - left. destruct Hc as [-> _]. by repeat split.
Qed.

Lemma handleRoute_cases e rt req r s : freshPointer e s ->
  req = Resolve verify (Some (wGate (siteWorld s))) (wrHTTP r) ->
  let '(reply, s') := handleRoute e rt req r s in
  untouched s s'
  \/ rt = toRcon /\ authorizedFor verify (siteWorld s) r = true
     /\ siteAssets s' = siteAssets s /\ siteHub s' = siteHub s /\ siteAttached s' = siteAttached s
     /\ siteWorld s' = rconWorld (siteWorld s) (handleRcon verify a (reNow1 e) (reNow2 e) (reMeanwhile e) r (siteWorld s))
  \/ rt = toConnect /\ reply = tunnel TransportWebSocket (reqClient req) /\ tunnelOnly TransportWebSocket e r s s'.
Proof.
  intros Hf Hreq. destruct rt; cbn [handleRoute]; try (left; apply untouched_refl).
  - pose proof (handleRcon_cases verify a (reNow1 e) (reNow2 e) (reMeanwhile e) r (siteWorld s)) as Hc.
    destruct (handleRcon _ _ _ _ _ _ _) as [resp w'|w'|] eqn:Hr; cbn [rconWorld]; [|right; left; by rewrite <- Hc|done].
    destruct Hc as [_ [Hsame|[Hauth _]]]; [by left|right; by left].
  - destruct (handleRconSession _ _ _ _ _ _ _) as [[resp ck] logs]. left. by repeat split.
  - left. by repeat split.
  - destruct (handleGamedir _ _ _ _ _ _ _ _ _) as [resp assets]. left. by repeat split.
  - destruct (AssetHandler _ _ _ _ _ _) as [resp assets]. left. by repeat split.
  - pose proof (handleConnect_cases TransportWebSocket e req r s Hf Hreq) as Hc.
    destruct (handleConnect _ _ _ _ _) as [reply s']. destruct Hc as (_ & [(_ & ? & _)|?] & _); [by left|right; right; by split].
Qed.

(** C6.  The gate is on every route of both listeners: a request of a blocked source is answered 403,
    whatever it asks for and however it is made, and changes nothing but the log.  A request that
    is not blocked changes no server, tunnel, client or ban, with two exceptions: a POST to /rcon that
    the administrators' policy lets in; and a GET of /connect (over HTTP/3, any method), which
    anyone may make, and which when it succeeds adds exactly one live session, at an address that
    nobody has, and one client, who is the requester, and leaves the servers and the gate as they are. *)
Theorem serveHTTP_guarded h3 e r s :
  freshPointer e s ->
  let '(reply, s') := serveHTTP h3 e r s in
  (IsBlocked (Some (wGate (siteWorld s))) (Resolve verify (Some (wGate (siteWorld s))) (wrHTTP r)) = true ->
     reply = httpReply (httpError "forbidden" 403) None
     /\ untouched s s' /\ siteAssets s' = siteAssets s /\ siteHub s' = siteHub s)
  /\ (untouched s s' \/ adminRequest r s = true /\ siteAttached s' = siteAttached s
      \/ connectRequest h3 r s = true
          /\ reply = tunnel (listenerTransport h3) (reqClient (Resolve verify (Some (wGate (siteWorld s))) (wrHTTP r)))
          /\ tunnelOnly (listenerTransport h3) e r s s').
Proof.
  intros Hf. unfold serveHTTP, HTTPGate, adminRequest, connectRequest. set (g := wGate (siteWorld s)).
  set (req := Resolve verify (Some g) (wrHTTP r)). destruct (IsBlocked (Some g) req) eqn:Hb.
  { split; [intros _; split_and!; [done|by repeat split|done|done]|]. left. by repeat split. }
  assert (forall h3, (h3 = true -> wrPath r <> "/connect"%string) ->
    let '(reply, s') := handleRoute e (newMux (wrMethod r) (wrPath r)) req r s in
    (false = true -> reply = httpReply (httpError "forbidden" 403) None
       /\ untouched s s' /\ siteAssets s' = siteAssets s /\ siteHub s' = siteHub s)
    /\ (untouched s s' \/
        (wrMethod r =? "POST")%string && (wrPath r =? "/rcon")%string && negb false && authorizedFor verify (siteWorld s) r = true
          /\ siteAttached s' = siteAttached s
        \/ (h3 || isGet (wrMethod r)) && (wrPath r =? "/connect")%string && negb false = true
          /\ reply = tunnel (listenerTransport h3) (reqClient req) /\ tunnelOnly (listenerTransport h3) e r s s')) as Hx.
  { intros h Hh. pose proof (handleRoute_cases e (newMux (wrMethod r) (wrPath r)) req r s Hf eq_refl) as Hc.
    destruct (handleRoute _ _ _ _ _) as [reply s']. split; [done|].
    destruct Hc as [Hc|[(Hm & Hauth & _ & _ & Hat & _)|(Hm & Hrep & Hop)]]; [by left| |]; right; [left|right].
    - destruct (newMux_rcon _ _ Hm) as [-> ->]. by rewrite Hauth.
    - apply newMux_connect, andb_true_iff in Hm as [Hget Hpath]. rewrite Hget, Hpath, orb_true_r. split; [done|].
      apply String.eqb_eq in Hpath. destruct h; [by destruct (Hh eq_refl)|]. by split. }
  destruct h3; [|by apply (Hx false)].
  unfold h3mux. destruct (String.eqb_spec (wrPath r) "/connect") as [Hpath|Hpath]; [|by apply (Hx true)].
  pose proof (handleConnect_cases TransportWebTransport e req r s Hf eq_refl) as Hc.
  destruct (handleConnect _ _ _ _ _) as [reply s']. split; [done|].
  destruct Hc as (_ & [(_ & ? & _)|Hop] & _); [by left|right; right]. by split.
Qed.
End Serve.

(** * The system

    The state of all components, with the tunnels' handlers; each step is one of a component, or a
    whole request (whose own interleaving with other steps the components' steps cover). *)

Section RconSteps.
Context `{GoUnicode} `{GoNetip} `{GoJSON} {S : Type} `{serverManager S} (stepR : S -> S -> Prop)
  `{!serverManagerSteps S stepR}.
Variable verify : string -> option claims.

Lemma Dispatch_awaiting a now1 now2 meanwhile req client (w w' : World S) :
  Dispatch a now1 now2 meanwhile req client w = stillAwaiting w' -> sameButLogs w w'.
Proof.
  unfold Dispatch. destruct (lookupCommand _) as [cmd|]; [|done]. destruct (ParseParams cmd _) as [params|]; [|done].
  cbv zeta. rewrite auditRPC_call. destruct (Handler _ _ _ _ _) as [[] ?| |]; [done|done|done|].
  intros [= <-]. by repeat split.
Qed.

(** A request to the admin endpoint moves the servers and the tunnels by their own steps. *)
Lemma handleRcon_steps a now1 now2 meanwhile r (w : World S) :
  let w' := rconWorld w (handleRcon verify a now1 now2 meanwhile r w) in
  rtc stepR (wServers w) (wServers w') /\ (trunk_ok (wTrunk w) -> rtc tstep (wTrunk w) (wTrunk w'))
  /\ wClients w' = wClients w.
Proof.
  cbv zeta. assert (forall w', sameButLogs w w' ->
    rtc stepR (wServers w) (wServers w') /\ (trunk_ok (wTrunk w) -> rtc tstep (wTrunk w) (wTrunk w')) /\ wClients w' = wClients w) as Hsame.
  { intros w' (E1 & E2 & E3 & _). by rewrite E1, E2. }
  unfold handleRcon. cbv zeta. destruct (readBody _ r) as [body|]; [|by apply Hsame].
  destruct (ParseRequest body) as [req|e]; [|by apply Hsame].
  destruct (negb _); [apply Hsame; unfold AuditUnauthorized; rewrite auditRPC_call; by repeat split|].
  set (client := reqClient _). pose proof (Dispatch_all stepR a now1 now2 meanwhile req client w) as Hd.
  pose proof (Dispatch_awaiting a now1 now2 meanwhile req client w) as Haw.
  destruct (Dispatch _ _ _ _ _ _ w) as [rsp w'|w'|]; cbn [rconWorld]; [|by apply Hsame, Haw|by apply Hsame].
  destruct Hd as (_ & _ & (K1 & K2 & _ & _ & K5) & _). by split_and!.
Qed.
End RconSteps.

Abbreviation system := (site ServerManager) (only parsing).
Definition sysWorld (y : system) : World ServerManager := siteWorld y.
(** The application once started, with nothing of a log. *)
Definition systemOf (app : nexusApp) (logs : Logs) : system :=
  mkSite (mkWorld (appServerMgr app) (appTrunk app) (appClients app) (appAccess app) logs) (appAssets app) (appStateHub app) ∅.

Section System.
Context `{GoUnicode} `{GoNetip} `{GoJSON}.
Variable verify : string -> option claims.
Variable a : Admin.
Variable cfg : runtimeConfig.
Variable bootstrap : list (webRequest -> list (string * json)).

(** What a request may assume of the answers to it: a map's iteration meets each of its keys once, a
    reference and its hashes are new, and so are a channel and the pointer of a session. *)
Definition ready (e : requestEnv) (s : site ServerManager) : Prop :=
  iterates (reOrder1 e) (siteAssets s) /\ iterates (reOrder2 e) (pruneExpiredLocked (reOrder1 e) (reNow e) (siteAssets s))
  /\ (forall sn, reSnapshot e = Ok sn -> fresh (siteAssets s) (reRef e) (snAssets sn))
  /\ subs (siteHub s) !! reStream e = None /\ freshPointer e s.

Inductive sysStep (y : system) : system -> Prop :=
  | sys_request env h3 e r :
      ready e y -> sysStep y (snd (serveHTTP (H2 := orchestrator env) verify a cfg bootstrap h3 e r y))
  | sys_servers m' : mstep (wServers (sysWorld y)) m' -> sysStep y (onWorld (fun w => w <| wServers := m' |>) y)
  | sys_connections c' : cstep (siteConnections y) c' -> sysStep y (setConnections c' y)
  | sys_assets g' : astep ∅ (siteAssets y) g' -> sysStep y (y <| siteAssets := g' |>)
  | sys_streams ev h' : step ev (siteHub y) = Some h' -> sysStep y (y <| siteHub := h' |>).

(** Every component is in a state that it reaches by itself. *)
Definition components_reachable (y : system) : Prop :=
  reachable (wServers (sysWorld y)) /\ treachable (wTrunk (sysWorld y))
  /\ areachable ∅ (siteAssets y) /\ hreachable (siteHub y).

Lemma reachable_rtc m m' : reachable m -> rtc mstep m m' -> reachable m'.
Proof. intros (max & b & Hs) Hm. exists max, b. by etrans. Qed.
Lemma treachable_rtc t t' : treachable t -> rtc tstep t t' -> treachable t'.
Proof. intros (ip & al & Hs) Ht. exists ip, al. by etrans. Qed.
Lemma cstep_tsteps c c' : cstep c c' -> rtc tstep (cTrunk c) (cTrunk c').
Proof. destruct 1; [by apply rtc_once|done|done]. Qed.
Lemma csteps_tsteps c c' : rtc cstep c c' -> rtc tstep (cTrunk c) (cTrunk c').
Proof. induction 1 as [|c c1 c2 Hs _ IH]; [done|]. etrans; [by apply cstep_tsteps|done]. Qed.

(** A request moves every component by its own steps. *)
Lemma serveHTTP_steps env h3 e r s :
  ready e s -> trunk_ok (wTrunk (siteWorld s)) ->
  let s' := snd (serveHTTP (H2 := orchestrator env) verify a cfg bootstrap h3 e r s) in
  rtc mstep (wServers (siteWorld s)) (wServers (siteWorld s'))
  /\ rtc tstep (wTrunk (siteWorld s)) (wTrunk (siteWorld s'))
  /\ rtc (astep ∅) (siteAssets s) (siteAssets s')
  /\ (siteHub s' = siteHub s \/ step (evSubscribe (reStream e)) (siteHub s) = Some (siteHub s')).
Proof.
  intros (Ho1 & Ho2 & Hf & Hch & Hptr) Ht. cbv zeta. unfold serveHTTP.
  assert (forall transportName, let s' := snd (handleConnect transportName e (Resolve verify (Some (wGate (siteWorld s))) (wrHTTP r)) r s) in
    rtc mstep (wServers (siteWorld s)) (wServers (siteWorld s')) /\ rtc tstep (wTrunk (siteWorld s)) (wTrunk (siteWorld s'))
    /\ rtc (astep ∅) (siteAssets s) (siteAssets s')
    /\ (siteHub s' = siteHub s \/ step (evSubscribe (reStream e)) (siteHub s) = Some (siteHub s'))) as Hco.
  { intros transportName. pose proof (handleConnect_cases verify transportName e _ r s Hptr eq_refl) as Hc.
    destruct (handleConnect _ _ _ _ _) as [reply s']. destruct Hc as (Hsteps & _ & E1 & E2 & E3). cbn [snd].
    rewrite E1, E2, E3. split_and!; [done| |done|by left]. exact (csteps_tsteps _ _ Hsteps). }
  unfold HTTPGate. destruct (IsBlocked _ _); [by split_and!; [..|left]|]. set (req := Resolve _ _ _) in *.
  assert (forall rt, let s' := snd (handleRoute (H2 := orchestrator env) verify a cfg bootstrap e rt req r s) in
    rtc mstep (wServers (siteWorld s)) (wServers (siteWorld s')) /\ rtc tstep (wTrunk (siteWorld s)) (wTrunk (siteWorld s'))
    /\ rtc (astep ∅) (siteAssets s) (siteAssets s')
    /\ (siteHub s' = siteHub s \/ step (evSubscribe (reStream e)) (siteHub s) = Some (siteHub s'))) as Hrt.
  { intros rt. destruct rt; cbn [handleRoute snd]; try (by split_and!; [..|left]).
    - pose proof (handleRcon_steps (H2 := orchestrator env) mstep (serverManagerSteps0 := orchestrator_steps env) verify a
        (reNow1 e) (reNow2 e) (reMeanwhile e) r (siteWorld s)) as Hr. cbv zeta in Hr.
      destruct (handleRcon _ _ _ _ _ _ _) as [resp w'|w'|]; cbn [snd rconWorld] in *; destruct Hr as (R1 & R2 & _);
        split_and!; try (by left); try done; by apply R2.
    - destruct (handleRconSession _ _ _ _ _ _ _) as [[resp ck] logs]. by split_and!; [..|left].
    - split_and!; [done..|]. right. cbn [step]. by rewrite Hch.
    - unfold handleGamedir. destruct (negb _); [by split_and!; [..|left]|].
      assert (rtc (astep ∅) (siteAssets s) (snd (IssueManifest (reOrder1 e) (reOrder2 e) (reRef e) (reNow e) (reSnapshot e) (siteAssets s)))) as Hi.
      { apply rtc_once. destruct (reSnapshot e) as [sn|err]; [|apply step_issue_error].
        destruct (fresh_new _ _ _ (Hf sn eq_refl)) as [Hnew Hno]. rewrite <- Hno. by apply step_issue. }
      destruct (IssueManifest _ _ _ _ _ _) as [[[[game cd] ref]|err] assets]; [destruct (_ =? 0)|]; by split_and!; [..|left].
    - pose proof (step_asset (reOpens e) (reOrder1 e) (reNow e) (wrMethod r) (wrPath r) (siteAssets s) Ho1) as Hp.
      destruct (AssetHandler _ _ _ _ _ _) as [resp assets]. split_and!; [done|done|by apply rtc_once|by left].
    - apply (Hco TransportWebSocket). }
  destruct h3; [unfold h3mux; destruct (_ =? _)%string; [apply (Hco TransportWebTransport)|]|]; apply Hrt.
Qed.

Lemma areachable_step g g' : areachable ∅ g -> astep ∅ g g' -> areachable ∅ g'.
Proof. intros Hr Hs. rewrite <- (union_empty_l_L ∅). by eapply areach_step. Qed.
Lemma areachable_rtc g g' : areachable ∅ g -> rtc (astep ∅) g g' -> areachable ∅ g'.
Proof. intros Hr Hs. induction Hs; [done|]. apply IHHs. by eapply areachable_step. Qed.

Lemma sysStep_reachable y y' : components_reachable y -> sysStep y y' -> components_reachable y'.
Proof.
  intros (R1 & R2 & R3 & R4) Hs. destruct Hs as [env h3 e r Hr|m' Hm|c' Hc|g' Hg|ev h' Hh].
  - destruct (serveHTTP_steps env h3 e r y Hr (treachable_ok _ R2)) as (S1 & S2 & S3 & S4).
    split_and!; [by eapply reachable_rtc|by eapply treachable_rtc|by eapply areachable_rtc|].
    destruct S4 as [S4|S4]; [cbn; by rewrite S4|by eapply hreach_step].
  - split_and!; [|done..]. eapply reachable_rtc; [exact R1|]. by apply rtc_once.
  - split_and!; [done| |done|done]. eapply treachable_rtc; [exact R2|]. apply (cstep_tsteps _ _ Hc).
  - split_and!; [done|done|by eapply areachable_step|done].
  - split_and!; [done|done|done|by eapply hreach_step].
Qed.

(** C2.  The system keeps every invariant.  From the application that starting up makes, whatever requests
    arrive over either listener, from whomever, and however the goroutines of the orchestrator, the
    tunnels, the asset server and the streams take their steps in between, every component stays in
    a state that it reaches by itself: the registry is consistent, the live sessions have addresses
    of their own, the table of assets is that of the live manifests, and no stream misses a change.
    A request is a step under [ready]: what it is given as new (the pointer of a session, the
    channel of a stream, the reference of a manifest) is new, and the hashes of a new manifest are
    not in the table already. *)
Theorem system_sound env current rt jwt auth logs y :
  snapshotText current -> established env cfg rt jwt auth ->
  let '(app0, wt) := assemble env current cfg rt jwt auth in
  forall rt' app, snd (bringUp env rt jwt auth wt app0) = Ok (rt', app) ->
  rtc sysStep (systemOf app logs) y ->
  components_reachable y
  /\ reg_ok (wServers (sysWorld y)) /\ trunk_ok (wTrunk (sysWorld y))
  /\ served_ok ∅ (siteAssets y) /\ hub_ok (siteHub y).
Proof.
  intros Hc He. pose proof (started_components env current cfg rt jwt auth Hc He) as Hs.
  destruct (assemble env current cfg rt jwt auth) as [app0 wt]. intros rt' app Hb Hy.
  destruct (Hs rt' app Hb) as (H1' & _ & H3 & H4 & H5 & _).
  assert (components_reachable y) as Hr.
  { assert (components_reachable (systemOf app logs)) as H0' by (by split_and!).
    revert H0'. clear - Hy. induction Hy as [|y1 y2 y3 Hst _ IH]; intros Hr; [done|]. by eapply IH, sysStep_reachable. }
  split; [exact Hr|]. destruct Hr as (R1 & R2 & R3 & R4). split_and!; [|by apply treachable_ok|by apply areachable_ok|by apply hreachable_ok].
  destruct R1 as (max & basedir & Hsteps). eapply steps_ok; [exact Hsteps|apply freshManager_ok].
Qed.

(** The poller is one of the system's goroutines: what it does, and what the orchestrator does
    meanwhile, are steps of the system. *)
Lemma poller_in_system logsDir p p' y :
  wServers (sysWorld y) = pMgr p -> rtc (pstep logsDir) p p' ->
  rtc sysStep y (onWorld (fun w => w <| wServers := pMgr p' |>) y).
Proof.
  intros Hy Hp. assert (rtc mstep (pMgr p) (pMgr p')) as Hm.
  { clear Hy. induction Hp as [|p p1 p2 Hst _ IH]; [done|]. etrans; [by eapply pstep_manager|done]. }
  rewrite <- Hy in Hm. clear Hy Hp. revert Hm. generalize (pMgr p') as m'. intros m' Hm.
  remember (wServers (sysWorld y)) as m eqn:Hm0. revert y Hm0.
  induction Hm as [m|m m1 m2 Hst _ IH]; intros y Hm0.
  - subst m. destruct y as [[? ? ? ? ?] ? ? ?]. done.
  - eapply rtc_l; [apply (sys_servers y m1); by rewrite <- Hm0|].
    specialize (IH (onWorld (fun w => w <| wServers := m1 |>) y) eq_refl).
    by destruct y as [[? ? ? ? ?] ? ? ?].
Qed.
End System.

(** * Runs *)

(** A request that stops all servers, by the password; from a stranger; and from a blocked source. *)
Definition fromBoss : httpRequest :=
  mkHTTP (fun h => if (h =? "Authorization")%string then "Rcon secret"%string else ""%string) "10.0.0.5:4000" None.
Definition answersOf (ch : Z) : requestEnv :=
  mkRequestEnv (clockAt 1) (clockAt 2) 1000 ([], []) [] [] "ref" (Err "no game data"%string) (fun _ => true)
    (fun _ => Err "offline"%string) None ch (mkTunnelEnv (clockAt 1) 1000 9 None None) (fun _ => mkWebResponse 200 [] "file") ("sha", "now")%string.
Definition siteDemo : site ServerManager := mkSite (guardedWorld <| wServers := lifeRunning |>) NewHashedAssetServer (newStateHub "{}") ∅.
Definition serveDemo (h3 : bool) (r : webRequest) (s : site ServerManager) : siteReply * site ServerManager :=
  serveHTTP (H := plain_unicode) (H0 := no_ipv6) (H1 := plainJSON table) (H2 := orchestrator (H := plain_unicode) Admin.demoEnv)
    verifyDemo demoAdmin (fst (loadRuntimeConfig (H := plain_unicode) (fun _ => ""%string) (fun _ => None))) [wtFields] h3 (answersOf 1) r s.
Definition runningIDs (s : site ServerManager) : list Z := map fst (runningServers (wServers (siteWorld s))).

Example boss_stops_stranger_does_not :
  runningIDs siteDemo <> [] /\ runningIDs (snd (serveDemo true (post "/rcon" "stop" fromBoss) siteDemo)) = []
  /\ runningIDs (snd (serveDemo true (post "/rcon" "stop" fromStranger) siteDemo)) = runningIDs siteDemo.
Proof. vm_compute. split; [discriminate|split; reflexivity]. Qed.

(** A stranger opens a tunnel, which changes the sessions and the clients and nothing else. *)
Definition connectGet : webRequest := mkWeb fromStranger "GET" "nexus.example" "/connect" None.
Lemma serveHTTP_guarded_witness :
  let s' := snd (serveDemo false connectGet siteDemo) in
  adminRequest (H := plain_unicode) (H0 := no_ipv6) verifyDemo connectGet siteDemo = false
  /\ size (heap (wTrunk (siteWorld s'))) = S (size (heap (wTrunk (siteWorld siteDemo))))
  /\ wServers (siteWorld s') = wServers (siteWorld siteDemo) /\ wGate (siteWorld s') = wGate (siteWorld siteDemo).
Proof.
  cbv zeta. split; [vm_compute; reflexivity|]. split; [vm_compute; reflexivity|].
  assert (freshPointer (answersOf 1) siteDemo) as Hf by (split; vm_compute; reflexivity).
  pose proof (serveHTTP_guarded (H := plain_unicode) (H0 := no_ipv6) (H1 := plainJSON table)
    (H2 := orchestrator (H := plain_unicode) Admin.demoEnv) verifyDemo demoAdmin
    (fst (loadRuntimeConfig (H := plain_unicode) (fun _ => ""%string) (fun _ => None))) [wtFields]
    false (answersOf 1) connectGet siteDemo Hf) as Hg.
  change (serveHTTP _ _ _ _ _ _ _ _) with (serveDemo false connectGet siteDemo) in Hg.
  destruct (serveDemo false connectGet siteDemo) as [reply s']. destruct Hg as [_ [[(E1 & _ & _ & E4) _]|[[Hadm _]|(_ & _ & E1 & E4 & _)]]].
  - split; [exact E1|exact E4].
  - vm_compute in Hadm. discriminate Hadm.
  - split; [exact E1|exact E4].
Defined.

Definition blockedDemo : site ServerManager :=
  siteDemo <| siteWorld ::= fun w => w <| wGate ::= gateBlock "10.9.9.9" |> |>.
Example blocked_everywhere :
  forallb (fun r => match fst (serveDemo (fst r) (post (snd r) "stop" fromStranger) blockedDemo) with
                    | httpReply resp None => (status resp =? 403) && negb (status resp =? 200)
                    | _ => false
                    end)
    [(false, "/health"); (true, "/health"); (false, "/connect"); (true, "/connect"); (true, "/rcon"); (false, "/pak/00"); (true, "/")]%string = true.
Proof. by vm_compute. Qed.

(** The example application, once started, serves a stranger's page and then opens its stream. *)
Definition exampleCfg : runtimeConfig := fst (loadRuntimeConfig (H := plain_unicode) (beGetenv (exampleEnv "" None)) (fun _ => None)).
Definition exampleApp : nexusApp :=
  match snd (bringUp (H := plain_unicode) (exampleEnv "" None) (mkTLS None false "" None None) None (mkAuth "pw" adminDeny ∅) false
               (newApp (exampleEnv "" None) exampleCfg None (mkAuth "pw" adminDeny ∅) "{}")) with
  | Ok (_, app) => app
  | Err _ => newApp (exampleEnv "" None) exampleCfg None (mkAuth "pw" adminDeny ∅) "{}"
  end.
Definition eventsRequest : webRequest := mkWeb fromStranger "GET" "nexus.example" "/events" None.
Definition watched : system :=
  let y := systemOf exampleApp logsInit in
  snd (serveHTTP (H := plain_unicode) (H0 := no_ipv6) (H1 := plainJSON table)
         (H2 := orchestrator (H := plain_unicode) Admin.demoEnv) verifyDemo demoAdmin exampleCfg [] true (answersOf 1) eventsRequest y).
Lemma system_sound_witness :
  reg_ok (wServers (sysWorld watched)) /\ trunk_ok (wTrunk (sysWorld watched)) /\ size (subs (siteHub watched)) = 1%nat
  /\ runningIDs watched = [0].
Proof.
  assert (snapshotText "{}") as Hc by (apply (bool_decide_unpack _); vm_compute; exact I).
  pose proof (system_sound (H := plain_unicode) (H0 := no_ipv6) (H1 := plainJSON table) verifyDemo demoAdmin exampleCfg []
    (exampleEnv "" None) "{}" _ _ _ logsInit watched Hc example_established) as Hs. hnf in Hs.
  assert (exists rt', snd (bringUp (H := plain_unicode) (exampleEnv "" None) (mkTLS None false "" None None) None (mkAuth "pw" adminDeny ∅) false
    (newApp (exampleEnv "" None) exampleCfg None (mkAuth "pw" adminDeny ∅) "{}")) = Ok (rt', exampleApp)) as [rt' Hb]
    by (vm_compute; eexists; reflexivity).
  destruct (Hs rt' exampleApp Hb) as (_ & Hr & Ht & _).
  - apply rtc_once, (sys_request (H := plain_unicode) (H0 := no_ipv6) (H1 := plainJSON table) verifyDemo demoAdmin exampleCfg []
      (systemOf exampleApp logsInit) Admin.demoEnv true (answersOf 1) eventsRequest).
    split; [vm_compute; reflexivity|]. split; [vm_compute; reflexivity|]. split; [intros sn; discriminate|]. split; [vm_compute; reflexivity|]. split; vm_compute; reflexivity.
  - split; [exact Hr|]. split; [exact Ht|]. split; vm_compute; reflexivity.
Defined.
